(** * CsvCompare: a shallow embedding of the grid comparators

  The development follows the Python sources module by module:

  - [Py]                  the Python built-ins the code relies on
                          (str methods, [float], indexing, exceptions);
  - [Regex]               the fragment of [re] used by the sources;
  - [RbuSpace]            rateBuildUp/rbuSpace.py (space technique);
  - [CodeWithRow]         rateBuildUp/codeWithRow.py (key based rows);
  - [CompareRateBuildUp]  DataValidation_RBU/compareRateBuildUp.py;
  - [RbuCsv]              DataValidation_RBU/rbuSpace.py;
  - [Rbu]                 rateBuildUp/rbu.py;
  - [Rates]               rates.py;
  - [Ascii7]              the built-ins on ASCII text, to run the code on
                          concrete grids.

  The modules [...Terms] hold the notions the properties are stated in,
  the modules [...Facts] the properties themselves.

  A Python [str] is a list of Unicode code points, a [float] is an
  IEEE-754 binary64 value ([spec_float] at precision 53, emax 1024), a
  [dict] is a [gmap], a [set] a [gset].  Code that can raise returns in
  the [res] monad; the one loop of the sources that need not terminate
  takes fuel. *)

From Stdlib Require Import ZArith NArith List Bool Lia.
From Stdlib Require Import Strings.Ascii Strings.String.
From Stdlib Require Import Floats.SpecFloat.
From stdpp Require Import base option list gmap sets sorting.

Set Warnings "-clear-no-such-hyp".

Open Scope N_scope.

(* ===================================================================== *)
(** * Python built-ins *)
(* ===================================================================== *)

Module Py.

(** A string is the list of its code points. *)
Abbreviation str := (list N).

(** [str.isspace] for one character, which is also what [str.strip]
    removes and what [\s] matches in a [str] pattern. *)
Definition isspace (c : N) : bool :=
  ((9 <=? c) && (c <=? 13)) || ((28 <=? c) && (c <=? 32))
  || (c =? 133) || (c =? 160) || (c =? 5760)
  || ((8192 <=? c) && (c <=? 8202))
  || (c =? 8232) || (c =? 8233) || (c =? 8239) || (c =? 8287)
  || (c =? 12288).

Fixpoint lstrip (s : str) : str :=
  match s with
  | [] => []
  | c :: s' => if isspace c then lstrip s' else s
  end.

Definition rstrip (s : str) : str := rev (lstrip (rev s)).

Definition strip (s : str) : str := rstrip (lstrip s).

(** [s.replace(old, new)] for a one-character [old]. *)
Definition replace1 (old : N) (new : str) (s : str) : str :=
  flat_map (fun c => if c =? old then new else [c]) s.

(** [s.endswith(c)] for a one-character suffix, and [s[:-1]]. *)
Definition endswith1 (c : N) (s : str) : bool :=
  match last s with
  | Some d => d =? c
  | None => false
  end.

Definition drop_last (s : str) : str := removelast s.

(** An ASCII literal of the sources as a [str]. *)
Definition lit (s : string) : str :=
  map N_of_ascii (list_ascii_of_string s).

(** [re.sub(r"\s+", " ", s)]: every maximal run of whitespace becomes one
    space; [in_run] tells that the previous character was whitespace. *)
Fixpoint sub_spaces_from (in_run : bool) (s : str) : str :=
  match s with
  | [] => []
  | c :: s' =>
      if isspace c then
        if in_run then sub_spaces_from true s'
        else 32 :: sub_spaces_from true s'
      else c :: sub_spaces_from false s'
  end.

Definition sub_spaces (s : str) : str := sub_spaces_from false s.

(** [a <= b] on sequences (strings, tuples): lexicographic. *)
Fixpoint lex_leb {A} (leb : A -> A -> bool) (a b : list A) : bool :=
  match a, b with
  | [], _ => true
  | _ :: _, [] => false
  | x :: a', y :: b' =>
      if leb x y then (if leb y x then lex_leb leb a' b' else true)
      else false
  end.

Definition str_leb : str -> str -> bool := lex_leb N.leb.

(** Code points of the characters the sources name. *)
Definition SPACE : N := 32.
Definition DOLLAR : N := 36.
Definition PERCENT : N := 37.
Definition PLUS : N := 43.
Definition COMMA : N := 44.
Definition HYPHEN : N := 45.
Definition DOT : N := 46.
Definition SLASH : N := 47.
Definition UNDERSCORE : N := 95.
Definition EN_DASH : N := 8211.
Definition EM_DASH : N := 8212.
Definition EURO : N := 8364.
Definition RUPEE : N := 8377.
Definition BOM : N := 65279.

(** ** Floats *)

Abbreviation float := spec_float.

Definition fsub : float -> float -> float := SFsub 53 1024.
Definition fdiv : float -> float -> float := SFdiv 53 1024.
Definition fabs : float -> float := SFabs.
(** [a > b] and [a <= b] on floats (both false on NaN). *)
Definition fgt (a b : float) : bool := SFltb b a.
Definition fle (a b : float) : bool := SFleb a b.
Definition isnan (f : float) : bool :=
  match f with S754_nan => true | _ => false end.
Definition is_finite (f : float) : bool :=
  match f with S754_zero _ | S754_finite _ _ _ => true | _ => false end.
(** The value of an integer literal as a float. *)
Definition float_of_Z (z : Z) : float := binary_normalize 53 1024 z 0 false.
Definition f100 : float := Eval vm_compute in float_of_Z 100.

(** ** Built-ins that are tables of the Unicode database or parsers of
    the interpreter: they are parameters of the development. *)
Class Builtins := {
  (** [float(s)]; [None] when it raises [ValueError]. *)
  float_of_str : str -> option float;
  (** [c.isalpha()] *)
  isalpha : N -> bool;
  (** [\d] in a [str] pattern: a Unicode decimal digit. *)
  isdecimal : N -> bool;
  (** [c.isalnum()]; with the underscore, this is [\w]. *)
  isalnum : N -> bool;
  (** [s.lower()] *)
  lower : str -> str;
}.

(** ** Exceptions and fuel *)

Inductive exn := IndexError | KeyError | TypeError.

Inductive res (A : Type) : Type :=
| Ok (a : A)
| Raise (e : exn)
| NoFuel.
Arguments Ok {A} a.
Arguments Raise {A} e.
Arguments NoFuel {A}.

#[global] Instance res_ret : MRet res := fun A a => Ok a.
#[global] Instance res_bind : MBind res := fun A B f m =>
  match m with
  | Ok a => f a
  | Raise e => Raise e
  | NoFuel => NoFuel
  end.

#[global] Instance res_fmap : FMap res := fun A B f m =>
  match m with
  | Ok a => Ok (f a)
  | Raise e => Raise e
  | NoFuel => NoFuel
  end.

(** [l[i]] for [i >= 0]. *)
Definition getitem {A} (l : list A) (i : nat) : res A :=
  match l !! i with
  | Some x => Ok x
  | None => Raise IndexError
  end.

(** [l[i]] for any integer [i]: a negative index counts from the end. *)
Definition getitem_Z {A} (l : list A) (i : Z) : res A :=
  if (0 <=? i)%Z then getitem l (Z.to_nat i)
  else if (0 <=? Z.of_nat (length l) + i)%Z
       then getitem l (Z.to_nat (Z.of_nat (length l) + i))
       else Raise IndexError.

(** [d[k]] for a dict [d]. *)
Definition lookup_key `{Countable K} {V} (d : gmap K V) (k : K) : res V :=
  match d !! k with
  | Some v => Ok v
  | None => Raise KeyError
  end.

(** [any(p(x) for x in l)] and [all(...)]: they stop at the first
    decisive element, so a later element that would raise is not
    evaluated. *)
Fixpoint any_res {A} (p : A -> res bool) (l : list A) : res bool :=
  match l with
  | [] => Ok false
  | x :: l' => b ← p x; if b : bool then Ok true else any_res p l'
  end.

Fixpoint all_res {A} (p : A -> res bool) (l : list A) : res bool :=
  match l with
  | [] => Ok true
  | x :: l' => b ← p x; if b : bool then all_res p l' else Ok false
  end.

(** [range(a, b)] *)
Definition range (a b : nat) : list nat := seq a (b - a).

(** [for x in l: acc = f(acc, x)] with a body that can raise. *)
Fixpoint for_res {A S} (f : S -> A -> res S) (l : list A) (s : S) : res S :=
  match l with
  | [] => Ok s
  | x :: l' => s' ← f s x; for_res f l' s'
  end.

(** Further characters the sources name. *)
Definition NEWLINE : N := 10.
Definition AMPERSAND : N := 38.
Definition LESS : N := 60.
Definition GREATER : N := 62.
Definition LETTER_A : N := 65.

(** [a >= b] on floats (false on NaN). *)
Definition fge (a b : float) : bool := SFleb b a.

(** The float literal [0.6]. *)
Definition f0_6 : float := S754_finite false 5404319552844595 (-53).

End Py.

(* ===================================================================== *)
(** * Regular expressions *)
(* ===================================================================== *)

(** The patterns of the sources use character classes, concatenation,
    alternation and repetition only, so [re.fullmatch] is membership in a
    regular language; it is decided here by derivatives. *)
Module Regex.

Inductive re : Type :=
| Void
| Eps
| Chr (p : N -> bool)
| Cat (r1 r2 : re)
| Alt (r1 r2 : re)
| Star (r : re).

Fixpoint nullable (r : re) : bool :=
  match r with
  | Void => false
  | Eps => true
  | Chr _ => false
  | Cat r1 r2 => nullable r1 && nullable r2
  | Alt r1 r2 => nullable r1 || nullable r2
  | Star _ => true
  end.

(** Smart constructors keep the derivatives small. *)
Definition cat (r1 r2 : re) : re :=
  match r1, r2 with
  | Void, _ => Void
  | _, Void => Void
  | Eps, _ => r2
  | _, Eps => r1
  | _, _ => Cat r1 r2
  end.

Definition alt (r1 r2 : re) : re :=
  match r1, r2 with
  | Void, _ => r2
  | _, Void => r1
  | _, _ => Alt r1 r2
  end.

Fixpoint deriv (c : N) (r : re) : re :=
  match r with
  | Void => Void
  | Eps => Void
  | Chr p => if p c then Eps else Void
  | Cat r1 r2 =>
      if nullable r1 then alt (cat (deriv c r1) r2) (deriv c r2)
      else cat (deriv c r1) r2
  | Alt r1 r2 => alt (deriv c r1) (deriv c r2)
  | Star r1 => cat (deriv c r1) (Star r1)
  end.

Definition fullmatch (r : re) (s : list N) : bool :=
  nullable (fold_left (fun r c => deriv c r) s r).

(** The language of a pattern. *)
Inductive matches : re -> list N -> Prop :=
| m_eps : matches Eps []
| m_chr p c : p c = true -> matches (Chr p) [c]
| m_cat r1 r2 s1 s2 :
    matches r1 s1 -> matches r2 s2 -> matches (Cat r1 r2) (s1 ++ s2)
| m_alt_l r1 r2 s : matches r1 s -> matches (Alt r1 r2) s
| m_alt_r r1 r2 s : matches r2 s -> matches (Alt r1 r2) s
| m_star_nil r : matches (Star r) []
| m_star_cons r s1 s2 :
    matches r s1 -> matches (Star r) s2 -> matches (Star r) (s1 ++ s2).

(** [x?], [x+], one character, a character set. *)
Definition opt (r : re) : re := Alt r Eps.
Definition plus (r : re) : re := Cat r (Star r).
Definition chr (c : N) : re := Chr (N.eqb c).
Definition oneof (l : list N) : re := Chr (fun c => existsb (N.eqb c) l).
Fixpoint cats (l : list re) : re :=
  match l with
  | [] => Eps
  | [r] => r
  | r :: l' => Cat r (cats l')
  end.

End Regex.

(* ===================================================================== *)
(** * rateBuildUp/rbuSpace.py *)
(* ===================================================================== *)

(** Row and column numbers and the counts given on the command line are
    natural numbers; a grid is a list of rows of cells, and every cell is
    a [str] (the grid comes from [csv.reader]). *)
Module RbuSpace.
Import Py Regex.

Abbreviation grid := (list (list str)).

(** A rectangle [(top_row, bottom_row, left_col, right_col)]. *)
Abbreviation block := (nat * nat * nat * nat)%type.

Section Predicates.
Context `{B : Builtins}.

Definition is_blank (s : str) : bool :=
  match strip s with [] => true | _ => false end.

Definition digit : re := Chr isdecimal.
Definition sign : re := oneof [HYPHEN; PLUS].
(** [(?:\.\d+)?] *)
Definition fraction : re := opt (Cat (chr DOT) (plus digit)).

(** [[-+]?\d{1,3}(?:,\d{3})*(?:\.\d+)?%?] *)
Definition NUM_GROUPED : re :=
  cats [opt sign; digit; opt digit; opt digit;
        Star (cats [chr COMMA; digit; digit; digit]);
        fraction; opt (chr PERCENT)].

(** [[-+]?\d+(?:\.\d+)?%?] *)
Definition NUM_PLAIN : re :=
  cats [opt sign; plus digit; fraction; opt (chr PERCENT)].

(** [[₹$€]?\s*[-+]?\d+(?:\.\d+)?] *)
Definition NUM_CURRENCY : re :=
  cats [opt (oneof [RUPEE; DOLLAR; EURO]); Star (Chr isspace);
        opt sign; plus digit; fraction].

Definition looks_numeric (s : str) : bool :=
  if is_blank s then false
  else fullmatch (Alt NUM_GROUPED (Alt NUM_PLAIN NUM_CURRENCY)) (strip s).

Definition parse_numeric (s : str) : option float :=
  if is_blank s then None
  else
    let t := strip s in
    if endswith1 PERCENT t then
      match float_of_str (replace1 COMMA [] (drop_last t)) with
      | Some f => Some (fdiv f f100)
      | None => None
      end
    else
      let t := replace1 EURO [] (replace1 DOLLAR [] (replace1 RUPEE [] t)) in
      let t := replace1 COMMA [] t in
      float_of_str t.

Definition looks_alpha (s : str) : bool :=
  if is_blank s then false else existsb isalpha s.

(** [\w] in a [str] pattern. *)
Definition isword (c : N) : bool := isalnum c || (c =? UNDERSCORE).

(** [\b] between two neighbouring characters (absent at either end). *)
Definition boundary (prev next : option N) : bool :=
  xorb (from_option isword false prev) (from_option isword false next).

(** [\d{2}/\d{2}] at the head of [s]: the text matched and the rest. *)
Definition take_mm_yy (s : str) : option (str * str) :=
  match s with
  | a :: b :: c :: d :: e :: s' =>
      if isdecimal a && isdecimal b && (c =? SLASH)
         && isdecimal d && isdecimal e
      then Some ([a; b; c; d; e], s') else None
  | _ => None
  end.

Fixpoint take_spaces (s : str) : str * str :=
  match s with
  | c :: s' =>
      if isspace c then let '(w, r) := take_spaces s' in (c :: w, r)
      else ([], s)
  | [] => ([], [])
  end.

Definition take_dash (s : str) : option (str * str) :=
  match s with
  | c :: s' =>
      if (c =? HYPHEN) || (c =? EN_DASH) then Some ([c], s') else None
  | [] => None
  end.

(** [DATE_WINDOW_RE] is [\b\d{2}/\d{2}\s*[-–]\s*\d{2}/\d{2}\b].  From a given
    start the pattern matches in at most one way, so [re.search] finds
    the first start, from the left, at which it matches.  This is the
    pattern between its two [\b], at the head of [s]. *)
Definition take_date_window (s : str) : option (str * str) :=
  '(m1, s1) ← take_mm_yy s;
  let '(w1, s2) := take_spaces s1 in
  '(d, s3) ← take_dash s2;
  let '(w2, s4) := take_spaces s3 in
  '(m2, s5) ← take_mm_yy s4;
  Some (m1 ++ w1 ++ d ++ w2 ++ m2, s5).

Fixpoint date_window_search (prev : option N) (s : str) : option str :=
  let here :=
    if boundary prev (head s) then
      match take_date_window s with
      | Some (m, rest) =>
          if boundary (last m) (head rest) then Some m else None
      | None => None
      end
    else None in
  match here with
  | Some m => Some m
  | None =>
      match s with
      | [] => None
      | c :: s' => date_window_search (Some c) s'
      end
  end.

Definition parse_date_window_token (cell : str) : option str :=
  if is_blank cell then None
  else
    match date_window_search None cell with
    | None => None
    | Some m => Some (replace1 SPACE [] (replace1 EN_DASH [HYPHEN] m))
    end.

End Predicates.

(** ** Header and sections *)

Section Sections.
Context `{B : Builtins}.

Definition width (g : grid) : nat :=
  match g with [] => 0%nat | r :: _ => length r end.

(** [grid[r][c]] *)
Definition cell (g : grid) (r c : nat) : res str :=
  row ← getitem g r; getitem row c.

Definition consecutive_blank_headers_in_col
    (g : grid) (col header_rows : nat) : res nat :=
  for_res (fun n r => v ← cell g r col;
                      Ok (if is_blank v then S n else n))
          (range 0 (header_rows `min` length g)) 0%nat.

Definition column_has_any_data
    (g : grid) (col data_start_row : nat) : res bool :=
  any_res (fun r => v ← cell g r col; Ok (negb (is_blank v)))
          (range data_start_row (length g)).

(** The inner [while c2 < width] loop of [map_section_labels_by_col];
    [n] is [width - c2].  It returns the map and the column at which the
    loop was left. *)
Fixpoint fill_run (n : nat) (g : grid)
    (header_rows data_start_row min_blank_sep : nat) (label : str)
    (c2 : nat) (sec_map : gmap nat str) : res (gmap nat str * nat) :=
  match n with
  | O => Ok (sec_map, c2)
  | S n' =>
      k ← consecutive_blank_headers_in_col g c2 header_rows;
      let hard_sep := (min_blank_sep <=? k)%nat in
      d ← column_has_any_data g c2 data_start_row;
      let empty_col := negb d in
      if hard_sep || empty_col then Ok (sec_map, c2)
      else
        d' ← column_has_any_data g c2 data_start_row;
        let sec_map := if d' : bool then <[c2 := label]> sec_map
                       else sec_map in
        fill_run n' g header_rows data_start_row min_blank_sep label
                 (S c2) sec_map
  end.

(** The outer [while c < width] loop; every turn moves [c] to the right,
    so [width - c] turns are enough. *)
Fixpoint scan_sections (fuel : nat) (g : grid)
    (section_row header_rows data_start_row min_blank_sep : nat)
    (c : nat) (sec_map : gmap nat str) : res (gmap nat str) :=
  if (c <? width g)%nat then
    match fuel with
    | O => NoFuel
    | S fuel' =>
        v ← (if (section_row <? length g)%nat then cell g section_row c
             else Ok []);
        if is_blank v then
          scan_sections fuel' g section_row header_rows data_start_row
                        min_blank_sep (c + 1) sec_map
        else
          let label := strip v in
          '(sec_map, c2) ← fill_run (width g - c) g header_rows
                             data_start_row min_blank_sep label c sec_map;
          scan_sections fuel' g section_row header_rows data_start_row
                        min_blank_sep ((c2 + 1) `max` c2) sec_map
    end
  else Ok sec_map.

Definition map_section_labels_by_col (g : grid)
    (section_row header_rows data_start_row min_blank_sep : nat)
    : res (gmap nat str) :=
  scan_sections (width g) g section_row header_rows data_start_row
                min_blank_sep 0 ∅.

End Sections.

(** ** Space technique blocks *)

Section Blocks.
Context `{B : Builtins}.

(** [for x in l: if p(x): return x] and [return None] after the loop. *)
Fixpoint first_res (p : nat -> res bool) (l : list nat) : res (option nat) :=
  match l with
  | [] => Ok None
  | x :: l' => b ← p x; if b : bool then Ok (Some x) else first_res p l'
  end.

Definition first_non_empty_row_in_cols
    (g : grid) (cols : list nat) (start_row : nat) : res (option nat) :=
  first_res (fun r => any_res (fun c => v ← cell g r c;
                                        Ok (negb (is_blank v))) cols)
            (range start_row (length g)).

(** [sorted(cols)] and [l.index(c)] (for a [c] that occurs in [l]). *)
Definition sorted (cols : list nat) : list nat := merge_sort Nat.le cols.

Fixpoint index (l : list nat) (c : nat) : nat :=
  match l with
  | [] => 0%nat
  | x :: l' => if (x =? c)%nat then 0%nat else S (index l' c)
  end.

Fixpoint right_boundary_loop (g : grid) (row : nat) (sorted_cols : list nat)
    (start_col : nat) (started : bool) (boundary : nat) (l : list nat)
    : res nat :=
  match l with
  | [] => Ok boundary
  | c :: l' =>
      let started := if (c =? start_col)%nat then true else started in
      if negb started then
        right_boundary_loop g row sorted_cols start_col started boundary l'
      else
        v ← cell g row c;
        if is_blank v then
          let i := index sorted_cols c in
          if (0 <? i)%nat then getitem sorted_cols (i - 1) else Ok c
        else
          right_boundary_loop g row sorted_cols start_col started boundary l'
  end.

Definition right_boundary_in_row_until_empty_col
    (g : grid) (row : nat) (cols : list nat) (start_col : nat) : res nat :=
  let sorted_cols := sorted cols in
  start_col ← (if bool_decide (start_col ∈ sorted_cols) then Ok start_col
               else getitem sorted_cols 0);
  boundary ← getitem_Z sorted_cols (-1);
  right_boundary_loop g row sorted_cols start_col false boundary sorted_cols.

(** [while rr < rows and not all(is_blank(grid[rr][c]) ...): rr += 1];
    [n] is [rows - rr]. *)
Fixpoint scan_down (n : nat) (g : grid) (rr left right : nat) : res nat :=
  match n with
  | O => Ok rr
  | S n' =>
      b ← all_res (fun c => v ← cell g rr c; Ok (is_blank v))
                  (range left (right + 1));
      if b : bool then Ok rr else scan_down n' g (S rr) left right
  end.

(** [min(section_cols)] of a non-empty list. *)
Definition min_col (cols : list nat) : nat :=
  match cols with
  | [] => 0%nat
  | c :: cols' => foldr Nat.min c cols'
  end.

(** The [while True] loop of [find_table_blocks_in_section].  Nothing in
    it bounds the number of turns, so it takes fuel.  Rows [r] are at
    least 1 here ([r] starts at [section_row + 1]), so [rr - 1] is the
    same on [nat] as on Python's integers. *)
Fixpoint blocks_loop (fuel : nat) (g : grid) (section_cols : list nat)
    (r : nat) (blocks : list block) : res (list block) :=
  match fuel with
  | O => NoFuel
  | S fuel' =>
      top ← first_non_empty_row_in_cols g section_cols r;
      match top with
      | None => Ok blocks
      | Some top =>
          let left := min_col section_cols in
          right ← right_boundary_in_row_until_empty_col g top section_cols
                    left;
          rr ← scan_down (length g - top) g top left right;
          let bottom := (rr - 1)%nat in
          blocks_loop fuel' g section_cols (bottom + 1)
                      (blocks ++ [(top, bottom, left, right)])
      end
  end.

Definition find_table_blocks_in_section (fuel : nat)
    (g : grid) (section_cols : list nat) (section_row : nat)
    : res (list block) :=
  match section_cols with
  | [] => Ok []
  | _ => blocks_loop fuel g section_cols (section_row + 1) []
  end.

End Blocks.

(** ** Labels, channel, metric *)

Section Labels.
Context `{B : Builtins}.

(** The inner loop of [forward_fill_label_rows]: the cells of one row,
    each blank replaced by the last non-blank text to its left. *)
Fixpoint fill_cells (last : str) (vals : list str) : list str :=
  match vals with
  | [] => []
  | val :: vals' =>
      let last := if negb (is_blank val) then strip val else last in
      last :: fill_cells last vals'
  end.

(** [[row[c] for c in range(left, right + 1)]], evaluated left to right. *)
Definition row_cells (row : list str) (left right : nat) : res (list str) :=
  for_res (fun acc c => v ← getitem row c; Ok (acc ++ [v]))
          (range left (right + 1)) [].

Definition forward_fill_label_rows
    (g : grid) (top bottom left right : nat) : res (list (list str)) :=
  for_res (fun label_rows r =>
             row ← getitem g r;
             a ← any_res (fun c => v ← getitem row c; Ok (looks_alpha v))
                         (range left (right + 1));
             if a : bool then
               vals ← row_cells row left right;
               Ok (label_rows ++ [fill_cells [] vals])
             else Ok label_rows)
          (range top (bottom + 1)) [].

(** [for x in l: r = f(x); if r is not None: return r]. *)
Fixpoint first_some_res {A} (f : nat -> res (option A)) (l : list nat)
    : res (option A) :=
  match l with
  | [] => Ok None
  | x :: l' =>
      o ← f x;
      match o with
      | Some a => Ok (Some a)
      | None => first_some_res f l'
      end
  end.

(** [range(header_rows - 1, -1, -1)] *)
Definition down_from (header_rows : nat) : list nat :=
  rev (range 0 header_rows).

Definition nearest_metric_above_col (g : grid) (header_rows col : nat)
    (prefer_non_date no_date_window : bool) : res str :=
  o ← first_some_res
        (fun r =>
           v ← (if (r <? length g)%nat && (col <? width g)%nat
                then cell g r col else Ok []);
           if is_blank v then Ok None
           else
             let text := strip v in
             if prefer_non_date && negb no_date_window
                && bool_decide (is_Some (parse_date_window_token text))
             then Ok None
             else Ok (Some text))
        (down_from header_rows);
  Ok (default [] o).

Definition first_data_col_in_row
    (g : grid) (row left right : nat) : res (option nat) :=
  first_res (fun c => v ← cell g row c; Ok (looks_numeric v))
            (range left (right + 1)).

(** The loop [for r in ...: cell = grid[r][col]; if not is_blank(cell):
    return str(cell).strip()], which [date_window_for_col] has twice. *)
Definition bottom_most_text (g : grid) (header_rows col : nat)
    : res (option str) :=
  first_some_res (fun r => v ← cell g r col;
                           Ok (if is_blank v then None else Some (strip v)))
                 (down_from header_rows).

Definition date_window_for_col (g : grid) (header_rows col : nat)
    (no_date_window : bool) : res str :=
  if no_date_window then
    o ← bottom_most_text g header_rows col; Ok (default [] o)
  else
    t ← first_some_res (fun r => v ← cell g r col;
                                 Ok (parse_date_window_token v))
                       (down_from header_rows);
    match t with
    | Some tok => Ok tok
    | None => o ← bottom_most_text g header_rows col; Ok (default [] o)
    end.

End Labels.

(** ** Extraction of the records of one block *)

Record record : Type := {
  source : str;
  section : str;
  group_path : list str;
  channel : str;
  metric : str;
  date_window : str;
  value_text : str;
  value_num : option float;
  row_index : nat;
  col_index : nat
}.

Section Extraction.
Context `{B : Builtins}.

(** The closure [group_path_for_col] of [extract_space_technique]; it
    reads [label_rows] and [left] of the block at hand. *)
Definition group_path_for_col
    (label_rows : list (list str)) (left col : nat) : list str :=
  let idx := (Z.of_nat col - Z.of_nat left)%Z in
  flat_map (fun lr : list str =>
              if (0 <=? idx)%Z && (idx <? Z.of_nat (length lr))%Z then
                match lr !! Z.to_nat idx with
                | Some [] => []
                | Some v => [v]
                | None => []
                end
              else [])
           (take 3 label_rows).

(** The body of [for r in range(top, bottom + 1)]: the records of row
    [r], appended to [records]. *)
Definition extract_row (g : grid) (source_name sec_label : str)
    (header_rows : nat) (no_date_window : bool)
    (label_rows : list (list str)) (left right : nat)
    (records : list record) (r : nat) : res (list record) :=
  data_start_col ← first_data_col_in_row g r left right;
  channel ←
    match data_start_col with
    | Some dsc =>
        if (Z.of_nat left <=? Z.of_nat dsc - 1)%Z then
          ch_cell ← cell g r (dsc - 1);
          Ok (if negb (is_blank ch_cell) then strip ch_cell else [])
        else Ok []
    | None => Ok []
    end;
  for_res (fun records c =>
             val ← cell g r c;
             if looks_numeric val then
               m ← nearest_metric_above_col g header_rows c true
                     no_date_window;
               d ← date_window_for_col g header_rows c no_date_window;
               Ok (records ++
                   [{| source := source_name;
                       section := sec_label;
                       group_path := group_path_for_col label_rows left c;
                       channel := channel;
                       metric := m;
                       date_window := d;
                       value_text := strip val;
                       value_num := parse_numeric val;
                       row_index := r;
                       col_index := c |}])
             else Ok records)
          (range left (right + 1)) records.

(** The body of [for (top, bottom, left, right) in blocks]. *)
Definition extract_block (g : grid) (source_name sec_label : str)
    (header_rows : nat) (no_date_window : bool)
    (records : list record) (b : block) : res (list record) :=
  let '(top, bottom, left_col, right_col) := b in
  label_rows ← forward_fill_label_rows g top bottom left_col right_col;
  for_res (extract_row g source_name sec_label header_rows no_date_window
                       label_rows left_col right_col)
          (range top (bottom + 1)) records.

End Extraction.

(** ** Comparison *)

Abbreviation key := (str * list str * str * str * str)%type.

Definition key_tuple (rec : record) : key :=
  (section rec, group_path rec, channel rec, metric rec, date_window rec).

Record entry : Type := {
  values : gmap str (option float);
  texts : gmap str str;
  meta : key
}.

(** [d.setdefault(k, v)] *)
Definition setdefault {V} (k : str) (v : V) (d : gmap str V) : gmap str V :=
  match d !! k with
  | Some _ => d
  | None => <[k := v]> d
  end.

(** The body of [for rec in all_records]. *)
Definition aggregate (agg : gmap key entry) (rec : record) : gmap key entry :=
  let k := key_tuple rec in
  let agg := match agg !! k with
             | Some _ => agg
             | None => <[k := {| values := ∅; texts := ∅;
                                 meta := key_tuple rec |}]> agg
             end in
  let src := source rec in
  let agg := alter (fun e => {| values := <[src := value_num rec]> (values e);
                                texts := texts e; meta := meta e |}) k agg in
  alter (fun e => {| values := values e;
                     texts := <[src := value_text rec]> (texts e);
                     meta := meta e |}) k agg.

Definition compare_records (all_records : list record)
    (sources_in_order : list str) : gmap key entry :=
  let agg := fold_left aggregate all_records ∅ in
  (fun v => fold_left
              (fun v src => {| values := setdefault src None (values v);
                               texts := setdefault src [] (texts v);
                               meta := meta v |})
              sources_in_order v) <$> agg.

(** ** Header rows *)

Section Header.
Context `{B : Builtins}.

(** [sum(1 for c in row if looks_numeric(c))] *)
Definition num_count (row : list str) : nat :=
  length (filter (fun c => looks_numeric c = true) row).

(** The test [width > 0 and num_count >= max(2, int(0.5 * width))].  A
    row has fewer than [2^53] cells, so [0.5 * width] is exact and its
    integer part is [width / 2]. *)
Definition numeric_row (width : nat) (row : list str) : bool :=
  (0 <? width)%nat && (2 `max` (width / 2) <=? num_count row)%nat.

(** [for i, row in enumerate(rows): if ...: return i], counting from
    [i]. *)
Fixpoint first_numeric_row (width i : nat) (rows : list (list str))
    : option nat :=
  match rows with
  | [] => None
  | row :: rows' =>
      if numeric_row width row then Some i
      else first_numeric_row width (S i) rows'
  end.

Definition detect_header_rows (g : grid) (max_scan : nat) : nat :=
  match g with
  | [] => 0%nat
  | _ =>
      match first_numeric_row (width g) 0 (take max_scan g) with
      | Some i => 0 `max` i
      | None => 3 `min` length g
      end
  end.

Definition first_non_empty_header_row (g : grid) (header_rows : nat)
    : res nat :=
  o ← first_res (fun r => row ← getitem g r;
                          Ok (existsb (fun c => negb (is_blank c)) row))
                (range 0 (header_rows `min` length g));
  Ok (default 0%nat o).

End Header.

(** ** Runs of neighbouring columns *)

(** The body of [for c in cols] that cuts [cols] into runs: [cur] is the
    run at hand. *)
Definition runs_step (st : list (list nat) * list nat) (c : nat)
    : list (list nat) * list nat :=
  let '(runs, cur) := st in
  match last cur with
  | None => (runs, cur ++ [c])
  | Some l =>
      if (c =? l + 1)%nat then (runs, cur ++ [c])
      else (runs ++ [cur], [c])
  end.

Definition contiguous_runs (cols : list nat) : list (list nat) :=
  let '(runs, cur) := fold_left runs_step cols ([], []) in
  match cur with
  | [] => runs
  | _ => runs ++ [cur]
  end.

(** [[c for c, lbl in sec_map.items() if lbl == label]], sorted; the
    sort makes the order of the items immaterial. *)
Definition cols_of_label (sec_map : gmap nat str) (label : str) : list nat :=
  sorted (omap (fun cl : nat * str =>
                  if decide (cl.2 = label) then Some cl.1 else None)
               (map_to_list sec_map)).

Definition contiguous_runs_for_label (sec_map : gmap nat str) (label : str)
    : list (list nat) :=
  contiguous_runs (cols_of_label sec_map label).

Definition str_le (a b : str) : Prop := str_leb a b = true.

#[global] Instance str_le_dec : RelDecision str_le :=
  fun a b => decide (str_leb a b = true).

(** [sorted(set(sec_map.values()), key=lambda s: s)] *)
Definition section_labels (sec_map : gmap nat str) : list str :=
  merge_sort str_le
    (elements (list_to_set (map snd (map_to_list sec_map)) : gset str)).

Definition STANDALONE : str := lit "Standalone".

Section File.
Context `{B : Builtins}.

(** The two loops over runs of [extract_space_technique] have the same
    body: the blocks of every run, and the records of every block, under
    the section name [sec_label]. *)
Definition extract_runs (fuel : nat) (g : grid) (source_name sec_label : str)
    (header_rows section_row : nat) (no_date_window : bool)
    (runs : list (list nat)) (records : list record) : res (list record) :=
  for_res (fun records run_cols =>
             blocks ← find_table_blocks_in_section fuel g run_cols
                        section_row;
             for_res (extract_block g source_name sec_label header_rows
                                    no_date_window)
                     blocks records)
          runs records.

(** [[c for c in range(width) if c not in sec_map and
    column_has_any_data(grid, c, data_start_row)]] *)
Definition unlabeled_cols (g : grid) (sec_map : gmap nat str)
    (data_start_row : nat) : res (list nat) :=
  for_res (fun acc c =>
             if decide (is_Some (sec_map !! c)) then Ok acc
             else
               d ← column_has_any_data g c data_start_row;
               Ok (if d : bool then acc ++ [c] else acc))
          (range 0 (width g)) [].

Definition extract_space_technique (fuel : nat) (g : grid) (source_name : str)
    (header_rows section_row min_blank_sep : nat) (no_date_window : bool)
    : res (list record) :=
  let data_start_row := header_rows in
  sec_map ← map_section_labels_by_col g section_row header_rows
              data_start_row min_blank_sep;
  records ←
    for_res (fun records sec_label =>
               extract_runs fuel g source_name sec_label header_rows
                 section_row no_date_window
                 (contiguous_runs_for_label sec_map sec_label) records)
            (section_labels sec_map) [];
  unlabeled ← unlabeled_cols g sec_map data_start_row;
  extract_runs fuel g source_name STANDALONE header_rows section_row
    no_date_window (contiguous_runs (sorted unlabeled)) records.

End File.

(** ** Report *)

Definition html_escape (s : str) : str :=
  replace1 GREATER (lit "&gt;")
    (replace1 LESS (lit "&lt;") (replace1 AMPERSAND (lit "&amp;") s)).

End RbuSpace.

(* ===================================================================== *)
(** * rateBuildUp/codeWithRow.py *)
(* ===================================================================== *)

Module CodeWithRow.
Import Py.

(** A business key is a tuple of cell texts; tuples and strings are
    ordered lexicographically, as Python orders them. *)
Abbreviation key := (list str).

Definition key_leb : key -> key -> bool := lex_leb str_leb.

Definition key_le (a b : key) : Prop := key_leb a b = true.

#[global] Instance key_le_dec : RelDecision key_le :=
  fun a b => decide (key_leb a b = true).

(** [sorted(s)] for a set of keys. *)
Definition sorted (s : gset key) : list key :=
  merge_sort key_le (elements s).

Definition KEY_COLUMNS : list str :=
  [lit "Formulary"; lit "NDC11"].

Section Core.
Context `{B : Builtins}.

Definition normalize (text : str) : str := lower (strip text).

(** [{normalize(h): i for i, h in enumerate(headers)}]: a later header
    with the same normal form replaces an earlier one. *)
Definition header_index_map (headers : list str) : gmap str nat :=
  fold_left (fun m ih => <[normalize ih.2 := ih.1]> m)
            (imap (fun i h => (i, h)) headers) ∅.

(** [r[i] if i < len(r)], else the empty string. *)
Definition cell_or_empty (r : list str) (i : nat) : str :=
  default [] (r !! i).

(** [[hmap[normalize(k)] for k in key_cols]] *)
Definition key_indexes (headers key_cols : list str) : res (list nat) :=
  let hmap := header_index_map headers in
  for_res (fun acc k => i ← lookup_key hmap (normalize k); Ok (acc ++ [i]))
          key_cols [].

(** The tuple of the stripped cells [r[i]], [i] in [key_indexes], with
    the empty string for an index outside the row. *)
Definition row_key (key_indexes : list nat) (r : list str) : key :=
  map (fun i => strip (cell_or_empty r i)) key_indexes.

(** The body of [for r in rows]. *)
Definition add_row (key_indexes : list nat)
    (st : gmap key (list str) * list key) (r : list str)
    : gmap key (list str) * list key :=
  let '(row_map, duplicates) := st in
  let k := row_key key_indexes r in
  match row_map !! k with
  | Some _ => (row_map, duplicates ++ [k])
  | None => (<[k := r]> row_map, duplicates)
  end.

Definition build_row_map (rows : list (list str)) (headers key_cols : list str)
    : res (gmap key (list str) * list key) :=
  idx ← key_indexes headers key_cols;
  Ok (fold_left (add_row idx) rows (∅, [])).

(** [missing_in_report], [extra_in_report] and [common_keys] of
    [compare_key_based], from the two row maps. *)
Definition missing_in_report {V} (map1 map2 : gmap key V) : list key :=
  sorted (dom map1 ∖ dom map2).
Definition extra_in_report {V} (map1 map2 : gmap key V) : list key :=
  sorted (dom map2 ∖ dom map1).
Definition common_keys {V} (map1 map2 : gmap key V) : list key :=
  sorted (dom map1 ∩ dom map2).

Record result : Type := {
  matches : nat;
  mismatches : nat;
  res_missing_in_report : list key;
  res_extra_in_report : list key;
  duplicates_file1 : list key;
  duplicates_file2 : list key;
  mismatch_details : list (key * str * str * str);
  res_common_keys : nat
}.

(** The body of [for h in common_headers], for the rows [r1], [r2] of
    one common key. *)
Definition compare_header (hmap1 hmap2 : gmap str nat) (k : key)
    (r1 r2 : list str) (st : nat * nat * list (key * str * str * str))
    (h : str) : res (nat * nat * list (key * str * str * str)) :=
  let '(match_count, mismatch_count, details) := st in
  i1 ← lookup_key hmap1 (normalize h);
  i2 ← lookup_key hmap2 (normalize h);
  let v1 := cell_or_empty r1 i1 in
  let v2 := cell_or_empty r2 i2 in
  if bool_decide (v1 = v2) then Ok (S match_count, mismatch_count, details)
  else Ok (match_count, S mismatch_count, details ++ [(k, h, v1, v2)]).

Definition compare_key_based (headers1 : list str) (data1 : list (list str))
    (headers2 : list str) (data2 : list (list str)) : res result :=
  let hmap1 := header_index_map headers1 in
  let hmap2 := header_index_map headers2 in
  let common_headers :=
    filter (fun h => is_Some (hmap2 !! normalize h)) headers1 in
  '(map1, dup1) ← build_row_map data1 headers1 KEY_COLUMNS;
  '(map2, dup2) ← build_row_map data2 headers2 KEY_COLUMNS;
  let common := common_keys map1 map2 in
  '(m, mm, details) ←
    for_res (fun st k =>
               r1 ← lookup_key map1 k;
               r2 ← lookup_key map2 k;
               for_res (compare_header hmap1 hmap2 k r1 r2)
                       common_headers st)
            common (0%nat, 0%nat, []);
  Ok {| matches := m;
        mismatches := mm;
        res_missing_in_report := missing_in_report map1 map2;
        res_extra_in_report := extra_in_report map1 map2;
        duplicates_file1 := dup1;
        duplicates_file2 := dup2;
        mismatch_details := details;
        res_common_keys := length common |}.

End Core.
End CodeWithRow.

(* ===================================================================== *)
(** * DataValidation_RBU/compareRateBuildUp.py *)
(* ===================================================================== *)

Module CompareRateBuildUp.
Import Py.

(** The namedtuple [Record]. *)
Record record : Type := {
  section : str;
  group : str;
  subgroup : str;
  period : str;
  channel : str;
  col_letter : str;
  value : str
}.

Abbreviation key := (str * str * str * str * str)%type.

Definition key_list (k : key) : list str :=
  let '(a, b, c, d, e) := k in [a; b; c; d; e].

Definition key_le (a b : key) : Prop :=
  lex_leb str_leb (key_list a) (key_list b) = true.

#[global] Instance key_le_dec : RelDecision key_le :=
  fun a b => decide (lex_leb str_leb (key_list a) (key_list b) = true).

(** [sorted(s)] for a set of keys. *)
Definition sorted (s : gset key) : list key :=
  merge_sort key_le (elements s).

Inductive kind := numeric | text.

(** The [diff] field of a mismatch: [Fmt6g d] stands for the text
    [f"{d:.6g}"], [DiffNaN] for ["NaN"] and [DiffEmpty] for the empty
    text. *)
Inductive diff_text :=
| Fmt6g (d : float)
| DiffNaN
| DiffEmpty.

(** The namedtuple [Mismatch]. *)
Record mismatch : Type := {
  m_section : str;
  m_group : str;
  m_subgroup : str;
  m_period : str;
  m_channel : str;
  col1 : str;
  col2 : str;
  v1 : str;
  v2 : str;
  diff : diff_text;
  m_kind : kind
}.

Section Core.
Context `{B : Builtins}.

Definition normalize_text (s : str) : str :=
  let s := strip s in
  let s := replace1 EM_DASH [HYPHEN] (replace1 EN_DASH [HYPHEN] s) in
  sub_spaces s.

(** [s] is empty or [s.lower() in {"na", "n/a", "null"}]. *)
Definition is_missing (s : str) : bool :=
  bool_decide (s = [])
  || bool_decide (lower s ∈ [lit "na"; lit "n/a"; lit "null"]).

(** The text handed to [float] by [is_floaty] and [to_float]. *)
Definition float_text (s : str) : str :=
  let s := replace1 DOLLAR [] (replace1 COMMA [] s) in
  if endswith1 PERCENT s then drop_last s else s.

Definition is_floaty (val : str) : bool :=
  let s := strip val in
  if is_missing s then false
  else bool_decide (is_Some (float_of_str (float_text s))).

Definition to_float (val : str) : float :=
  let s := strip val in
  if is_missing s then S754_nan
  else default S754_nan (float_of_str (float_text s)).

Definition key_of (r : record) : key :=
  (normalize_text (section r), normalize_text (group r),
   normalize_text (subgroup r), normalize_text (period r),
   normalize_text (channel r)).

(** The local function [index] of [compare_records]. *)
Definition index (recs : list record) : gmap key (str * str) :=
  fold_left (fun m r => <[key_of r := (value r, col_letter r)]> m) recs ∅.

Definition mk_mismatch (k : key) (c1 c2 v1 v2 : str)
    (d : diff_text) (kd : kind) : mismatch :=
  let '(k0, k1, k2, k3, k4) := k in
  {| m_section := k0; m_group := k1; m_subgroup := k2; m_period := k3;
     m_channel := k4; col1 := c1; col2 := c2; v1 := v1; v2 := v2;
     diff := d; m_kind := kd |}.

(** The body of [for k in shared_keys]. *)
Definition compare_key (idx1 idx2 : gmap key (str * str)) (tolerance : float)
    (st : list mismatch * nat) (k : key) : res (list mismatch * nat) :=
  let '(mismatches, matches) := st in
  '(v1, c1) ← lookup_key idx1 k;
  '(v2, c2) ← lookup_key idx2 k;
  if is_floaty v1 || is_floaty v2 then
    let f1 := to_float v1 in
    let f2 := to_float v2 in
    if negb (isnan f1) && negb (isnan f2) then
      let diff := fabs (fsub f1 f2) in
      if fgt diff tolerance then
        Ok (mismatches ++ [mk_mismatch k c1 c2 v1 v2 (Fmt6g diff) numeric],
            matches)
      else Ok (mismatches, S matches)
    else
      Ok (mismatches ++ [mk_mismatch k c1 c2 v1 v2 DiffNaN numeric], matches)
  else
    if bool_decide (lower (normalize_text v1) ≠ lower (normalize_text v2))
    then Ok (mismatches ++ [mk_mismatch k c1 c2 v1 v2 DiffEmpty text],
             matches)
    else Ok (mismatches, S matches).

Definition compare_records (recs1 recs2 : list record) (tolerance : float)
    : res (list mismatch * nat) :=
  let idx1 := index recs1 in
  let idx2 := index recs2 in
  let shared_keys := sorted (dom idx1 ∩ dom idx2) in
  for_res (compare_key idx1 idx2 tolerance) shared_keys ([], 0%nat).

End Core.

(** ** Bands, header rows and records *)

Section Bands.
Context `{B : Builtins}.

(** [DATE_RE] is [\b\d{2}/\d{2}\s*-\s*\d{2}/\d{2}\b]; as for the date
    windows of rbuSpace.py, the pattern matches in at most one way from a
    given start.  This is the pattern between its two [\b], at the head
    of [s]: the text matched and the rest. *)
Definition take_date (s : str) : option (str * str) :=
  '(m1, s1) ← RbuSpace.take_mm_yy s;
  let '(w1, s2) := RbuSpace.take_spaces s1 in
  match s2 with
  | c :: s3 =>
      if c =? HYPHEN then
        let '(w2, s4) := RbuSpace.take_spaces s3 in
        '(m2, s5) ← RbuSpace.take_mm_yy s4;
        Some (m1 ++ w1 ++ [c] ++ w2 ++ m2, s5)
      else None
  | [] => None
  end.

(** [bool(DATE_RE.search(s))], [prev] being the character before [s]. *)
Fixpoint date_search (prev : option N) (s : str) : bool :=
  let here :=
    RbuSpace.boundary prev (head s)
    && match take_date s with
       | Some (m, rest) => RbuSpace.boundary (last m) (head rest)
       | None => false
       end in
  here || match s with
          | [] => false
          | c :: s' => date_search (Some c) s'
          end.

Definition DATE_RE_search (s : str) : bool := date_search None s.

(** [bool(YEAR_RE.match(t))] for [YEAR_RE = ^\d{4}$]: four digits, and
    possibly a newline after them, which [$] lets pass. *)
Definition YEAR_RE_match (t : str) : bool :=
  match t with
  | [a; b; c; d] =>
      isdecimal a && isdecimal b && isdecimal c && isdecimal d
  | [a; b; c; d; e] =>
      isdecimal a && isdecimal b && isdecimal c && isdecimal d
      && (e =? NEWLINE)
  | _ => false
  end.

(** [DATE_RE.search(t) or YEAR_RE.match(t)] *)
Definition is_period (t : str) : bool := DATE_RE_search t || YEAR_RE_match t.

(** The body of the loop of [is_mostly_numeric]: the counts [nums] and
    [total] after the token [t]. *)
Definition count_token (st : nat * nat) (t : str) : nat * nat :=
  let '(nums, total) := st in
  let s := strip t in
  match s with
  | [] => (nums, total)
  | _ =>
      let total := S total in
      match float_of_str (float_text s) with
      | Some _ => (S nums, total)
      | None => if is_period s then (S nums, total) else (nums, total)
      end
  end.

(** [nums / total] is the quotient of two integers as a float; the counts
    are far below [2^53], so it is the division of the two floats. *)
Definition is_mostly_numeric (tokens : list str) (threshold : float) : bool :=
  let '(nums, total) := fold_left count_token tokens (0%nat, 0%nat) in
  (0 <? total)%nat
  && fge (fdiv (float_of_Z (Z.of_nat nums)) (float_of_Z (Z.of_nat total)))
         threshold.

(** [[normalize_text(c) for c in row if normalize_text(c)]] *)
Definition tokens_of (row : list str) : list str :=
  filter (fun t => t <> []) (map normalize_text row).

(** [[i for i, c in enumerate(row) if normalize_text(c)]] *)
Definition positions_of (row : list str) : list nat :=
  omap (fun ic : nat * str =>
          match normalize_text ic.2 with [] => None | _ => Some ic.1 end)
       (imap (fun i c => (i, c)) row).

(** [[pos[i+1] - pos[i] for i in range(len(pos)-1)]] *)
Fixpoint gaps_of (pos : list nat) : list nat :=
  match pos with
  | p :: (q :: _) as rest => (q - p)%nat :: gaps_of rest
  | _ => []
  end.

(** Twice [statistics.median(data)] for a non-empty list of integers: the
    middle element of the sorted data, or the mean of the two middle
    ones, which is half an integer. *)
Definition twice_median (data : list nat) : nat :=
  let d := merge_sort Nat.le data in
  let n := length d in
  if Nat.odd n then (2 * nth (n / 2) d 0)%nat
  else (nth (n / 2 - 1) d 0 + nth (n / 2) d 0)%nat.

Definition looks_like_text_band (row : list str) : bool :=
  let tokens := tokens_of row in
  if (length tokens <? 2)%nat then false
  else if existsb is_period tokens then false
  else if is_mostly_numeric tokens f0_6 then false
  else
    let pos := positions_of row in
    if (length pos <? 2)%nat then false
    else
      let gaps := gaps_of pos in
      let twice_median_gap :=
        match gaps with [] => 0%nat | _ => twice_median gaps end in
      (6 <=? twice_median_gap)%nat.

(** The loop of [forward_fill] over the columns [cols]: [cur] is the
    last token seen, and a column outside [line] reads as the empty
    text. *)
Fixpoint forward_fill_from (line : list str) (cur : str) (cols : list nat)
    : list str :=
  match cols with
  | [] => []
  | i :: cols' =>
      let tok := normalize_text (default [] (line !! i)) in
      let cur := match tok with [] => cur | _ => tok end in
      cur :: forward_fill_from line cur cols'
  end.

Definition forward_fill (line : list str) (width : nat) : list str :=
  forward_fill_from line [] (range 0 width).

(** [for r in rows_to_try: if looks_like_text_band(rows[r]): return r] *)
Fixpoint first_band (rows : list (list str)) (rows_to_try : list nat)
    : res (option nat) :=
  match rows_to_try with
  | [] => Ok None
  | r :: rest =>
      row ← getitem rows r;
      if looks_like_text_band row then Ok (Some r) else first_band rows rest
  end.

Definition find_global_stage_row (rows : list (list str))
    (scan_top_rows : nat) : res (option nat) :=
  first_band rows (range 0 (scan_top_rows `min` length rows)).

(** [max(len(r) for r in rows) if rows else 0] *)
Definition max_width (rows : list (list str)) : nat :=
  foldr Nat.max 0%nat (map length rows).

Definition build_map_from_row (rows : list (list str)) (row_idx : option nat)
    : gmap nat str :=
  match row_idx with
  | None => ∅
  | Some row_idx =>
      let line := default [] (rows !! row_idx) in
      let width := match rows with [] => length line | _ => max_width rows end in
      let ff := forward_fill line width in
      fold_left (fun m it => match it.2 with
                             | [] => m
                             | _ => <[it.1 := it.2]> m
                             end)
                (imap (fun i tok => (i, tok)) ff) ∅
  end.

Definition row_has_many_dates (row : list str) (threshold : nat) : bool :=
  (threshold <=? length (filter (fun c => DATE_RE_search c = true) row))%nat.

(** [[i for i, r in enumerate(rows) if row_has_many_dates(r)]] *)
Definition find_detail_rows (rows : list (list str)) : list nat :=
  omap (fun ir : nat * list str =>
          if row_has_many_dates ir.2 4 then Some ir.1 else None)
       (imap (fun i r => (i, r)) rows).

(** [range(start - 1, max(start - scan_up, -1), -1)]: the rows from
    [start - 1] up to [start - scan_up + 1], not above row 0. *)
Definition rows_above (start scan_up : nat) : list nat :=
  rev (range (start + 1 - scan_up) start).

Definition find_sub_and_group_rows (rows : list (list str))
    (detail_row scan_up : nat) : res (option nat * option nat) :=
  sub_idx ← first_band rows (rows_above detail_row scan_up);
  match sub_idx with
  | None => Ok (None, None)
  | Some s =>
      grp_idx ← first_band rows (rows_above s scan_up);
      Ok (Some s, grp_idx)
  end.

(** [sorted(s)] for a set of row numbers. *)
Definition sorted_rows (s : gset nat) : list nat :=
  merge_sort Nat.le (elements s).

Definition collect_header_rows (rows : list (list str)) (detail_row : nat)
    (subgroup_row group_row : option nat) : res (list nat) :=
  let rows_set : gset nat :=
    {[detail_row]} ∪ from_option singleton ∅ subgroup_row
                   ∪ from_option singleton ∅ group_row in
  rows_set ←
    match subgroup_row, group_row with
    | Some s, Some gr =>
        for_res (fun (rows_set : gset nat) r =>
                   row ← getitem rows r;
                   let tokens := tokens_of row in
                   if match tokens with [] => false | _ => true end
                      && negb (is_mostly_numeric tokens f0_6)
                      && negb (existsb is_period tokens)
                   then Ok (rows_set ∪ {[r]})
                   else Ok rows_set)
                (range (s + 1) gr) rows_set
    | _, _ => Ok rows_set
    end;
  Ok (sorted_rows rows_set).

End Bands.

(** The [while n > 0] loop of [_index_to_letters]; [n] gets smaller in
    every turn, so [n] turns are enough. *)
Fixpoint letters_loop (fuel n : nat) (out : str) : str :=
  match fuel with
  | O => out
  | S fuel' =>
      if (0 <? n)%nat then
        let q := ((n - 1) / 26)%nat in
        let rem := ((n - 1) mod 26)%nat in
        letters_loop fuel' q (out ++ [LETTER_A + N.of_nat rem])
      else out
  end.

Definition index_to_letters (idx : nat) : str :=
  let n := (idx + 1)%nat in
  rev (letters_loop n n []).

Section Records.
Context `{B : Builtins}.

(** [for hr in reversed(ff_headers): tk = normalize_text(hr[c]); if ...:
    period = tk; break] *)
Fixpoint period_above (hrs : list (list str)) (c : nat) (period : str)
    : res str :=
  match hrs with
  | [] => Ok period
  | hr :: hrs' =>
      v ← getitem hr c;
      let tk := normalize_text v in
      if is_period tk then Ok tk else period_above hrs' c period
  end.

(** [for cell in rows[r]: t = normalize_text(cell); if t: ch = t; break] *)
Definition channel_of (row : list str) : str :=
  default [] (head (tokens_of row)).

(** [min([r for r in detail_rows if r > drow], default=len(rows))] *)
Definition next_detail (detail_rows : list nat) (drow len : nat) : nat :=
  match filter (fun r => (drow < r)%nat) detail_rows with
  | [] => len
  | r :: l => foldr Nat.min r l
  end.

(** The body of [for c in range(width)], for one detail row. *)
Definition records_of_col (rows : list (list str))
    (stage_map group_map subgroup_map : gmap nat str)
    (ff_headers : list (list str)) (detail_ff : list str)
    (start stop : nat) (recs : list record) (c : nat) : res (list record) :=
  let section := normalize_text (default [] (stage_map !! c)) in
  let group := normalize_text (default [] (group_map !! c)) in
  let subgroup := normalize_text (default [] (subgroup_map !! c)) in
  d ← getitem detail_ff c;
  let period_cell := normalize_text d in
  period ← (if is_period period_cell then Ok period_cell
            else period_above (rev ff_headers) c period_cell);
  if negb (existsb (fun x => match normalize_text x with
                             | [] => false | _ => true end)
                   [section; group; subgroup; period])
  then Ok recs
  else
    for_res (fun recs r =>
               row ← getitem rows r;
               match channel_of row with
               | [] => Ok recs
               | ch =>
                   let val := default [] (row !! c) in
                   Ok (recs ++ [{| section := section; group := group;
                                   subgroup := subgroup; period := period;
                                   channel := ch;
                                   col_letter := index_to_letters c;
                                   value := val |}])
               end)
            (range start stop) recs.

(** The body of [for drow in detail_rows]. *)
Definition records_of_detail (rows : list (list str)) (width : nat)
    (stage_map : gmap nat str) (detail_rows : list nat)
    (recs : list record) (drow : nat) : res (list record) :=
  '(sub_row, grp_row) ← find_sub_and_group_rows rows drow 120;
  let subgroup_map := build_map_from_row rows sub_row in
  let group_map := build_map_from_row rows grp_row in
  header_rows ← collect_header_rows rows drow sub_row grp_row;
  ff_headers ← for_res (fun acc r => row ← getitem rows r;
                                     Ok (acc ++ [forward_fill row width]))
                       header_rows [];
  drow_line ← getitem rows drow;
  let detail_ff := forward_fill drow_line width in
  let next := next_detail detail_rows drow (length rows) in
  let start := (drow + 1)%nat in
  let stop := (start `max` (next - 2))%nat in
  for_res (records_of_col rows stage_map group_map subgroup_map ff_headers
                          detail_ff start ((stop + 1) `min` length rows))
          (range 0 width) recs.

Definition build_records (rows : list (list str)) : res (list record) :=
  let width := max_width rows in
  stage_row ← find_global_stage_row rows 100;
  let stage_map := build_map_from_row rows stage_row in
  let detail_rows := find_detail_rows rows in
  for_res (records_of_detail rows width stage_map detail_rows)
          detail_rows [].

End Records.

End CompareRateBuildUp.

(* ===================================================================== *)
(** * DataValidation_RBU/rbuSpace.py *)
(* ===================================================================== *)

Module RbuCsv.
Import Py.

Abbreviation grid := (list (list str)).

Record record : Type := {
  source : str;
  section : str;
  group : str;
  sub_group : str;
  period : str;
  channel : str;
  value : option float;
  raw : str
}.

Section Core.
Context `{B : Builtins}.

Definition is_blank (x : str) : bool :=
  match strip x with [] => true | _ => false end.

Definition is_number (x : str) : bool :=
  bool_decide (is_Some (float_of_str (replace1 COMMA [] x))).

Definition to_float (x : str) : option float :=
  float_of_str (replace1 COMMA [] x).

Definition cell (g : grid) (r c : nat) : res str :=
  row ← getitem g r; getitem row c.

Definition detect_sections (g : grid) (section_row : nat)
    : res (gmap nat str) :=
  row0 ← getitem g 0;
  st ← for_res (fun (st : gmap nat str * str) c =>
                  v ← cell g section_row c;
                  let last := if negb (is_blank v) then strip v else st.2 in
                  Ok (<[c := last]> st.1, last))
               (range 0 (length row0)) (∅, []);
  Ok st.1.

(** [all(is_blank(x) for x in grid[r])] *)
Definition row_blank (row : list str) : bool := forallb is_blank row.

(** The inner [while] of [find_tables]; [n] is [len(grid) - r]. *)
Fixpoint skip_rows (n : nat) (g : grid) (r : nat) : res nat :=
  match n with
  | O => Ok r
  | S n' =>
      row ← getitem g r;
      if row_blank row then Ok r else skip_rows n' g (S r)
  end.

(** The outer [while r < len(grid)]; every turn moves [r] down. *)
Fixpoint find_tables_loop (fuel : nat) (g : grid) (r : nat)
    (tables : list (nat * nat)) : res (list (nat * nat)) :=
  if (r <? length g)%nat then
    match fuel with
    | O => NoFuel
    | S fuel' =>
        row ← getitem g r;
        if row_blank row then find_tables_loop fuel' g (r + 1) tables
        else
          let top := r in
          r ← skip_rows (length g - r) g r;
          find_tables_loop fuel' g (r + 1) (tables ++ [(top, (r - 1)%nat)])
    end
  else Ok tables.

Definition find_tables (g : grid) (start_row : nat) : res (list (nat * nat)) :=
  find_tables_loop (length g) g start_row [].

Fixpoint forward_fill_from (last : str) (row : list str) : list str :=
  match row with
  | [] => []
  | x :: row' =>
      let last := if negb (is_blank x) then strip x else last in
      last :: forward_fill_from last row'
  end.

Definition forward_fill (row : list str) : list str :=
  forward_fill_from [] row.

(** The header scan of [extract_records]: the rows before the first row
    that holds a number, and that row ([None] when the loop ends without
    [break]). *)
Fixpoint scan_headers (g : grid) (rows : list nat) (headers : list nat)
    : res (list nat * option nat) :=
  match rows with
  | [] => Ok (headers, None)
  | r :: rows' =>
      row ← getitem g r;
      if existsb is_number row then Ok (headers, Some r)
      else scan_headers g rows' (headers ++ [r])
  end.

(** [[c for c, v in enumerate(row) if is_number(v)]] *)
Definition num_cols (row : list str) : list nat :=
  omap (fun cv : nat * str => if is_number cv.2 then Some cv.1 else None)
       (imap (fun c v => (c, v)) row).

(** The body of [for r in range(data_start, bottom + 1)]. *)
Definition extract_row (g : grid) (src : str) (section_map : gmap nat str)
    (grp sub per : list str) (records : list record) (r : nat)
    : res (list record) :=
  row ← getitem g r;
  match num_cols row with
  | [] => Ok records
  | (n0 :: _) as nums =>
      ch ← getitem_Z row (Z.of_nat n0 - 1);
      let chan := strip ch in
      for_res (fun records c =>
                 s ← lookup_key section_map c;
                 gv ← getitem grp c;
                 sv ← getitem sub c;
                 pv ← getitem per c;
                 v ← getitem row c;
                 Ok (records ++
                     [{| source := src; section := s; group := gv;
                         sub_group := sv; period := pv; channel := chan;
                         value := to_float v; raw := v |}]))
              nums records
  end.

(** The body of [for top, bottom in find_tables(grid)]. *)
Definition extract_table (g : grid) (src : str) (section_map : gmap nat str)
    (records : list record) (tb : nat * nat) : res (list record) :=
  '(headers, data_start) ← scan_headers g (range tb.1 (tb.2 + 1)) [];
  if (length headers <? 3)%nat then Ok records
  else
    h0 ← getitem headers 0; r0 ← getitem g h0;
    h1 ← getitem headers 1; r1 ← getitem g h1;
    h2 ← getitem headers 2; r2 ← getitem g h2;
    match data_start with
    | None => Raise TypeError
    | Some ds =>
        for_res (extract_row g src section_map (forward_fill r0)
                             (forward_fill r1) (forward_fill r2))
                (range ds (tb.2 + 1)) records
    end.

Definition extract_records (g : grid) (src : str) : res (list record) :=
  section_map ← detect_sections g 0;
  tables ← find_tables g 1;
  for_res (extract_table g src section_map) tables [].

End Core.
End RbuCsv.

(* ===================================================================== *)
(** * rateBuildUp/rbu.py *)
(* ===================================================================== *)

(** The grid comes from [df.fillna(...).values.tolist()]; the code reads a
    cell [x] through [str(x)] only, so a cell is modelled by that text. *)
Module Rbu.
Import Py.

Abbreviation grid := (list (list str)).

Record record : Type := {
  source : str;
  section : str;
  group : str;
  sub_group : str;
  period : str;
  channel : str;
  value : option float
}.

Section Core.
Context `{B : Builtins}.

Definition is_blank (x : str) : bool :=
  match strip x with [] => true | _ => false end.

Definition is_number (x : str) : bool :=
  bool_decide (is_Some (float_of_str (replace1 COMMA [] x))).

Definition to_float (x : str) : option float :=
  float_of_str (replace1 COMMA [] x).

Definition cell (g : grid) (r c : nat) : res str :=
  row ← getitem g r; getitem row c.

Definition detect_sections (g : grid) (section_row : nat)
    : res (gmap nat str) :=
  row0 ← getitem g 0;
  st ← for_res (fun (st : gmap nat str * str) c =>
                  v ← cell g section_row c;
                  let last := if negb (is_blank v) then strip v else st.2 in
                  Ok (<[c := last]> st.1, last))
               (range 0 (length row0)) (∅, []);
  Ok st.1.

(** [all(is_blank(grid[r][c]) for c in cols)] *)
Definition row_blank (g : grid) (r : nat) (cols : list nat) : res bool :=
  all_res (fun c => v ← cell g r c; Ok (is_blank v)) cols.

(** The inner [while] of [find_tables]; [n] is [len(grid) - r]. *)
Fixpoint skip_rows (n : nat) (g : grid) (cols : list nat) (r : nat)
    : res nat :=
  match n with
  | O => Ok r
  | S n' =>
      b ← row_blank g r cols;
      if b : bool then Ok r else skip_rows n' g cols (S r)
  end.

Fixpoint find_tables_loop (fuel : nat) (g : grid) (cols : list nat) (r : nat)
    (tables : list (nat * nat)) : res (list (nat * nat)) :=
  if (r <? length g)%nat then
    match fuel with
    | O => NoFuel
    | S fuel' =>
        b ← row_blank g r cols;
        if b : bool then find_tables_loop fuel' g cols (r + 1) tables
        else
          let top := r in
          r ← skip_rows (length g - r) g cols r;
          find_tables_loop fuel' g cols (r + 1)
                           (tables ++ [(top, (r - 1)%nat)])
    end
  else Ok tables.

Definition find_tables (g : grid) (start_row : nat) : res (list (nat * nat)) :=
  row0 ← getitem g 0;
  find_tables_loop (length g) g (range 0 (length row0)) start_row [].

Fixpoint forward_fill_from (last : str) (row : list str) : list str :=
  match row with
  | [] => []
  | v :: row' =>
      let last := if negb (is_blank v) then strip v else last in
      last :: forward_fill_from last row'
  end.

Definition forward_fill_row (row : list str) : list str :=
  forward_fill_from [] row.

Fixpoint scan_headers (g : grid) (cols : list nat) (rows : list nat)
    (header_rows : list nat) : res (list nat * option nat) :=
  match rows with
  | [] => Ok (header_rows, None)
  | r :: rows' =>
      a ← any_res (fun c => v ← cell g r c; Ok (is_number v)) cols;
      if a : bool then Ok (header_rows, Some r)
      else scan_headers g cols rows' (header_rows ++ [r])
  end.

(** [[c for c in range(len(row)) if is_number(row[c])]] *)
Definition num_cols (row : list str) : list nat :=
  omap (fun cv : nat * str => if is_number cv.2 then Some cv.1 else None)
       (imap (fun c v => (c, v)) row).

Definition extract_row (g : grid) (src : str) (section_map : gmap nat str)
    (grp sub per : list str) (records : list record) (r : nat)
    : res (list record) :=
  row ← getitem g r;
  match num_cols row with
  | [] => Ok records
  | (n0 :: _) as nums =>
      ch ← getitem_Z row (Z.of_nat n0 - 1);
      let chan := strip ch in
      for_res (fun records c =>
                 s ← lookup_key section_map c;
                 gv ← getitem grp c;
                 sv ← getitem sub c;
                 pv ← getitem per c;
                 v ← getitem row c;
                 Ok (records ++
                     [{| source := src; section := s; group := gv;
                         sub_group := sv; period := pv; channel := chan;
                         value := to_float v |}]))
              nums records
  end.

Definition extract_table (g : grid) (src : str) (section_map : gmap nat str)
    (records : list record) (tb : nat * nat) : res (list record) :=
  row0 ← getitem g 0;
  '(header_rows, data_start) ←
    scan_headers g (range 0 (length row0)) (range tb.1 (tb.2 + 1)) [];
  if (length header_rows <? 3)%nat then Ok records
  else
    g_row ← getitem header_rows 0; r0 ← getitem g g_row;
    sg_row ← getitem header_rows 1; r1 ← getitem g sg_row;
    p_row ← getitem header_rows 2; r2 ← getitem g p_row;
    match data_start with
    | None => Raise TypeError
    | Some ds =>
        for_res (extract_row g src section_map (forward_fill_row r0)
                             (forward_fill_row r1) (forward_fill_row r2))
                (range ds (tb.2 + 1)) records
    end.

Definition extract_records (g : grid) (src : str) (section_row : nat)
    : res (list record) :=
  section_map ← detect_sections g section_row;
  tables ← find_tables g (section_row + 1);
  for_res (extract_table g src section_map) tables [].

End Core.
End Rbu.

(* ===================================================================== *)
(** * rates.py *)
(* ===================================================================== *)

Module Rates.
Import Py.

Definition str_le (a b : str) : Prop := str_leb a b = true.

#[global] Instance str_le_dec : RelDecision str_le :=
  fun a b => decide (str_leb a b = true).

(** [sorted(s)] for a set of row keys. *)
Definition sorted (s : gset str) : list str :=
  merge_sort str_le (elements s).

Section Core.
Context `{B : Builtins}.

Definition clean_text (text : str) : str :=
  match text with
  | [] => []
  | _ => strip (replace1 BOM [] text)
  end.

(** [[a-z0-9]] *)
Definition is_lower_alnum (c : N) : bool :=
  ((97 <=? c) && (c <=? 122)) || ((48 <=? c) && (c <=? 57)).

Definition normalize_header (h : str) : str :=
  let h := lower (clean_text h) in
  filter (fun c => is_lower_alnum c = true) h.

(** [common_keys], [extra_file1] and [extra_file2] of
    [compare_by_row_key], from the two row maps. *)
Definition common_keys {V} (map1 map2 : gmap str V) : gset str :=
  dom map1 ∩ dom map2.
Definition extra_file1 {V} (map1 map2 : gmap str V) : list str :=
  sorted (dom map1 ∖ dom map2).
Definition extra_file2 {V} (map1 map2 : gmap str V) : list str :=
  sorted (dom map2 ∖ dom map1).

End Core.

(** ** Comparison by row key *)

(** [{h: i for i, h in enumerate(headers) if h}]: the empty header gets no
    entry, and a later header of the same name replaces an earlier one. *)
Definition build_index (headers : list str) : gmap str nat :=
  fold_left (fun m ih => if decide (ih.2 = []) then m else <[ih.2 := ih.1]> m)
            (imap (fun i h => (i, h)) headers) ∅.

(** [r[i] if i < len(r)], else the empty string. *)
Definition cell_or_empty (r : list str) (i : nat) : str :=
  default [] (r !! i).

(** A mismatch [(key, h, v1, v2)]. *)
Definition mismatch : Type := str * str * str * str.

(** [sorted(set(headers1) & set(headers2))] *)
Definition common_headers (headers1 headers2 : list str) : list str :=
  sorted (list_to_set headers1 ∩ list_to_set headers2).

(** The body of [for h in common_headers]; the state is [mismatches] and
    [match_count]. *)
Definition compare_header (idx1 idx2 : gmap str nat) (key : str)
    (r1 r2 : list str) (st : list mismatch * nat) (h : str)
    : res (list mismatch * nat) :=
  i1 ← lookup_key idx1 h;
  i2 ← lookup_key idx2 h;
  let v1 := cell_or_empty r1 i1 in
  let v2 := cell_or_empty r2 i2 in
  if decide (v1 ≠ v2) then Ok (st.1 ++ [(key, h, v1, v2)], st.2)
  else Ok (st.1, S st.2).

(** [compare_by_row_key].  The loop [for key in common_keys] walks a set of
    strings, in an order that the program does not fix: [order] is that
    order, a listing of [common_keys map1 map2]. *)
Definition compare_by_row_key (order : list str) (headers1 headers2 : list str)
    (map1 map2 : gmap str (list str))
    : res (list str * list mismatch * list str * list str * nat) :=
  let common := common_headers headers1 headers2 in
  let idx1 := build_index headers1 in
  let idx2 := build_index headers2 in
  st ← for_res (fun st key =>
                  r1 ← lookup_key map1 key;
                  r2 ← lookup_key map2 key;
                  for_res (compare_header idx1 idx2 key r1 r2) common st)
               order ([], 0%nat);
  Ok (common, st.1, extra_file1 map1 map2, extra_file2 map1 map2, st.2).

End Rates.

(* ===================================================================== *)
(** * The built-ins on ASCII text *)
(* ===================================================================== *)

(** An instance of [Builtins] that agrees with CPython on strings of ASCII
    characters: letters and digits are the ASCII ones, [lower] maps
    [A]-[Z] to [a]-[z], and [float] reads the decimal literals of the
    language reference (sign, digits with single underscores between
    them, fraction, exponent, [inf], [infinity], [nan]) and rounds to the
    nearest binary64 value, ties to even. *)
Module Ascii7.
Import Py.

Definition is_upper (c : N) : bool := (65 <=? c) && (c <=? 90).
Definition is_lower (c : N) : bool := (97 <=? c) && (c <=? 122).
Definition is_digit (c : N) : bool := (48 <=? c) && (c <=? 57).

Definition lower_char (c : N) : N := if is_upper c then c + 32 else c.

Definition digit_val (c : N) : option Z :=
  if is_digit c then Some (Z.of_N c - 48)%Z else None.

(** The rest of a [digitpart] after a digit: the value so far, the number
    of digits read, and what follows. *)
Fixpoint digitpart_from (acc : Z) (cnt : nat) (s : str) : Z * nat * str :=
  match s with
  | [] => (acc, cnt, [])
  | c :: s' =>
      match digit_val c with
      | Some d => digitpart_from (10 * acc + d)%Z (S cnt) s'
      | None =>
          if c =? UNDERSCORE then
            match s' with
            | c2 :: s'' =>
                match digit_val c2 with
                | Some d => digitpart_from (10 * acc + d)%Z (S cnt) s''
                | None => (acc, cnt, s)
                end
            | [] => (acc, cnt, s)
            end
          else (acc, cnt, s)
      end
  end.

(** [digitpart], continuing the digits [acc] read before. *)
Definition digitpart (acc : Z) (s : str) : option (Z * nat * str) :=
  match s with
  | c :: s' =>
      match digit_val c with
      | Some d => Some (digitpart_from (10 * acc + d)%Z 1 s')
      | None => None
      end
  | [] => None
  end.

Definition take_sign (s : str) : bool * str :=
  match s with
  | c :: s' =>
      if c =? HYPHEN then (true, s')
      else if c =? PLUS then (false, s')
      else (false, s)
  | [] => (false, [])
  end.

(** [number]: the digits as one integer and the number of them that
    stand after the point. *)
Definition number (s : str) : option (Z * nat * str) :=
  match digitpart 0 s with
  | Some (i, _, rest) =>
      match rest with
      | c :: rest' =>
          if c =? DOT then
            match digitpart i rest' with
            | Some (m, nf, rest'') => Some (m, nf, rest'')
            | None => Some (i, 0%nat, rest')
            end
          else Some (i, 0%nat, rest)
      | [] => Some (i, 0%nat, [])
      end
  | None =>
      match s with
      | c :: rest' =>
          if c =? DOT then digitpart 0 rest' else None
      | [] => None
      end
  end.

(** [exponent], if there is one; [None] when an [e] is not followed by a
    well-formed exponent. *)
Definition exponent (s : str) : option (Z * str) :=
  match s with
  | c :: s' =>
      if (c =? 101) || (c =? 69) then
        let '(neg, s'') := take_sign s' in
        match digitpart 0 s'' with
        | Some (e, _, rest) => Some (if neg : bool then (- e)%Z else e, rest)
        | None => None
        end
      else Some (0%Z, s)
  | [] => Some (0%Z, [])
  end.

(** The float nearest to [m * 10 ^ e10], for [m > 0]. *)
Definition decimal_to_float (neg : bool) (m e10 : Z) : float :=
  match m with
  | Zpos _ =>
      if (0 <=? e10)%Z then
        binary_normalize 53 1024 (if neg then - (m * 10 ^ e10) else m * 10 ^ e10)%Z
                         0 false
      else
        let '(q, e', l) :=
          SFdiv_core_binary 53 1024 m 0 (10 ^ (- e10))%Z 0 in
        binary_round_aux 53 1024 neg q e' l
  | _ => S754_zero neg
  end.

(** [float] does not strip what [str.strip] strips: in an ASCII text it
    passes over the blank, the tab, the line feed, the vertical tab, the
    form feed and the carriage return, before and after the number, and
    over nothing else. *)
Definition is_float_space (c : N) : bool :=
  ((9 <=? c) && (c <=? 13)) || (c =? 32).

Fixpoint lstrip_float (s : str) : str :=
  match s with
  | [] => []
  | c :: s' => if is_float_space c then lstrip_float s' else s
  end.

Definition strip_float (s : str) : str :=
  rev (lstrip_float (rev (lstrip_float s))).

Definition float_of_ascii (s : str) : option float :=
  let '(neg, t) := take_sign (strip_float s) in
  let w := map lower_char t in
  if bool_decide (w = lit "inf") || bool_decide (w = lit "infinity")
  then Some (S754_infinity neg)
  else if bool_decide (w = lit "nan") then Some S754_nan
  else
    match number t with
    | Some (m, nf, rest) =>
        match exponent rest with
        | Some (e, []) => Some (decimal_to_float neg m (e - Z.of_nat nf))
        | _ => None
        end
    | None => None
    end.

Definition ascii : Builtins := {|
  float_of_str := float_of_ascii;
  isalpha := fun c => is_upper c || is_lower c;
  isdecimal := is_digit;
  isalnum := fun c => is_upper c || is_lower c || is_digit c;
  lower := map lower_char
|}.

End Ascii7.

(* ===================================================================== *)
(** * Vocabulary of the properties *)
(* ===================================================================== *)

(** The notions the statements below are written in, and the grids and
    records they are tried on, one module for each group of properties. *)

Module PyTerms.
Import Py.

(** [s] does not start with whitespace. *)
Definition ltrim (s : str) : Prop :=
  match s with [] => True | c :: _ => isspace c = false end.

(** [s] does not end with whitespace. *)
Definition rtrim (s : str) : Prop := ltrim (rev s).

End PyTerms.

Module NormalizeTerms.
Import Py PyTerms.

Section Text.
Context `{B : Builtins}.
Import CompareRateBuildUp.

(** What [normalize_text] does to the dashes, one character at a time. *)
Definition undash (c : N) : N :=
  let c := if c =? EN_DASH then HYPHEN else c in
  if c =? EM_DASH then HYPHEN else c.

(** A text in normal form: trimmed, without long dashes, and with single
    spaces for whitespace. *)
Definition normal (u : str) : Prop :=
  ltrim u /\ rtrim u
  /\ Forall (fun c => c <> EN_DASH /\ c <> EM_DASH) u
  /\ sub_spaces u = u.

End Text.
End NormalizeTerms.

Module IndexTerms.
Import Py.

Section RowMap.
Context `{B : Builtins}.
Import CodeWithRow.

(** The rows of [rows] whose key is [k], in scan order. *)
Definition rows_with_key (idx : list nat) (k : key) (rows : list (list str))
    : list (list str) :=
  filter (fun r => row_key idx r = k) rows.

(** How often [k] was flagged. *)
Definition times_flagged (k : key) (duplicates : list key) : nat :=
  length (filter (fun k' => k' = k) duplicates).

(** What [row_map] and [duplicates] hold after the rows [rows]. *)
Definition indexed (idx : list nat) (rows : list (list str))
    (st : gmap key (list str) * list key) : Prop :=
  forall k,
    st.1 !! k = head (rows_with_key idx k rows)
    /\ times_flagged k st.2 = (length (rows_with_key idx k rows) - 1)%nat.

End RowMap.

Section Aggregate.
Import RbuSpace.

(** The records with key [k], and those of them that come from [src]. *)
Definition with_key (k : key) (recs : list record) : list record :=
  filter (fun r => key_tuple r = k) recs.

Definition with_key_source (k : key) (src : str) (recs : list record)
    : list record :=
  filter (fun r => key_tuple r = k /\ source r = src) recs.

(** What [agg] holds after the records [recs]. *)
Definition aggregated (recs : list record) (agg : gmap key entry) : Prop :=
  forall k,
    match agg !! k with
    | None => with_key k recs = []
    | Some e =>
        with_key k recs <> [] /\ meta e = k
        /\ forall src,
            values e !! src = value_num <$> last (with_key_source k src recs)
            /\ texts e !! src = value_text <$> last (with_key_source k src recs)
    end.

End Aggregate.
End IndexTerms.

Module IndexPolicyTerms.
Import Py IndexTerms.

Section Finalize.
Import RbuSpace.

(** The last loop of [compare_records], for one entry. *)
Definition with_defaults (sources_in_order : list str) (v : entry) : entry :=
  fold_left (fun v src => {| values := setdefault src None (values v);
                             texts := setdefault src [] (texts v);
                             meta := meta v |})
            sources_in_order v.

End Finalize.
Import RbuSpace.

Definition rec_first : record :=
  {| source := lit "a.csv"; section := lit "Financial";
     group_path := [lit "Rx"; lit "Base"]; channel := lit "Retail";
     metric := lit "Rate"; date_window := lit "07/27-06/28";
     value_text := lit "1"; value_num := Some (float_of_Z 1);
     row_index := 3; col_index := 1 |}.

Definition rec_second : record :=
  {| source := lit "a.csv"; section := lit "Financial";
     group_path := [lit "Rx"; lit "Base"]; channel := lit "Retail";
     metric := lit "Rate"; date_window := lit "07/27-06/28";
     value_text := lit "2"; value_num := Some (float_of_Z 2);
     row_index := 4; col_index := 1 |}.

End IndexPolicyTerms.

Module ToleranceTerms.
Import Py CompareRateBuildUp.

(** A shared key with the values [3] and [1]. *)
Definition key_retail : key :=
  (lit "Financial", lit "Rx", lit "Base", lit "2027", lit "Retail").
Definition idx_three : gmap key (str * str) :=
  {[ key_retail := (lit "3", lit "B") ]}.
Definition idx_one : gmap key (str * str) :=
  {[ key_retail := (lit "1", lit "C") ]}.

Definition recs_of_value (v : str) : list record :=
  [{| section := lit "Financial"; group := lit "Rx"; subgroup := lit "Base";
      period := lit "2027"; channel := lit "Retail"; col_letter := lit "B";
      value := v |}].

End ToleranceTerms.

Module PercentTerms.
Import Py RbuSpace.

Section Percent.
Context `{B : Builtins}.




End Percent.
End PercentTerms.

Module ChannelTerms.
Import Py.

(** A table of three header rows and one data row that starts with a
    number: the channel of its records is the text of the row's last
    cell. *)
Definition grid_leading_number : list (list str) :=
  [ [lit "Financial"; []; []];
    [lit "Rx"; lit "Rx"; lit "Rx"];
    [lit "Base"; lit "Base"; lit "Base"];
    [lit "Y1"; lit "Y2"; lit "Y3"];
    [lit "10"; lit "20"; lit "Retail "] ].

End ChannelTerms.

Module BlankTerms.
Import Py RbuSpace.

(** Two grids of the same shape whose cells are blank at the same
    places. *)
Definition blank_eq (g1 g2 : grid) : Prop :=
  Forall2 (Forall2 (fun a b => is_blank a = is_blank b)) g1 g2.

(** One grid with date windows in its header row, one with other text in
    their place. *)
Definition grid_dates : grid :=
  [ [lit "Financial"; []; []];
    [lit "Channel"; lit "07/27-06/28"; lit "07/28-06/29"];
    [lit "Retail"; lit "1"; lit "2"];
    [[]; []; []];
    [lit "Mail"; lit "3"; lit "4"] ].

Definition grid_no_dates : grid :=
  [ [lit "Other"; []; []];
    [lit "x"; lit "Year 1"; lit "y"];
    [lit "7"; lit "a"; lit "b"];
    [lit "  "; []; lit " "];
    [lit "q"; lit "r"; lit "s"] ].

(** The search need not end.  When the first non-blank row under the
    section row is blank in the leftmost section column, the block found
    is empty and the next search starts at the same row again. *)
Definition grid_blank_corner : grid :=
  [ [lit "Financial"; []];
    [[]; lit "x"] ].

End BlankTerms.

Module SectionTerms.
Import Py RbuSpace.

(** Every row has the width of the first one. *)
Definition rectangular (g : grid) : Prop :=
  Forall (fun row => length row = width g) g.

(** The text of a cell, empty outside the grid. *)
Definition cell_text (g : grid) (r c : nat) : str :=
  default [] (g !! r ≫= fun row => row !! c).

(** How many of the header rows are blank in column [c]. *)
Definition blank_tiers (g : grid) (header_rows c : nat) : nat :=
  length (filter (fun r => is_blank (cell_text g r c) = true)
                 (range 0 (header_rows `min` length g))).

(** Column [c] has a non-blank cell in a row from [data_start_row] on. *)
Definition has_data (g : grid) (data_start_row c : nat) : bool :=
  existsb (fun r => negb (is_blank (cell_text g r c)))
          (range data_start_row (length g)).

(** A column at which a run ends: a hard separator or a column without
    data. *)
Definition ends_run (g : grid) (header_rows data_start_row min_blank_sep c : nat)
    : bool :=
  (min_blank_sep <=? blank_tiers g header_rows c)%nat
  || negb (has_data g data_start_row c).

(** The section-row cell of column [c], as the outer loop reads it. *)
Definition section_cell (g : grid) (section_row c : nat) : str :=
  if (section_row <? length g)%nat then cell_text g section_row c else [].

(** The end of a run in the words of the specification: the column has
    no data below the header tiers, or it is the last of [S] consecutive
    columns whose section-row cell is blank. *)
Definition spec_ends_run (g : grid) (section_row data_start_row S c : nat)
    : bool :=
  negb (has_data g data_start_row c)
  || ((S <=? c + 1)%nat
      && forallb (fun j => is_blank (section_cell g section_row j))
                 (range (c + 1 - S) (c + 1))).

(** Two header rows; the section-row cells of columns 1 and 2 are blank. *)
Definition grid_blank_section_cells : grid :=
  [ [lit "A"; []; []; lit "B"];
    [lit "h1"; lit "h2"; lit "h3"; lit "h4"];
    [lit "1"; lit "2"; lit "3"; lit "4"] ].

(** Three header rows; column 1 is blank in two of them. *)
Definition grid_blank_tiers : grid :=
  [ [lit "A"; []; lit "x"];
    [lit "g"; []; lit "g"];
    [lit "p"; lit "p"; lit "p"];
    [lit "1"; lit "2"; lit "3"] ].

End SectionTerms.

Module LabelTerms.
Import Py RbuSpace SectionTerms.

Section Labels.
Context `{B : Builtins}.

(** A block that lies inside the grid. *)
Definition in_grid (g : grid) (bottom right : nat) : Prop :=
  (bottom < length g)%nat /\ (right < width g)%nat.

(** The cells of row [r] in the columns [left .. right]. *)
Definition block_cells (g : grid) (r left right : nat) : list str :=
  map (cell_text g r) (range left (right + 1)).

(** Row [r] has an alphabetic character in the columns [left .. right]. *)
Definition has_alpha (g : grid) (left right r : nat) : bool :=
  existsb looks_alpha (block_cells g r left right).

(** At least half of the cells look numeric. *)
Definition numeric_majority (cells : list str) : bool :=
  (length cells <=? 2 * length (filter (fun v => looks_numeric v = true) cells))%nat.

(** The label rows of the rows [rows], in order. *)
Definition label_rows_of (g : grid) (left right : nat) (rows : list nat)
    : list (list str) :=
  map (fun r => fill_cells [] (block_cells g r left right))
      (filter (fun r => has_alpha g left right r = true) rows).

(** The rows before the first row with property [p], and that row. *)
Fixpoint rows_before (p : nat -> bool) (rows : list nat) : list nat :=
  match rows with
  | [] => []
  | r :: rows' => if p r then [] else r :: rows_before p rows'
  end.

Fixpoint first_row (p : nat -> bool) (rows : list nat) : option nat :=
  match rows with
  | [] => None
  | r :: rows' => if p r then Some r else first_row p rows'
  end.

(** Row [r] holds a number, for [is_number] of DataValidation_RBU. *)
Definition holds_number (g : grid) (r : nat) : bool :=
  existsb RbuCsv.is_number (default [] (g !! r)).

End Labels.

(** A block whose second row is all numbers and whose third row starts
    with a channel text. *)
Definition grid_text_below_numbers : grid :=
  [ [lit "Group"; lit "Rx"; lit "Rx"];
    [lit "1"; lit "2"; lit "3"];
    [lit "Retail"; lit "4"; lit "5"] ].

(** A header row with a year in it. *)
Definition grid_year_header : grid :=
  [ [lit "Group"; lit "Rx"; lit "2027"];
    [lit "Retail"; lit "4"; lit "5"] ].

End LabelTerms.

Module ExtractTerms.
Import Py RbuSpace SectionTerms LabelTerms.

Section Extract.
Context `{B : Builtins}.

(** Row, column and group path of a record. *)
Definition position (rec : record) : nat * nat * list str :=
  (row_index rec, col_index rec, group_path rec).

(** The numeric-looking cells of row [r] within [left .. right], from
    left to right, with the group path of their column. *)
Definition numeric_cells_of_row (g : grid) (label_rows : list (list str))
    (left right r : nat) : list (nat * nat * list str) :=
  flat_map (fun c => if looks_numeric (cell_text g r c)
                     then [(r, c, group_path_for_col label_rows left c)]
                     else [])
           (range left (right + 1)).

(** The numeric-looking cells of a block in row-major order. *)
Definition numeric_cells (g : grid) (label_rows : list (list str))
    (top bottom left right : nat) : list (nat * nat * list str) :=
  flat_map (numeric_cells_of_row g label_rows left right)
           (range top (bottom + 1)).

End Extract.

(** A section row, a table of two header rows and a data row. *)
Definition grid_two_header_rows : grid :=
  [ [lit "Financial"; []; []];
    [lit "Rx"; lit "Rx"; lit "Rx"];
    [lit "Channel"; lit "Y1"; lit "Y2"];
    [lit "Retail"; lit "10"; lit "20"] ].

End ExtractTerms.

Module FuelTerms.
Import Py.

(** A run that ends: with a value or with an exception, not for lack of
    fuel. *)
Definition ends {A} (m : res A) : Prop := m <> NoFuel.

End FuelTerms.

Module HeaderTerms.
Import Py RbuSpace.

(** A row with a cell that is not blank. *)
Definition has_text (row : list str) : Prop :=
  Exists (fun c => is_blank c = false) row.

(** Runs that do not touch: no run starts right after the end of the
    run before it. *)
Fixpoint apart (runs : list (list nat)) : Prop :=
  match runs with
  | r1 :: (r2 :: _) as rest =>
      (exists l h, last r1 = Some l /\ head r2 = Some h /\ h <> (l + 1)%nat)
      /\ apart rest
  | _ => True
  end.

(** The text of which [html_escape s] is the escape: [&lt;], [&gt;] and
    [&amp;] are read back, from left to right. *)
Fixpoint unescape (s : str) : str :=
  match s with
  | [] => []
  | c :: s' =>
      if c =? AMPERSAND then
        match s' with
        | c1 :: c2 :: c3 :: s3 =>
            if bool_decide ([c1; c2; c3] = lit "lt;") then LESS :: unescape s3
            else if bool_decide ([c1; c2; c3] = lit "gt;")
            then GREATER :: unescape s3
            else
              match s3 with
              | c4 :: s4 =>
                  if bool_decide ([c1; c2; c3; c4] = lit "amp;")
                  then AMPERSAND :: unescape s4
                  else c :: unescape s'
              | [] => c :: unescape s'
              end
        | _ => c :: unescape s'
        end
      else c :: unescape s'
  end.

(** What the loop that cuts columns into runs holds after the columns
    [cols]: [st] is the runs closed so far and the run at hand. *)
Definition runs_inv (cols : list nat) (st : list (list nat) * list nat) : Prop :=
  let '(runs, cur) := st in
  concat runs ++ cur = cols
  /\ Forall (fun run => exists a n, run = seq a (S n)) runs
  /\ match cur with
     | [] => runs = []
     | _ => (exists a n, cur = seq a (S n)) /\ apart (runs ++ [cur])
     end.

(** The escape of one character. *)
Definition escape_char (c : N) : str :=
  if c =? AMPERSAND then lit "&amp;"
  else if c =? LESS then lit "&lt;"
  else if c =? GREATER then lit "&gt;"
  else [c].

(** A grid whose first row is blank. *)
Definition grid_blank_top : grid :=
  [ [[]; []];
    [lit "Financial"; []];
    [lit "1"; lit "2"] ].

End HeaderTerms.

Module BlockTerms.
Import Py RbuSpace SectionTerms.

(** Row [r] is blank in every column of [cols]. *)
Definition blank_in (g : grid) (r : nat) (cols : list nat) : Prop :=
  Forall (fun c => is_blank (cell_text g r c) = true) cols.

(** Blocks that follow one another from row [lo] on: the rows before a
    block, and the rows after the last one, are blank in [cols]; a block
    starts in the leftmost column of [cols], ends in one of them, has a
    cell that is not blank in each of its rows, and the row under it, if
    there is one, is blank within the block's columns. *)
Fixpoint stacked (g : grid) (cols : list nat) (lo : nat) (blocks : list block)
    : Prop :=
  match blocks with
  | [] => forall r, (lo <= r < length g)%nat -> blank_in g r cols
  | (top, bottom, left_col, right_col) :: rest =>
      (lo <= top <= bottom)%nat /\ (bottom < length g)%nat
      /\ left_col = min_col cols /\ (left_col <= right_col)%nat
      /\ right_col ∈ cols
      /\ (forall r, (lo <= r < top)%nat -> blank_in g r cols)
      /\ (forall c, c ∈ cols -> (c <= right_col)%nat ->
                    is_blank (cell_text g top c) = false)
      /\ (forall r, (top <= r <= bottom)%nat ->
                    ~ blank_in g r (range left_col (right_col + 1)))
      /\ ((bottom + 1 < length g)%nat ->
          blank_in g (bottom + 1) (range left_col (right_col + 1)))
      /\ stacked g cols (bottom + 1) rest
  end.

End BlockTerms.

Module SectionMapTerms.
Import Py RbuSpace SectionTerms.

(** Column [c] carries the label read at column [c0]: no run ends
    between the two. *)
Definition labelled_from (g : grid)
    (section_row header_rows data_start_row min_blank_sep : nat)
    (c : nat) (label : str) : Prop :=
  exists c0,
    (c0 <= c)%nat
    /\ is_blank (section_cell g section_row c0) = false
    /\ label = strip (section_cell g section_row c0)
    /\ forall j, (c0 <= j <= c)%nat ->
                 ends_run g header_rows data_start_row min_blank_sep j = false.

End SectionMapTerms.

Module RecordTerms.
Import Py RbuSpace.

Section Records.
Context `{B : Builtins}.

(** What every record of a file is: it comes from [source_name], stands
    for a numeric-looking cell under the section row and carries that
    cell's stripped text and the number read from it; its group path has
    at most three parts, none of them empty; its metric and its date
    window are those of its column. *)
Definition from_numeric_cell (g : grid) (source_name : str)
    (header_rows section_row : nat) (no_date_window : bool) (rec : record)
    : Prop :=
  source rec = source_name
  /\ (section_row < row_index rec)%nat
  /\ (exists v, cell g (row_index rec) (col_index rec) = Ok v
                /\ value_text rec = strip v)
  /\ looks_numeric (value_text rec) = true
  /\ value_num rec = parse_numeric (value_text rec)
  /\ (length (group_path rec) <= 3)%nat
  /\ Forall (fun part => part <> []) (group_path rec)
  /\ nearest_metric_above_col g header_rows (col_index rec) true
                              no_date_window = Ok (metric rec)
  /\ date_window_for_col g header_rows (col_index rec) no_date_window
     = Ok (date_window rec).

End Records.
End RecordTerms.

Module KeyFileTerms.
Import Py CodeWithRow.

(** A file of three columns, the key columns first, and rows for it. *)
Definition headers_rate : list str :=
  [lit "Formulary"; lit " ndc11 "; lit "Rate"].

Definition rows_rate : list (list str) :=
  [[lit "F1"; lit "111"; lit "1.0"];
   [lit "F2"; lit "222"; lit "2.0"];
   [lit "F1"; lit "111"; lit "3.0"]].

Definition rows_rate_changed : list (list str) :=
  [[lit "F1"; lit "111"; lit "1.5"];
   [lit "F3"; lit "333"; lit "2.0"]].

End KeyFileTerms.

Module CompareTerms.
Import Py CompareRateBuildUp.

(** The column number of which [s] is the letters: [A] is 0, [Z] is 25,
    [AA] is 26. *)
Definition letters_to_index (s : str) : nat :=
  (fold_left (fun acc c => acc * 26 + (N.to_nat c - 64))%nat s 0 - 1)%nat.

End CompareTerms.

Module BandTerms.
Import Py CompareRateBuildUp.

(** The value of the letters [out], the last letter first, in the
    numeration with the digits [A] = 1 to [Z] = 26. *)
Definition letters_value (out : str) : nat :=
  foldr (fun c acc => (N.to_nat c - 64) + 26 * acc)%nat 0%nat out.

(** The last non-empty token of [cells], or the empty text. *)
Definition last_token (cells : list str) : str :=
  default [] (last (tokens_of cells)).

End BandTerms.

Module SheetTerms.
Import Py CompareRateBuildUp.

Section Built.
Context `{B : Builtins}.

(** The record [rec] is read at column [c] of the row [r] under the
    detail row [drow]: [r] is right under [drow], or not below the second
    row above the next detail row (the end of the sheet, when [drow] is
    the last one). *)
Definition read_at (rows : list (list str)) (rec : record)
    (drow r c : nat) : Prop :=
  drow ∈ find_detail_rows rows
  /\ (drow < r)%nat
  /\ (r <= (drow + 1)
            `max` (next_detail (find_detail_rows rows) drow (length rows) - 2))%nat
  /\ (c < max_width rows)%nat
  /\ col_letter rec = index_to_letters c
  /\ exists row, rows !! r = Some row
                 /\ channel rec = channel_of row
                 /\ value rec = default [] (row !! c).

(** What every record built from a file is: its five key texts are in
    normal form, its channel is not empty, one of section, group,
    sub-group and period is not empty, and it is read at a column of a
    row under a detail row. *)
Definition well_built (rows : list (list str)) (rec : record) : Prop :=
  key_of rec = (section rec, group rec, subgroup rec, period rec, channel rec)
  /\ channel rec <> []
  /\ (section rec <> [] \/ group rec <> [] \/ subgroup rec <> []
      \/ period rec <> [])
  /\ exists drow r c, read_at rows rec drow r c.

End Built.

(** A sheet with a stage band, a sub-group band, a detail row of four
    date windows and two data rows. *)
Definition sheet : list (list str) :=
  [ [lit "Financial"; []; []; []; lit "Clinical"; []; []; []; lit "Other"];
    [lit "Brand"; []; []; []; lit "Generic"; []; []; []; lit "Spec"];
    [lit "Channel"; lit "07/27 - 06/28"; lit "07/28 - 06/29";
     lit "07/29 - 06/30"; lit "07/30 - 06/31"; []; []; []; []];
    [lit "Retail"; lit "1"; lit "2"; lit "3"; lit "4"; []; []; []; []];
    [lit "Mail"; lit "5"; lit "6"; lit "7"; lit "8"; []; []; []; []] ].

End SheetTerms.

Module TableTerms.
Import Py RbuCsv.

(** Tables that follow one another from row [lo] on: the rows before a
    table, and the rows after the last one, are blank; the rows of a
    table are not; and the row under a table, if there is one, is
    blank. *)
Fixpoint tables_from (g : grid) (lo : nat) (tables : list (nat * nat)) : Prop :=
  match tables with
  | [] => forall r row, (lo <= r)%nat -> g !! r = Some row ->
                        row_blank row = true
  | (top, bottom) :: rest =>
      (lo <= top <= bottom)%nat /\ (bottom < length g)%nat
      /\ (forall r row, (lo <= r < top)%nat -> g !! r = Some row ->
                        row_blank row = true)
      /\ (forall r row, (top <= r <= bottom)%nat -> g !! r = Some row ->
                        row_blank row = false)
      /\ (forall row, g !! (bottom + 1)%nat = Some row -> row_blank row = true)
      /\ tables_from g (bottom + 1) rest
  end.

(** A sheet whose table has four rows of text and no number. *)
Definition grid_no_number : grid :=
  [ [lit "Financial"; []];
    [lit "Rx"; lit "Rx"];
    [lit "Base"; lit "Base"];
    [lit "Y1"; lit "Y2"];
    [lit "Retail"; lit "n/a"] ].

End TableTerms.

Module CsvRecordTerms.
Import Py RbuCsv.

Section Records.
Context `{B : Builtins}.

(** A text that [strip] leaves as it is. *)
Definition stripped (s : str) : Prop := strip s = s.

(** A record of source [src] read from a cell that is a number: its value
    is the float of that cell, and its five labels are stripped. *)
Definition from_number (src : str) (r : record) : Prop :=
  source r = src
  /\ is_number (raw r) = true
  /\ value r = to_float (raw r)
  /\ is_Some (value r)
  /\ stripped (section r) /\ stripped (group r) /\ stripped (sub_group r)
  /\ stripped (period r) /\ stripped (channel r).

End Records.

(** A sheet with a section row, three header rows and one row of
    numbers. *)
Definition grid_rates : grid :=
  [ [lit "Financial"; []; []];
    [lit "Rx"; []; []];
    [lit "Base"; []; []];
    [lit "Channel"; lit "Y1"; lit "Y2"];
    [lit " Retail "; lit "1,000"; lit "20"] ].

End CsvRecordTerms.

Module RatesTerms.
Import Py Rates.

(** Headers with an empty one among them, and the row map of a file
    with one row. *)
Definition headers_gap : list str := [lit "Drug"; []; lit "NDC11"].

Definition map_one (row : list str) : gmap str (list str) :=
  {[ lit "Aspirin||1" := row ]}.

End RatesTerms.

Module ClassifyTerms.
Import Py CompareRateBuildUp.

(** The key a mismatch is listed under. *)
Definition mismatch_key (m : mismatch) : key :=
  (m_section m, m_group m, m_subgroup m, m_period m, m_channel m).

(** The key [k] counts as a match: no mismatch is listed under it. *)
Definition matched (mismatches : list mismatch) (k : key) : Prop :=
  forall m, m ∈ mismatches -> mismatch_key m <> k.

Section Verdict.
Context `{B : Builtins}.

(** What the loop of [compare_records] does at the key [k]: the mismatch
    it lists, or [None] when it counts a match. *)
Definition verdict (idx1 idx2 : gmap key (str * str)) (tolerance : float)
    (k : key) : option mismatch :=
  match compare_key idx1 idx2 tolerance ([], 0%nat) k with
  | Ok (m :: _, _) => Some m
  | _ => None
  end.

End Verdict.
End ClassifyTerms.

Module MetricTerms.
Import Py RbuSpace SectionTerms.

Section Metric.
Context `{B : Builtins}.

(** A header cell that can be the metric of its column: it is not blank
    and no date window is found in its stripped text. *)
Definition metric_cell (g : grid) (col r : nat) : bool :=
  negb (is_blank (cell_text g r col))
  && negb (bool_decide
             (is_Some (parse_date_window_token (strip (cell_text g r col))))).

End Metric.

(** A date window under a label. *)
Definition grid_metric : grid :=
  [ [lit "Financial"; lit " Rate "];
    [lit "Channel"; lit "07/27-06/28"];
    [lit "Retail"; lit "1"] ].

End MetricTerms.

Module ExtractorTerms.
Import Py SectionTerms LabelTerms.

Section Extractor.
Context `{B : Builtins}.

(** The cell that [row[nums[0] - 1]] reads: the cell before the first
    number of the row, and the last cell of the row when the row starts
    with a number. *)
Definition channel_cell (row : list str) : option str :=
  match RbuCsv.num_cols row with
  | [] => None
  | O :: _ => last row
  | S n :: _ => row !! n
  end.

(** The channels of the records of a data row, one for each of its
    numbers. *)
Definition row_channels (row : list str) : list str :=
  match channel_cell row with
  | Some ch => map (fun _ => strip ch) (RbuCsv.num_cols row)
  | None => []
  end.

(** The header rows of a table, and the row its data start at. *)
Definition table_headers (g : list (list str)) (tb : nat * nat) : list nat :=
  rows_before (holds_number g) (range tb.1 (tb.2 + 1)).

Definition table_data_start (g : list (list str)) (tb : nat * nat)
    : option nat :=
  first_row (holds_number g) (range tb.1 (tb.2 + 1)).

(** A table that is skipped or has data: it has fewer than three header
    rows, or a row that holds a number. *)
Definition table_ok (g : list (list str)) (tb : nat * nat) : bool :=
  (length (table_headers g tb) <? 3)%nat
  || match table_data_start g tb with Some _ => true | None => false end.

(** The channels of the records of a table, row by row. *)
Definition table_channels (g : list (list str)) (tb : nat * nat) : list str :=
  if (length (table_headers g tb) <? 3)%nat then []
  else
    match table_data_start g tb with
    | Some ds =>
        flat_map (fun r => row_channels (default [] (g !! r)))
                 (range ds (tb.2 + 1))
    | None => []
    end.

End Extractor.
End ExtractorTerms.

(* ===================================================================== *)
(** * Properties *)
(* ===================================================================== *)

(** ** Strings *)

Module PyFacts.
Import Py.
Import PyTerms.

Lemma lstrip_ltrim s : ltrim (lstrip s).
Proof.
  induction s as [|c s IH]; simpl; [exact I|].
  destruct (isspace c) eqn:E; [exact IH|]. simpl. exact E.
Qed.

Lemma lstrip_id s : ltrim s -> lstrip s = s.
Proof. destruct s as [|c s]; simpl; [reflexivity|]. by intros ->. Qed.

Lemma rstrip_id s : rtrim s -> rstrip s = s.
Proof.
  intros H. unfold rstrip. rewrite (lstrip_id _ H). apply rev_involutive.
Qed.

Lemma rstrip_rtrim s : rtrim (rstrip s).
Proof.
  unfold rtrim, rstrip. rewrite rev_involutive. apply lstrip_ltrim.
Qed.

Lemma lstrip_snoc s c : isspace c = false -> lstrip (s ++ [c]) = lstrip s ++ [c].
Proof.
  intros Hc. induction s as [|d s IH]; simpl.
  - by rewrite Hc.
  - destruct (isspace d); [exact IH | reflexivity].
Qed.

Lemma rstrip_ltrim s : ltrim s -> ltrim (rstrip s).
Proof.
  destruct s as [|c s]; [intros _; exact I|]. simpl. intros Hc.
  unfold rstrip. simpl. rewrite (lstrip_snoc _ _ Hc), rev_app_distr.
  simpl. exact Hc.
Qed.

Lemma strip_trimmed s : ltrim (strip s) /\ rtrim (strip s).
Proof.
  unfold strip. split.
  - apply rstrip_ltrim, lstrip_ltrim.
  - apply rstrip_rtrim.
Qed.

Lemma strip_id s : ltrim s -> rtrim s -> strip s = s.
Proof.
  intros Hl Hr. unfold strip. rewrite (lstrip_id _ Hl). by apply rstrip_id.
Qed.

Lemma strip_idempotent s : strip (strip s) = strip s.
Proof. destruct (strip_trimmed s). by apply strip_id. Qed.

(** Replacing one character by one character is a [map]. *)
Lemma replace1_map old new s :
  replace1 old [new] s = map (fun c => if c =? old then new else c) s.
Proof.
  unfold replace1. induction s as [|c s IH]; simpl; [reflexivity|].
  rewrite IH. by destruct (c =? old).
Qed.

Lemma replace1_absent old new s :
  Forall (fun c => c <> old) s -> replace1 old new s = s.
Proof.
  unfold replace1. induction 1 as [|c s Hc _ IH]; simpl; [reflexivity|].
  rewrite IH. apply N.eqb_neq in Hc. by rewrite Hc.
Qed.

Lemma map_ltrim (f : N -> N) s :
  (forall c, isspace (f c) = isspace c) -> ltrim s -> ltrim (map f s).
Proof. intros Hf. destruct s as [|c s]; simpl; [done|]. by rewrite Hf. Qed.

Lemma map_rtrim (f : N -> N) s :
  (forall c, isspace (f c) = isspace c) -> rtrim s -> rtrim (map f s).
Proof.
  intros Hf. unfold rtrim. rewrite <- map_rev. by apply map_ltrim.
Qed.

Lemma sub_spaces_from_snoc b s c :
  isspace c = false ->
  sub_spaces_from b (s ++ [c]) = sub_spaces_from b s ++ [c].
Proof.
  intros Hc. revert b. induction s as [|d s IH]; intros b; simpl.
  - by rewrite Hc.
  - destruct (isspace d); [destruct b|]; by rewrite IH.
Qed.

Lemma sub_spaces_ltrim s : ltrim s -> ltrim (sub_spaces s).
Proof.
  destruct s as [|c s]; simpl; [done|]. intros Hc.
  unfold sub_spaces. simpl. by rewrite Hc.
Qed.

Lemma sub_spaces_rtrim s : rtrim s -> rtrim (sub_spaces s).
Proof.
  unfold rtrim, sub_spaces.
  destruct (rev s) as [|c r] eqn:E; simpl; intros Hc.
  - apply (f_equal (@rev N)) in E. rewrite rev_involutive in E.
    by subst s.
  - apply (f_equal (@rev N)) in E. rewrite rev_involutive in E.
    subst s. simpl. rewrite (sub_spaces_from_snoc _ _ _ Hc), rev_app_distr.
    simpl. exact Hc.
Qed.

Lemma sub_spaces_from_idempotent b s :
  sub_spaces_from b (sub_spaces_from b s) = sub_spaces_from b s.
Proof.
  revert b. induction s as [|c s IH]; intros b; simpl; [reflexivity|].
  destruct (isspace c) eqn:E.
  - destruct b; [apply IH|]. simpl. by rewrite IH.
  - simpl. rewrite E. by rewrite IH.
Qed.

Lemma sub_spaces_from_Forall (P : N -> Prop) b s :
  P 32 -> Forall P s -> Forall P (sub_spaces_from b s).
Proof.
  intros H32 Hs. revert b. induction Hs as [|c s Hc _ IH]; intros b; simpl.
  - constructor.
  - destruct (isspace c); [destruct b|]; auto.
Qed.

End PyFacts.

(** ** Normalisation *)

Module NormalizeFacts.
Import Py PyTerms PyFacts.
Import NormalizeTerms.

Section Text.
Context `{B : Builtins}.
Import CompareRateBuildUp.

Lemma undash_spec s :
  replace1 EM_DASH [HYPHEN] (replace1 EN_DASH [HYPHEN] s) = map undash s.
Proof. rewrite !replace1_map, map_map. reflexivity. Qed.

Lemma undash_isspace c : isspace (undash c) = isspace c.
Proof.
  unfold undash.
  destruct (c =? EN_DASH) eqn:E1.
  - apply N.eqb_eq in E1. subst c. reflexivity.
  - destruct (c =? EM_DASH) eqn:E2; [|reflexivity].
    apply N.eqb_eq in E2. subst c. reflexivity.
Qed.

Lemma undash_no_dash c : undash c <> EN_DASH /\ undash c <> EM_DASH.
Proof.
  unfold undash.
  destruct (c =? EN_DASH) eqn:E1; simpl.
  - split; discriminate.
  - destruct (c =? EM_DASH) eqn:E2.
    + split; discriminate.
    + apply N.eqb_neq in E1, E2. by split.
Qed.

Lemma normalize_text_normal s : normal (normalize_text s).
Proof.
  unfold normalize_text. rewrite undash_spec.
  destruct (strip_trimmed s) as [Hl Hr].
  repeat split.
  - apply sub_spaces_ltrim, map_ltrim; [apply undash_isspace | exact Hl].
  - apply sub_spaces_rtrim, map_rtrim; [apply undash_isspace | exact Hr].
  - apply sub_spaces_from_Forall; [split; discriminate|].
    clear Hl Hr. induction (strip s) as [|c t IH]; simpl; constructor;
      [apply undash_no_dash | exact IH].
  - apply sub_spaces_from_idempotent.
Qed.

Lemma normalize_text_fixes_normal u : normal u -> normalize_text u = u.
Proof.
  intros (Hl & Hr & Hd & Hs). unfold normalize_text.
  rewrite (strip_id _ Hl Hr).
  rewrite (replace1_absent EN_DASH), (replace1_absent EM_DASH); [exact Hs|..].
  - eapply Forall_impl; [exact Hd|]. by intros c [_ H].
  - eapply Forall_impl; [exact Hd|]. by intros c [H _].
Qed.

(** C9. Label normalisation is idempotent: for every string [x],
    [normalize_text (normalize_text x) = normalize_text x]. *)
Theorem normalize_text_idempotent (x : str) :
  normalize_text (normalize_text x) = normalize_text x.
Proof. apply normalize_text_fixes_normal, normalize_text_normal. Qed.

End Text.

Section Header.
Context `{B : Builtins}.
Import Rates.

Lemma lower_alnum_not_space c : is_lower_alnum c = true -> isspace c = false.
Proof.
  unfold is_lower_alnum, isspace. intros H.
  apply orb_true_iff in H. rewrite !andb_true_iff, !N.leb_le in H.
  repeat apply orb_false_intro;
    first [ apply N.eqb_neq; lia
          | apply andb_false_iff; rewrite !N.leb_gt; lia ].
Qed.

Lemma lower_alnum_trimmed u :
  Forall (fun c => is_lower_alnum c = true) u -> ltrim u /\ rtrim u.
Proof.
  intros H. split.
  - destruct H; simpl; [done|]. by apply lower_alnum_not_space.
  - unfold rtrim. apply Forall_rev in H.
    destruct H; simpl; [done|]. by apply lower_alnum_not_space.
Qed.

Lemma clean_text_lower_alnum u :
  Forall (fun c => is_lower_alnum c = true) u -> clean_text u = u.
Proof.
  intros H. unfold clean_text. destruct u as [|c u]; [reflexivity|].
  rewrite replace1_absent.
  - destruct (lower_alnum_trimmed _ H). by apply strip_id.
  - eapply Forall_impl; [exact H|]. intros d Hd ->. discriminate.
Qed.

(** Header normalisation of rates.py is idempotent as well, given that
    [lower] leaves a text of lower-case letters and digits unchanged. *)
Lemma normalize_header_idempotent (h : str) :
  lower (normalize_header h) = normalize_header h ->
  normalize_header (normalize_header h) = normalize_header h.
Proof.
  intros Hlow.
  assert (Hall : Forall (fun c => is_lower_alnum c = true)
                        (normalize_header h)).
  { unfold normalize_header. apply Forall_forall. intros c Hc.
    apply list_elem_of_filter in Hc. tauto. }
  unfold normalize_header at 1.
  rewrite (clean_text_lower_alnum _ Hall), Hlow.
  clear Hlow. induction Hall as [|c u Hc _ IH]; [reflexivity|].
  rewrite filter_cons_True by exact Hc. by rewrite IH.
Qed.

End Header.
End NormalizeFacts.

(** ** Key sets *)

Module KeySetFacts.
Import Py.

Lemma sorted_keys_set (s : gset CodeWithRow.key) :
  list_to_set (CodeWithRow.sorted s) = s.
Proof.
  unfold CodeWithRow.sorted.
  rewrite (list_to_set_perm_L _ _ (merge_sort_Permutation _ _)).
  apply list_to_set_elements_L.
Qed.

Lemma sorted_keys_NoDup (s : gset CodeWithRow.key) :
  NoDup (CodeWithRow.sorted s).
Proof.
  unfold CodeWithRow.sorted.
  rewrite (merge_sort_Permutation _ _). apply NoDup_elements.
Qed.

Lemma sorted_strs_set (s : gset str) : list_to_set (Rates.sorted s) = s.
Proof.
  unfold Rates.sorted.
  rewrite (list_to_set_perm_L _ _ (merge_sort_Permutation _ _)).
  apply list_to_set_elements_L.
Qed.

(** C8. The keys missing from the second source, the keys extra in it and
    the shared keys are pairwise disjoint, and together they are exactly
    the keys of either source; this holds for [compare_key_based] of
    codeWithRow.py and for [compare_by_row_key] of rates.py. *)
Theorem missing_extra_common_partition :
  (forall (V : Type) (map1 map2 : gmap CodeWithRow.key V),
      let missing : gset CodeWithRow.key :=
        list_to_set (CodeWithRow.missing_in_report map1 map2) in
      let extra : gset CodeWithRow.key :=
        list_to_set (CodeWithRow.extra_in_report map1 map2) in
      let common : gset CodeWithRow.key :=
        list_to_set (CodeWithRow.common_keys map1 map2) in
      missing ## extra /\ missing ## common /\ extra ## common
      /\ missing ∪ extra ∪ common = dom map1 ∪ dom map2)
  /\
  (forall (V : Type) (map1 map2 : gmap str V),
      let extra1 : gset str := list_to_set (Rates.extra_file1 map1 map2) in
      let extra2 : gset str := list_to_set (Rates.extra_file2 map1 map2) in
      let common : gset str := Rates.common_keys map1 map2 in
      extra1 ## extra2 /\ extra1 ## common /\ extra2 ## common
      /\ extra1 ∪ extra2 ∪ common = dom map1 ∪ dom map2).
Proof.
  split; intros V map1 map2; cbv zeta.
  - unfold CodeWithRow.missing_in_report, CodeWithRow.extra_in_report,
      CodeWithRow.common_keys.
    rewrite !sorted_keys_set.
    repeat split; try set_solver.
    apply set_eq. intros k. rewrite !elem_of_union, elem_of_difference,
      elem_of_difference, elem_of_intersection.
    destruct (decide (k ∈ dom map1)), (decide (k ∈ dom map2)); tauto.
  - unfold Rates.extra_file1, Rates.extra_file2, Rates.common_keys.
    rewrite !sorted_strs_set.
    repeat split; try set_solver.
    apply set_eq. intros k. rewrite !elem_of_union, elem_of_difference,
      elem_of_difference, elem_of_intersection.
    destruct (decide (k ∈ dom map1)), (decide (k ∈ dom map2)); tauto.
Qed.

Section Result.
Context `{B : Builtins}.
Import CodeWithRow.

(** In the result of [compare_key_based] no key is counted twice: the
    three counts add up to the number of keys of either file. *)
Lemma compare_key_based_counts headers1 data1 headers2 data2 r m1 d1 m2 d2 :
  build_row_map data1 headers1 KEY_COLUMNS = Ok (m1, d1) ->
  build_row_map data2 headers2 KEY_COLUMNS = Ok (m2, d2) ->
  compare_key_based headers1 data1 headers2 data2 = Ok r ->
  (length (res_missing_in_report r) + length (res_extra_in_report r)
   + res_common_keys r = size (dom m1 ∪ dom m2))%nat.
Proof.
  intros H1 H2. unfold compare_key_based. rewrite H1, H2. simpl.
  destruct (for_res _ _ _) as [[[m mm] det]| |]; simpl; try discriminate.
  intros [= <-]. simpl.
  unfold missing_in_report, extra_in_report, common_keys, sorted.
  rewrite !(Permutation_length (merge_sort_Permutation _ _)).
  change (size (dom m1 ∖ dom m2) + size (dom m2 ∖ dom m1)
          + size (dom m1 ∩ dom m2) = size (dom m1 ∪ dom m2))%nat.
  rewrite <- !size_union by set_solver.
  f_equal. apply set_eq. intros k.
  rewrite !elem_of_union, elem_of_difference,
    elem_of_difference, elem_of_intersection.
  destruct (decide (k ∈ dom m1)), (decide (k ∈ dom m2)); tauto.
Qed.

End Result.
End KeySetFacts.

(** ** Key indexes: first row kept, later rows flagged *)

Module IndexFacts.
Import Py.
Import IndexTerms.

Section RowMap.
Context `{B : Builtins}.
Import CodeWithRow.

Lemma indexed_nil idx : indexed idx [] (∅, []).
Proof. intros k. split; [apply lookup_empty | reflexivity]. Qed.

Lemma indexed_step idx rows st r :
  indexed idx rows st -> indexed idx (rows ++ [r]) (add_row idx st r).
Proof.
  destruct st as [row_map duplicates]. intros Hinv k.
  destruct (Hinv k) as [Hm Hd]. destruct (Hinv (row_key idx r)) as [Hm0 Hd0].
  simpl in *. unfold add_row, rows_with_key, times_flagged in *.
  rewrite filter_app.
  destruct (decide (row_key idx r = k)) as [<-|Hne].
  - rewrite (filter_cons_True _ r []) by reflexivity. rewrite filter_nil.
    destruct (row_map !! row_key idx r) as [r0|] eqn:E; simpl.
    + destruct (filter _ rows) as [|r1 l]; [discriminate|].
      split; [by rewrite E|].
      rewrite filter_app, (filter_cons_True _ (row_key idx r) [])
        by reflexivity.
      rewrite !length_app. simpl in *. lia.
    + destruct (filter _ rows) as [|r1 l]; [|discriminate].
      split; [by rewrite lookup_insert_eq|]. simpl in *. lia.
  - rewrite (filter_cons_False _ r []) by exact Hne.
    rewrite filter_nil, app_nil_r.
    destruct (row_map !! row_key idx r) as [r0|] eqn:E; simpl.
    + split; [exact Hm|].
      rewrite filter_app, (filter_cons_False _ _ []) by exact Hne.
      rewrite filter_nil, app_nil_r. exact Hd.
    + split; [|exact Hd]. by rewrite lookup_insert_ne.
Qed.

Lemma fold_add_row_indexed idx rows :
  indexed idx rows (fold_left (add_row idx) rows (∅, [])).
Proof.
  induction rows as [|r rows IH] using rev_ind.
  - apply indexed_nil.
  - rewrite fold_left_app. simpl. by apply indexed_step.
Qed.

End RowMap.

Section Aggregate.
Import RbuSpace.

Lemma aggregated_nil : aggregated [] ∅.
Proof. intros k. by rewrite lookup_empty. Qed.

Lemma last_filter_snoc {A} (P : A -> Prop) `{forall x, Decision (P x)} l x :
  last (filter P (l ++ [x])) = if decide (P x) then Some x else last (filter P l).
Proof.
  rewrite filter_app. destruct (decide (P x)).
  - rewrite (filter_cons_True _ x []) by assumption.
    rewrite filter_nil. apply last_snoc.
  - rewrite (filter_cons_False _ x []) by assumption.
    by rewrite filter_nil, app_nil_r.
Qed.

Lemma filter_nil_weaken {A} (P Q : A -> Prop)
    `{forall x, Decision (P x)} `{forall x, Decision (Q x)} l :
  (forall x, Q x -> P x) -> filter P l = [] -> filter Q l = [].
Proof.
  intros HQP. induction l as [|x l IH]; [reflexivity|].
  rewrite !filter_cons.
  destruct (decide (P x)); [discriminate|].
  destruct (decide (Q x)); [exfalso; auto | exact IH].
Qed.

Lemma aggregated_step recs agg rec :
  aggregated recs agg -> aggregated (recs ++ [rec]) (aggregate agg rec).
Proof.
  intros Hinv k. specialize (Hinv k) as Hk.
  specialize (Hinv (key_tuple rec)) as Hr.
  unfold aggregate, with_key, with_key_source in *.
  destruct (decide (key_tuple rec = k)) as [<-|Hne].
  - (* the record's own key *)
    set (k := key_tuple rec) in *.
    assert (Hnn : filter (fun r => key_tuple r = k) (recs ++ [rec]) <> []).
    { rewrite filter_app, (filter_cons_True _ rec []) by reflexivity.
      intros Heq. by apply app_eq_nil in Heq as [_ ?]. }
    destruct (agg !! k) as [e|] eqn:E.
    + rewrite !lookup_alter_eq, E. simpl.
      destruct Hk as (_ & Hmeta & Hvals).
      split; [exact Hnn|]. split; [exact Hmeta|].
      intros src. rewrite last_filter_snoc.
      destruct (Hvals src) as [Hv Ht].
      destruct (decide (source rec = src)) as [<-|Hs].
      * rewrite decide_True by done. by rewrite !lookup_insert_eq.
      * rewrite decide_False by tauto.
        rewrite !lookup_insert_ne by done. by split.
    + rewrite !lookup_alter_eq, lookup_insert_eq. simpl.
      split; [exact Hnn|]. split; [reflexivity|].
      intros src. rewrite last_filter_snoc.
      destruct (decide (source rec = src)) as [<-|Hs].
      * rewrite decide_True by done. by rewrite !lookup_insert_eq.
      * rewrite decide_False by tauto.
        rewrite !lookup_insert_ne, lookup_empty by done.
        assert (Hnil : filter (fun r => key_tuple r = k /\ source r = src)
                              recs = []).
        { eapply filter_nil_weaken; [|exact Hk]. by intros r [? _]. }
        by rewrite Hnil.
  - (* another key *)
    assert (Hlk : forall a,
               alter a (key_tuple rec) agg !! k = agg !! k)
      by (intros a; by apply lookup_alter_ne).
    assert (Hsame :
      alter (fun e => {| values := values e;
                         texts := <[source rec := value_text rec]> (texts e);
                         meta := meta e |}) (key_tuple rec)
        (alter (fun e => {| values := <[source rec := value_num rec]> (values e);
                            texts := texts e; meta := meta e |}) (key_tuple rec)
           match agg !! key_tuple rec with
           | Some _ => agg
           | None => <[key_tuple rec := {| values := ∅; texts := ∅;
                                           meta := key_tuple rec |}]> agg
           end) !! k = agg !! k).
    { rewrite !lookup_alter_ne by done.
      destruct (agg !! key_tuple rec); [done|]. by rewrite lookup_insert_ne. }
    rewrite Hsame.
    rewrite filter_app, (filter_cons_False _ rec []) by exact Hne.
    rewrite filter_nil, app_nil_r.
    destruct (agg !! k) as [e|]; [|exact Hk].
    destruct Hk as (Hnn & Hmeta & Hvals). split; [exact Hnn|].
    split; [exact Hmeta|]. intros src. rewrite last_filter_snoc.
    rewrite decide_False by tauto. apply Hvals.
Qed.

Lemma fold_aggregate_aggregated recs :
  aggregated recs (fold_left aggregate recs ∅).
Proof.
  induction recs as [|r recs IH] using rev_ind.
  - apply aggregated_nil.
  - rewrite fold_left_app. simpl. by apply aggregated_step.
Qed.

End Aggregate.
End IndexFacts.

Module IndexPolicy.
Import Py IndexTerms IndexFacts.
Import IndexPolicyTerms.

Section Finalize.
Import RbuSpace.

Lemma setdefault_lookup {V} k (x : V) d k' :
  setdefault k x d !! k' =
  match d !! k' with
  | Some y => Some y
  | None => if decide (k' = k) then Some x else None
  end.
Proof.
  unfold setdefault. destruct (d !! k) as [y|] eqn:E.
  - destruct (d !! k') as [y'|] eqn:E'; [reflexivity|].
    destruct (decide (k' = k)) as [->|]; [congruence | reflexivity].
  - destruct (decide (k' = k)) as [->|Hne].
    + by rewrite lookup_insert_eq, E.
    + rewrite lookup_insert_ne by done. by destruct (d !! k').
Qed.

Lemma with_defaults_values srcs v src :
  values (with_defaults srcs v) !! src =
  match values v !! src with
  | Some x => Some x
  | None => if decide (src ∈ srcs) then Some None else None
  end.
Proof.
  unfold with_defaults. revert v.
  induction srcs as [|s srcs IH]; intros v; cbn [fold_left].
  - destruct (values v !! src); [reflexivity|].
    rewrite decide_False; [reflexivity | apply not_elem_of_nil].
  - rewrite IH. cbn [values]. rewrite setdefault_lookup.
    destruct (values v !! src) as [x|]; [reflexivity|].
    destruct (decide (src = s)) as [->|Hne].
    + rewrite decide_True; [reflexivity | apply list_elem_of_here].
    + destruct (decide (src ∈ srcs)) as [Hin|Hnin].
      * rewrite decide_True; [reflexivity | by apply list_elem_of_further].
      * rewrite decide_False; [reflexivity|].
        intros Hin. apply elem_of_cons in Hin as [?|?]; contradiction.
Qed.

(** For every key and source, [compare_records] reports the value of the
    last record with that key from that source; a source of
    [sources_in_order] without such a record gets [None]. *)
Lemma compare_records_last_wins recs srcs k :
  match compare_records recs srcs !! k with
  | None => with_key k recs = []
  | Some e =>
      with_key k recs <> []
      /\ forall src,
          values e !! src =
          match last (with_key_source k src recs) with
          | Some r => Some (value_num r)
          | None => if decide (src ∈ srcs) then Some None else None
          end
  end.
Proof.
  unfold compare_records. rewrite lookup_fmap.
  pose proof (fold_aggregate_aggregated recs k) as H.
  destruct (fold_left aggregate recs ∅ !! k) as [e|]; simpl; [|exact H].
  destruct H as (Hnn & _ & Hv). split; [exact Hnn|]. intros src.
  fold (with_defaults srcs e). rewrite with_defaults_values.
  destruct (Hv src) as [-> _].
  by destruct (last (with_key_source k src recs)).
Qed.

End Finalize.

Section Policy.
Context `{B : Builtins}.

(** C1, as the code has it.  [build_row_map] keeps, for every key, the
    first row with that key in scan order, and appends the key to
    [duplicates] once for every further row with it.  [compare_records]
    of rbuSpace.py has no duplicate list: for a key and a source it keeps
    the value of the last record. *)
Theorem first_row_kept_later_rows_flagged :
  (forall rows headers key_cols idx,
      CodeWithRow.key_indexes headers key_cols = Ok idx ->
      exists row_map duplicates,
        CodeWithRow.build_row_map rows headers key_cols
        = Ok (row_map, duplicates)
        /\ forall k,
            row_map !! k = head (rows_with_key idx k rows)
            /\ times_flagged k duplicates
               = (length (rows_with_key idx k rows) - 1)%nat)
  /\
  (forall recs srcs k src r,
      last (with_key_source k src recs) = Some r ->
      exists e,
        RbuSpace.compare_records recs srcs !! k = Some e
        /\ RbuSpace.values e !! src = Some (RbuSpace.value_num r)).
Proof.
  split.
  - intros rows headers key_cols idx Hidx.
    unfold CodeWithRow.build_row_map. rewrite Hidx. simpl.
    destruct (fold_left _ rows _) as [row_map duplicates] eqn:E.
    exists row_map, duplicates. split; [reflexivity|].
    intros k. pose proof (fold_add_row_indexed idx rows k) as H.
    by rewrite E in H.
  - intros recs srcs k src r Hlast.
    pose proof (compare_records_last_wins recs srcs k) as H.
    destruct (RbuSpace.compare_records recs srcs !! k) as [e|].
    + exists e. split; [reflexivity|]. destruct H as [_ H].
      by rewrite H, Hlast.
    + unfold with_key_source in Hlast. unfold with_key in H.
      rewrite (filter_nil_weaken (fun r => RbuSpace.key_tuple r = k)
                 (fun r => RbuSpace.key_tuple r = k /\ RbuSpace.source r = src)
                 recs) in Hlast; [discriminate| |exact H].
      by intros x [? _].
Qed.

End Policy.
Import RbuSpace.

(** Two records of one source with the same key: [compare_records] keeps
    the value and the text of the second one, not of the first. *)
Lemma compare_records_overwrites_first :
  key_tuple rec_first = key_tuple rec_second
  /\ source rec_first = source rec_second
  /\ exists e,
      compare_records [rec_first; rec_second] [lit "a.csv"]
        !! key_tuple rec_first = Some e
      /\ values e !! lit "a.csv" = Some (value_num rec_second)
      /\ texts e !! lit "a.csv" = Some (value_text rec_second)
      /\ value_num rec_second <> value_num rec_first
      /\ value_text rec_second <> value_text rec_first.
Proof.
  split; [reflexivity|]. split; [reflexivity|].
  eexists. split; [vm_compute; reflexivity|].
  split; [vm_compute; reflexivity|].
  split; [vm_compute; reflexivity|].
  split; vm_compute; discriminate.
Qed.

(** The first part at a file with a repeated key, the second at the two
    records above. *)
Lemma first_row_kept_later_rows_flagged_witness :
  (exists row_map duplicates,
      CodeWithRow.build_row_map (B := Ascii7.ascii)
        [[lit "F1"; lit "111"; lit "a"];
         [lit "F2"; lit "222"; lit "b"];
         [lit "F1"; lit "111"; lit "c"]]
        [lit "Formulary"; lit "NDC11"; lit "Rate"] CodeWithRow.KEY_COLUMNS
      = Ok (row_map, duplicates)
      /\ row_map !! [lit "F1"; lit "111"]
         = Some [lit "F1"; lit "111"; lit "a"]
      /\ times_flagged [lit "F1"; lit "111"] duplicates = 1%nat)
  /\ exists e,
      compare_records [rec_first; rec_second] [lit "a.csv"]
        !! key_tuple rec_first = Some e
      /\ values e !! lit "a.csv" = Some (value_num rec_second).
Proof.
  destruct (first_row_kept_later_rows_flagged (B := Ascii7.ascii))
    as [Hrows Hrecs].
  split.
  - destruct (Hrows
                [[lit "F1"; lit "111"; lit "a"];
                 [lit "F2"; lit "222"; lit "b"];
                 [lit "F1"; lit "111"; lit "c"]]
                [lit "Formulary"; lit "NDC11"; lit "Rate"]
                CodeWithRow.KEY_COLUMNS [0%nat; 1%nat])
      as (row_map & duplicates & Hb & Hk).
    + vm_compute. reflexivity.
    + exists row_map, duplicates. split; [exact Hb|].
      destruct (Hk [lit "F1"; lit "111"]) as [H1 H2].
      split; [rewrite H1 | rewrite H2]; vm_compute; reflexivity.
  - apply (Hrecs [rec_first; rec_second] [lit "a.csv"]
                 (key_tuple rec_first) (lit "a.csv") rec_second).
    vm_compute. reflexivity.
Defined.

End IndexPolicy.

(** ** Floats *)

Module FloatFacts.
Import Py.

Lemma shr_1_nonneg mrs : (0 <= shr_m mrs)%Z -> (0 <= shr_m (shr_1 mrs))%Z.
Proof.
  destruct mrs as [m r s]. simpl.
  destruct m as [|p|p]; simpl; intros H; try lia; destruct p; simpl; lia.
Qed.

Lemma iter_shr_1_nonneg p mrs :
  (0 <= shr_m mrs)%Z -> (0 <= shr_m (SpecFloat.iter_pos shr_1 p mrs))%Z.
Proof.
  revert mrs. induction p as [p IH|p IH|]; intros mrs H; simpl.
  - apply IH, IH, shr_1_nonneg, H.
  - apply IH, IH, H.
  - apply shr_1_nonneg, H.
Qed.

Lemma shr_fexp_nonneg prec emax m e l :
  (0 <= m)%Z -> (0 <= shr_m (shr_fexp prec emax m e l).1)%Z.
Proof.
  intros H. unfold shr_fexp, shr.
  assert (H0 : (0 <= shr_m (shr_record_of_loc m l))%Z)
    by (destruct l as [|[]]; exact H).
  destruct (_ - e)%Z; simpl; try exact H0. by apply iter_shr_1_nonneg.
Qed.

Lemma round_nearest_even_nonneg m l :
  (0 <= m)%Z -> (0 <= round_nearest_even m l)%Z.
Proof.
  intros H. destruct l as [|[]]; simpl; try lia. destruct (Z.even m); lia.
Qed.

(** Rounding a non-negative mantissa never gives NaN. *)
Lemma binary_round_aux_not_nan prec emax sx mx ex lx :
  (0 <= mx)%Z -> isnan (binary_round_aux prec emax sx mx ex lx) = false.
Proof.
  intros H. unfold binary_round_aux.
  pose proof (shr_fexp_nonneg prec emax mx ex lx H) as H1.
  destruct (shr_fexp prec emax mx ex lx) as [mrs' e']. simpl in H1.
  pose proof (shr_fexp_nonneg prec emax _ e' loc_Exact
                (round_nearest_even_nonneg _ (loc_of_shr_record mrs') H1))
    as H2.
  destruct (shr_fexp prec emax _ e' loc_Exact) as [mrs'' e'']. simpl in H2.
  destruct (shr_m mrs'') as [|p|p]; [reflexivity| |lia].
  by destruct (_ <=? _)%Z.
Qed.

Lemma binary_normalize_not_nan prec emax m e szero :
  isnan (binary_normalize prec emax m e szero) = false.
Proof.
  destruct m as [|p|p]; simpl; [reflexivity|..]; unfold binary_round;
    destruct (shl_align _ _ _) as [mz ez];
    apply binary_round_aux_not_nan; lia.
Qed.

(** The difference of two finite floats is a number (it may overflow to an
    infinity). *)
Lemma fsub_finite_not_nan a b :
  is_finite a = true -> is_finite b = true -> isnan (fsub a b) = false.
Proof.
  unfold fsub. destruct a as [sa|sa| |sa ma ea], b as [sb|sb| |sb mb eb];
    simpl; try discriminate; intros _ _.
  - by destruct sa, sb.
  - reflexivity.
  - reflexivity.
  - apply binary_normalize_not_nan.
Qed.

Lemma fabs_not_nan a : isnan (fabs a) = isnan a.
Proof. by destruct a. Qed.

Lemma SFcompare_antisym a b :
  isnan a = false -> isnan b = false ->
  SFcompare b a = option_map CompOpp (SFcompare a b).
Proof.
  destruct a as [sa|sa| |sa ma ea], b as [sb|sb| |sb mb eb];
    simpl; try discriminate; intros _ _;
    try (destruct sa; reflexivity); try (destruct sb; reflexivity);
    try (destruct sa, sb; reflexivity).
  destruct sa, sb; try reflexivity; f_equal;
    rewrite (Z.compare_antisym ea eb);
    destruct (ea ?= eb)%Z; simpl; try reflexivity;
    change (Pos.compare_cont Eq ?x ?y) with (Pos.compare x y);
    rewrite (Pos.compare_antisym ma mb);
    by destruct (ma ?= mb)%positive.
Qed.

(** On numbers, [a > b] is the negation of [a <= b]. *)
Lemma fgt_negb_fle a b :
  isnan a = false -> isnan b = false -> fgt a b = negb (fle a b).
Proof.
  intros Ha Hb. unfold fgt, fle, SFltb, SFleb.
  rewrite (SFcompare_antisym a b Ha Hb).
  destruct a as [sa|sa| |sa ma ea], b as [sb|sb| |sb mb eb];
    try discriminate; simpl;
    try (destruct sa; reflexivity); try (destruct sb; reflexivity);
    try (destruct sa, sb; reflexivity).
  destruct sa, sb; try reflexivity;
    destruct (ea ?= eb)%Z; simpl; try reflexivity;
    by destruct (Pos.compare_cont Eq ma mb).
Qed.

(** [float] passes over the blanks of C before and after a number and
    over no other character: a file separator, which [str.strip]
    removes, is no part of a number. *)
Example float_passes_over_blanks :
  Ascii7.float_of_ascii ([32; 9; 10] ++ lit "12" ++ [11; 12; 13])
  = Some (float_of_Z 12).
Proof. vm_compute. reflexivity. Qed.

Example float_keeps_separators :
  Ascii7.float_of_ascii (28 :: lit "12") = None
  /\ Ascii7.float_of_ascii (lit "12" ++ [31]) = None
  /\ CompareRateBuildUp.is_floaty (B := Ascii7.ascii)
       (lit "$" ++ 28 :: lit "5") = false
  /\ CompareRateBuildUp.is_floaty (B := Ascii7.ascii)
       (28 :: lit "$5") = true.
Proof. repeat split; vm_compute; reflexivity. Qed.

End FloatFacts.

(** ** Numeric tolerance *)

Module ToleranceFacts.
Import Py FloatFacts CompareRateBuildUp.
Import ToleranceTerms.

Section Tolerance.
Context `{B : Builtins}.

(** A value whose [to_float] is a number is one that [is_floaty] accepts. *)
Lemma to_float_number_is_floaty v :
  isnan (to_float v) = false -> is_floaty v = true.
Proof.
  unfold to_float, is_floaty. destruct (is_missing (strip v)); [discriminate|].
  destruct (float_of_str _) as [f|]; [|discriminate].
  intros _. by apply bool_decide_eq_true.
Qed.

Lemma is_finite_not_nan f : is_finite f = true -> isnan f = false.
Proof. by destruct f. Qed.

(** The loop body at two values that parse as finite numbers: a match
    when [|v1 - v2| <= tolerance], the boundary included, and else one
    numeric mismatch whose [diff] is that distance. *)
Lemma compare_key_numbers
    idx1 idx2 tolerance mismatches matches k v1 c1 v2 c2 :
  idx1 !! k = Some (v1, c1) ->
  idx2 !! k = Some (v2, c2) ->
  is_finite (to_float v1) = true ->
  is_finite (to_float v2) = true ->
  isnan tolerance = false ->
  compare_key idx1 idx2 tolerance (mismatches, matches) k =
  if fle (fabs (fsub (to_float v1) (to_float v2))) tolerance
  then Ok (mismatches, S matches)
  else Ok (mismatches
             ++ [mk_mismatch k c1 c2 v1 v2
                   (Fmt6g (fabs (fsub (to_float v1) (to_float v2)))) numeric],
           matches).
Proof.
  intros H1 H2 F1 F2 Ht. unfold compare_key, lookup_key.
  rewrite H1, H2. simpl.
  rewrite (to_float_number_is_floaty v1) by by apply is_finite_not_nan.
  simpl. rewrite (is_finite_not_nan _ F1), (is_finite_not_nan _ F2). simpl.
  rewrite fgt_negb_fle.
  - by destruct (fle _ tolerance).
  - rewrite fabs_not_nan. by apply fsub_finite_not_nan.
  - exact Ht.
Qed.

End Tolerance.

(** Both sides of the boundary, and the scenarios of the specification:
    [$1,200.00] against [1200.01] and against [1198.00] at tolerance
    [0.01]. *)
Example tolerance_just_above :
  compare_key (B := Ascii7.ascii) idx_three idx_one
              (default S754_nan (Ascii7.float_of_ascii (lit "1.9999999999999998")))
              ([], 0%nat) key_retail
  = Ok ([mk_mismatch key_retail (lit "B") (lit "C") (lit "3") (lit "1")
           (Fmt6g (float_of_Z 2)) numeric], 0%nat).
Proof. vm_compute. reflexivity. Qed.

Example scenario_within_tolerance :
  compare_records (B := Ascii7.ascii)
    (recs_of_value (lit "$1,200.00")) (recs_of_value (lit "1200.01"))
    (default S754_nan (Ascii7.float_of_ascii (lit "0.01")))
  = Ok ([], 1%nat).
Proof. vm_compute. reflexivity. Qed.

Example scenario_outside_tolerance :
  compare_records (B := Ascii7.ascii)
    (recs_of_value (lit "$1,200.00")) (recs_of_value (lit "1198.00"))
    (default S754_nan (Ascii7.float_of_ascii (lit "0.01")))
  = Ok ([mk_mismatch key_retail (lit "B") (lit "B")
           (lit "$1,200.00") (lit "1198.00") (Fmt6g (float_of_Z 2)) numeric],
        0%nat).
Proof. vm_compute. reflexivity. Qed.

End ToleranceFacts.

(** ** The matcher decides the language of a pattern *)

Module RegexFacts.
Import Regex.












End RegexFacts.

(** ** Percent cells *)

Module PercentFacts.
Import Py RbuSpace.
Import PercentTerms.

Section Percent.
Context `{B : Builtins}.




Import Regex RegexFacts.





End Percent.



End PercentFacts.

(** ** The channel of a row that starts with a number *)

Module ChannelFacts.
Import Py.
Import ChannelTerms.

(** A loop whose body appends one element with property [P]. *)
Lemma for_res_appends {A R} (body : list R -> A -> res (list R))
    (P : R -> Prop) (l : list A) (acc out : list R) :
  (forall acc x acc', body acc x = Ok acc' -> exists y, acc' = acc ++ [y] /\ P y) ->
  for_res body l acc = Ok out ->
  exists new, out = acc ++ new /\ length new = length l /\ Forall P new.
Proof.
  intros Hbody. revert acc. induction l as [|x l IH]; intros acc; simpl.
  - intros [= <-]. exists []. by rewrite app_nil_r.
  - destruct (body acc x) as [acc'| |] eqn:E; simpl; try discriminate.
    intros H. destruct (Hbody _ _ _ E) as (y & -> & Hy).
    destruct (IH _ H) as (new & -> & Hlen & Hall).
    exists (y :: new). rewrite <- app_assoc. simpl.
    repeat split; [by rewrite Hlen | by constructor].
Qed.

Lemma getitem_Some {A} (l : list A) i x : l !! i = Some x -> getitem l i = Ok x.
Proof. unfold getitem. by intros ->. Qed.

(** [row[-1]] is the last cell. *)
Lemma getitem_minus_one {A} (row : list A) x :
  last row = Some x -> getitem_Z row (-1) = Ok x.
Proof.
  intros H. unfold getitem_Z. simpl.
  destruct row as [|a row]; [discriminate|].
  replace (0 <=? Z.of_nat (length (a :: row)) + -1)%Z with true
    by (symmetry; apply Z.leb_le; simpl; lia).
  unfold getitem.
  replace (Z.to_nat (Z.of_nat (length (a :: row)) + -1))
    with (pred (length (a :: row))) by (simpl; lia).
  by rewrite <- last_lookup, H.
Qed.

(** [row[i - 1]] for an index [i] of the row: it never raises, and for
    [i = 0] it is the last cell. *)
Lemma getitem_before {A} (row : list A) (i : nat) :
  (i < length row)%nat ->
  exists x, getitem_Z row (Z.of_nat i - 1) = Ok x
            /\ (i = 0%nat -> last row = Some x).
Proof.
  intros Hi. destruct i as [|i].
  - destruct (last row) as [x|] eqn:E.
    + exists x. split; [by apply getitem_minus_one | done].
    + apply last_None in E. subst row. simpl in Hi. lia.
  - unfold getitem_Z.
    replace (0 <=? Z.of_nat (S i) - 1)%Z with true
      by (symmetry; apply Z.leb_le; lia).
    replace (Z.to_nat (Z.of_nat (S i) - 1)) with i by lia.
    destruct (lookup_lt_is_Some_2 row i) as [x Hx]; [lia|].
    exists x. unfold getitem. rewrite Hx. split; [reflexivity | discriminate].
Qed.

Lemma omap_imap_index {A} (p : A -> bool) (row : list A) (n : nat) :
  n ∈ omap (fun cv : nat * A => if p cv.2 then Some cv.1 else None)
           (imap (fun c v => (c, v)) row) ->
  (n < length row)%nat.
Proof.
  intros H. apply list_elem_of_omap in H as ([c v] & Hin & Hc).
  apply elem_of_lookup_imap_1 in Hin as (i & w & [= -> ->] & Hi).
  simpl in Hc. destruct (p w); [|discriminate].
  injection Hc as <-. by eapply lookup_lt_Some.
Qed.

Section Channel.
Context `{B : Builtins}.

Lemma csv_first_num_col row n0 rest :
  RbuCsv.num_cols row = n0 :: rest -> (n0 < length row)%nat.
Proof.
  intros H. apply (omap_imap_index RbuCsv.is_number).
  fold (RbuCsv.num_cols row). rewrite H. apply list_elem_of_here.
Qed.

Lemma xlsx_first_num_col row n0 rest :
  Rbu.num_cols row = n0 :: rest -> (n0 < length row)%nat.
Proof.
  intros H. apply (omap_imap_index Rbu.is_number).
  fold (Rbu.num_cols row). rewrite H. apply list_elem_of_here.
Qed.

Lemma csv_extract_row_channel g src sm grp sub per records r row n0 rest ch out :
  g !! r = Some row ->
  RbuCsv.num_cols row = n0 :: rest ->
  getitem_Z row (Z.of_nat n0 - 1) = Ok ch ->
  RbuCsv.extract_row g src sm grp sub per records r = Ok out ->
  exists new, out = records ++ new /\ length new = S (length rest)
              /\ Forall (fun rec => RbuCsv.channel rec = strip ch) new.
Proof.
  intros Hr Hn Hch. unfold RbuCsv.extract_row.
  rewrite (getitem_Some _ _ _ Hr). unfold mbind, res_bind. cbv beta iota.
  rewrite Hn, Hch. cbv beta iota. intros H.
  apply (for_res_appends _ (fun rec => RbuCsv.channel rec = strip ch)) in H;
    [exact H|].
  clear. intros acc c acc'.
  destruct (lookup_key sm c); simpl; try discriminate.
  destruct (getitem grp c); simpl; try discriminate.
  destruct (getitem sub c); simpl; try discriminate.
  destruct (getitem per c); simpl; try discriminate.
  destruct (getitem row c); simpl; try discriminate.
  intros [= <-]. eauto.
Qed.

Lemma xlsx_extract_row_channel g src sm grp sub per records r row n0 rest ch out :
  g !! r = Some row ->
  Rbu.num_cols row = n0 :: rest ->
  getitem_Z row (Z.of_nat n0 - 1) = Ok ch ->
  Rbu.extract_row g src sm grp sub per records r = Ok out ->
  exists new, out = records ++ new /\ length new = S (length rest)
              /\ Forall (fun rec => Rbu.channel rec = strip ch) new.
Proof.
  intros Hr Hn Hch. unfold Rbu.extract_row.
  rewrite (getitem_Some _ _ _ Hr). unfold mbind, res_bind. cbv beta iota.
  rewrite Hn, Hch. cbv beta iota. intros H.
  apply (for_res_appends _ (fun rec => Rbu.channel rec = strip ch)) in H;
    [exact H|].
  clear. intros acc c acc'.
  destruct (lookup_key sm c); simpl; try discriminate.
  destruct (getitem grp c); simpl; try discriminate.
  destruct (getitem sub c); simpl; try discriminate.
  destruct (getitem per c); simpl; try discriminate.
  destruct (getitem row c); simpl; try discriminate.
  intros [= <-]. eauto.
Qed.

End Channel.

Example extract_records_leading_number :
  (fun recs => map (fun rec => (RbuCsv.channel rec, RbuCsv.raw rec)) recs)
    <$> RbuCsv.extract_records (B := Ascii7.ascii) grid_leading_number
          (lit "a.csv")
  = Ok [(lit "Retail", lit "10"); (lit "Retail", lit "20")].
Proof. vm_compute. reflexivity. Qed.

End ChannelFacts.

(** ** Segmentation reads blankness only *)

Module BlankFacts.
Import Py RbuSpace.
Import BlankTerms.

Section Blank.

Lemma blank_eq_length g1 g2 : blank_eq g1 g2 -> length g1 = length g2.
Proof. apply Forall2_length. Qed.

(** Whatever is computed from the blankness of a cell is the same in both
    grids, also when reading the cell raises. *)
Lemma cell_blank_eq {A} g1 g2 (f : bool -> A) r c :
  blank_eq g1 g2 ->
  (v ← cell g1 r c; Ok (f (is_blank v)))
  = (v ← cell g2 r c; Ok (f (is_blank v))).
Proof.
  intros H. unfold cell, getitem.
  pose proof (proj1 (Forall2_lookup _ _ _) H r) as Hr.
  destruct Hr as [row1 row2 Hrow|]; simpl; [|reflexivity].
  pose proof (proj1 (Forall2_lookup _ _ _) Hrow c) as Hc.
  destruct Hc as [v1 v2 Hv|]; simpl; [|reflexivity]. by rewrite Hv.
Qed.

Lemma any_res_ext {A} (p q : A -> res bool) l :
  (forall x, p x = q x) -> any_res p l = any_res q l.
Proof.
  intros H. induction l as [|x l IH]; simpl; [reflexivity|].
  by rewrite H, IH.
Qed.

Lemma all_res_ext {A} (p q : A -> res bool) l :
  (forall x, p x = q x) -> all_res p l = all_res q l.
Proof.
  intros H. induction l as [|x l IH]; simpl; [reflexivity|].
  by rewrite H, IH.
Qed.

Lemma first_res_ext (p q : nat -> res bool) l :
  (forall x, p x = q x) -> first_res p l = first_res q l.
Proof.
  intros H. induction l as [|x l IH]; simpl; [reflexivity|].
  by rewrite H, IH.
Qed.

Lemma first_non_empty_row_blank_eq g1 g2 cols start_row :
  blank_eq g1 g2 ->
  first_non_empty_row_in_cols g1 cols start_row
  = first_non_empty_row_in_cols g2 cols start_row.
Proof.
  intros H. unfold first_non_empty_row_in_cols.
  rewrite (blank_eq_length _ _ H).
  apply first_res_ext. intros r. apply any_res_ext. intros c.
  apply (cell_blank_eq g1 g2 negb _ _ H).
Qed.

Lemma right_boundary_loop_blank_eq g1 g2 row sorted_cols start_col started
    boundary l :
  blank_eq g1 g2 ->
  right_boundary_loop g1 row sorted_cols start_col started boundary l
  = right_boundary_loop g2 row sorted_cols start_col started boundary l.
Proof.
  intros H. revert started.
  induction l as [|c l IH]; intros started; simpl; [reflexivity|].
  destruct (negb (if (c =? start_col)%nat then true else started));
    [apply IH|].
  pose proof (cell_blank_eq g1 g2 (fun b => b) row c H) as Hc.
  destruct (cell g1 row c) as [v1| |], (cell g2 row c) as [v2| |];
    simpl in *; try discriminate; try congruence.
  injection Hc as ->. destruct (is_blank v2); [reflexivity | apply IH].
Qed.

Lemma right_boundary_blank_eq g1 g2 row cols start_col :
  blank_eq g1 g2 ->
  right_boundary_in_row_until_empty_col g1 row cols start_col
  = right_boundary_in_row_until_empty_col g2 row cols start_col.
Proof.
  intros H. unfold right_boundary_in_row_until_empty_col.
  destruct (if bool_decide _ then _ else _); simpl; try reflexivity.
  destruct (getitem_Z _ _); simpl; try reflexivity.
  by apply right_boundary_loop_blank_eq.
Qed.

Lemma scan_down_blank_eq g1 g2 n rr left right :
  blank_eq g1 g2 ->
  scan_down n g1 rr left right = scan_down n g2 rr left right.
Proof.
  intros H. revert rr. induction n as [|n IH]; intros rr; simpl; [reflexivity|].
  rewrite (all_res_ext _ (fun c => v ← cell g2 rr c; Ok (is_blank v)))
    by (intros c; apply (cell_blank_eq g1 g2 (fun b => b) _ _ H)).
  destruct (all_res _ _) as [[]| |]; simpl; try reflexivity. apply IH.
Qed.

Lemma blocks_loop_blank_eq g1 g2 fuel cols r blocks :
  blank_eq g1 g2 ->
  blocks_loop fuel g1 cols r blocks = blocks_loop fuel g2 cols r blocks.
Proof.
  intros H. revert r blocks.
  induction fuel as [|fuel IH]; intros r blocks; simpl; [reflexivity|].
  rewrite (first_non_empty_row_blank_eq g1 g2 _ _ H).
  destruct (first_non_empty_row_in_cols g2 cols r) as [[top|]| |];
    simpl; try reflexivity.
  rewrite (right_boundary_blank_eq g1 g2 _ _ _ H).
  destruct (right_boundary_in_row_until_empty_col g2 top cols _)
    as [right| |]; simpl; try reflexivity.
  rewrite (blank_eq_length _ _ H), (scan_down_blank_eq g1 g2 _ _ _ _ H).
  destruct (scan_down _ g2 top _ right) as [rr| |]; simpl; try reflexivity.
  apply IH.
Qed.

(** C7. Two grids of equal dimensions that agree on which cells are blank
    get the same block rectangles for the same section columns and section
    row, and the search ends after the same number of turns in both (or in
    neither): the cell texts, date windows included, are never looked
    at. *)
Theorem blocks_depend_on_blankness_only g1 g2 :
  blank_eq g1 g2 ->
  forall fuel section_cols section_row,
    find_table_blocks_in_section fuel g1 section_cols section_row
    = find_table_blocks_in_section fuel g2 section_cols section_row.
Proof.
  intros H fuel cols sr. unfold find_table_blocks_in_section.
  destruct cols; [reflexivity|]. by apply blocks_loop_blank_eq.
Qed.

End Blank.

Lemma blocks_depend_on_blankness_only_witness :
  find_table_blocks_in_section 5 grid_dates
    [0%nat; 1%nat; 2%nat] 0
  = find_table_blocks_in_section 5 grid_no_dates
      [0%nat; 1%nat; 2%nat] 0.
Proof.
  apply (blocks_depend_on_blankness_only grid_dates grid_no_dates).
  repeat (constructor; try reflexivity).
Defined.

Example blocks_of_grid_dates :
  find_table_blocks_in_section 5 grid_dates
    [0%nat; 1%nat; 2%nat] 0
  = Ok [(1, 2, 0, 2); (4, 4, 0, 2)]%nat.
Proof. vm_compute. reflexivity. Qed.

Lemma find_table_blocks_diverges fuel :
  find_table_blocks_in_section fuel grid_blank_corner
    [0%nat; 1%nat] 0
  = NoFuel.
Proof.
  unfold find_table_blocks_in_section.
  generalize (@nil block). induction fuel as [|fuel IH]; intros blocks.
  - reflexivity.
  - change (blocks_loop (S fuel) grid_blank_corner
              [0%nat; 1%nat] (0 + 1) blocks)
      with (blocks_loop fuel grid_blank_corner
              [0%nat; 1%nat] (0 + 1) (blocks ++ [(1, 0, 0, 0)%nat])).
    apply IH.
Qed.

End BlankFacts.

(** ** The run of a section label *)

Module SectionFacts.
Import Py RbuSpace.
Import SectionTerms.

Lemma cell_in_grid g r c :
  rectangular g -> (r < length g)%nat -> (c < width g)%nat ->
  cell g r c = Ok (cell_text g r c).
Proof.
  intros Hrect Hr Hc. unfold cell, cell_text, getitem.
  destruct (lookup_lt_is_Some_2 g r Hr) as [row Hrow]. rewrite Hrow. simpl.
  assert (Hlen : length row = width g).
  { eapply (proj1 (Forall_forall _ _) Hrect). by eapply list_elem_of_lookup_2. }
  destruct (lookup_lt_is_Some_2 row c) as [v Hv]; [lia|]. by rewrite Hv.
Qed.

Lemma range_lt a b r : r ∈ range a b -> (a <= r < b)%nat.
Proof. unfold range. rewrite list_elem_of_In, in_seq. lia. Qed.

Lemma count_blank_loop g c rows n :
  rectangular g -> (c < width g)%nat ->
  Forall (fun r => (r < length g)%nat) rows ->
  for_res (fun n r => v ← cell g r c; Ok (if is_blank v then S n else n))
          rows n
  = Ok (n + length (filter (fun r => is_blank (cell_text g r c) = true) rows))%nat.
Proof.
  intros Hrect Hc Hrows. revert n.
  induction Hrows as [|r rows Hr _ IH]; intros n; simpl.
  - by rewrite Nat.add_0_r.
  - rewrite (cell_in_grid g r c Hrect Hr Hc). simpl. rewrite IH.
    rewrite filter_cons. destruct (is_blank (cell_text g r c)) eqn:E.
    + rewrite decide_True by done. simpl. f_equal. lia.
    + rewrite decide_False by congruence. reflexivity.
Qed.

Lemma consecutive_blank_headers_spec g c header_rows :
  rectangular g -> (c < width g)%nat ->
  consecutive_blank_headers_in_col g c header_rows
  = Ok (blank_tiers g header_rows c).
Proof.
  intros Hrect Hc. unfold consecutive_blank_headers_in_col, blank_tiers.
  rewrite (count_blank_loop g c _ 0 Hrect Hc); [reflexivity|].
  apply Forall_forall. intros r Hr%range_lt. lia.
Qed.

Lemma any_data_loop g c rows :
  rectangular g -> (c < width g)%nat ->
  Forall (fun r => (r < length g)%nat) rows ->
  any_res (fun r => v ← cell g r c; Ok (negb (is_blank v))) rows
  = Ok (existsb (fun r => negb (is_blank (cell_text g r c))) rows).
Proof.
  intros Hrect Hc Hrows. induction Hrows as [|r rows Hr _ IH]; simpl.
  - reflexivity.
  - rewrite (cell_in_grid g r c Hrect Hr Hc). simpl.
    destruct (negb (is_blank (cell_text g r c))); [reflexivity | exact IH].
Qed.

Lemma column_has_any_data_spec g c data_start_row :
  rectangular g -> (c < width g)%nat ->
  column_has_any_data g c data_start_row = Ok (has_data g data_start_row c).
Proof.
  intros Hrect Hc. unfold column_has_any_data, has_data.
  apply any_data_loop; [done..|].
  apply Forall_forall. intros r Hr%range_lt. lia.
Qed.

(** The inner loop on a rectangular grid: it returns, the column [c2] at
    which it stops is the first one from [c] on at which a run ends (or
    the width of the grid), and exactly the columns before it get the
    label. *)
Lemma fill_run_spec n g header_rows data_start_row min_blank_sep label c sec_map :
  rectangular g -> (c + n = width g)%nat ->
  exists c2 sec_map',
    fill_run n g header_rows data_start_row min_blank_sep label c sec_map
    = Ok (sec_map', c2)
    /\ (c <= c2 <= width g)%nat
    /\ (forall j, (c <= j < c2)%nat ->
          ends_run g header_rows data_start_row min_blank_sep j = false)
    /\ ((c2 < width g)%nat ->
          ends_run g header_rows data_start_row min_blank_sep c2 = true)
    /\ forall j, sec_map' !! j
                 = if decide (c <= j < c2)%nat then Some label
                   else sec_map !! j.
Proof.
  intros Hrect. revert c sec_map.
  induction n as [|n IH]; intros c sec_map Hn; simpl.
  - exists c, sec_map. split; [reflexivity|]. split; [lia|].
    split; [intros j; lia|]. split; [lia|].
    intros j. rewrite decide_False by lia. reflexivity.
  - assert (Hc : (c < width g)%nat) by lia.
    rewrite (consecutive_blank_headers_spec g c _ Hrect Hc). simpl.
    rewrite (column_has_any_data_spec g c _ Hrect Hc). simpl.
    fold (ends_run g header_rows data_start_row min_blank_sep c).
    destruct (ends_run g header_rows data_start_row min_blank_sep c) eqn:E.
    + exists c, sec_map. split; [reflexivity|]. split; [lia|].
      split; [intros j; lia|]. split; [done|].
      intros j. rewrite decide_False by lia. reflexivity.
    + assert (Hd : has_data g data_start_row c = true).
      { unfold ends_run in E. apply orb_false_iff in E as [_ E].
        by apply negb_false_iff in E. }
      rewrite Hd.
      destruct (IH (S c) (<[c := label]> sec_map)) as (c2 & m' & Hrun & Hb & Hno & Hend & Hm);
        [lia|].
      exists c2, m'. split; [exact Hrun|]. split; [lia|].
      split; [|split; [exact Hend|]].
      * intros j Hj. destruct (decide (j = c)) as [->|Hne]; [exact E|].
        apply Hno. lia.
      * intros j. rewrite Hm.
        destruct (decide (j = c)) as [->|Hne].
        -- rewrite decide_False by lia. rewrite decide_True by lia.
           apply lookup_insert_eq.
        -- destruct (decide (S c <= j < c2)%nat).
           ++ rewrite decide_True by lia. reflexivity.
           ++ rewrite decide_False by lia. by apply lookup_insert_ne.
Qed.

Lemma section_cell_read g section_row c :
  rectangular g -> (c < width g)%nat ->
  (if (section_row <? length g)%nat then cell g section_row c else Ok [])
  = Ok (section_cell g section_row c).
Proof.
  intros Hrect Hc. unfold section_cell.
  destruct (section_row <? length g)%nat eqn:E; [|reflexivity].
  apply Nat.ltb_lt in E. by apply cell_in_grid.
Qed.

(** One turn of the outer loop at a column without a label. *)
Lemma scan_sections_blank fuel g section_row header_rows data_start_row
    min_blank_sep c sec_map :
  rectangular g -> (c < width g)%nat ->
  is_blank (section_cell g section_row c) = true ->
  scan_sections (S fuel) g section_row header_rows data_start_row
                min_blank_sep c sec_map
  = scan_sections fuel g section_row header_rows data_start_row
                  min_blank_sep (c + 1) sec_map.
Proof.
  intros Hrect Hc Hb. simpl.
  rewrite (proj2 (Nat.ltb_lt _ _) Hc).
  rewrite (section_cell_read g section_row c Hrect Hc). simpl.
  by rewrite Hb.
Qed.

(** One turn of the outer loop at a column with a label. *)
Lemma scan_sections_label fuel g section_row header_rows data_start_row
    min_blank_sep c sec_map :
  rectangular g -> (c < width g)%nat ->
  is_blank (section_cell g section_row c) = false ->
  exists c2 sec_map',
    (c <= c2 <= width g)%nat
    /\ (forall j, (c <= j < c2)%nat ->
          ends_run g header_rows data_start_row min_blank_sep j = false)
    /\ ((c2 < width g)%nat ->
          ends_run g header_rows data_start_row min_blank_sep c2 = true)
    /\ (forall j, sec_map' !! j
                  = if decide (c <= j < c2)%nat
                    then Some (strip (section_cell g section_row c))
                    else sec_map !! j)
    /\ scan_sections (S fuel) g section_row header_rows data_start_row
                     min_blank_sep c sec_map
       = scan_sections fuel g section_row header_rows data_start_row
                       min_blank_sep (c2 + 1) sec_map'.
Proof.
  intros Hrect Hc Hb.
  destruct (fill_run_spec (width g - c) g header_rows data_start_row
              min_blank_sep (strip (section_cell g section_row c)) c sec_map
              Hrect) as (c2 & m' & Hrun & Hbnd & Hno & Hend & Hm); [lia|].
  exists c2, m'. repeat (split; [assumption|]).
  simpl. rewrite (proj2 (Nat.ltb_lt _ _) Hc).
  rewrite (section_cell_read g section_row c Hrect Hc). simpl.
  rewrite Hb, Hrun. simpl.
  by replace ((c2 + 1) `max` c2)%nat with (c2 + 1)%nat by lia.
Qed.

(** On a rectangular grid the scan returns a map: it never raises and
    [width g - c] turns are enough. *)
Lemma scan_sections_returns fuel g section_row header_rows data_start_row
    min_blank_sep c sec_map :
  rectangular g -> (width g - c <= fuel)%nat ->
  exists m, scan_sections fuel g section_row header_rows data_start_row
                          min_blank_sep c sec_map = Ok m.
Proof.
  intros Hrect. revert c sec_map.
  induction fuel as [|fuel IH]; intros c sec_map Hfuel.
  - exists sec_map. simpl.
    by rewrite (proj2 (Nat.ltb_ge _ _)) by lia.
  - destruct (decide (c < width g)%nat) as [Hc|Hc].
    + destruct (is_blank (section_cell g section_row c)) eqn:Hb.
      * rewrite (scan_sections_blank _ _ _ _ _ _ _ _ Hrect Hc Hb).
        apply IH. lia.
      * destruct (scan_sections_label fuel g section_row header_rows
                    data_start_row min_blank_sep c sec_map Hrect Hc Hb)
          as (c2 & m' & Hbnd & _ & _ & _ & ->).
        apply IH. lia.
    + exists sec_map. simpl.
      by rewrite (proj2 (Nat.ltb_ge _ _)) by lia.
Qed.

(** C3, as the code has it.  On a rectangular grid, the forward-fill of
    the label found at column [c] labels the columns from [c] up to, and
    not including, the first column [c2] that has at least
    [min_blank_sep] blank cells among its header rows or has no data from
    [data_start_row] on (up to the last column if there is none); the
    scan for the next label resumes at column [c2 + 1].  A column without
    a label moves the scan one column to the right, and the whole scan
    returns a map. *)
Theorem section_run_ends_at_first_separator
    g section_row header_rows data_start_row min_blank_sep :
  rectangular g ->
  (forall fuel c sec_map,
      (c < width g)%nat ->
      is_blank (section_cell g section_row c) = false ->
      exists c2 sec_map',
        (c <= c2 <= width g)%nat
        /\ (forall j, (c <= j < c2)%nat ->
              ends_run g header_rows data_start_row min_blank_sep j = false)
        /\ ((c2 < width g)%nat ->
              ends_run g header_rows data_start_row min_blank_sep c2 = true)
        /\ (forall j, sec_map' !! j
                      = if decide (c <= j < c2)%nat
                        then Some (strip (section_cell g section_row c))
                        else sec_map !! j)
        /\ scan_sections (S fuel) g section_row header_rows data_start_row
                         min_blank_sep c sec_map
           = scan_sections fuel g section_row header_rows data_start_row
                           min_blank_sep (c2 + 1) sec_map')
  /\ (forall fuel c sec_map,
      (c < width g)%nat ->
      is_blank (section_cell g section_row c) = true ->
      scan_sections (S fuel) g section_row header_rows data_start_row
                    min_blank_sep c sec_map
      = scan_sections fuel g section_row header_rows data_start_row
                      min_blank_sep (c + 1) sec_map)
  /\ exists m,
      map_section_labels_by_col g section_row header_rows data_start_row
                                min_blank_sep = Ok m.
Proof.
  intros Hrect. split; [|split].
  - intros fuel c sec_map Hc Hb. by apply scan_sections_label.
  - intros fuel c sec_map Hc Hb. by apply scan_sections_blank.
  - unfold map_section_labels_by_col. apply scan_sections_returns; [done|lia].
Qed.

(** With [S = 2]: two consecutive blank section-row cells do not end the
    run of [A], which goes on over the column labelled [B]; and a column
    with two blank header cells ends the run although the section-row
    cell before it is not blank and the column has data. *)
Lemma section_run_ignores_section_row_blanks :
  (spec_ends_run grid_blank_section_cells 0 2 2 2 = true
   /\ (fun m => (m !! 2%nat, m !! 3%nat))
        <$> map_section_labels_by_col grid_blank_section_cells 0 2 2 2
      = Ok (Some (lit "A"), Some (lit "A")))
  /\ (spec_ends_run grid_blank_tiers 0 3 2 1 = false
      /\ (fun m => (m !! 0%nat, m !! 1%nat, m !! 2%nat))
           <$> map_section_labels_by_col grid_blank_tiers 0 3 3 2
         = Ok (Some (lit "A"), None, Some (lit "x"))).
Proof. repeat split; vm_compute; reflexivity. Qed.

Lemma section_run_ends_at_first_separator_witness :
  exists m, map_section_labels_by_col grid_blank_tiers 0 3 3 2 = Ok m.
Proof.
  destruct (section_run_ends_at_first_separator grid_blank_tiers 0 3 3 2)
    as (_ & _ & H); [repeat constructor | exact H].
Defined.

End SectionFacts.

(** ** Label rows of a block *)

Module LabelFacts.
Import Py RbuSpace SectionTerms SectionFacts.
Import LabelTerms.

Section Labels.
Context `{B : Builtins}.

Lemma getitem_row g r :
  rectangular g -> (r < length g)%nat ->
  exists row, getitem g r = Ok row /\ g !! r = Some row
              /\ length row = width g.
Proof.
  intros Hrect Hr. destruct (lookup_lt_is_Some_2 g r Hr) as [row Hrow].
  exists row. unfold getitem. rewrite Hrow. repeat split.
  eapply (proj1 (Forall_forall _ _) Hrect). by eapply list_elem_of_lookup_2.
Qed.

Lemma getitem_cell g r row c :
  g !! r = Some row -> (c < length row)%nat ->
  getitem row c = Ok (cell_text g r c).
Proof.
  intros Hrow Hc. unfold getitem, cell_text. rewrite Hrow. simpl.
  destruct (lookup_lt_is_Some_2 row c Hc) as [v Hv]. by rewrite Hv.
Qed.

Lemma any_alpha_loop g r row cols :
  g !! r = Some row -> Forall (fun c => (c < length row)%nat) cols ->
  any_res (fun c => v ← getitem row c; Ok (looks_alpha v)) cols
  = Ok (existsb looks_alpha (map (cell_text g r) cols)).
Proof.
  intros Hrow Hcols. induction Hcols as [|c cols Hc _ IH]; simpl.
  - reflexivity.
  - rewrite (getitem_cell g r row c Hrow Hc). simpl.
    destruct (looks_alpha (cell_text g r c)); [reflexivity | exact IH].
Qed.

Lemma row_cells_loop g r row cols acc :
  g !! r = Some row -> Forall (fun c => (c < length row)%nat) cols ->
  for_res (fun acc c => v ← getitem row c; Ok (acc ++ [v])) cols acc
  = Ok (acc ++ map (cell_text g r) cols).
Proof.
  intros Hrow Hcols. revert acc.
  induction Hcols as [|c cols Hc _ IH]; intros acc; simpl.
  - by rewrite app_nil_r.
  - rewrite (getitem_cell g r row c Hrow Hc). simpl.
    rewrite IH, <- app_assoc. reflexivity.
Qed.

Lemma cols_in_row (row : list str) left right :
  (right < length row)%nat ->
  Forall (fun c => (c < length row)%nat) (range left (right + 1)).
Proof. intros H. apply Forall_forall. intros c Hc%range_lt. lia. Qed.

Lemma label_rows_loop g left right rows acc :
  rectangular g -> (right < width g)%nat ->
  Forall (fun r => (r < length g)%nat) rows ->
  for_res (fun label_rows r =>
             row ← getitem g r;
             a ← any_res (fun c => v ← getitem row c; Ok (looks_alpha v))
                         (range left (right + 1));
             if a : bool then
               vals ← row_cells row left right;
               Ok (label_rows ++ [fill_cells [] vals])
             else Ok label_rows)
          rows acc
  = Ok (acc ++ label_rows_of g left right rows).
Proof.
  intros Hrect Hright Hrows. revert acc.
  induction Hrows as [|r rows Hr _ IH]; intros acc; simpl.
  - unfold label_rows_of. by rewrite app_nil_r.
  - destruct (getitem_row g r Hrect Hr) as (row & -> & Hrow & Hlen). simpl.
    assert (Hcols := cols_in_row row left right ltac:(lia)).
    rewrite (any_alpha_loop g r row _ Hrow Hcols). simpl.
    fold (block_cells g r left right). fold (has_alpha g left right r).
    unfold label_rows_of. rewrite filter_cons.
    destruct (has_alpha g left right r) eqn:E.
    + rewrite decide_True by done.
      unfold row_cells. rewrite (row_cells_loop g r row _ [] Hrow Hcols).
      simpl. rewrite IH. unfold label_rows_of.
      rewrite <- app_assoc. reflexivity.
    + rewrite decide_False by congruence. apply IH.
Qed.

(** The label rows of a block are the rows of the block, from top to
    bottom, that have an alphabetic character in its columns, each
    forward-filled. *)
Lemma forward_fill_label_rows_spec g top bottom left right :
  rectangular g -> in_grid g bottom right ->
  forward_fill_label_rows g top bottom left right
  = Ok (label_rows_of g left right (range top (bottom + 1))).
Proof.
  intros Hrect [Hb Hr]. unfold forward_fill_label_rows.
  rewrite (label_rows_loop g left right _ [] Hrect Hr); [reflexivity|].
  apply Forall_forall. intros r Hin%range_lt. lia.
Qed.

Lemma csv_scan_headers_spec g rows headers :
  Forall (fun r => (r < length g)%nat) rows ->
  RbuCsv.scan_headers g rows headers
  = Ok (headers ++ rows_before (holds_number g) rows,
        first_row (holds_number g) rows).
Proof.
  intros Hrows. revert headers.
  induction Hrows as [|r rows Hr _ IH]; intros headers; simpl.
  - by rewrite app_nil_r.
  - destruct (lookup_lt_is_Some_2 g r Hr) as [row Hrow].
    unfold getitem, holds_number. rewrite Hrow. simpl.
    destruct (existsb RbuCsv.is_number row) eqn:E.
    + by rewrite app_nil_r.
    + rewrite IH, <- app_assoc. reflexivity.
Qed.

(** C4, as the code has it.  In rbuSpace.py the label rows of a block are
    all the rows of the block, from top to bottom, that have an
    alphabetic character within [left .. right], each forward-filled;
    nothing stops the scan before the bottom of the block.  In
    DataValidation_RBU/rbuSpace.py the header rows of a table are the
    rows before the first row that holds a number, and that row starts
    the data. *)
Theorem label_rows_are_the_alphabetic_rows :
  (forall g top bottom left right,
      rectangular g -> in_grid g bottom right ->
      forward_fill_label_rows g top bottom left right
      = Ok (label_rows_of g left right (range top (bottom + 1))))
  /\ (forall g rows,
      Forall (fun r => (r < length g)%nat) rows ->
      RbuCsv.scan_headers g rows []
      = Ok (rows_before (holds_number g) rows,
            first_row (holds_number g) rows)).
Proof.
  split.
  - intros. by apply forward_fill_label_rows_spec.
  - intros g rows Hrows. by rewrite csv_scan_headers_spec.
Qed.

End Labels.

(** Row 1 is numeric-majority, and row 2, below it, is a label row all
    the same.  In DataValidation_RBU/rbuSpace.py a row with alphabetic
    text and a single number is no header row: the scan stops at it. *)
Lemma label_scan_has_no_numeric_stop :
  numeric_majority (B := Ascii7.ascii)
    (block_cells grid_text_below_numbers 0 0 2) = false
  /\ numeric_majority (B := Ascii7.ascii)
       (block_cells grid_text_below_numbers 1 0 2) = true
  /\ forward_fill_label_rows (B := Ascii7.ascii)
       grid_text_below_numbers 0 2 0 2
     = Ok [ [lit "Group"; lit "Rx"; lit "Rx"];
            [lit "Retail"; lit "4"; lit "5"] ]
  /\ has_alpha (B := Ascii7.ascii) grid_year_header 0 2 0 = true
  /\ numeric_majority (B := Ascii7.ascii)
       (block_cells grid_year_header 0 0 2) = false
  /\ RbuCsv.scan_headers (B := Ascii7.ascii) grid_year_header
       (range 0 2) []
     = Ok ([], Some 0%nat).
Proof. repeat split; vm_compute; reflexivity. Qed.

Lemma label_rows_are_the_alphabetic_rows_witness :
  forward_fill_label_rows (B := Ascii7.ascii) grid_text_below_numbers 0 2 0 2
  = Ok (label_rows_of (B := Ascii7.ascii) grid_text_below_numbers 0 2
          (range 0 3))
  /\ RbuCsv.scan_headers (B := Ascii7.ascii) grid_text_below_numbers
       (range 0 3) []
     = Ok ([0%nat], Some 1%nat).
Proof.
  destruct (label_rows_are_the_alphabetic_rows (B := Ascii7.ascii))
    as [Hspace Hcsv].
  split.
  - apply (Hspace grid_text_below_numbers 0 2 0 2)%nat.
    + repeat constructor.
    + split; simpl; lia.
  - rewrite (Hcsv grid_text_below_numbers (range 0 3)).
    + vm_compute. reflexivity.
    + repeat constructor.
Defined.

End LabelFacts.

(** ** One record per numeric cell *)

Module ExtractFacts.
Import Py RbuSpace SectionTerms SectionFacts LabelTerms LabelFacts.
Import ExtractTerms.

(** A loop whose body appends, for the element [x], records that look
    like [mk x]. *)
Lemma for_res_concat {A R T} (body : list R -> A -> res (list R))
    (view : R -> T) (mk : A -> list T) (l : list A) (acc : list R) :
  (forall acc x, x ∈ l ->
     exists new, body acc x = Ok (acc ++ new) /\ map view new = mk x) ->
  exists new, for_res body l acc = Ok (acc ++ new)
              /\ map view new = flat_map mk l.
Proof.
  revert acc. induction l as [|x l IH]; intros acc Hbody; simpl.
  - exists []. by rewrite app_nil_r.
  - destruct (Hbody acc x (list_elem_of_here _ _)) as (new1 & -> & Hv1). simpl.
    destruct (IH (acc ++ new1)) as (new2 & -> & Hv2).
    { intros acc' y Hy. apply Hbody. by apply list_elem_of_further. }
    exists (new1 ++ new2). rewrite <- app_assoc. split; [reflexivity|].
    by rewrite map_app, Hv1, Hv2.
Qed.

Lemma first_res_returns (p : nat -> res bool) l :
  (forall x, x ∈ l -> exists b, p x = Ok b) ->
  exists o, first_res p l = Ok o
            /\ forall x, o = Some x -> x ∈ l.
Proof.
  induction l as [|x l IH]; intros Hp; simpl.
  - exists None. split; [reflexivity | discriminate].
  - destruct (Hp x (list_elem_of_here _ _)) as [b ->]. simpl. destruct b.
    + exists (Some x). split; [reflexivity|].
      intros y [= <-]. apply list_elem_of_here.
    + destruct IH as (o & -> & Ho).
      { intros y Hy. apply Hp. by apply list_elem_of_further. }
      exists o. split; [reflexivity|].
      intros y Hy. apply list_elem_of_further. by apply Ho.
Qed.

Lemma first_some_res_returns {A} (f : nat -> res (option A)) l :
  (forall x, x ∈ l -> exists o, f x = Ok o) ->
  exists o, first_some_res f l = Ok o.
Proof.
  induction l as [|x l IH]; intros Hf; simpl; [by eexists|].
  destruct (Hf x (list_elem_of_here _ _)) as [o ->]. simpl.
  destruct o; [by eexists|].
  apply IH. intros y Hy. apply Hf. by apply list_elem_of_further.
Qed.

Section Extract.
Context `{B : Builtins}.

Lemma down_from_lt header_rows r :
  r ∈ down_from header_rows -> (r < header_rows)%nat.
Proof.
  unfold down_from. intros H. apply list_elem_of_In in H.
  apply in_rev in H. apply list_elem_of_In, range_lt in H. lia.
Qed.

Lemma nearest_metric_returns g header_rows col prefer_non_date no_date_window :
  rectangular g ->
  exists m, nearest_metric_above_col g header_rows col prefer_non_date
              no_date_window = Ok m.
Proof.
  intros Hrect. unfold nearest_metric_above_col.
  match goal with
  | |- context [first_some_res ?f ?l] =>
      destruct (first_some_res_returns f l) as [o Ho]
  end.
  - intros r _.
    destruct ((r <? length g)%nat && (col <? width g)%nat) eqn:E.
    + apply andb_true_iff in E as [Hr%Nat.ltb_lt Hc%Nat.ltb_lt].
      rewrite (cell_in_grid g r col Hrect Hr Hc). simpl.
      destruct (is_blank _); [by eexists|]. simpl.
      destruct (_ && _); by eexists.
    + simpl. by eexists.
  - rewrite Ho. simpl. by eexists.
Qed.

Lemma date_window_returns g header_rows col no_date_window :
  rectangular g -> (header_rows <= length g)%nat -> (col < width g)%nat ->
  exists d, date_window_for_col g header_rows col no_date_window = Ok d.
Proof.
  intros Hrect Hh Hc. unfold date_window_for_col.
  assert (Hbot : exists o, bottom_most_text g header_rows col = Ok o).
  { apply first_some_res_returns. intros r Hr%down_from_lt.
    rewrite (cell_in_grid g r col Hrect) by (done || lia). simpl.
    by eexists. }
  destruct Hbot as [o Ho].
  destruct no_date_window.
  - rewrite Ho. simpl. by eexists.
  - match goal with
    | |- context [first_some_res ?f ?l] =>
        destruct (first_some_res_returns f l) as [t Ht]
    end.
    + intros r Hr%down_from_lt.
      rewrite (cell_in_grid g r col Hrect) by (done || lia). simpl.
      by eexists.
    + rewrite Ht. simpl. destruct t; [by eexists|].
      rewrite Ho. simpl. by eexists.
Qed.

Lemma first_data_col_returns g r left right :
  rectangular g -> (r < length g)%nat -> (right < width g)%nat ->
  exists o, first_data_col_in_row g r left right = Ok o
            /\ forall dsc, o = Some dsc -> (left <= dsc <= right)%nat.
Proof.
  intros Hrect Hr Hright. unfold first_data_col_in_row.
  match goal with
  | |- context [first_res ?f ?l] =>
      destruct (first_res_returns f l) as (o & Ho & Hin)
  end.
  - intros c Hc%range_lt.
    rewrite (cell_in_grid g r c Hrect) by (done || lia). simpl. by eexists.
  - exists o. split; [exact Ho|].
    intros dsc Hd. apply Hin in Hd. apply range_lt in Hd. lia.
Qed.

Lemma extract_row_spec g src sec header_rows ndw label_rows left right records r :
  rectangular g -> (header_rows <= length g)%nat ->
  (r < length g)%nat -> (right < width g)%nat ->
  exists new,
    extract_row g src sec header_rows ndw label_rows left right records r
    = Ok (records ++ new)
    /\ map position new = numeric_cells_of_row g label_rows left right r.
Proof.
  intros Hrect Hh Hr Hright. unfold extract_row.
  destruct (first_data_col_returns g r left right Hrect Hr Hright)
    as (o & -> & Hdsc). simpl.
  assert (Hch : exists ch,
    match o with
    | Some dsc =>
        if (Z.of_nat left <=? Z.of_nat dsc - 1)%Z then
          ch_cell ← cell g r (dsc - 1);
          Ok (if negb (is_blank ch_cell) then strip ch_cell else [])
        else Ok []
    | None => Ok []
    end = Ok ch).
  { destruct o as [dsc|]; [|by eexists].
    destruct (Hdsc dsc eq_refl) as [Hl Hrr].
    destruct (_ <=? _)%Z; [|by eexists].
    rewrite (cell_in_grid g r (dsc - 1) Hrect) by (done || lia).
    simpl. by eexists. }
  destruct Hch as [ch ->]. simpl.
  apply (for_res_concat _ position
           (fun c => if looks_numeric (cell_text g r c)
                     then [(r, c, group_path_for_col label_rows left c)]
                     else [])).
  intros acc c Hc%range_lt.
  rewrite (cell_in_grid g r c Hrect) by (done || lia). simpl.
  destruct (looks_numeric (cell_text g r c)).
  - destruct (nearest_metric_returns g header_rows c true ndw Hrect) as [m ->].
    destruct (date_window_returns g header_rows c ndw Hrect Hh) as [d ->];
      [lia|].
    simpl. eexists [_]. split; reflexivity.
  - exists []. by rewrite app_nil_r.
Qed.

Lemma group_path_length label_rows left c :
  (length (group_path_for_col label_rows left c)
   <= 3 `min` length label_rows)%nat.
Proof.
  unfold group_path_for_col.
  rewrite <- (length_take label_rows 3).
  induction (take 3 label_rows) as [|lr l IH]; simpl; [lia|].
  rewrite length_app.
  destruct (_ && _); [|simpl; lia].
  destruct (lr !! _) as [[|]|]; simpl; lia.
Qed.

Lemma numeric_cells_path g label_rows top bottom left right :
  Forall (fun t => (length t.2 <= 3 `min` length label_rows)%nat)
         (numeric_cells g label_rows top bottom left right).
Proof.
  unfold numeric_cells, numeric_cells_of_row.
  apply Forall_forall. intros t Ht.
  apply list_elem_of_In, in_flat_map in Ht as (r & _ & Ht).
  apply in_flat_map in Ht as (c & _ & Ht).
  destruct (looks_numeric _); [|contradiction].
  destruct Ht as [<-|[]]. simpl. apply group_path_length.
Qed.

Lemma extract_block_spec g src sec header_rows ndw records top bottom left right :
  rectangular g -> in_grid g bottom right -> (header_rows <= length g)%nat ->
  exists new,
    extract_block g src sec header_rows ndw records (top, bottom, left, right)
    = Ok (records ++ new)
    /\ map position new
       = numeric_cells g (label_rows_of g left right (range top (bottom + 1)))
                       top bottom left right.
Proof.
  intros Hrect Hin Hh. unfold extract_block.
  rewrite (forward_fill_label_rows_spec g top bottom left right Hrect Hin).
  simpl. destruct Hin as [Hb Hr].
  apply (for_res_concat _ position).
  intros acc r Hrow%range_lt.
  apply extract_row_spec; (done || lia).
Qed.

(** C5, as the code has it.  In rbuSpace.py a block inside a rectangular
    grid yields one record for every numeric-looking cell, in row-major
    order, whatever the number of its label rows; the group path of a
    record has at most as many entries as there are label rows, and at
    most three.  In DataValidation_RBU/rbuSpace.py and in rbu.py a table
    with fewer than three header rows yields no record. *)
Theorem records_of_block_with_few_label_rows :
  (forall g src sec header_rows ndw records top bottom left right,
      rectangular g -> in_grid g bottom right ->
      (header_rows <= length g)%nat ->
      let label_rows := label_rows_of g left right (range top (bottom + 1)) in
      exists new,
        extract_block g src sec header_rows ndw records
                      (top, bottom, left, right)
        = Ok (records ++ new)
        /\ map position new
           = numeric_cells g label_rows top bottom left right
        /\ Forall (fun rec => (length (group_path rec)
                               <= 3 `min` length label_rows)%nat) new)
  /\ (forall g src sm records tb headers data_start,
      RbuCsv.scan_headers g (range tb.1 (tb.2 + 1)) []
      = Ok (headers, data_start) ->
      (length headers < 3)%nat ->
      RbuCsv.extract_table g src sm records tb = Ok records)
  /\ (forall g src sm records tb row0 header_rows data_start,
      getitem g 0 = Ok row0 ->
      Rbu.scan_headers g (range 0 (length row0)) (range tb.1 (tb.2 + 1)) []
      = Ok (header_rows, data_start) ->
      (length header_rows < 3)%nat ->
      Rbu.extract_table g src sm records tb = Ok records).
Proof.
  split; [|split].
  - intros g src sec header_rows ndw records top bottom left right
      Hrect Hin Hh label_rows.
    destruct (extract_block_spec g src sec header_rows ndw records
                top bottom left right Hrect Hin Hh) as (new & Hrun & Hpos).
    exists new. split; [exact Hrun|]. split; [exact Hpos|].
    pose proof (numeric_cells_path g label_rows top bottom left right) as Hp.
    fold label_rows in Hpos. rewrite <- Hpos in Hp.
    clear -Hp. induction new as [|rec new IH]; [constructor|].
    inversion Hp; subst. constructor; [assumption | by apply IH].
  - intros g src sm records tb headers data_start Hscan Hlen.
    unfold RbuCsv.extract_table. rewrite Hscan. simpl.
    by rewrite (proj2 (Nat.ltb_lt _ _) Hlen).
  - intros g src sm records tb row0 header_rows data_start H0 Hscan Hlen.
    unfold Rbu.extract_table. rewrite H0. simpl. rewrite Hscan. simpl.
    by rewrite (proj2 (Nat.ltb_lt _ _) Hlen).
Qed.

End Extract.

(** The table has the numeric cells [10] and [20], and two header rows:
    both [extract_records] return no record at all. *)
Lemma table_with_two_header_rows_is_skipped :
  RbuCsv.find_tables grid_two_header_rows 1
  = Ok [(1, 3)%nat]
  /\ RbuCsv.scan_headers (B := Ascii7.ascii) grid_two_header_rows
       (range 1 4) []
     = Ok ([1; 2]%nat, Some 3%nat)
  /\ RbuCsv.num_cols (B := Ascii7.ascii) [lit "Retail"; lit "10"; lit "20"]
     = [1; 2]%nat
  /\ RbuCsv.extract_records (B := Ascii7.ascii) grid_two_header_rows
       (lit "a.csv")
     = Ok []
  /\ Rbu.extract_records (B := Ascii7.ascii) grid_two_header_rows
       (lit "a.csv") 0
     = Ok [].
Proof. repeat split; vm_compute; reflexivity. Qed.

Lemma records_of_block_with_few_label_rows_witness :
  (exists new,
      extract_block (B := Ascii7.ascii) grid_two_header_rows (lit "a.csv")
        (lit "Financial") 3 false [] (3, 3, 1, 2)%nat
      = Ok new
      /\ map position new = [(3, 1, []); (3, 2, [])]%nat)
  /\ RbuCsv.extract_table (B := Ascii7.ascii) grid_two_header_rows
       (lit "a.csv") ∅ [] (1, 3)%nat
     = Ok [].
Proof.
  destruct (records_of_block_with_few_label_rows (B := Ascii7.ascii))
    as (Hspace & Hcsv & _).
  split.
  - destruct (Hspace grid_two_header_rows (lit "a.csv") (lit "Financial")
                3%nat false [] 3%nat 3%nat 1%nat 2%nat)
      as (new & Hrun & Hpos & _).
    + repeat constructor.
    + split; simpl; lia.
    + simpl; lia.
    + exists new. split; [exact Hrun|]. rewrite Hpos.
      vm_compute. reflexivity.
  - apply (Hcsv grid_two_header_rows (lit "a.csv") ∅ [] (1, 3)%nat
                [1; 2]%nat (Some 3%nat)).
    + vm_compute. reflexivity.
    + simpl; lia.
Defined.

End ExtractFacts.

(** ** The bounded loops have fuel enough *)

Module FuelFacts.
Import Py.
Import FuelTerms.

Lemma ends_bind {A C} (m : res A) (k : A -> res C) :
  ends m -> (forall a, m = Ok a -> ends (k a)) -> ends (m ≫= k).
Proof.
  unfold ends. destruct m as [a| |]; simpl; intros Hm Hk; try done.
  by apply Hk.
Qed.

Lemma ends_getitem {A} (l : list A) i : ends (getitem l i).
Proof. unfold ends, getitem. by destruct (l !! i). Qed.

Lemma ends_for_res {A S} (f : S -> A -> res S) l s :
  (forall s x, ends (f s x)) -> ends (for_res f l s).
Proof.
  intros Hf. revert s. induction l as [|x l IH]; intros s; simpl; [done|].
  apply ends_bind; [apply Hf | intros; apply IH].
Qed.

Lemma ends_any_res {A} (p : A -> res bool) l :
  (forall x, ends (p x)) -> ends (any_res p l).
Proof.
  intros Hp. induction l as [|x l IH]; simpl; [done|].
  apply ends_bind; [apply Hp | by intros []].
Qed.

Lemma ends_all_res {A} (p : A -> res bool) l :
  (forall x, ends (p x)) -> ends (all_res p l).
Proof.
  intros Hp. induction l as [|x l IH]; simpl; [done|].
  apply ends_bind; [apply Hp | by intros []].
Qed.

Section Sections.
Import RbuSpace.

Lemma ends_cell g r c : ends (cell g r c).
Proof.
  unfold cell. apply ends_bind; [apply ends_getitem|].
  intros; apply ends_getitem.
Qed.

Lemma ends_blank_headers g c header_rows :
  ends (consecutive_blank_headers_in_col g c header_rows).
Proof.
  apply ends_for_res. intros n r.
  apply ends_bind; [apply ends_cell | done].
Qed.

Lemma ends_has_data g c data_start_row :
  ends (column_has_any_data g c data_start_row).
Proof.
  apply ends_any_res. intros r.
  apply ends_bind; [apply ends_cell | done].
Qed.

Lemma fill_run_ends n g header_rows data_start_row min_blank_sep label c m :
  ends (fill_run n g header_rows data_start_row min_blank_sep label c m).
Proof.
  revert c m. induction n as [|n IH]; intros c m; simpl; [done|].
  apply ends_bind; [apply ends_blank_headers | intros k _].
  apply ends_bind; [apply ends_has_data | intros d _].
  destruct (_ || _); [done|].
  apply ends_bind; [apply ends_has_data | intros d' _]. apply IH.
Qed.

Lemma fill_run_moves_right n g header_rows data_start_row min_blank_sep
    label c m m' c2 :
  fill_run n g header_rows data_start_row min_blank_sep label c m
  = Ok (m', c2) ->
  (c <= c2)%nat.
Proof.
  revert c m. induction n as [|n IH]; intros c m; simpl.
  - intros [= _ <-]. lia.
  - destruct (consecutive_blank_headers_in_col _ _ _); simpl; try done.
    destruct (column_has_any_data _ _ _) as [d| |]; simpl; try done.
    destruct (_ || _); [intros [= _ <-]; lia|]. simpl.
    intros H%IH. lia.
Qed.

(** The scan of the section row ends on every grid, rectangular or not:
    [width g] turns are enough because every turn moves to the right. *)
Lemma scan_sections_ends fuel g section_row header_rows data_start_row
    min_blank_sep c m :
  (width g - c <= fuel)%nat ->
  ends (scan_sections fuel g section_row header_rows data_start_row
                      min_blank_sep c m).
Proof.
  revert c m. induction fuel as [|fuel IH]; intros c m Hfuel; simpl.
  - by rewrite (proj2 (Nat.ltb_ge _ _)) by lia.
  - destruct (c <? width g)%nat eqn:E; [|done].
    apply Nat.ltb_lt in E.
    apply ends_bind.
    { destruct (_ <? _)%nat; [apply ends_cell | done]. }
    intros v _. destruct (is_blank v); [apply IH; lia|].
    apply ends_bind; [apply fill_run_ends|].
    intros [m' c2] Hrun%fill_run_moves_right. apply IH. lia.
Qed.

Lemma map_section_labels_ends g section_row header_rows data_start_row
    min_blank_sep :
  ends (map_section_labels_by_col g section_row header_rows data_start_row
                                  min_blank_sep).
Proof. apply scan_sections_ends. lia. Qed.

End Sections.

Section Tables.
Context `{B : Builtins}.

Lemma csv_skip_rows_spec n g r r' :
  RbuCsv.skip_rows n g r = Ok r' -> (r <= r')%nat.
Proof.
  revert r. induction n as [|n IH]; intros r; simpl.
  - intros [= <-]. lia.
  - destruct (getitem g r); simpl; try done.
    destruct (RbuCsv.row_blank _); [intros [= <-]; lia|].
    intros H%IH. lia.
Qed.

Lemma csv_skip_rows_ends n g r : ends (RbuCsv.skip_rows n g r).
Proof.
  revert r. induction n as [|n IH]; intros r; simpl; [done|].
  apply ends_bind; [apply ends_getitem|].
  intros row _. destruct (RbuCsv.row_blank row); [done | apply IH].
Qed.

(** [find_tables] of DataValidation_RBU/rbuSpace.py ends. *)
Lemma csv_find_tables_ends g start_row : ends (RbuCsv.find_tables g start_row).
Proof.
  unfold RbuCsv.find_tables.
  assert (H : forall fuel r tables,
             (length g - r <= fuel)%nat ->
             ends (RbuCsv.find_tables_loop fuel g r tables)).
  { induction fuel as [|fuel IH]; intros r tables Hfuel; simpl.
    - by rewrite (proj2 (Nat.ltb_ge _ _)) by lia.
    - destruct (r <? length g)%nat eqn:E; [|done].
      apply Nat.ltb_lt in E.
      apply ends_bind; [apply ends_getitem|].
      intros row _. destruct (RbuCsv.row_blank row); [apply IH; lia|].
      apply ends_bind; [apply csv_skip_rows_ends|].
      intros r' Hr'%csv_skip_rows_spec. apply IH. lia. }
  apply H. lia.
Qed.

Lemma xlsx_skip_rows_spec n g cols r r' :
  Rbu.skip_rows n g cols r = Ok r' -> (r <= r')%nat.
Proof.
  revert r. induction n as [|n IH]; intros r; simpl.
  - intros [= <-]. lia.
  - destruct (Rbu.row_blank g r cols) as [[]| |]; simpl; try done.
    + intros [= <-]. lia.
    + intros H%IH. lia.
Qed.

Lemma xlsx_row_blank_ends g r cols : ends (Rbu.row_blank g r cols).
Proof.
  apply ends_all_res. intros c. apply ends_bind; [|done].
  unfold Rbu.cell. apply ends_bind; [apply ends_getitem|].
  intros; apply ends_getitem.
Qed.

Lemma xlsx_skip_rows_ends n g cols r : ends (Rbu.skip_rows n g cols r).
Proof.
  revert r. induction n as [|n IH]; intros r; simpl; [done|].
  apply ends_bind; [apply xlsx_row_blank_ends|].
  intros [] _; [done | apply IH].
Qed.

(** [find_tables] of rbu.py ends. *)
Lemma xlsx_find_tables_ends g start_row : ends (Rbu.find_tables g start_row).
Proof.
  unfold Rbu.find_tables.
  apply ends_bind; [apply ends_getitem|]. intros row0 _.
  generalize (range 0 (length row0)). intros cols.
  assert (H : forall fuel r tables,
             (length g - r <= fuel)%nat ->
             ends (Rbu.find_tables_loop fuel g cols r tables)).
  { induction fuel as [|fuel IH]; intros r tables Hfuel; simpl.
    - by rewrite (proj2 (Nat.ltb_ge _ _)) by lia.
    - destruct (r <? length g)%nat eqn:E; [|done].
      apply Nat.ltb_lt in E.
      apply ends_bind; [apply xlsx_row_blank_ends|].
      intros [] _; [apply IH; lia|].
      apply ends_bind; [apply xlsx_skip_rows_ends|].
      intros r' Hr'%xlsx_skip_rows_spec. apply IH. lia. }
  apply H. lia.
Qed.

End Tables.
End FuelFacts.

(** ** Header rows, runs of columns and the escape of the report *)

Module HeaderFacts.
Import Py RbuSpace HeaderTerms.

Section Header.
Context `{B : Builtins}.

Lemma first_numeric_row_Some w i rows k :
  first_numeric_row w i rows = Some k ->
  (i <= k)%nat
  /\ (exists row, rows !! (k - i)%nat = Some row /\ numeric_row w row = true)
  /\ forall j row, (j < k - i)%nat -> rows !! j = Some row ->
                   numeric_row w row = false.
Proof.
  revert i. induction rows as [|row rows IH]; intros i; simpl; [discriminate|].
  destruct (numeric_row w row) eqn:E.
  - intros [= <-]. split; [lia|]. rewrite Nat.sub_diag. split; [by exists row|].
    intros j ? Hj. lia.
  - intros H. destruct (IH _ H) as (Hle & (row' & Hrow' & Hn) & Hbefore).
    split; [lia|]. replace (k - i)%nat with (S (k - S i)) by lia.
    split; [by exists row'|].
    intros [|j] r Hj; simpl; [by intros [= <-]|].
    apply Hbefore. lia.
Qed.

Lemma first_numeric_row_None w i rows :
  first_numeric_row w i rows = None ->
  Forall (fun row => numeric_row w row = false) rows.
Proof.
  revert i. induction rows as [|row rows IH]; intros i; simpl; [constructor|].
  destruct (numeric_row w row) eqn:E; [discriminate|].
  intros H. constructor; [exact E | by eapply IH].
Qed.

Lemma first_numeric_row_first w i rows k row :
  rows !! k = Some row -> numeric_row w row = true ->
  (forall j r, (j < k)%nat -> rows !! j = Some r -> numeric_row w r = false) ->
  first_numeric_row w i rows = Some (i + k)%nat.
Proof.
  revert i k. induction rows as [|r0 rows IH]; intros i k; [done|].
  destruct k as [|k]; simpl.
  - intros [= ->] -> _. by rewrite Nat.add_0_r.
  - intros Hk Hn Hb. rewrite (Hb 0%nat r0) by (simpl; done || lia).
    rewrite (IH (S i) k); [f_equal; lia|done..|].
    intros j r Hj. apply (Hb (S j)). lia.
Qed.

(** X1. [detect_header_rows] of rateBuildUp/rbuSpace.py returns at most
    the number of rows of the grid.  Call a row numeric when the grid has
    a column and at least [max(2, width / 2)] of the row's cells look
    numeric.  No row above the returned one, among the first [max_scan]
    rows, is numeric; the first numeric row among the first [max_scan]
    rows is the row returned; and when none of them is numeric the
    answer is 3, or the number of rows of a shorter grid. *)
Theorem header_ends_at_first_numeric_row (g : grid) (max_scan : nat) :
  (detect_header_rows g max_scan <= length g)%nat
  /\ (forall r row,
        (r < detect_header_rows g max_scan)%nat -> (r < max_scan)%nat ->
        g !! r = Some row -> numeric_row (width g) row = false)
  /\ (forall r row,
        (r < max_scan)%nat -> g !! r = Some row ->
        numeric_row (width g) row = true ->
        (forall j row', (j < r)%nat -> g !! j = Some row' ->
                        numeric_row (width g) row' = false) ->
        detect_header_rows g max_scan = r)
  /\ ((forall r row, (r < max_scan)%nat -> g !! r = Some row ->
                     numeric_row (width g) row = false) ->
      detect_header_rows g max_scan = (3 `min` length g)%nat).
Proof.
  unfold detect_header_rows.
  destruct g as [|row0 g']; [simpl; repeat split; try lia; try done|].
  set (g := row0 :: g').
  destruct (first_numeric_row (width g) 0 (take max_scan g)) as [k|] eqn:E.
  - apply first_numeric_row_Some in E as (_ & (row & Hrow & Hn) & Hb).
    rewrite Nat.sub_0_r in *. rewrite Nat.max_0_l.
    apply lookup_take_Some in Hrow as [Hrow Hk].
    split; [apply lookup_lt_Some in Hrow; lia|].
    split; [|split].
    + intros r row' Hr _ Hrow'. apply (Hb r); [done|].
      by rewrite lookup_take_lt by lia.
    + intros r row' Hr Hrow' Hn' Hfirst.
      destruct (Nat.lt_trichotomy k r) as [Hlt|[->|Hgt]]; [|done|].
      * rewrite (Hfirst k row) in Hn; done.
      * rewrite (Hb r row') in Hn'; [done..|].
        by rewrite lookup_take_lt.
    + intros Hnone. rewrite (Hnone k row) in Hn; done.
  - apply first_numeric_row_None in E.
    split; [lia|]. split; [|split; [|done]].
    + intros r row Hr Hms Hrow.
      eapply (proj1 (Forall_forall _ _) E).
      apply list_elem_of_lookup. exists r. by rewrite lookup_take_lt.
    + intros r row Hr Hrow Hn _.
      assert (numeric_row (width g) row = false); [|congruence].
      eapply (proj1 (Forall_forall _ _) E).
      apply list_elem_of_lookup. exists r. by rewrite lookup_take_lt.
Qed.

Lemma first_res_spec (p : nat -> res bool) (q : nat -> bool) l :
  (forall x, x ∈ l -> p x = Ok (q x)) ->
  first_res p l = Ok (head (filter (fun x => q x = true) l)).
Proof.
  induction l as [|x l IH]; intros Hp; simpl; [reflexivity|].
  rewrite (Hp x) by apply list_elem_of_here. simpl.
  rewrite filter_cons. destruct (q x) eqn:E.
  - by rewrite decide_True.
  - rewrite decide_False by congruence. apply IH.
    intros y Hy. apply Hp. by apply list_elem_of_further.
Qed.

Lemma head_filter_seq (q : nat -> bool) a n :
  match head (filter (fun x => q x = true) (seq a n)) with
  | Some s => (a <= s < a + n)%nat /\ q s = true
              /\ forall r, (a <= r < s)%nat -> q r = false
  | None => forall r, (a <= r < a + n)%nat -> q r = false
  end.
Proof.
  revert a. induction n as [|n IH]; intros a; simpl; [intros; lia|].
  rewrite filter_cons. destruct (q a) eqn:E.
  - rewrite decide_True by done. simpl. repeat split; (lia || done || intros; lia).
  - rewrite decide_False by congruence. specialize (IH (S a)).
    destruct (head _) as [s|].
    + destruct IH as (Hs & Hq & Hb). repeat split; [lia..|done|].
      intros r Hr. destruct (decide (r = a)) as [->|]; [done|]. apply Hb. lia.
    + intros r Hr. destruct (decide (r = a)) as [->|]; [done|]. apply IH. lia.
Qed.

Lemma existsb_text (row : list str) :
  existsb (fun c => negb (is_blank c)) row = true <-> has_text row.
Proof.
  unfold has_text. rewrite existsb_exists, Exists_exists.
  split; intros (c & Hc & Hb); exists c; split.
  - by apply list_elem_of_In.
  - by apply negb_true_iff in Hb.
  - by apply list_elem_of_In.
  - by apply negb_true_iff.
Qed.

(** X2. [first_non_empty_header_row] of rateBuildUp/rbuSpace.py never
    raises.  No row above the row it returns has a cell that is not
    blank; when one of the header rows has such a cell, the row returned
    is the first of them; and when none has, the answer is row 0, a blank
    row then. *)
Theorem section_row_is_first_header_row_with_text (g : grid) (header_rows : nat) :
  exists s,
    first_non_empty_header_row g header_rows = Ok s
    /\ (forall r row, (r < s)%nat -> g !! r = Some row -> ~ has_text row)
    /\ (forall r row, (r < header_rows)%nat -> g !! r = Some row ->
                      has_text row ->
        (s <= r)%nat /\ exists row', g !! s = Some row' /\ has_text row')
    /\ ((forall r row, (r < header_rows)%nat -> g !! r = Some row ->
                       ~ has_text row) -> s = 0%nat).
Proof.
  unfold first_non_empty_header_row.
  set (q := fun r => existsb (fun c => negb (is_blank c)) (default [] (g !! r))).
  rewrite (first_res_spec _ q).
  2:{ intros r Hr. apply SectionFacts.range_lt in Hr.
      destruct (lookup_lt_is_Some_2 g r) as [row Hrow]; [lia|].
      unfold getitem, q. by rewrite Hrow. }
  unfold range. rewrite Nat.sub_0_r.
  pose proof (head_filter_seq q 0 (header_rows `min` length g)) as H.
  assert (Hq : forall r row, g !! r = Some row -> q r = true <-> has_text row).
  { intros r row Hrow. unfold q. rewrite Hrow. apply existsb_text. }
  destruct (head _) as [s|]; simpl; eexists; (split; [reflexivity|]).
  - destruct H as (Hs & Hqs & Hb).
    destruct (lookup_lt_is_Some_2 g s) as [rs Hrs]; [lia|].
    split; [|split].
    + intros r row Hr Hrow Ht. apply (Hq r row Hrow) in Ht.
      rewrite Hb in Ht; [done | lia].
    + intros r row Hr Hrow Ht. split.
      * destruct (decide (s <= r)%nat); [done|].
        apply (Hq r row Hrow) in Ht. rewrite Hb in Ht; [done | lia].
      * exists rs. split; [done|]. by apply (Hq s rs Hrs).
    + intros Hnone. destruct (Hnone s rs); [lia | done |].
      by apply (Hq s rs Hrs).
  - split; [intros; lia|]. split; [|done].
    intros r row Hr Hrow Ht. apply (Hq r row Hrow) in Ht.
    apply lookup_lt_Some in Hrow. rewrite H in Ht; [done | lia].
Qed.

End Header.

Lemma header_ends_at_first_numeric_row_witness :
  detect_header_rows (B := Ascii7.ascii) BlankTerms.grid_dates 12 = 2%nat.
Proof.
  refine (proj1 (proj2 (proj2 (header_ends_at_first_numeric_row
                                 (B := Ascii7.ascii) BlankTerms.grid_dates 12)))
                2%nat [lit "Retail"; lit "1"; lit "2"] _ _ _ _).
  - lia.
  - reflexivity.
  - vm_compute. reflexivity.
  - intros j row' Hj. destruct j as [|[|j]]; [| |lia];
      intros [= <-]; vm_compute; reflexivity.
Defined.

Lemma section_row_is_first_header_row_with_text_witness :
  exists s,
    first_non_empty_header_row grid_blank_top 3 = Ok s /\ (s <= 1)%nat.
Proof.
  destruct (section_row_is_first_header_row_with_text grid_blank_top 3)
    as (s & Hs & _ & Hfirst & _).
  exists s. split; [exact Hs|].
  apply (Hfirst 1%nat [lit "Financial"; []]);
    [lia | reflexivity | apply Exists_cons_hd; reflexivity].
Defined.

(** *** Runs *)

Lemma apart_snoc runs r1 r2 l h :
  apart (runs ++ [r1]) -> last r1 = Some l -> head r2 = Some h ->
  h <> (l + 1)%nat -> apart ((runs ++ [r1]) ++ [r2]).
Proof.
  intros Ha Hl Hh Hne. induction runs as [|r0 runs IH]; simpl in *.
  - split; [by exists l, h | done].
  - destruct (runs ++ [r1]) as [|r' rest] eqn:E.
    + by destruct runs.
    + simpl. simpl in IH. destruct Ha as [Ha1 Ha2]. split; [exact Ha1|].
      apply IH. exact Ha2.
Qed.

Lemma last_seq a n : last (seq a (S n)) = Some (a + n)%nat.
Proof. rewrite seq_S. apply last_snoc. Qed.

Lemma runs_inv_step cols st c :
  runs_inv cols st -> runs_inv (cols ++ [c]) (runs_step st c).
Proof.
  destruct st as [runs cur]. intros (Hcat & Hruns & Hcur). unfold runs_step.
  destruct cur as [|x cur'].
  - subst runs. simpl in *. subst cols. simpl.
    split; [done|]. split; [done|]. split; [by exists c, 0%nat | done].
  - destruct Hcur as [(a & n & Hseq) Hap].
    assert (Hlast : last (x :: cur') = Some (a + n)%nat)
      by (rewrite Hseq; apply last_seq).
    rewrite Hlast. set (cur := x :: cur') in *. clearbody cur.
    destruct (c =? a + n + 1)%nat eqn:E.
    + apply Nat.eqb_eq in E. subst c.
      assert (Hs : cur ++ [(a + n + 1)%nat] = seq a (S (S n))).
      { rewrite Hseq, (seq_S (S n) a). do 2 f_equal. lia. }
      split; [by rewrite app_assoc, Hcat|]. split; [done|].
      rewrite Hs. split; [by exists a, (S n)|].
      subst cur. clear -Hap.
      induction runs as [|r0 runs IH]; [done|].
      destruct runs as [|r1 runs].
      * destruct Hap as [(l & h & Hl & Hh & Hne) _].
        split; [|done]. by exists l, h.
      * destruct Hap as [H1 H2]. split; [exact H1 | by apply IH].
    + apply Nat.eqb_neq in E.
      split; [|split].
      * rewrite concat_app. simpl. rewrite app_nil_r, <- app_assoc.
        by rewrite app_assoc, Hcat.
      * apply Forall_app. split; [done|]. constructor; [|done]. by exists a, n.
      * split; [by exists c, 0%nat|].
        by apply (apart_snoc _ _ _ (a + n)%nat c).
Qed.

Lemma fold_runs_inv cols : runs_inv cols (fold_left runs_step cols ([], [])).
Proof.
  induction cols as [|c cols IH] using rev_ind.
  - simpl. done.
  - rewrite fold_left_app. simpl. by apply runs_inv_step.
Qed.

(** X3. The runs into which [extract_space_technique] of
    rateBuildUp/rbuSpace.py cuts a list of columns, in
    [contiguous_runs_for_label] and again for the unlabelled columns:
    put end to end they are the columns, in their order; every run is a
    sequence of consecutive columns, and is not empty; and no run starts
    at the column right after the end of the run before it. *)
Theorem contiguous_runs_cut_at_gaps (cols : list nat) :
  concat (contiguous_runs cols) = cols
  /\ Forall (fun run => exists a n, run = seq a (S n)) (contiguous_runs cols)
  /\ apart (contiguous_runs cols).
Proof.
  unfold contiguous_runs. pose proof (fold_runs_inv cols) as H.
  destruct (fold_left runs_step cols ([], [])) as [runs cur].
  destruct H as (Hcat & Hruns & Hcur). destruct cur as [|x cur'].
  - subst runs. simpl in *. by subst cols.
  - destruct Hcur as [Hseq Hap]. split; [|split; [|done]].
    + rewrite concat_app. simpl. by rewrite app_nil_r.
    + apply Forall_app. split; [done|]. by constructor.
Qed.

(** *** The escape of the report *)

Lemma html_escape_flat_map s : html_escape s = flat_map escape_char s.
Proof.
  unfold html_escape, replace1. induction s as [|c s IH]; [reflexivity|].
  simpl. rewrite !flat_map_app, IH. f_equal.
  unfold escape_char.
  destruct (c =? AMPERSAND) eqn:E1; [reflexivity|].
  simpl. destruct (c =? LESS) eqn:E2; [reflexivity|].
  simpl. rewrite app_nil_r. destruct (c =? GREATER); [reflexivity|].
  reflexivity.
Qed.

Lemma unescape_escape_char c s :
  unescape (escape_char c ++ s) = c :: unescape s.
Proof.
  unfold escape_char.
  destruct (c =? AMPERSAND) eqn:E1.
  { apply N.eqb_eq in E1. subst c. reflexivity. }
  destruct (c =? LESS) eqn:E2.
  { apply N.eqb_eq in E2. subst c. reflexivity. }
  destruct (c =? GREATER) eqn:E3.
  { apply N.eqb_eq in E3. subst c. reflexivity. }
  simpl. by rewrite E1.
Qed.

(** X4. [html_escape] of rateBuildUp/rbuSpace.py leaves no [<] and no
    [>] in its output, and loses nothing: reading [&lt;], [&gt;] and
    [&amp;] back from left to right gives the text it was given, also
    when that text held such entities itself. *)
Theorem html_escape_round_trip (s : str) :
  (LESS ∉ html_escape s) /\ (GREATER ∉ html_escape s)
  /\ unescape (html_escape s) = s.
Proof.
  rewrite html_escape_flat_map.
  assert (Hno : forall c d, d ∈ escape_char c -> d <> LESS /\ d <> GREATER).
  { intros c d. unfold escape_char.
    destruct (c =? AMPERSAND) eqn:E1;
      [|destruct (c =? LESS) eqn:E2; [|destruct (c =? GREATER) eqn:E3]].
    - intros Hd. apply list_elem_of_In in Hd. simpl in Hd.
      repeat destruct Hd as [<-|Hd]; try done.
    - intros Hd. apply list_elem_of_In in Hd. simpl in Hd.
      repeat destruct Hd as [<-|Hd]; try done.
    - intros Hd. apply list_elem_of_In in Hd. simpl in Hd.
      repeat destruct Hd as [<-|Hd]; try done.
    - intros Hd%list_elem_of_In. destruct Hd as [<-|[]].
      apply N.eqb_neq in E2, E3. done. }
  split; [|split].
  - intros H%list_elem_of_In%in_flat_map. destruct H as (c & _ & Hd).
    apply list_elem_of_In, Hno in Hd. tauto.
  - intros H%list_elem_of_In%in_flat_map. destruct H as (c & _ & Hd).
    apply list_elem_of_In, Hno in Hd. tauto.
  - induction s as [|c s IH]; [reflexivity|].
    simpl. by rewrite unescape_escape_char, IH.
Qed.

End HeaderFacts.

(** ** Loops that stop at the first hit *)

Module LoopFacts.
Import Py RbuSpace.

Lemma any_res_spec {A} (p : A -> res bool) (q : A -> bool) l :
  (forall x, x ∈ l -> p x = Ok (q x)) -> any_res p l = Ok (existsb q l).
Proof.
  induction l as [|x l IH]; intros Hp; simpl; [reflexivity|].
  rewrite (Hp x) by apply list_elem_of_here. simpl.
  destruct (q x); [reflexivity|]. apply IH.
  intros y Hy. apply Hp. by apply list_elem_of_further.
Qed.

Lemma all_res_spec {A} (p : A -> res bool) (q : A -> bool) l :
  (forall x, x ∈ l -> p x = Ok (q x)) -> all_res p l = Ok (forallb q l).
Proof.
  induction l as [|x l IH]; intros Hp; simpl; [reflexivity|].
  rewrite (Hp x) by apply list_elem_of_here. simpl.
  destruct (q x); [|reflexivity]. apply IH.
  intros y Hy. apply Hp. by apply list_elem_of_further.
Qed.

Lemma first_res_Some (p : nat -> res bool) l x :
  first_res p l = Ok (Some x) -> x ∈ l /\ p x = Ok true.
Proof.
  induction l as [|y l IH]; simpl; [discriminate|].
  destruct (p y) as [[]| |] eqn:E; simpl; try discriminate.
  - intros [= <-]. split; [apply list_elem_of_here | exact E].
  - intros H. destruct (IH H) as [Hin Hp].
    split; [by apply list_elem_of_further | exact Hp].
Qed.

Lemma range_cons a b : (a < b)%nat -> range a b = a :: range (S a) b.
Proof.
  intros H. unfold range. destruct (b - a)%nat as [|k] eqn:E; [lia|].
  simpl. do 2 f_equal. lia.
Qed.

End LoopFacts.

(** ** Blocks of a section: a search that is stuck *)

Module BlockFacts.
Import Py RbuSpace SectionTerms SectionFacts BlockTerms LoopFacts.
Import HeaderFacts.

Lemma min_col_in c cols : min_col (c :: cols) ∈ c :: cols.
Proof.
  simpl. induction cols as [|x cols IH]; simpl; [apply list_elem_of_here|].
  destruct (Nat.min_spec x (foldr Nat.min c cols)) as [[_ ->]|[_ ->]].
  - apply list_elem_of_further, list_elem_of_here.
  - apply elem_of_cons in IH as [->|IH]; [apply list_elem_of_here|].
    by do 2 apply list_elem_of_further.
Qed.

Lemma foldr_min_le c cols : (foldr Nat.min c cols <= c)%nat.
Proof. induction cols; simpl; lia. Qed.

Lemma min_col_le c cols x : x ∈ c :: cols -> (min_col (c :: cols) <= x)%nat.
Proof.
  simpl. revert x. induction cols as [|y cols IH]; intros x; simpl.
  - intros H. apply list_elem_of_singleton in H. lia.
  - intros H. apply elem_of_cons in H as [Hx|H].
    + pose proof (foldr_min_le c cols). lia.
    + apply elem_of_cons in H as [Hx|H]; [lia|].
      assert ((foldr Nat.min c cols <= x)%nat); [|lia].
      apply IH. by apply list_elem_of_further.
Qed.

Lemma sorted_perm cols : sorted cols ≡ₚ cols.
Proof. apply merge_sort_Permutation. Qed.

Lemma sorted_strongly cols : StronglySorted Nat.le (sorted cols).
Proof. apply StronglySorted_merge_sort; apply _. Qed.

(** The least column comes first in [sorted(cols)]. *)
Lemma sorted_head_min cols :
  cols <> [] -> exists rest, sorted cols = min_col cols :: rest.
Proof.
  intros Hne. destruct cols as [|c cols]; [done|].
  pose proof (sorted_perm (c :: cols)) as Hp.
  pose proof (sorted_strongly (c :: cols)) as Hs.
  destruct (sorted (c :: cols)) as [|h rest] eqn:E.
  { apply Permutation_nil_l in Hp. discriminate. }
  exists rest. f_equal.
  apply StronglySorted_inv in Hs as [_ Hh].
  assert (Hmin : min_col (c :: cols) ∈ h :: rest)
    by (rewrite Hp; apply min_col_in).
  assert (Hle : (min_col (c :: cols) <= h)%nat).
  { apply min_col_le. rewrite <- Hp. apply list_elem_of_here. }
  apply elem_of_cons in Hmin as [->|Hmin]; [reflexivity|].
  pose proof (proj1 (Forall_forall _ _) Hh _ Hmin). unfold Nat.le in *. lia.
Qed.

Lemma right_boundary_blank_start g top cols v :
  cols <> [] ->
  cell g top (min_col cols) = Ok v -> is_blank v = true ->
  right_boundary_in_row_until_empty_col g top cols (min_col cols)
  = Ok (min_col cols).
Proof.
  intros Hne Hc Hb. unfold right_boundary_in_row_until_empty_col.
  destruct (sorted_head_min cols Hne) as [rest Hs]. rewrite Hs.
  rewrite bool_decide_eq_true_2 by apply list_elem_of_here.
  unfold mbind, res_bind at 1. cbv beta iota.
  destruct (last (min_col cols :: rest)) as [b|] eqn:El.
  2:{ by apply last_None in El. }
  rewrite (ChannelFacts.getitem_minus_one _ _ El).
  unfold mbind, res_bind at 1. cbv beta iota.
  cbn [right_boundary_loop index]. rewrite Nat.eqb_refl. cbn [negb].
  rewrite Hc. unfold mbind, res_bind. cbv beta iota. by rewrite Hb.
Qed.

Lemma scan_down_blank_row n g rr left_col v :
  cell g rr left_col = Ok v -> is_blank v = true ->
  scan_down n g rr left_col left_col = Ok rr.
Proof.
  intros Hc Hb. destruct n as [|n]; simpl; [reflexivity|].
  unfold range. replace (left_col + 1 - left_col)%nat with 1%nat by lia.
  simpl. rewrite Hc. simpl. by rewrite Hb.
Qed.

Lemma first_non_empty_row_from g cols r top :
  first_non_empty_row_in_cols g cols r = Ok (Some top) ->
  (r <= top < length g)%nat
  /\ first_non_empty_row_in_cols g cols top = Ok (Some top).
Proof.
  unfold first_non_empty_row_in_cols.
  intros [Hin Hp]%first_res_Some. apply range_lt in Hin.
  split; [exact Hin|]. rewrite range_cons by lia. simpl. by rewrite Hp.
Qed.

Lemma first_non_empty_row_no_cols g r :
  first_non_empty_row_in_cols g [] r = Ok None.
Proof.
  unfold first_non_empty_row_in_cols.
  induction (range r (length g)) as [|x l IH]; simpl; [reflexivity | exact IH].
Qed.

Lemma blocks_loop_stuck g cols top v :
  cols <> [] -> (1 <= top)%nat ->
  first_non_empty_row_in_cols g cols top = Ok (Some top) ->
  cell g top (min_col cols) = Ok v -> is_blank v = true ->
  forall fuel blocks, blocks_loop fuel g cols top blocks = NoFuel.
Proof.
  intros Hne Htop Hfirst Hc Hb.
  induction fuel as [|fuel IH]; intros blocks; simpl; [reflexivity|].
  rewrite Hfirst. simpl.
  rewrite (right_boundary_blank_start g top cols v Hne Hc Hb). simpl.
  rewrite (scan_down_blank_row _ g top _ v Hc Hb). simpl.
  replace (top - 1 + 1)%nat with top by lia. apply IH.
Qed.

(** X5. [find_table_blocks_in_section] of rateBuildUp/rbuSpace.py need
    not end.  When the first row under the section row that has a cell
    that is not blank in the section's columns is blank in the leftmost
    of these columns, the block found there is empty and the next search
    starts at the same row: the loop runs out of every amount of fuel. *)
Theorem blank_first_cell_never_ends
    (g : grid) (section_cols : list nat) (section_row top : nat) (v : str) :
  first_non_empty_row_in_cols g section_cols (section_row + 1)
  = Ok (Some top) ->
  cell g top (min_col section_cols) = Ok v ->
  is_blank v = true ->
  forall fuel,
    find_table_blocks_in_section fuel g section_cols section_row = NoFuel.
Proof.
  intros Hfirst Hc Hb fuel.
  assert (Hne : section_cols <> []).
  { intros ->. by rewrite first_non_empty_row_no_cols in Hfirst. }
  unfold find_table_blocks_in_section.
  destruct section_cols as [|c0 cols0] eqn:Ecols; [done|]. rewrite <- Ecols in *.
  destruct fuel as [|fuel]; [reflexivity|]. simpl.
  rewrite Hfirst. simpl.
  apply first_non_empty_row_from in Hfirst as [Htop Hfirst].
  rewrite (right_boundary_blank_start g top _ v Hne Hc Hb). simpl.
  rewrite (scan_down_blank_row _ g top _ v Hc Hb). simpl.
  replace (top - 1 + 1)%nat with top by lia.
  apply (blocks_loop_stuck g _ top v); (done || lia).
Qed.

Lemma blank_first_cell_never_ends_witness :
  find_table_blocks_in_section 1000 BlankTerms.grid_blank_corner
    [0%nat; 1%nat] 0 = NoFuel.
Proof.
  apply (blank_first_cell_never_ends BlankTerms.grid_blank_corner
           [0%nat; 1%nat] 0 1 []); reflexivity.
Defined.

End BlockFacts.

(** ** Blocks of a section: a search that moves on *)

Module StackFacts.
Import Py RbuSpace SectionTerms SectionFacts BlockTerms LoopFacts.
Import HeaderFacts BlockFacts.

Lemma existsb_text_false g r cols :
  existsb (fun c => negb (is_blank (cell_text g r c))) cols = false
  <-> blank_in g r cols.
Proof.
  unfold blank_in. induction cols as [|c cols IH]; simpl.
  - split; [constructor | done].
  - rewrite orb_false_iff, negb_false_iff, IH, Forall_cons. done.
Qed.

Lemma forallb_blank g r cols :
  forallb (fun c => is_blank (cell_text g r c)) cols = true
  <-> blank_in g r cols.
Proof.
  unfold blank_in. induction cols as [|c cols IH]; simpl.
  - split; [constructor | done].
  - rewrite andb_true_iff, IH, Forall_cons. done.
Qed.

Lemma index_app_notin pre c l :
  c ∉ pre -> index (pre ++ c :: l) c = length pre.
Proof.
  induction pre as [|x pre IH]; simpl; intros Hn.
  - by rewrite Nat.eqb_refl.
  - apply not_elem_of_cons in Hn as [Hne Hn].
    rewrite (proj2 (Nat.eqb_neq _ _)) by done. by rewrite IH.
Qed.

Lemma find_table_blocks_loop fuel g cols section_row :
  cols <> [] ->
  find_table_blocks_in_section fuel g cols section_row
  = blocks_loop fuel g cols (section_row + 1) [].
Proof. by destruct cols. Qed.

Section Progress.
Context (g : grid) (cols : list nat) (section_row : nat).
Hypothesis Hrect : rectangular g.
Hypothesis Hne : cols <> [].
Hypothesis Hcols : Forall (fun c => (c < width g)%nat) cols.

Lemma first_row_spec r :
  exists o,
    first_non_empty_row_in_cols g cols r = Ok o
    /\ match o with
       | Some top =>
           (r <= top < length g)%nat /\ ~ blank_in g top cols
           /\ forall r', (r <= r' < top)%nat -> blank_in g r' cols
       | None => forall r', (r <= r' < length g)%nat -> blank_in g r' cols
       end.
Proof.
  unfold first_non_empty_row_in_cols.
  set (q := fun r => existsb (fun c => negb (is_blank (cell_text g r c))) cols).
  rewrite (first_res_spec _ q).
  2:{ intros x Hx%range_lt. apply any_res_spec. intros c Hc.
      rewrite (cell_in_grid g x c Hrect); [done | lia |].
      by apply (proj1 (Forall_forall _ _) Hcols). }
  eexists. split; [reflexivity|].
  pose proof (head_filter_seq q r (length g - r)) as H. unfold range.
  destruct (head _) as [top|].
  - destruct H as (Ht & Hq & Hb). split; [lia|]. split.
    + intros Hbl%existsb_text_false. unfold q in Hq. congruence.
    + intros r' Hr'. apply existsb_text_false. apply Hb. lia.
  - intros r' Hr'. apply existsb_text_false. apply H. lia.
Qed.

Lemma right_boundary_loop_spec top sorted_cols start boundary :
  (top < length g)%nat ->
  Forall (fun c => (c < width g)%nat) sorted_cols ->
  last sorted_cols = Some boundary ->
  forall l pre,
    sorted_cols = pre ++ l -> pre <> [] ->
    Forall (fun c => is_blank (cell_text g top c) = false) pre ->
    exists right pre' l',
      right_boundary_loop g top sorted_cols start true boundary l = Ok right
      /\ sorted_cols = pre' ++ l' /\ last pre' = Some right
      /\ Forall (fun c => is_blank (cell_text g top c) = false) pre'.
Proof.
  intros Htop Hw Hlast. induction l as [|c l IH]; intros pre Heq Hpre Hnb.
  - simpl. exists boundary, pre, []. split; [done|]. split; [done|].
    split; [|done]. rewrite app_nil_r in Heq. by subst.
  - simpl. replace (if (c =? start)%nat then true else true) with true
      by by destruct (c =? start)%nat.
    simpl. rewrite (cell_in_grid g top c Hrect Htop).
    2:{ apply (proj1 (Forall_forall _ _) Hw). rewrite Heq.
        apply elem_of_app. right. apply list_elem_of_here. }
    simpl. destruct (is_blank (cell_text g top c)) eqn:Eb.
    + assert (Hnin : c ∉ pre).
      { intros Hin. apply (proj1 (Forall_forall _ _) Hnb) in Hin. congruence. }
      rewrite Heq, (index_app_notin pre c l Hnin).
      destruct (last pre) as [x|] eqn:El; [|by apply last_None in El].
      assert (Hlen : (0 < length pre)%nat) by (destruct pre; simpl; [done | lia]).
      rewrite (proj2 (Nat.ltb_lt _ _) Hlen).
      exists x, pre, (c :: l). split; [|done].
      apply ChannelFacts.getitem_Some.
      rewrite lookup_app_l by lia. rewrite last_lookup in El.
      by replace (length pre - 1)%nat with (pred (length pre)) by lia.
    + apply (IH (pre ++ [c])).
      * by rewrite <- app_assoc.
      * by destruct pre.
      * apply Forall_app. split; [done|]. by constructor.
Qed.

Lemma right_boundary_spec top :
  (top < length g)%nat ->
  is_blank (cell_text g top (min_col cols)) = false ->
  exists right,
    right_boundary_in_row_until_empty_col g top cols (min_col cols) = Ok right
    /\ (min_col cols <= right)%nat /\ right ∈ cols
    /\ forall c, c ∈ cols -> (c <= right)%nat ->
                 is_blank (cell_text g top c) = false.
Proof.
  intros Htop Hnb. unfold right_boundary_in_row_until_empty_col.
  destruct (sorted_head_min cols Hne) as [rest Hs].
  pose proof (sorted_perm cols) as Hp.
  pose proof (sorted_strongly cols) as Hss.
  assert (Hw : Forall (fun c => (c < width g)%nat) (sorted cols))
    by by rewrite Hp.
  rewrite Hs in *.
  rewrite bool_decide_eq_true_2 by apply list_elem_of_here.
  unfold mbind, res_bind at 1. cbv beta iota.
  destruct (last (min_col cols :: rest)) as [b|] eqn:El;
    [|by apply last_None in El].
  rewrite (ChannelFacts.getitem_minus_one _ _ El).
  unfold mbind, res_bind at 1. cbv beta iota.
  cbn [right_boundary_loop]. rewrite Nat.eqb_refl. cbn [negb].
  rewrite (cell_in_grid g top _ Hrect Htop)
    by (apply (proj1 (Forall_forall _ _) Hw); apply list_elem_of_here).
  unfold mbind, res_bind at 1. cbv beta iota. rewrite Hnb.
  destruct (right_boundary_loop_spec top (min_col cols :: rest) (min_col cols)
              b Htop Hw El rest [min_col cols])
    as (right & pre' & l' & Hrun & Heq & Hl & Hall); [done..| |].
  { by constructor. }
  exists right. split; [exact Hrun|].
  assert (Hin : right ∈ pre').
  { rewrite last_lookup in Hl. by eapply list_elem_of_lookup_2. }
  assert (Hr : right ∈ cols).
  { rewrite <- Hp, Heq. apply elem_of_app. by left. }
  split; [|split; [exact Hr|]].
  - destruct cols as [|c0 cols0]; [done|]. by apply min_col_le.
  - intros c Hc Hle. rewrite <- Hp, Heq in Hc.
    apply elem_of_app in Hc as [Hc|Hc].
    + by apply (proj1 (Forall_forall _ _) Hall).
    + rewrite Heq in Hss.
      pose proof (StronglySorted_app_1_elem_of _ _ _ _ _ Hss Hin Hc) as Hrc.
      unfold Nat.le in Hrc. assert (c = right) by lia. subst c.
      by apply (proj1 (Forall_forall _ _) Hall).
Qed.

Lemma scan_down_spec n rr left_col right_col :
  (right_col < width g)%nat -> (rr + n = length g)%nat ->
  exists rr',
    scan_down n g rr left_col right_col = Ok rr'
    /\ (rr <= rr' <= length g)%nat
    /\ (forall r, (rr <= r < rr')%nat ->
                  ~ blank_in g r (range left_col (right_col + 1)))
    /\ ((rr' < length g)%nat ->
        blank_in g rr' (range left_col (right_col + 1))).
Proof.
  intros Hr. revert rr. induction n as [|n IH]; intros rr Hn; simpl.
  - exists rr. split; [done|]. split; [lia|]. split; intros; lia.
  - rewrite (all_res_spec _ (fun c => is_blank (cell_text g rr c))).
    2:{ intros c Hc%range_lt. rewrite (cell_in_grid g rr c Hrect); (done || lia). }
    simpl. destruct (forallb _ _) eqn:E.
    + exists rr. split; [done|]. split; [lia|]. split; [intros; lia|].
      intros _. by apply forallb_blank.
    + destruct (IH (S rr)) as (rr' & Hrun & Hb & Hnb & Hbl); [lia|].
      exists rr'. split; [exact Hrun|]. split; [lia|]. split; [|exact Hbl].
      intros r Hrr. destruct (decide (r = rr)) as [->|Hne'].
      * intros Hbl'%forallb_blank. congruence.
      * apply Hnb. lia.
Qed.

Hypothesis Hleft :
  forall r, (section_row < r < length g)%nat -> ~ blank_in g r cols ->
            is_blank (cell_text g r (min_col cols)) = false.

Lemma blocks_loop_stacked fuel r acc :
  (section_row < r)%nat -> (length g - r < fuel)%nat ->
  exists new,
    blocks_loop fuel g cols r acc = Ok (acc ++ new)
    /\ stacked g cols r new.
Proof.
  revert r acc. induction fuel as [|fuel IH]; intros r acc Hr Hfuel; [lia|].
  simpl. destruct (first_row_spec r) as (o & -> & Ho). simpl.
  destruct o as [top|].
  2:{ exists []. by rewrite app_nil_r. }
  destruct Ho as (Htop & Htext & Hbefore).
  assert (Hl : is_blank (cell_text g top (min_col cols)) = false)
    by (apply Hleft; [lia | done]).
  destruct (right_boundary_spec top) as (right & -> & Hlr & Hin & Hnb);
    [lia | done |]. simpl.
  assert (Hrw : (right < width g)%nat)
    by by apply (proj1 (Forall_forall _ _) Hcols).
  destruct (scan_down_spec (length g - top) top (min_col cols) right)
    as (rr & -> & Hrr & Hrows & Hunder); [done | lia |]. simpl.
  assert (Hgt : (top < rr)%nat).
  { destruct (decide (top < rr)%nat) as [|Hn]; [done|].
    assert (rr = top) by lia. subst rr.
    assert (Hbl : blank_in g top (range (min_col cols) (right + 1)))
      by (apply Hunder; lia).
    assert (Hmin : min_col cols ∈ range (min_col cols) (right + 1)).
    { unfold range. apply list_elem_of_In, in_seq. lia. }
    apply (proj1 (Forall_forall _ _) Hbl) in Hmin. congruence. }
  replace (rr - 1 + 1)%nat with rr by lia.
  destruct (IH rr (acc ++ [(top, (rr - 1)%nat, min_col cols, right)]))
    as (new & -> & Hnew); [lia..|].
  exists ((top, (rr - 1)%nat, min_col cols, right) :: new).
  split; [by rewrite <- app_assoc|].
  simpl. split; [lia|]. split; [lia|]. split; [done|]. split; [done|].
  split; [done|]. split; [done|]. split; [done|].
  split; [intros x Hx; apply Hrows; lia|].
  replace (rr - 1 + 1)%nat with rr by lia. split; [done | exact Hnew].
Qed.

End Progress.

(** X6. On a rectangular grid and for section columns inside it: when
    every row under the section row that has a cell that is not blank in
    the section's columns has one in the leftmost of them,
    [find_table_blocks_in_section] of rateBuildUp/rbuSpace.py ends, one
    turn for each row of the grid being enough, and its blocks follow one
    another downwards.  Every block starts in the leftmost section column
    and ends in a section column; the section's cells of its first row up
    to its right end are not blank; none of its rows is blank within the
    block's columns, the row under it is; and the rows between the
    blocks, before the first and after the last one are blank in the
    section's columns. *)
Theorem blocks_follow_one_another
    (g : grid) (cols : list nat) (section_row fuel : nat) :
  rectangular g -> cols <> [] ->
  Forall (fun c => (c < width g)%nat) cols ->
  (forall r, (section_row < r < length g)%nat -> ~ blank_in g r cols ->
             is_blank (cell_text g r (min_col cols)) = false) ->
  (length g < fuel)%nat ->
  exists blocks,
    find_table_blocks_in_section fuel g cols section_row = Ok blocks
    /\ stacked g cols (section_row + 1) blocks.
Proof.
  intros Hrect Hne Hcols Hleft Hfuel. rewrite find_table_blocks_loop by done.
  destruct (blocks_loop_stacked g cols section_row Hrect Hne Hcols Hleft fuel
              (section_row + 1) []) as (new & Hrun & Hst); [lia..|].
  exists new. by split.
Qed.

Lemma blocks_follow_one_another_witness :
  exists blocks,
    find_table_blocks_in_section 6 BlankTerms.grid_dates [0; 1; 2]%nat 0
    = Ok blocks
    /\ stacked BlankTerms.grid_dates [0; 1; 2]%nat 1 blocks.
Proof.
  apply (blocks_follow_one_another BlankTerms.grid_dates [0; 1; 2]%nat 0 6).
  - repeat constructor.
  - done.
  - repeat constructor.
  - intros r Hr Hnb. simpl in Hr.
    destruct r as [|[|[|[|[|r]]]]]; try lia; try reflexivity.
    exfalso. apply Hnb. repeat constructor.
  - simpl. lia.
Defined.

End StackFacts.

(** ** The section map *)

Module SectionMapFacts.
Import Py RbuSpace SectionTerms SectionFacts SectionMapTerms.

Lemma scan_sections_labelled fuel g section_row header_rows data_start_row
    min_blank_sep c sec_map :
  rectangular g -> (width g - c <= fuel)%nat ->
  (forall j l, sec_map !! j = Some l ->
     (j < width g)%nat
     /\ labelled_from g section_row header_rows data_start_row min_blank_sep j l) ->
  exists m,
    scan_sections fuel g section_row header_rows data_start_row
                  min_blank_sep c sec_map = Ok m
    /\ forall j l, m !! j = Some l ->
         (j < width g)%nat
         /\ labelled_from g section_row header_rows data_start_row
                          min_blank_sep j l.
Proof.
  intros Hrect. revert c sec_map.
  induction fuel as [|fuel IH]; intros c sec_map Hfuel Hinv.
  - exists sec_map. simpl. by rewrite (proj2 (Nat.ltb_ge _ _)) by lia.
  - destruct (decide (c < width g)%nat) as [Hc|Hc].
    2:{ exists sec_map. simpl. by rewrite (proj2 (Nat.ltb_ge _ _)) by lia. }
    destruct (is_blank (section_cell g section_row c)) eqn:Hb.
    + rewrite (scan_sections_blank _ _ _ _ _ _ _ _ Hrect Hc Hb).
      apply IH; [lia | done].
    + destruct (scan_sections_label fuel g section_row header_rows
                  data_start_row min_blank_sep c sec_map Hrect Hc Hb)
        as (c2 & m' & Hbnd & Hno & _ & Hm & ->).
      apply IH; [lia|]. intros j l. rewrite Hm.
      destruct (decide (c <= j < c2)%nat) as [Hj|Hj]; [|apply Hinv].
      intros [= <-]. split; [lia|]. exists c.
      split; [lia|]. split; [done|]. split; [done|].
      intros j' Hj'. apply Hno. lia.
Qed.

(** X7. On a rectangular grid [map_section_labels_by_col] of
    rateBuildUp/rbuSpace.py returns a map, and every column it labels is
    a column of the grid that has data from [data_start_row] on and is
    blank in fewer than [min_blank_sep] header rows.  Its label is not
    empty: it is the stripped text of a section-row cell at or to the
    left of the column, and no run ends at a column from that cell to
    the column. *)
Theorem labelled_columns_have_data
    (g : grid) (section_row header_rows data_start_row min_blank_sep : nat) :
  rectangular g ->
  exists sec_map,
    map_section_labels_by_col g section_row header_rows data_start_row
                              min_blank_sep = Ok sec_map
    /\ forall c label,
        sec_map !! c = Some label ->
        (c < width g)%nat
        /\ has_data g data_start_row c = true
        /\ (blank_tiers g header_rows c < min_blank_sep)%nat
        /\ label <> []
        /\ labelled_from g section_row header_rows data_start_row
                         min_blank_sep c label.
Proof.
  intros Hrect. unfold map_section_labels_by_col.
  destruct (scan_sections_labelled (width g) g section_row header_rows
              data_start_row min_blank_sep 0 ∅ Hrect) as (m & Hrun & Hm);
    [lia | intros j l; by rewrite lookup_empty |].
  exists m. split; [exact Hrun|]. intros c label Hl.
  destruct (Hm c label Hl) as [Hc Hfrom]. split; [exact Hc|].
  pose proof Hfrom as (c0 & Hle & Hnb & Hlab & Hno).
  pose proof (Hno c ltac:(lia)) as Hend. unfold ends_run in Hend.
  apply orb_false_iff in Hend as [Hsep Hdata].
  split; [by apply negb_false_iff in Hdata|].
  split; [by apply Nat.leb_gt in Hsep|].
  split; [|exact Hfrom].
  rewrite Hlab. unfold is_blank in Hnb.
  by destruct (strip (section_cell g section_row c0)).
Qed.

Lemma labelled_columns_have_data_witness :
  exists sec_map,
    map_section_labels_by_col grid_blank_tiers 0 3 3 2 = Ok sec_map
    /\ sec_map !! 2%nat = Some (lit "x")
    /\ has_data grid_blank_tiers 3 2 = true.
Proof.
  destruct (labelled_columns_have_data grid_blank_tiers 0 3 3 2)
    as (m & Hrun & Hm); [repeat constructor|].
  exists m. split; [exact Hrun|].
  assert (Hl : m !! 2%nat = Some (lit "x")).
  { assert (H : map_section_labels_by_col grid_blank_tiers 0 3 3 2 ≫= (fun m => Ok (m !! 2%nat))
                = Ok (Some (lit "x"))) by (vm_compute; reflexivity).
    rewrite Hrun in H. simpl in H. by injection H. }
  split; [exact Hl|]. by destruct (Hm _ _ Hl) as (_ & Hd & _).
Defined.

End SectionMapFacts.

(** ** Date windows and metrics *)

Module MetricFacts.
Import Py RbuSpace SectionTerms SectionFacts LoopFacts.

Lemma replace1_elem old new s x :
  x ∈ replace1 old new s <-> (x ∈ s /\ x <> old) \/ (old ∈ s /\ x ∈ new).
Proof.
  unfold replace1. rewrite list_elem_of_In, in_flat_map. split.
  - intros (c & Hc & Hx). apply list_elem_of_In in Hc.
    destruct (c =? old) eqn:E.
    + apply N.eqb_eq in E. subst c. right. split; [done|].
      by apply list_elem_of_In.
    + apply N.eqb_neq in E. destruct Hx as [<-|[]]. by left.
  - intros [[Hx Hne]|[Ho Hx]].
    + exists x. split; [by apply list_elem_of_In|].
      rewrite (proj2 (N.eqb_neq _ _)) by done. by left.
    + exists old. split; [by apply list_elem_of_In|].
      rewrite N.eqb_refl. by apply list_elem_of_In.
Qed.

Lemma first_some_res_Some {A} (f : nat -> res (option A)) l a :
  first_some_res f l = Ok (Some a) -> exists x, x ∈ l /\ f x = Ok (Some a).
Proof.
  induction l as [|x l IH]; simpl; [discriminate|].
  destruct (f x) as [[b|]| |] eqn:E; simpl; try discriminate.
  - intros [= <-]. exists x. split; [apply list_elem_of_here | exact E].
  - intros H. destruct (IH H) as (y & Hy & Hf).
    exists y. split; [by apply list_elem_of_further | exact Hf].
Qed.

Lemma first_some_res_ext {A} (f f' : nat -> res (option A)) l :
  (forall x, x ∈ l -> f x = f' x) ->
  first_some_res f l = first_some_res f' l.
Proof.
  induction l as [|x l IH]; intros H; simpl; [reflexivity|].
  rewrite (H x) by apply list_elem_of_here.
  destruct (f' x) as [[b|]| |]; simpl; try reflexivity.
  apply IH. intros y Hy. apply H. by apply list_elem_of_further.
Qed.

Section Metric.
Context `{B : Builtins}.

Lemma take_date_window_slash s m rest :
  take_date_window s = Some (m, rest) -> SLASH ∈ m.
Proof.
  unfold take_date_window.
  destruct (take_mm_yy s) as [[m1 s1]|] eqn:E1; simpl; [|discriminate].
  destruct (take_spaces s1) as [w1 s2].
  destruct (take_dash s2) as [[d s3]|]; simpl; [|discriminate].
  destruct (take_spaces s3) as [w2 s4].
  destruct (take_mm_yy s4) as [[m2 s5]|]; simpl; [|discriminate].
  intros [= <- _]. apply elem_of_app. left.
  unfold take_mm_yy in E1.
  destruct s as [|a [|b [|c [|d0 [|e s']]]]]; try discriminate.
  destruct (_ && _) eqn:E; [|discriminate]. injection E1 as <- _.
  apply andb_true_iff in E as [E _]. apply andb_true_iff in E as [E _].
  apply andb_true_iff in E as [_ E]. apply N.eqb_eq in E. subst c.
  do 2 apply list_elem_of_further. apply list_elem_of_here.
Qed.

Lemma date_window_search_found prev s m :
  date_window_search prev s = Some m ->
  exists s' rest, take_date_window s' = Some (m, rest).
Proof.
  revert prev. induction s as [|c s IH]; intros prev.
  - cbn [date_window_search].
    destruct (boundary prev (head [])); [|discriminate].
    destruct (take_date_window []) as [[m' rest]|] eqn:E; [|discriminate].
    destruct (boundary (last m') (head rest)); [|discriminate].
    intros [= <-]. eauto.
  - cbn [date_window_search].
    destruct (boundary prev (head (c :: s))); [|apply IH].
    destruct (take_date_window (c :: s)) as [[m' rest]|] eqn:E; [|apply IH].
    destruct (boundary (last m') (head rest)); [|apply IH].
    intros [= <-]. eauto.
Qed.

Lemma take_mm_yy_shape s m rest :
  take_mm_yy s = Some (m, rest) ->
  exists a b c d,
    m = [a; b; SLASH; c; d]
    /\ Forall (fun x => isdecimal x = true) [a; b; c; d].
Proof.
  unfold take_mm_yy.
  destruct s as [|a [|b [|c [|d0 [|e s']]]]]; try discriminate.
  destruct (_ && _) eqn:E; [|discriminate]. intros [= <- _].
  repeat (apply andb_true_iff in E as [E ?]).
  match goal with H : (c =? SLASH) = true |- _ => apply N.eqb_eq in H; subst c end.
  exists a, b, d0, e. split; [reflexivity|]. by repeat constructor.
Qed.

Lemma take_spaces_shape s w r :
  take_spaces s = (w, r) -> Forall (fun x => isspace x = true) w.
Proof.
  revert w r. induction s as [|c s IH]; simpl; intros w r.
  - intros [= <- _]. constructor.
  - destruct (isspace c) eqn:E.
    + destruct (take_spaces s) as [w' r']. intros [= <- _].
      constructor; [exact E | by eapply IH].
    + intros [= <- _]. constructor.
Qed.

Lemma replace1_app old new a b :
  replace1 old new (a ++ b) = replace1 old new a ++ replace1 old new b.
Proof. unfold replace1. apply flat_map_app. Qed.

Lemma replace1_delete (P : N -> Prop) old w :
  Forall P w -> Forall (fun x => P x /\ x <> old) (replace1 old [] w).
Proof.
  unfold replace1. induction 1 as [|c w Hc _ IH]; simpl; [constructor|].
  destruct (c =? old) eqn:E; [exact IH|].
  apply N.eqb_neq in E. simpl. by constructor.
Qed.

(** X8. [parse_date_window_token] of rateBuildUp/rbuSpace.py, where
    decimal digits are neither whitespace nor the en dash: a blank cell
    has no token, and a token is two digits, a slash, two digits, a
    hyphen and again two digits, a slash, two digits.  The en dash of
    the cell has become a hyphen and the spaces around it are gone, but
    other whitespace around the dash (a tab, a no-break space) stays in
    the token. *)
Theorem date_window_token_shape :
  (forall c, isdecimal c = true -> isspace c = false /\ c <> EN_DASH) ->
  (forall cell, is_blank cell = true -> parse_date_window_token cell = None)
  /\ forall cell tok,
      parse_date_window_token cell = Some tok ->
      exists a b c d w1 w2 e f g h,
        tok = [a; b; SLASH; c; d] ++ w1 ++ [HYPHEN] ++ w2
              ++ [e; f; SLASH; g; h]
        /\ Forall (fun x => isdecimal x = true) [a; b; c; d; e; f; g; h]
        /\ Forall (fun x => isspace x = true /\ x <> SPACE) (w1 ++ w2).
Proof.
  intros Hdigit. split.
  { intros cell Hb. unfold parse_date_window_token. by rewrite Hb. }
  intros cell tok. unfold parse_date_window_token.
  destruct (is_blank cell); [discriminate|].
  destruct (date_window_search None cell) as [m|] eqn:E; [|discriminate].
  intros [= <-].
  apply date_window_search_found in E as (s' & rest & Hm).
  unfold take_date_window in Hm.
  destruct (take_mm_yy s') as [[m1 s1]|] eqn:E1; simpl in Hm; [|discriminate].
  destruct (take_spaces s1) as [w1 s2] eqn:Ew1.
  destruct (take_dash s2) as [[d s3]|] eqn:Ed; simpl in Hm; [|discriminate].
  destruct (take_spaces s3) as [w2 s4] eqn:Ew2.
  destruct (take_mm_yy s4) as [[m2 s5]|] eqn:E2; simpl in Hm; [|discriminate].
  injection Hm as <- _.
  apply take_mm_yy_shape in E1 as (a & b & c & d0 & -> & H1).
  apply take_mm_yy_shape in E2 as (e & f & g0 & h & -> & H2).
  apply take_spaces_shape in Ew1, Ew2.
  assert (Hd : replace1 EN_DASH [HYPHEN] d = [HYPHEN]).
  { unfold take_dash in Ed. destruct s2 as [|x s2']; [discriminate|].
    destruct ((x =? HYPHEN) || (x =? EN_DASH)) eqn:Ex; [|discriminate].
    injection Ed as <- _.
    apply orb_true_iff in Ex as [->%N.eqb_eq | ->%N.eqb_eq]; reflexivity. }
  assert (Hnd : forall l, Forall (fun x => isdecimal x = true) l ->
            Forall (fun x => x <> EN_DASH) l /\ Forall (fun x => x <> SPACE) l).
  { intros l Hl. split.
    - eapply Forall_impl; [exact Hl|]. intros x Hx. by apply Hdigit.
    - eapply Forall_impl; [exact Hl|]. intros x Hx ->.
      by destruct (Hdigit _ Hx). }
  assert (Hns : forall w, Forall (fun x => isspace x = true) w ->
            Forall (fun x => x <> EN_DASH) w).
  { intros w Hw. eapply Forall_impl; [exact Hw|]. by intros x Hx ->. }
  assert (Hm1 : forall a b c d,
            Forall (fun x => isdecimal x = true) [a; b; c; d] ->
            replace1 SPACE [] (replace1 EN_DASH [HYPHEN] [a; b; SLASH; c; d])
            = [a; b; SLASH; c; d]).
  { intros a' b' c' d' Hl. destruct (Hnd _ Hl) as [Hn1 Hn2].
    rewrite !Forall_cons in Hn1, Hn2.
    destruct Hn1 as (? & ? & ? & ? & _), Hn2 as (? & ? & ? & ? & _).
    rewrite (PyFacts.replace1_absent EN_DASH);
      [rewrite (PyFacts.replace1_absent SPACE); [reflexivity|]|];
      rewrite ?Forall_cons; repeat split; done || apply Forall_nil_2. }
  rewrite !replace1_app, Hd, (Hm1 _ _ _ _ H1), (Hm1 _ _ _ _ H2).
  rewrite (PyFacts.replace1_absent EN_DASH _ w1) by by apply Hns.
  rewrite (PyFacts.replace1_absent EN_DASH _ w2) by by apply Hns.
  exists a, b, c, d0, (replace1 SPACE [] w1), (replace1 SPACE [] w2),
    e, f, g0, h.
  split; [reflexivity|]. split.
  - rewrite !Forall_cons in H1, H2. rewrite !Forall_cons. tauto.
  - apply Forall_app. split; by apply replace1_delete.
Qed.

(** X10. With date windows switched off, [nearest_metric_above_col] and
    [date_window_for_col] of rateBuildUp/rbuSpace.py agree on every
    column of a rectangular grid whose header rows are rows of the grid:
    both give the stripped text of the bottom-most header cell of the
    column that is not blank, so a record's metric and its date window
    are the same text. *)
Theorem metric_is_column_label_without_date_windows
    (g : grid) (header_rows col : nat) (prefer_non_date : bool) :
  rectangular g -> (header_rows <= length g)%nat -> (col < width g)%nat ->
  nearest_metric_above_col g header_rows col prefer_non_date true
  = date_window_for_col g header_rows col true.
Proof.
  intros Hrect Hh Hc. unfold nearest_metric_above_col, date_window_for_col,
    bottom_most_text.
  f_equal. apply first_some_res_ext. intros r Hr%ExtractFacts.down_from_lt.
  rewrite (proj2 (Nat.ltb_lt _ _)) by lia.
  rewrite (proj2 (Nat.ltb_lt _ _) Hc). cbn [andb].
  rewrite (cell_in_grid g r col Hrect) by (done || lia). simpl.
  destruct (is_blank _); [reflexivity|].
  by rewrite andb_false_r.
Qed.

End Metric.

Lemma date_window_token_shape_witness :
  parse_date_window_token (B := Ascii7.ascii) (lit "x 07/27 - 06/28")
  = Some (lit "07/27-06/28")
  /\ exists a b c d w1 w2 e f g h,
      lit "07/27-06/28"
      = [a; b; SLASH; c; d] ++ w1 ++ [HYPHEN] ++ w2 ++ [e; f; SLASH; g; h]
      /\ Forall (fun x => isdecimal (Builtins := Ascii7.ascii) x = true)
                [a; b; c; d; e; f; g; h]
      /\ Forall (fun x => isspace x = true /\ x <> SPACE) (w1 ++ w2).
Proof.
  assert (H : parse_date_window_token (B := Ascii7.ascii) (lit "x 07/27 - 06/28")
              = Some (lit "07/27-06/28")) by (vm_compute; reflexivity).
  split; [exact H|].
  refine (proj2 (date_window_token_shape (B := Ascii7.ascii) _) _ _ H).
  intros c Hc. simpl in Hc. unfold Ascii7.is_digit in Hc.
  apply andb_true_iff in Hc as [H1%N.leb_le H2%N.leb_le].
  split; [|unfold EN_DASH; lia].
  unfold isspace.
  repeat apply orb_false_intro;
    first [apply N.eqb_neq; lia | apply andb_false_iff; rewrite !N.leb_gt; lia].
Defined.

Lemma metric_is_column_label_without_date_windows_witness :
  nearest_metric_above_col (B := Ascii7.ascii) BlankTerms.grid_dates 2 1
    true true
  = date_window_for_col (B := Ascii7.ascii) BlankTerms.grid_dates 2 1 true.
Proof.
  apply (metric_is_column_label_without_date_windows (B := Ascii7.ascii)).
  - repeat constructor.
  - simpl. lia.
  - simpl. lia.
Defined.

End MetricFacts.

(** ** The metric of a column *)

Module NearestMetricFacts.
Import Py RbuSpace SectionTerms SectionFacts LoopFacts MetricTerms MetricFacts.

(** A loop that walks the rows [h - 1 .. 0] and returns at the first row
    with the property [p]. *)
Lemma first_some_down {A} (f : nat -> res (option A)) (p : nat -> bool)
    (t : nat -> A) (h : nat) :
  (forall r, f r = Ok (if p r then Some (t r) else None)) ->
  exists o,
    first_some_res f (rev (seq 0 h)) = Ok o
    /\ match o with
       | Some x =>
           exists r, (r < h)%nat /\ p r = true
                     /\ (forall r', (r < r' < h)%nat -> p r' = false)
                     /\ x = t r
       | None => forall r, (r < h)%nat -> p r = false
       end.
Proof.
  intros Hf. induction h as [|h (o & Hrun & Ho)].
  - exists None. split; [reflexivity|]. intros r Hr. lia.
  - rewrite seq_S, rev_app_distr. cbn [rev app first_some_res Nat.add].
    rewrite Hf. cbn [mbind res_bind]. destruct (p h) eqn:Eh.
    + eexists. split; [reflexivity|]. exists h.
      split; [lia|]. split; [exact Eh|]. split; [intros; lia | reflexivity].
    + rewrite Hrun. exists o. split; [reflexivity|].
      destruct o as [x|].
      * destruct Ho as (r & Hr & Hp & Hnone & ->). exists r.
        split; [lia|]. split; [exact Hp|]. split; [|reflexivity].
        intros r' Hr'. destruct (decide (r' = h)) as [->|Hne]; [exact Eh|].
        apply Hnone. lia.
      * intros r Hr. destruct (decide (r = h)) as [->|Hne]; [exact Eh|].
        apply Ho. lia.
Qed.

Section Metric.
Context `{B : Builtins}.

(** The cell that the loop of [nearest_metric_above_col] reads in row
    [r]: the empty text outside the grid. *)
Lemma metric_cell_read g r col :
  rectangular g ->
  (if (r <? length g)%nat && (col <? width g)%nat
   then cell g r col else Ok [])
  = Ok (cell_text g r col).
Proof.
  intros Hrect. destruct (r <? length g)%nat eqn:Er.
  - apply Nat.ltb_lt in Er. destruct (col <? width g)%nat eqn:Ec; cbn [andb].
    + apply Nat.ltb_lt in Ec. by apply cell_in_grid.
    + apply Nat.ltb_ge in Ec. unfold cell_text.
      destruct (lookup_lt_is_Some_2 g r Er) as [row Hrow]. rewrite Hrow.
      assert (Hlen : length row = width g).
      { eapply (proj1 (Forall_forall _ _) Hrect).
        by eapply list_elem_of_lookup_2. }
      cbn [mbind option_bind]. by rewrite lookup_ge_None_2 by lia.
  - apply Nat.ltb_ge in Er. cbn [andb]. unfold cell_text.
    by rewrite (lookup_ge_None_2 g r Er).
Qed.

Lemma metric_body g col r :
  rectangular g ->
  (v ← (if (r <? length g)%nat && (col <? width g)%nat
        then cell g r col else Ok []);
   if is_blank v then Ok None
   else if true && negb false
           && bool_decide (is_Some (parse_date_window_token (strip v)))
        then Ok None
        else Ok (Some (strip v)))
  = Ok (if metric_cell g col r then Some (strip (cell_text g r col))
        else None).
Proof.
  intros Hrect. rewrite (metric_cell_read g r col Hrect).
  cbn [mbind res_bind]. unfold metric_cell.
  destruct (is_blank (cell_text g r col)); [reflexivity|].
  cbn [andb negb]. by destruct (bool_decide _).
Qed.

(** X9. With date windows in use and non-date labels preferred, the
    metric that [nearest_metric_above_col] of rateBuildUp/rbuSpace.py
    returns is never a text in which a date window is found.  On a
    rectangular grid the function returns, and the metric is the stripped
    text of the lowest header cell of the column that is neither blank
    nor holds a date window: the cells with a date window are passed
    over, and the metric is empty only when no such header cell is
    left. *)
Theorem metric_is_no_date_window (g : grid) (header_rows col : nat) :
  (forall m, nearest_metric_above_col g header_rows col true false = Ok m ->
             parse_date_window_token m = None)
  /\ (rectangular g ->
      exists m,
        nearest_metric_above_col g header_rows col true false = Ok m
        /\ ((exists r, (r < header_rows)%nat
                       /\ metric_cell g col r = true
                       /\ (forall r', (r < r' < header_rows)%nat ->
                                      metric_cell g col r' = false)
                       /\ m = strip (cell_text g r col))
            \/ ((forall r, (r < header_rows)%nat ->
                           metric_cell g col r = false)
                /\ m = []))).
Proof.
  split.
  - intros m. unfold nearest_metric_above_col.
    destruct (first_some_res _ _) as [[text|]| |] eqn:E; simpl;
      try discriminate; intros [= <-]; [|reflexivity].
    apply first_some_res_Some in E as (r & _ & Hr).
    destruct (if _ && _ then _ else _) as [v| |]; simpl in Hr;
      try discriminate.
    destruct (is_blank v); [discriminate|]. simpl in Hr.
    destruct (bool_decide _) eqn:Ed; [discriminate|].
    injection Hr as <-. apply bool_decide_eq_false in Ed.
    destruct (parse_date_window_token (strip v)); [|reflexivity].
    exfalso. apply Ed. by eexists.
  - intros Hrect. unfold nearest_metric_above_col, down_from, range.
    rewrite Nat.sub_0_r.
    destruct (first_some_down _ (metric_cell g col)
                (fun r => strip (cell_text g r col)) header_rows
                (fun r => metric_body g col r Hrect)) as (o & -> & Ho).
    cbn [mbind res_bind]. eexists. split; [reflexivity|].
    destruct o as [text|]; cbn [default from_option].
    + left. exact Ho.
    + right. by split.
Qed.

End Metric.

Lemma metric_is_no_date_window_witness :
  nearest_metric_above_col (B := Ascii7.ascii) grid_metric 2 1 true false
  = Ok (lit "Rate").
Proof.
  destruct (proj2 (metric_is_no_date_window (B := Ascii7.ascii)
                     grid_metric 2 1))
    as (m & Hrun & [(r & Hr & Hm & _ & ->) | (Hnone & _)]).
  - repeat constructor.
  - destruct r as [|[|r]]; [exact Hrun | | lia].
    vm_compute in Hm. discriminate.
  - specialize (Hnone 0%nat ltac:(lia)). vm_compute in Hnone. discriminate.
Defined.

End NearestMetricFacts.

(** ** The aggregate over the sources *)

Module AggregateFacts.
Import Py IndexTerms IndexFacts IndexPolicyTerms IndexPolicy RbuSpace.

Lemma with_defaults_texts srcs v src :
  texts (with_defaults srcs v) !! src =
  match texts v !! src with
  | Some x => Some x
  | None => if decide (src ∈ srcs) then Some [] else None
  end.
Proof.
  unfold with_defaults. revert v.
  induction srcs as [|s srcs IH]; intros v; cbn [fold_left].
  - destruct (texts v !! src); [reflexivity|].
    rewrite decide_False; [reflexivity | apply not_elem_of_nil].
  - rewrite IH. cbn [texts]. rewrite setdefault_lookup.
    destruct (texts v !! src) as [x|]; [reflexivity|].
    destruct (decide (src = s)) as [->|Hne].
    + rewrite decide_True; [reflexivity | apply list_elem_of_here].
    + destruct (decide (src ∈ srcs)) as [Hin|Hnin].
      * rewrite decide_True; [reflexivity | by apply list_elem_of_further].
      * rewrite decide_False; [reflexivity|].
        intros Hin. apply elem_of_cons in Hin as [?|?]; contradiction.
Qed.

Lemma with_defaults_meta srcs v : meta (with_defaults srcs v) = meta v.
Proof.
  unfold with_defaults. revert v.
  induction srcs as [|s srcs IH]; intros v; cbn [fold_left]; [reflexivity|].
  by rewrite IH.
Qed.

(** X11. The aggregate that [compare_records] of
    rateBuildUp/rbuSpace.py returns has an entry for a key exactly when
    a record has that key, and the entry's [meta] is the key.  In an
    entry, [values] and [texts] list the same sources, and every source
    of [sources_in_order] is among them: a source without a record of
    that key is listed with the value [None] and the empty text. *)
Theorem every_source_is_listed (recs : list record) (srcs : list str) (k : key) :
  match compare_records recs srcs !! k with
  | None => forall r, r ∈ recs -> key_tuple r <> k
  | Some e =>
      meta e = k
      /\ (exists r, r ∈ recs /\ key_tuple r = k)
      /\ (forall src, is_Some (values e !! src) <-> is_Some (texts e !! src))
      /\ forall src, src ∈ srcs ->
           is_Some (values e !! src)
           /\ (with_key_source k src recs = [] ->
               values e !! src = Some None /\ texts e !! src = Some [])
  end.
Proof.
  unfold compare_records. rewrite lookup_fmap.
  pose proof (fold_aggregate_aggregated recs k) as H.
  destruct (fold_left aggregate recs ∅ !! k) as [e|]; simpl.
  - destruct H as (Hnn & Hmeta & Hv). fold (with_defaults srcs e).
    split; [by rewrite with_defaults_meta|]. split; [|split].
    + unfold with_key in Hnn.
      destruct (filter _ recs) as [|r l] eqn:E; [done|].
      assert (Hr : r ∈ filter (fun r => key_tuple r = k) recs)
        by (rewrite E; apply list_elem_of_here).
      apply list_elem_of_filter in Hr as [Hk Hin]. by exists r.
    + intros src. rewrite with_defaults_values, with_defaults_texts.
      destruct (Hv src) as [-> ->].
      destruct (last _); simpl; [split; intros _; by eexists|].
      destruct (decide _); [split; intros _; by eexists|].
      split; intros [? ?]; discriminate.
    + intros src Hsrc. rewrite with_defaults_values, with_defaults_texts.
      destruct (Hv src) as [-> ->].
      destruct (last (with_key_source k src recs)) as [r|] eqn:El; simpl.
      * split; [by eexists|]. intros Hnil. by rewrite Hnil in El.
      * rewrite !decide_True by done. split; [by eexists|].
        intros _. split; reflexivity.
  - intros r Hr Hk. unfold with_key in H.
    assert (Hin : r ∈ filter (fun r => key_tuple r = k) recs)
      by by apply list_elem_of_filter.
    rewrite H in Hin. by apply not_elem_of_nil in Hin.
Qed.

Lemma every_source_is_listed_witness :
  exists e,
    compare_records [rec_first] [lit "a.csv"; lit "b.csv"]
      !! key_tuple rec_first = Some e
    /\ values e !! lit "b.csv" = Some None
    /\ texts e !! lit "b.csv" = Some [].
Proof.
  pose proof (every_source_is_listed [rec_first] [lit "a.csv"; lit "b.csv"]
                (key_tuple rec_first)) as H.
  destruct (compare_records [rec_first] [lit "a.csv"; lit "b.csv"]
              !! key_tuple rec_first) as [e|] eqn:E.
  - exists e. split; [reflexivity|].
    destruct H as (_ & _ & _ & H).
    destruct (H (lit "b.csv")) as [_ Hd].
    + apply list_elem_of_further, list_elem_of_here.
    + apply Hd. vm_compute. reflexivity.
  - exfalso. apply (H rec_first); [apply list_elem_of_here | reflexivity].
Defined.

End AggregateFacts.

(** ** The records of a file *)

Module RecordFacts.
Import Py RbuSpace RecordTerms LoopFacts MetricFacts SectionFacts.

Lemma for_res_Forall {A R} (body : list R -> A -> res (list R))
    (P : R -> Prop) (l : list A) (acc out : list R) :
  (forall acc x acc', x ∈ l -> body acc x = Ok acc' ->
     exists new, acc' = acc ++ new /\ Forall P new) ->
  for_res body l acc = Ok out ->
  exists new, out = acc ++ new /\ Forall P new.
Proof.
  revert acc. induction l as [|x l IH]; intros acc Hbody; simpl.
  - intros [= <-]. exists []. by rewrite app_nil_r.
  - destruct (body acc x) as [acc'| |] eqn:E; simpl; try discriminate.
    intros H.
    destruct (Hbody _ _ _ (list_elem_of_here _ _) E) as (new1 & -> & H1).
    destruct (IH (acc ++ new1)) as (new2 & -> & H2); [|exact H|].
    { intros a y a' Hy. apply Hbody. by apply list_elem_of_further. }
    exists (new1 ++ new2). rewrite <- app_assoc. split; [reflexivity|].
    by apply Forall_app.
Qed.

Lemma scan_down_ge n g rr left_col right_col rr' :
  scan_down n g rr left_col right_col = Ok rr' -> (rr <= rr')%nat.
Proof.
  revert rr. induction n as [|n IH]; intros rr; simpl.
  - intros [= <-]. lia.
  - destruct (all_res _ _) as [[]| |]; simpl; try discriminate.
    + intros [= <-]. lia.
    + intros H%IH. lia.
Qed.

Lemma blocks_loop_tops fuel g cols r acc out :
  blocks_loop fuel g cols r acc = Ok out ->
  exists new, out = acc ++ new
              /\ Forall (fun b : block => (r <= b.1.1.1)%nat) new.
Proof.
  revert r acc. induction fuel as [|fuel IH]; intros r acc; simpl;
    [discriminate|].
  destruct (first_non_empty_row_in_cols g cols r) as [[top|]| |] eqn:E;
    simpl; try discriminate.
  2:{ intros [= <-]. exists []. by rewrite app_nil_r. }
  apply BlockFacts.first_non_empty_row_from in E as [Htop _].
  destruct (right_boundary_in_row_until_empty_col _ _ _ _) as [right| |];
    simpl; try discriminate.
  destruct (scan_down _ _ _ _ _) as [rr| |] eqn:Es; simpl; try discriminate.
  apply scan_down_ge in Es. intros H.
  destruct (IH _ _ H) as (new & -> & Hnew).
  exists ((top, (rr - 1)%nat, min_col cols, right) :: new).
  rewrite <- app_assoc. split; [reflexivity|].
  constructor; [simpl; lia|].
  eapply Forall_impl; [exact Hnew|]. intros b Hb. simpl in Hb. lia.
Qed.

Lemma find_table_blocks_tops fuel g cols section_row blocks :
  find_table_blocks_in_section fuel g cols section_row = Ok blocks ->
  Forall (fun b : block => (section_row < b.1.1.1)%nat) blocks.
Proof.
  unfold find_table_blocks_in_section. destruct cols as [|c cols].
  - intros [= <-]. constructor.
  - intros H. destruct (blocks_loop_tops _ _ _ _ _ _ H) as (new & -> & Hnew).
    simpl. eapply Forall_impl; [exact Hnew|]. intros b Hb. simpl in Hb. lia.
Qed.

Section Records.
Context `{B : Builtins}.

Lemma is_blank_strip v : is_blank (strip v) = is_blank v.
Proof. unfold is_blank. by rewrite PyFacts.strip_idempotent. Qed.

Lemma looks_numeric_strip v : looks_numeric (strip v) = looks_numeric v.
Proof.
  unfold looks_numeric. by rewrite is_blank_strip, PyFacts.strip_idempotent.
Qed.

Lemma parse_numeric_strip v : parse_numeric (strip v) = parse_numeric v.
Proof.
  unfold parse_numeric. by rewrite is_blank_strip, PyFacts.strip_idempotent.
Qed.

Lemma group_path_parts label_rows left_col c :
  Forall (fun part => part <> []) (group_path_for_col label_rows left_col c).
Proof.
  unfold group_path_for_col. apply Forall_forall. intros part Hp.
  apply list_elem_of_In, in_flat_map in Hp as (lr & _ & Hp).
  destruct (_ && _); [|done].
  destruct (lr !! _) as [[|x v]|]; try done.
  destruct Hp as [<-|[]]. done.
Qed.

Lemma extract_row_records g src sec header_rows ndw label_rows left_col
    right_col records r section_row out :
  (section_row < r)%nat ->
  extract_row g src sec header_rows ndw label_rows left_col right_col
              records r = Ok out ->
  exists new,
    out = records ++ new
    /\ Forall (fun rec => from_numeric_cell g src header_rows section_row ndw rec
                          /\ section rec = sec) new.
Proof.
  intros Hr. unfold extract_row.
  destruct (first_data_col_in_row g r left_col right_col) as [o| |];
    simpl; try discriminate.
  match goal with
  | |- context [mbind _ ?m] => destruct m as [ch| |]
  end; simpl; try discriminate.
  apply for_res_Forall. intros acc c acc' _.
  destruct (cell g r c) as [val| |] eqn:Ec; simpl; try discriminate.
  destruct (looks_numeric val) eqn:En.
  2:{ intros [= <-]. exists []. by rewrite app_nil_r. }
  destruct (nearest_metric_above_col g header_rows c true ndw) as [m| |] eqn:Em;
    simpl; try discriminate.
  destruct (date_window_for_col g header_rows c ndw) as [d| |] eqn:Ed;
    simpl; try discriminate.
  intros [= <-]. eexists [_]. split; [reflexivity|].
  constructor; [|constructor]. split; [|reflexivity].
  unfold from_numeric_cell. simpl.
  split; [reflexivity|]. split; [exact Hr|].
  split; [by exists val|].
  split; [by rewrite looks_numeric_strip|].
  split; [by rewrite parse_numeric_strip|].
  split.
  { pose proof (ExtractFacts.group_path_length label_rows left_col c). lia. }
  split; [apply group_path_parts|].
  split; [exact Em | exact Ed].
Qed.

Lemma extract_block_records g src sec header_rows ndw records b
    section_row out :
  (section_row < b.1.1.1)%nat ->
  extract_block g src sec header_rows ndw records b = Ok out ->
  exists new,
    out = records ++ new
    /\ Forall (fun rec => from_numeric_cell g src header_rows section_row ndw rec
                          /\ section rec = sec) new.
Proof.
  destruct b as [[[top bottom] left_col] right_col]. simpl. intros Htop.
  destruct (forward_fill_label_rows g top bottom left_col right_col)
    as [label_rows| |]; simpl; try discriminate.
  apply for_res_Forall. intros acc r acc' Hr%range_lt.
  apply extract_row_records. lia.
Qed.

Lemma extract_runs_records fuel g src sec header_rows section_row ndw runs
    records out :
  extract_runs fuel g src sec header_rows section_row ndw runs records
  = Ok out ->
  exists new,
    out = records ++ new
    /\ Forall (fun rec => from_numeric_cell g src header_rows section_row ndw rec
                          /\ section rec = sec) new.
Proof.
  unfold extract_runs. apply for_res_Forall. intros acc run_cols acc' _.
  destruct (find_table_blocks_in_section fuel g run_cols section_row)
    as [blocks| |] eqn:E; simpl; try discriminate.
  apply find_table_blocks_tops in E.
  apply for_res_Forall. intros acc0 b acc0' Hb.
  apply extract_block_records.
  by apply (proj1 (Forall_forall _ _) E).
Qed.

Lemma section_labels_used sec_map label :
  label ∈ section_labels sec_map -> exists c, sec_map !! c = Some label.
Proof.
  unfold section_labels. rewrite merge_sort_Permutation.
  rewrite elem_of_elements, elem_of_list_to_set.
  intros H. apply list_elem_of_fmap in H as ([c l] & -> & H).
  apply elem_of_map_to_list in H. by exists c.
Qed.

(** X12. Every record that [extract_space_technique] of
    rateBuildUp/rbuSpace.py returns carries the source name and stands for
    a cell under the section row that looks numeric: its text is that
    cell stripped, its number is read from it, its group path has at most
    three parts and none is empty, its metric and date window are those
    of its column, and its section is [Standalone] or a label of the
    section map. *)
Theorem records_are_numeric_cells
    (fuel : nat) (g : grid) (source_name : str)
    (header_rows section_row min_blank_sep : nat) (no_date_window : bool)
    (records : list record) :
  extract_space_technique fuel g source_name header_rows section_row
                          min_blank_sep no_date_window = Ok records ->
  exists sec_map,
    map_section_labels_by_col g section_row header_rows header_rows
                              min_blank_sep = Ok sec_map
    /\ Forall (fun rec =>
                 from_numeric_cell g source_name header_rows section_row no_date_window rec
                 /\ (section rec = STANDALONE
                     \/ exists c, sec_map !! c = Some (section rec)))
              records.
Proof.
  unfold extract_space_technique.
  destruct (map_section_labels_by_col _ _ _ _ _) as [sec_map| |];
    simpl; try discriminate.
  destruct (for_res _ (section_labels sec_map) []) as [recs1| |] eqn:E1;
    simpl; try discriminate.
  destruct (unlabeled_cols g sec_map header_rows) as [unl| |];
    simpl; try discriminate.
  intros H2. exists sec_map. split; [reflexivity|].
  apply (for_res_Forall _
           (fun rec => from_numeric_cell g source_name header_rows section_row
                         no_date_window rec
                       /\ (section rec = STANDALONE
                           \/ exists c, sec_map !! c = Some (section rec))))
    in E1 as (new1 & -> & H1).
  2:{ intros acc label acc' Hl Hrun.
      apply extract_runs_records in Hrun as (new & -> & Hnew).
      exists new. split; [reflexivity|].
      eapply Forall_impl; [exact Hnew|]. intros rec [Hrec Hsec].
      split; [exact Hrec|]. right. rewrite Hsec.
      by apply section_labels_used. }
  apply extract_runs_records in H2 as (new2 & -> & H2).
  simpl. apply Forall_app. split; [exact H1|].
  eapply Forall_impl; [exact H2|]. intros rec [Hrec Hsec].
  split; [exact Hrec | by left].
Qed.

End Records.

Lemma records_are_numeric_cells_witness :
  exists records,
    extract_space_technique (B := Ascii7.ascii) 10 BlankTerms.grid_dates
      (lit "a.csv") 2 0 2 false = Ok records
    /\ length records = 4%nat
    /\ Forall (fun rec => looks_numeric (B := Ascii7.ascii) (value_text rec)
                          = true) records.
Proof.
  destruct (extract_space_technique (B := Ascii7.ascii) 10
              BlankTerms.grid_dates (lit "a.csv") 2 0 2 false)
    as [records| |] eqn:E; try (vm_compute in E; discriminate).
  exists records. split; [reflexivity|]. split.
  - assert (H : length <$> extract_space_technique (B := Ascii7.ascii) 10
                  BlankTerms.grid_dates (lit "a.csv") 2 0 2 false
                = Ok 4%nat) by (vm_compute; reflexivity).
    rewrite E in H. by injection H.
  - destruct (records_are_numeric_cells (B := Ascii7.ascii) _ _ _ _ _ _ _ _ E)
      as (sec_map & _ & H).
    eapply Forall_impl; [exact H|]. intros rec [Hrec _].
    by destruct Hrec as (_ & _ & _ & Hn & _).
Defined.

End RecordFacts.

(** ** Key based rows *)

Module KeyFileFacts.
Import Py CodeWithRow KeyFileTerms.

Section KeyFile.
Context `{B : Builtins}.

Lemma header_index_map_snoc headers h :
  header_index_map (headers ++ [h])
  = <[normalize h := length headers]> (header_index_map headers).
Proof.
  unfold header_index_map. rewrite imap_app, fold_left_app. simpl.
  by rewrite Nat.add_0_r.
Qed.

Lemma header_index_map_dom headers n :
  is_Some (header_index_map headers !! n)
  <-> exists h, h ∈ headers /\ normalize h = n.
Proof.
  induction headers as [|h headers IH] using rev_ind.
  - unfold header_index_map. simpl. rewrite lookup_empty. split.
    + by intros [? ?].
    + intros (h & Hh & _). by apply not_elem_of_nil in Hh.
  - rewrite header_index_map_snoc.
    destruct (decide (normalize h = n)) as [<-|Hne].
    + rewrite lookup_insert_eq. split; [|by eexists].
      intros _. exists h. split; [|reflexivity].
      apply elem_of_app. right. apply list_elem_of_here.
    + rewrite lookup_insert_ne by done. rewrite IH. split.
      * intros (h' & Hh' & Hn). exists h'. split; [|exact Hn].
        apply elem_of_app. by left.
      * intros (h' & Hh' & Hn). exists h'. split; [|exact Hn].
        apply elem_of_app in Hh' as [Hh'|Hh']; [done|].
        apply list_elem_of_singleton in Hh'. by subst.
Qed.

Lemma header_index_map_is_Some headers h :
  h ∈ headers -> is_Some (header_index_map headers !! normalize h).
Proof. intros Hh. apply header_index_map_dom. by exists h. Qed.

(** X13. In [header_index_map] of rateBuildUp/codeWithRow.py the last
    header of a name wins: the index kept for a normalized name is that
    of a header with this name, no later header has the name, and a name
    has no index only when no header has it. *)
Theorem last_header_of_a_name_wins (headers : list str) (n : str) :
  match header_index_map headers !! n with
  | Some j =>
      (exists h, headers !! j = Some h /\ normalize h = n)
      /\ forall j' h', (j < j')%nat -> headers !! j' = Some h' ->
                       normalize h' <> n
  | None => forall h, h ∈ headers -> normalize h <> n
  end.
Proof.
  induction headers as [|h headers IH] using rev_ind.
  - unfold header_index_map. simpl. rewrite lookup_empty.
    intros h Hh. by apply not_elem_of_nil in Hh.
  - rewrite header_index_map_snoc.
    destruct (decide (normalize h = n)) as [<-|Hne].
    + rewrite lookup_insert_eq. split.
      * exists h. split; [|reflexivity].
        by rewrite lookup_app_r, Nat.sub_diag by lia.
      * intros j' h' Hj Hl. apply lookup_lt_Some in Hl.
        rewrite length_app in Hl. simpl in Hl. lia.
    + rewrite lookup_insert_ne by done.
      destruct (header_index_map headers !! n) as [j|].
      * destruct IH as [(hj & Hj & Hn) Hlater].
        split.
        -- exists hj. split; [|exact Hn].
           rewrite lookup_app_l; [done | by eapply lookup_lt_Some].
        -- intros j' h' Hlt Hl.
           destruct (decide (j' < length headers)%nat) as [Hin|Hout].
           ++ rewrite lookup_app_l in Hl by done. by eapply Hlater.
           ++ rewrite lookup_app_r in Hl by lia.
              destruct (j' - length headers)%nat; [|by destruct n0].
              by injection Hl as <-.
      * intros h' Hh'. apply elem_of_app in Hh' as [Hh'|Hh'].
        -- by apply IH.
        -- apply list_elem_of_singleton in Hh'. by subst.
Qed.

Lemma key_indexes_loop (hmap : gmap str nat) key_cols acc :
  for_res (fun acc k => i ← lookup_key hmap (normalize k); Ok (acc ++ [i]))
          key_cols acc
  = match list_find (fun k => hmap !! normalize k = None) key_cols with
    | Some _ => Raise KeyError
    | None => Ok (acc ++ omap (fun k => hmap !! normalize k) key_cols)
    end.
Proof.
  revert acc. induction key_cols as [|k key_cols IH]; intros acc; simpl.
  - by rewrite app_nil_r.
  - unfold lookup_key. destruct (hmap !! normalize k) as [i|] eqn:E; simpl.
    + etrans; [apply IH|].
      destruct (list_find _ key_cols); simpl; [reflexivity|].
      by rewrite <- app_assoc.
    + reflexivity.
Qed.

(** X14. [build_row_map] of rateBuildUp/codeWithRow.py returns when
    every key column is the name of a header, up to case and to the
    whitespace around it, whatever the rows are; it raises [KeyError]
    when a key column is the name of no header. *)
Theorem key_columns_must_be_headers
    (rows : list (list str)) (headers key_cols : list str) :
  ((forall k, k ∈ key_cols -> exists h, h ∈ headers /\ normalize h = normalize k) ->
   exists row_map duplicates,
     build_row_map rows headers key_cols = Ok (row_map, duplicates))
  /\ ((exists k, k ∈ key_cols
                 /\ forall h, h ∈ headers -> normalize h <> normalize k) ->
      build_row_map rows headers key_cols = Raise KeyError).
Proof.
  unfold build_row_map, key_indexes. rewrite key_indexes_loop. split.
  - intros Hall.
    destruct (list_find _ key_cols) as [[i k]|] eqn:E.
    + apply list_find_Some in E as (Hk & Hnone & _).
      destruct (Hall k) as (h & Hh & Hn); [by eapply list_elem_of_lookup_2|].
      destruct (header_index_map_is_Some headers h Hh) as [j Hj].
      congruence.
    + simpl. destruct (fold_left _ rows _) as [m d]. by exists m, d.
  - intros (k & Hk & Hno).
    destruct (list_find _ key_cols) as [[i k']|] eqn:E; [reflexivity|].
    apply list_find_None in E.
    pose proof (proj1 (Forall_forall _ _) E k Hk) as Hsome.
    simpl in Hsome.
    destruct (header_index_map headers !! normalize k) as [j|] eqn:Ej;
      [|by destruct Hsome].
    destruct (proj1 (header_index_map_dom headers (normalize k)))
      as (h & Hh & Hn); [by rewrite Ej|].
    by destruct (Hno h).
Qed.

Lemma add_row_accounts idx rows st r :
  (size st.1 + length st.2 = length rows)%nat
  /\ Forall (fun k => is_Some (st.1 !! k)) st.2 ->
  (size (add_row idx st r).1 + length (add_row idx st r).2
   = length (rows ++ [r]))%nat
  /\ Forall (fun k => is_Some ((add_row idx st r).1 !! k)) (add_row idx st r).2.
Proof.
  destruct st as [m d]. simpl. intros [Hn Hd]. unfold add_row.
  rewrite length_app. simpl.
  destruct (m !! row_key idx r) as [r0|] eqn:E; simpl.
  - rewrite length_app. simpl. split; [lia|].
    apply Forall_app. split; [done|]. constructor; [by eexists | done].
  - rewrite map_size_insert_None by done. split; [lia|].
    eapply Forall_impl; [exact Hd|]. intros k [x Hx].
    destruct (decide (row_key idx r = k)) as [<-|Hne]; [congruence|].
    rewrite lookup_insert_ne by done. by eexists.
Qed.

(** X15. [build_row_map] of rateBuildUp/codeWithRow.py accounts for
    every row: the rows kept in the map and the keys listed as duplicates
    are as many as the rows; a key listed as a duplicate is a key of the
    map; and every row kept is a row of the file. *)
Theorem every_row_is_kept_or_flagged
    (rows : list (list str)) (headers key_cols : list str)
    (row_map : gmap key (list str)) (duplicates : list key) :
  build_row_map rows headers key_cols = Ok (row_map, duplicates) ->
  (size row_map + length duplicates = length rows)%nat
  /\ Forall (fun k => is_Some (row_map !! k)) duplicates
  /\ forall k r, row_map !! k = Some r -> r ∈ rows.
Proof.
  unfold build_row_map.
  destruct (key_indexes headers key_cols) as [idx| |]; simpl; try discriminate.
  intros [= H].
  assert (Hacc :
    (size (fold_left (add_row idx) rows (∅, [])).1
     + length (fold_left (add_row idx) rows (∅, [])).2 = length rows)%nat
    /\ Forall (fun k => is_Some ((fold_left (add_row idx) rows (∅, [])).1 !! k))
              (fold_left (add_row idx) rows (∅, [])).2).
  { clear H. induction rows as [|r rows IH] using rev_ind.
    - simpl. split; [by rewrite map_size_empty | constructor].
    - rewrite fold_left_app. simpl. by apply add_row_accounts. }
  pose proof (IndexFacts.fold_add_row_indexed idx rows) as Hidx.
  rewrite H in Hacc, Hidx. simpl in Hacc. destruct Hacc as [Hn Hd].
  split; [exact Hn|]. split; [exact Hd|].
  intros k r Hk. destruct (Hidx k) as [Hhead _]. simpl in Hhead.
  rewrite Hk in Hhead. symmetry in Hhead.
  apply head_Some_elem_of in Hhead.
  unfold IndexTerms.rows_with_key in Hhead.
  by apply list_elem_of_filter in Hhead as [_ ?].
Qed.

End KeyFile.
End KeyFileFacts.

(** ** Key based comparison *)

Module KeyCompareFacts.
Import Py CodeWithRow KeyFileTerms KeyFileFacts.

Section KeyCompare.
Context `{B : Builtins}.

Lemma compare_header_step hmap1 hmap2 k r1 r2 m mm det h i1 i2 :
  hmap1 !! normalize h = Some i1 -> hmap2 !! normalize h = Some i2 ->
  compare_header hmap1 hmap2 k r1 r2 (m, mm, det) h
  = if bool_decide (cell_or_empty r1 i1 = cell_or_empty r2 i2)
    then Ok (S m, mm, det)
    else Ok (m, S mm,
             det ++ [(k, h, cell_or_empty r1 i1, cell_or_empty r2 i2)]).
Proof.
  intros H1 H2. unfold compare_header, lookup_key. by rewrite H1, H2.
Qed.

Lemma lookup_key_Some `{Countable K} {V} (d : gmap K V) k v :
  d !! k = Some v -> lookup_key d k = Ok v.
Proof. unfold lookup_key. by intros ->. Qed.

Lemma compare_headers_loop hmap1 hmap2 k r1 r2 hs m mm det :
  Forall (fun h => is_Some (hmap1 !! normalize h)
                   /\ is_Some (hmap2 !! normalize h)) hs ->
  exists m' mm' det',
    for_res (compare_header hmap1 hmap2 k r1 r2) hs (m, mm, det)
    = Ok (m', mm', det')
    /\ (m' + mm' = m + mm + length hs)%nat
    /\ (mm' + length det = mm + length det')%nat
    /\ (hmap1 = hmap2 -> r1 = r2 ->
        m' = (m + length hs)%nat /\ mm' = mm /\ det' = det).
Proof.
  intros Hhs. revert m mm det.
  induction Hhs as [|h hs [[i1 H1] [i2 H2]] _ IH]; intros m mm det;
    cbn [for_res].
  - exists m, mm, det. simpl. repeat split; lia.
  - rewrite (compare_header_step _ _ _ _ _ _ _ _ _ _ _ H1 H2).
    destruct (bool_decide (cell_or_empty r1 i1 = cell_or_empty r2 i2)) eqn:E;
      cbn [mbind res_bind length].
    + destruct (IH (S m) mm det) as (m' & mm' & det' & -> & Ha & Hb & Hc).
      exists m', mm', det'. split; [reflexivity|]. split; [lia|].
      split; [lia|]. intros He Hr. destruct (Hc He Hr) as (-> & -> & ->).
      repeat split; lia.
    + destruct (IH m (S mm) (det ++ [(k, h, cell_or_empty r1 i1,
                                      cell_or_empty r2 i2)]))
        as (m' & mm' & det' & -> & Ha & Hb & Hc).
      exists m', mm', det'. split; [reflexivity|]. split; [lia|].
      rewrite length_app in Hb. simpl in Hb. split; [lia|].
      intros -> ->. apply bool_decide_eq_false in E. congruence.
Qed.

Lemma compare_keys_loop (hmap1 hmap2 : gmap str nat)
    (map1 map2 : gmap key (list str)) hs ks m mm det :
  Forall (fun h => is_Some (hmap1 !! normalize h)
                   /\ is_Some (hmap2 !! normalize h)) hs ->
  Forall (fun k => is_Some (map1 !! k) /\ is_Some (map2 !! k)) ks ->
  exists m' mm' det',
    for_res (fun st k =>
               r1 ← lookup_key map1 k;
               r2 ← lookup_key map2 k;
               for_res (compare_header hmap1 hmap2 k r1 r2) hs st)
            ks (m, mm, det)
    = Ok (m', mm', det')
    /\ (m' + mm' = m + mm + length ks * length hs)%nat
    /\ (mm' + length det = mm + length det')%nat
    /\ (hmap1 = hmap2 -> map1 = map2 ->
        m' = (m + length ks * length hs)%nat /\ mm' = mm /\ det' = det).
Proof.
  intros Hhs Hks. revert m mm det.
  induction Hks as [|k ks [[r1 H1] [r2 H2]] _ IH]; intros m mm det;
    cbn [for_res].
  - exists m, mm, det. simpl. repeat split; lia.
  - rewrite (lookup_key_Some _ _ _ H1), (lookup_key_Some _ _ _ H2).
    cbn [mbind res_bind].
    destruct (compare_headers_loop hmap1 hmap2 k r1 r2 hs m mm det Hhs)
      as (m1 & mm1 & det1 & -> & Ha & Hb & Hc). cbn [mbind res_bind length].
    destruct (IH m1 mm1 det1) as (m' & mm' & det' & -> & Ha' & Hb' & Hc').
    exists m', mm', det'. split; [reflexivity|]. split; [lia|].
    split; [lia|]. intros He Hm.
    destruct (Hc He) as (-> & -> & ->); [subst; congruence|].
    destruct (Hc' He Hm) as (-> & -> & ->). repeat split; lia.
Qed.

Lemma common_headers_known headers1 headers2 :
  Forall (fun h => is_Some (header_index_map headers1 !! normalize h)
                   /\ is_Some (header_index_map headers2 !! normalize h))
         (filter (fun h => is_Some (header_index_map headers2 !! normalize h))
                 headers1).
Proof.
  apply Forall_forall. intros h [H2 H1]%list_elem_of_filter.
  split; [by apply header_index_map_is_Some | exact H2].
Qed.

Lemma common_keys_known {V} (map1 map2 : gmap key V) :
  Forall (fun k => is_Some (map1 !! k) /\ is_Some (map2 !! k))
         (common_keys map1 map2).
Proof.
  apply Forall_forall. intros k. unfold common_keys, sorted.
  rewrite merge_sort_Permutation, elem_of_elements, elem_of_intersection,
    !elem_of_dom. done.
Qed.

(** X16. Once the row maps of both files are built, [compare_key_based]
    of rateBuildUp/codeWithRow.py returns: the loops over the common keys
    and the common headers raise nothing.  Every cell of a common key
    under a common header is counted once, as a match or as a mismatch,
    a header of the first file being common when its name is the name of
    a header of the second; and the mismatch details are as many as the
    mismatches counted. *)
Theorem every_common_cell_is_counted
    (headers1 : list str) (data1 : list (list str))
    (headers2 : list str) (data2 : list (list str))
    (map1 map2 : gmap key (list str)) (dup1 dup2 : list key) :
  build_row_map data1 headers1 KEY_COLUMNS = Ok (map1, dup1) ->
  build_row_map data2 headers2 KEY_COLUMNS = Ok (map2, dup2) ->
  exists r,
    compare_key_based headers1 data1 headers2 data2 = Ok r
    /\ res_common_keys r = length (common_keys map1 map2)
    /\ (matches r + mismatches r
        = res_common_keys r
          * length (filter (fun h => is_Some (header_index_map headers2
                                                !! normalize h)) headers1))%nat
    /\ length (mismatch_details r) = mismatches r.
Proof.
  intros H1 H2. unfold compare_key_based. rewrite H1, H2.
  simpl.
  destruct (compare_keys_loop (header_index_map headers1)
              (header_index_map headers2) map1 map2 _ _ 0%nat 0%nat []
              (common_headers_known headers1 headers2)
              (common_keys_known map1 map2))
    as (m & mm & det & -> & Ha & Hb & _).
  simpl. eexists. split; [reflexivity|]. simpl in *.
  split; [reflexivity|]. split; lia.
Qed.

Lemma build_row_map_returns rows headers key_cols idx :
  key_indexes headers key_cols = Ok idx ->
  exists row_map duplicates,
    build_row_map rows headers key_cols = Ok (row_map, duplicates).
Proof.
  intros H. unfold build_row_map. rewrite H. simpl.
  destruct (fold_left _ rows _) as [m d]. by exists m, d.
Qed.

Lemma filter_all {A} (P : A -> Prop) `{forall x, Decision (P x)} l :
  Forall P l -> filter P l = l.
Proof.
  induction 1 as [|x l Hx _ IH]; [reflexivity|].
  by rewrite filter_cons_True, IH.
Qed.

(** X17. [compare_key_based] of rateBuildUp/codeWithRow.py, run on a
    file against itself, reports no mismatch, no missing key and no extra
    key, and counts one match for every header of every key, a header
    that occurs twice being counted twice. *)
Theorem a_file_agrees_with_itself
    (headers : list str) (data : list (list str)) (r : result) :
  compare_key_based headers data headers data = Ok r ->
  mismatches r = 0%nat /\ mismatch_details r = []
  /\ res_missing_in_report r = [] /\ res_extra_in_report r = []
  /\ matches r = (res_common_keys r * length headers)%nat.
Proof.
  unfold compare_key_based.
  destruct (build_row_map data headers KEY_COLUMNS) as [[map1 dup1]| |];
    simpl; try discriminate.
  destruct (compare_keys_loop (header_index_map headers)
              (header_index_map headers) map1 map1 _ _ 0%nat 0%nat []
              (common_headers_known headers headers)
              (common_keys_known map1 map1))
    as (m & mm & det & -> & _ & _ & Hc).
  destruct Hc as (-> & -> & ->); [done..|].
  simpl. intros [= <-]. simpl.
  unfold missing_in_report, extra_in_report.
  rewrite difference_diag_L. unfold sorted. rewrite elements_empty.
  repeat split; try reflexivity.
  f_equal. f_equal. apply filter_all. apply Forall_forall.
  intros h Hh. by apply header_index_map_is_Some.
Qed.

End KeyCompare.

Lemma every_common_cell_is_counted_witness :
  exists r,
    compare_key_based (B := Ascii7.ascii) headers_rate rows_rate
      headers_rate rows_rate_changed = Ok r
    /\ (matches r + mismatches r = res_common_keys r * 3)%nat
    /\ length (mismatch_details r) = mismatches r.
Proof.
  destruct (build_row_map_returns (B := Ascii7.ascii) rows_rate headers_rate
              KEY_COLUMNS [0; 1]%nat) as (map1 & dup1 & E1);
    [vm_compute; reflexivity|].
  destruct (build_row_map_returns (B := Ascii7.ascii) rows_rate_changed
              headers_rate KEY_COLUMNS [0; 1]%nat) as (map2 & dup2 & E2);
    [vm_compute; reflexivity|].
  destruct (every_common_cell_is_counted (B := Ascii7.ascii)
              headers_rate rows_rate headers_rate rows_rate_changed
              map1 map2 dup1 dup2 E1 E2)
    as (r & Hr & _ & Hcount & Hlen).
  exists r. split; [exact Hr|]. split; [|exact Hlen].
  rewrite Hcount. reflexivity.
Defined.

Lemma a_file_agrees_with_itself_witness :
  exists r,
    compare_key_based (B := Ascii7.ascii) headers_rate rows_rate
      headers_rate rows_rate = Ok r
    /\ mismatches r = 0%nat /\ matches r = 6%nat.
Proof.
  assert (E : exists r, compare_key_based (B := Ascii7.ascii) headers_rate
                          rows_rate headers_rate rows_rate = Ok r)
    by (vm_compute; by eexists).
  destruct E as (r & E). exists r. split; [exact E|].
  destruct (a_file_agrees_with_itself (B := Ascii7.ascii) _ _ _ E)
    as (Hmm & _ & _ & _ & Hm).
  split; [exact Hmm|]. rewrite Hm.
  assert (H : res_common_keys <$> compare_key_based (B := Ascii7.ascii)
                headers_rate rows_rate headers_rate rows_rate = Ok 2%nat)
    by (vm_compute; reflexivity).
  rewrite E in H. injection H as ->. reflexivity.
Defined.

Lemma key_columns_must_be_headers_witness :
  (exists row_map duplicates,
     build_row_map (B := Ascii7.ascii) rows_rate headers_rate KEY_COLUMNS
     = Ok (row_map, duplicates))
  /\ build_row_map (B := Ascii7.ascii) rows_rate [lit "Formulary"; lit "Rate"]
       KEY_COLUMNS = Raise KeyError.
Proof.
  split.
  - apply (proj1 (key_columns_must_be_headers (B := Ascii7.ascii)
                    rows_rate headers_rate KEY_COLUMNS)).
    intros k Hk. apply elem_of_cons in Hk as [->|Hk].
    + exists (lit "Formulary"). split; [apply list_elem_of_here | reflexivity].
    + apply list_elem_of_singleton in Hk. subst k.
      exists (lit " ndc11 ").
      split; [apply list_elem_of_further, list_elem_of_here | reflexivity].
  - apply (proj2 (key_columns_must_be_headers (B := Ascii7.ascii)
                    rows_rate [lit "Formulary"; lit "Rate"] KEY_COLUMNS)).
    exists (lit "NDC11"). split.
    + apply list_elem_of_further, list_elem_of_here.
    + intros h Hh. apply elem_of_cons in Hh as [->|Hh].
      * vm_compute. discriminate.
      * apply list_elem_of_singleton in Hh. subst h. vm_compute. discriminate.
Defined.

Lemma every_row_is_kept_or_flagged_witness :
  exists row_map duplicates,
    build_row_map (B := Ascii7.ascii) rows_rate headers_rate KEY_COLUMNS
    = Ok (row_map, duplicates)
    /\ (size row_map + length duplicates = 3)%nat.
Proof.
  destruct (build_row_map_returns (B := Ascii7.ascii) rows_rate headers_rate
              KEY_COLUMNS [0; 1]%nat) as (row_map & duplicates & E);
    [vm_compute; reflexivity|].
  exists row_map, duplicates. split; [exact E|].
  by destruct (every_row_is_kept_or_flagged (B := Ascii7.ascii) _ _ _ _ _ E)
    as [H _].
Defined.

Lemma last_header_of_a_name_wins_witness :
  header_index_map (B := Ascii7.ascii) [lit "Rate"; lit "x"; lit " RATE"]
    !! lit "rate" = Some 2%nat.
Proof.
  pose proof (last_header_of_a_name_wins (B := Ascii7.ascii)
                [lit "Rate"; lit "x"; lit " RATE"] (lit "rate")) as H.
  destruct (header_index_map (B := Ascii7.ascii)
              [lit "Rate"; lit "x"; lit " RATE"] !! lit "rate") as [j|].
  - destruct H as [(h & Hj & Hn) Hlast].
    destruct j as [|[|[|j]]].
    + destruct (Hlast 2%nat (lit " RATE")); [lia | reflexivity | reflexivity].
    + simpl in Hj. injection Hj as <-. vm_compute in Hn. discriminate.
    + reflexivity.
    + discriminate.
  - destruct (H (lit "Rate")); [apply list_elem_of_here | reflexivity].
Defined.

End KeyCompareFacts.

(** ** Comparison of the records of two sheets *)

Module CompareFacts.
Import Py FloatFacts CompareRateBuildUp CompareTerms.
Import KeyCompareFacts.

Section Compare.
Context `{B : Builtins}.

Lemma not_floaty_nan v : is_floaty v = false -> to_float v = S754_nan.
Proof.
  unfold is_floaty, to_float. destruct (is_missing (strip v)); [reflexivity|].
  intros H%bool_decide_eq_false.
  destruct (float_of_str _); [|reflexivity]. exfalso. apply H. by eexists.
Qed.

Lemma compare_key_counts idx1 idx2 tolerance ms n k :
  is_Some (idx1 !! k) -> is_Some (idx2 !! k) ->
  exists ms' n',
    compare_key idx1 idx2 tolerance (ms, n) k = Ok (ms', n')
    /\ (length ms' + n' = S (length ms + n))%nat.
Proof.
  intros [[v1 c1] H1] [[v2 c2] H2]. unfold compare_key.
  rewrite (lookup_key_Some _ _ _ H1), (lookup_key_Some _ _ _ H2).
  cbn [mbind res_bind].
  destruct (is_floaty v1 || is_floaty v2).
  - destruct (negb _ && negb _).
    + destruct (fgt _ _); eexists _, _; (split; [reflexivity|]);
        rewrite ?length_app; simpl; lia.
    + eexists _, _. split; [reflexivity|]. rewrite length_app. simpl. lia.
  - destruct (bool_decide _); eexists _, _; (split; [reflexivity|]);
      rewrite ?length_app; simpl; lia.
Qed.

Lemma compare_keys_count idx1 idx2 tolerance ks ms n :
  Forall (fun k => is_Some (idx1 !! k) /\ is_Some (idx2 !! k)) ks ->
  exists ms' n',
    for_res (compare_key idx1 idx2 tolerance) ks (ms, n) = Ok (ms', n')
    /\ (length ms' + n' = length ms + n + length ks)%nat.
Proof.
  intros Hks. revert ms n.
  induction Hks as [|k ks [H1 H2] _ IH]; intros ms n; cbn [for_res].
  - exists ms, n. split; [reflexivity | simpl; lia].
  - destruct (compare_key_counts idx1 idx2 tolerance ms n k H1 H2)
      as (ms1 & n1 & -> & Hc). cbn [mbind res_bind].
    destruct (IH ms1 n1) as (ms' & n' & -> & Hc').
    exists ms', n'. split; [reflexivity | simpl; lia].
Qed.

Lemma shared_keys_known (idx1 idx2 : gmap key (str * str)) :
  Forall (fun k => is_Some (idx1 !! k) /\ is_Some (idx2 !! k))
         (sorted (dom idx1 ∩ dom idx2)).
Proof.
  apply Forall_forall. intros k. unfold sorted.
  rewrite merge_sort_Permutation, elem_of_elements, elem_of_intersection,
    !elem_of_dom. done.
Qed.

(** X18. [compare_records] of DataValidation_RBU/compareRateBuildUp.py
    raises nothing, whatever the records and the tolerance are, and puts
    every key that both files have in one class: the mismatches listed
    and the matches counted are together as many as the shared keys. *)
Theorem every_shared_key_is_classified
    (recs1 recs2 : list record) (tolerance : float) :
  exists mismatches matches,
    compare_records recs1 recs2 tolerance = Ok (mismatches, matches)
    /\ (length mismatches + matches
        = size (dom (index recs1) ∩ dom (index recs2)))%nat.
Proof.
  unfold compare_records.
  destruct (compare_keys_count (index recs1) (index recs2) tolerance _ [] 0%nat
              (shared_keys_known (index recs1) (index recs2)))
    as (ms & n & -> & Hc).
  exists ms, n. split; [reflexivity|]. rewrite Hc. simpl.
  unfold sorted. by rewrite merge_sort_Permutation.
Qed.

(** The loop body at a key whose value is a number in one file and no
    number in the other: a mismatch of kind numeric with the difference
    ["NaN"], whatever the tolerance is. *)
Lemma compare_key_number_against_text
    (idx1 idx2 : gmap key (str * str)) (tolerance : float)
    (mismatches : list mismatch) (matches : nat)
    (k : key) (v1 c1 v2 c2 : str) :
  idx1 !! k = Some (v1, c1) ->
  idx2 !! k = Some (v2, c2) ->
  is_floaty v1 <> is_floaty v2 ->
  compare_key idx1 idx2 tolerance (mismatches, matches) k
  = Ok (mismatches ++ [mk_mismatch k c1 c2 v1 v2 DiffNaN numeric], matches).
Proof.
  intros H1 H2 Hne. unfold compare_key.
  rewrite (lookup_key_Some _ _ _ H1), (lookup_key_Some _ _ _ H2).
  cbn [mbind res_bind].
  destruct (is_floaty v1) eqn:E1, (is_floaty v2) eqn:E2; try done; simpl.
  - by rewrite (not_floaty_nan v2 E2), andb_false_r.
  - by rewrite (not_floaty_nan v1 E1).
Qed.

Lemma index_values recs k v c :
  index recs !! k = Some (v, c) -> exists r, r ∈ recs /\ value r = v.
Proof.
  unfold index. induction recs as [|r recs IH] using rev_ind; simpl.
  - by rewrite lookup_empty.
  - rewrite fold_left_app. simpl.
    destruct (decide (key_of r = k)) as [<-|Hne].
    + rewrite lookup_insert_eq. intros [= <- _]. exists r.
      split; [|reflexivity]. apply elem_of_app. right. apply list_elem_of_here.
    + rewrite lookup_insert_ne by done. intros H.
      destruct (IH H) as (r' & Hr' & Hv). exists r'.
      split; [|exact Hv]. apply elem_of_app. by left.
Qed.

Lemma fsub_self f : isnan f = false ->
  fabs (fsub f f) = S754_zero false \/ fabs (fsub f f) = S754_nan.
Proof.
  destruct f as [s|s| |s m e]; simpl; try discriminate; intros _.
  - left. by destruct s.
  - right. by destruct s.
  - left. unfold fsub, SFsub. rewrite Z.min_id.
    replace (_ - _)%Z with 0%Z by lia. reflexivity.
Qed.

Lemma compare_key_self idx tolerance ms n k v c :
  idx !! k = Some (v, c) ->
  fgt (S754_zero false) tolerance = false ->
  (is_floaty v = true -> isnan (to_float v) = false) ->
  compare_key idx idx tolerance (ms, n) k = Ok (ms, S n).
Proof.
  intros H Htol Hv. unfold compare_key.
  rewrite (lookup_key_Some _ _ _ H). cbn [mbind res_bind].
  rewrite orb_diag. destruct (is_floaty v) eqn:E.
  - rewrite (Hv eq_refl). simpl.
    destruct (fsub_self (to_float v) (Hv eq_refl)) as [-> | ->].
    + by rewrite Htol.
    + unfold fgt, SFltb. by destruct tolerance.
  - rewrite bool_decide_eq_false_2; [reflexivity|]. by intros Hne.
Qed.

(** X20. [compare_records] of DataValidation_RBU/compareRateBuildUp.py,
    run on the records of one file against themselves with a tolerance
    that is not negative, lists no mismatch and counts one match for
    every key, provided no value reads as the float NaN; infinite values
    match themselves. *)
Theorem records_agree_with_themselves (recs : list record) (tolerance : float) :
  fgt (S754_zero false) tolerance = false ->
  (forall r, r ∈ recs -> is_floaty (value r) = true ->
             isnan (to_float (value r)) = false) ->
  compare_records recs recs tolerance = Ok ([], size (dom (index recs))).
Proof.
  intros Htol Hvals. unfold compare_records.
  rewrite intersection_idemp_L.
  assert (Hloop : forall ks n,
    Forall (fun k => is_Some (index recs !! k)) ks ->
    for_res (compare_key (index recs) (index recs) tolerance) ks ([], n)
    = Ok ([], (n + length ks)%nat)).
  { induction ks as [|k ks IH]; intros n Hks; cbn [for_res].
    - simpl. by rewrite Nat.add_0_r.
    - apply Forall_cons in Hks as [[[v c] Hk] Hks].
      rewrite (compare_key_self _ _ _ _ _ v c Hk Htol).
      + cbn [mbind res_bind]. rewrite IH by done. simpl. do 2 f_equal. lia.
      + destruct (index_values _ _ _ _ Hk) as (r & Hr & <-). by apply Hvals. }
  rewrite Hloop.
  - simpl. unfold sorted. by rewrite merge_sort_Permutation.
  - apply Forall_forall. intros k. unfold sorted.
    rewrite merge_sort_Permutation, elem_of_elements, elem_of_dom. done.
Qed.

End Compare.

Import ToleranceTerms.

Lemma records_agree_with_themselves_witness :
  compare_records (B := Ascii7.ascii)
    (recs_of_value (lit "$1,200.00")) (recs_of_value (lit "$1,200.00"))
    (float_of_Z 0)
  = Ok ([], size (dom (index (recs_of_value (lit "$1,200.00"))))).
Proof.
  apply (records_agree_with_themselves (B := Ascii7.ascii)).
  - reflexivity.
  - intros r Hr _. apply list_elem_of_singleton in Hr. subst r.
    vm_compute. reflexivity.
Defined.

End CompareFacts.

(** ** The verdict of the comparison at a shared key *)

Module ClassifyFacts.
Import Py CompareRateBuildUp ClassifyTerms.

Lemma mismatch_key_mk k c1 c2 v1 v2 d kd :
  mismatch_key (mk_mismatch k c1 c2 v1 v2 d kd) = k.
Proof. by destruct k as [[[[k0 k1] k2] k3] k4]. Qed.

Lemma sorted_keys_elem (s : gset key) k : k ∈ sorted s <-> k ∈ s.
Proof. unfold sorted. by rewrite merge_sort_Permutation, elem_of_elements. Qed.

Lemma sorted_keys_distinct (s : gset key) : NoDup (sorted s).
Proof. unfold sorted. rewrite merge_sort_Permutation. apply NoDup_elements. Qed.

Section Verdict.
Context `{B : Builtins}.

(** The loop body appends the verdict, or counts a match. *)
Lemma compare_key_verdict idx1 idx2 tolerance ms n k :
  is_Some (idx1 !! k) -> is_Some (idx2 !! k) ->
  compare_key idx1 idx2 tolerance (ms, n) k
  = Ok (ms ++ option_list (verdict idx1 idx2 tolerance k),
        match verdict idx1 idx2 tolerance k with
        | Some _ => n
        | None => S n
        end)
  /\ forall m, verdict idx1 idx2 tolerance k = Some m -> mismatch_key m = k.
Proof.
  intros [[v1 c1] H1] [[v2 c2] H2]. unfold verdict, compare_key, lookup_key.
  rewrite H1, H2. cbn [mbind res_bind].
  destruct (is_floaty v1 || is_floaty v2).
  - destruct (negb _ && negb _).
    + destruct (fgt _ _); cbn [app option_list].
      * split; [reflexivity|]. intros m [= <-]. apply mismatch_key_mk.
      * rewrite app_nil_r. split; [reflexivity | discriminate].
    + cbn [app option_list]. split; [reflexivity|].
      intros m [= <-]. apply mismatch_key_mk.
  - destruct (bool_decide _); cbn [app option_list].
    + split; [reflexivity|]. intros m [= <-]. apply mismatch_key_mk.
    + rewrite app_nil_r. split; [reflexivity | discriminate].
Qed.

Lemma compare_keys_verdicts idx1 idx2 tolerance ks ms n :
  Forall (fun k => is_Some (idx1 !! k) /\ is_Some (idx2 !! k)) ks ->
  for_res (compare_key idx1 idx2 tolerance) ks (ms, n)
  = Ok (ms ++ omap (verdict idx1 idx2 tolerance) ks,
        (n + length (filter (fun k => verdict idx1 idx2 tolerance k = None)
                            ks))%nat).
Proof.
  intros Hks. revert ms n.
  induction Hks as [|k ks [H1 H2] _ IH]; intros ms n; cbn [for_res].
  - cbn [omap list_omap filter list_filter length]. by rewrite app_nil_r, Nat.add_0_r.
  - rewrite (proj1 (compare_key_verdict idx1 idx2 tolerance ms n k H1 H2)).
    cbn [mbind res_bind]. rewrite IH. cbn [omap list_omap]. rewrite filter_cons.
    destruct (verdict idx1 idx2 tolerance k) as [m|].
    + rewrite decide_False by done. cbn [option_list].
      by rewrite <- app_assoc.
    + rewrite decide_True by done. cbn [option_list length].
      rewrite app_nil_r. do 2 f_equal. lia.
Qed.

Lemma verdicts_keys idx1 idx2 tolerance ks m :
  Forall (fun k => is_Some (idx1 !! k) /\ is_Some (idx2 !! k)) ks ->
  m ∈ omap (verdict idx1 idx2 tolerance) ks ->
  mismatch_key m ∈ ks
  /\ verdict idx1 idx2 tolerance (mismatch_key m) = Some m.
Proof.
  intros Hks (k & Hk & Hv)%list_elem_of_omap.
  destruct (proj1 (Forall_forall _ _) Hks k Hk) as [H1 H2].
  rewrite (proj2 (compare_key_verdict idx1 idx2 tolerance [] 0%nat k H1 H2)
             m Hv).
  by split.
Qed.

Lemma verdicts_distinct idx1 idx2 tolerance ks :
  Forall (fun k => is_Some (idx1 !! k) /\ is_Some (idx2 !! k)) ks ->
  NoDup ks ->
  NoDup (map mismatch_key (omap (verdict idx1 idx2 tolerance) ks)).
Proof.
  intros Hks. induction Hks as [|k ks [H1 H2] Hks' IH]; intros Hnd.
  - constructor.
  - apply NoDup_cons in Hnd as [Hk Hnd]. cbn [omap list_omap].
    destruct (verdict idx1 idx2 tolerance k) as [m|] eqn:E; [|by apply IH].
    cbn [map]. apply NoDup_cons. split; [|by apply IH].
    rewrite (proj2 (compare_key_verdict idx1 idx2 tolerance [] 0%nat k H1 H2)
               m E).
    intros (m' & Hm' & Hin)%list_elem_of_fmap.
    apply (verdicts_keys _ _ _ _ _ Hks') in Hin as [Hin _]. congruence.
Qed.

Lemma verdicts_length idx1 idx2 tolerance (ks : list key) :
  (length (omap (verdict idx1 idx2 tolerance) ks)
   + length (filter (fun k => verdict idx1 idx2 tolerance k = None) ks)
   = length ks)%nat.
Proof.
  induction ks as [|k ks IH]; [reflexivity|].
  cbn [omap list_omap]. rewrite filter_cons.
  destruct (verdict idx1 idx2 tolerance k).
  - rewrite decide_False by done. simpl. lia.
  - rewrite decide_True by done. simpl. lia.
Qed.

(** [compare_records] at one shared key: the key is classified as its
    verdict says, and no key is listed twice. *)
Lemma compare_records_at_key recs1 recs2 tolerance k :
  is_Some (index recs1 !! k) -> is_Some (index recs2 !! k) ->
  exists mismatches matches,
    compare_records recs1 recs2 tolerance = Ok (mismatches, matches)
    /\ (length mismatches + matches
        = size (dom (index recs1) ∩ dom (index recs2)))%nat
    /\ NoDup (map mismatch_key mismatches)
    /\ match verdict (index recs1) (index recs2) tolerance k with
       | None => matched mismatches k
       | Some m =>
           m ∈ mismatches
           /\ forall m', m' ∈ mismatches -> mismatch_key m' = k -> m' = m
       end.
Proof.
  intros H1 H2. unfold compare_records.
  set (idx1 := index recs1). set (idx2 := index recs2).
  set (ks := sorted (dom idx1 ∩ dom idx2)).
  assert (Hks : Forall (fun k => is_Some (idx1 !! k) /\ is_Some (idx2 !! k)) ks).
  { apply Forall_forall. intros k'. unfold ks.
    rewrite sorted_keys_elem, elem_of_intersection, !elem_of_dom. done. }
  assert (Hk : k ∈ ks).
  { unfold ks. rewrite sorted_keys_elem, elem_of_intersection, !elem_of_dom.
    done. }
  rewrite (compare_keys_verdicts idx1 idx2 tolerance ks [] 0%nat Hks).
  cbn [app Nat.add]. eexists _, _. split; [reflexivity|].
  split.
  { rewrite verdicts_length. unfold ks, sorted.
    by rewrite merge_sort_Permutation. }
  split.
  { apply verdicts_distinct; [exact Hks | apply sorted_keys_distinct]. }
  destruct (verdict idx1 idx2 tolerance k) as [m|] eqn:E.
  - split.
    + apply list_elem_of_omap. by exists k.
    + intros m' Hm' Hkey.
      apply (verdicts_keys _ _ _ _ _ Hks) in Hm' as [_ Hv].
      rewrite Hkey in Hv. congruence.
  - intros m' Hm' Hkey.
    apply (verdicts_keys _ _ _ _ _ Hks) in Hm' as [_ Hv].
    rewrite Hkey in Hv. congruence.
Qed.

End Verdict.
End ClassifyFacts.

(** ** Numeric tolerance, at the records of two sheets *)

Module BoundaryFacts.
Import Py FloatFacts CompareRateBuildUp.
Import ToleranceTerms ClassifyTerms ClassifyFacts ToleranceFacts.

Section Tolerance.
Context `{B : Builtins}.

(** C2. [compare_records] of DataValidation_RBU/compareRateBuildUp.py
    returns, and every shared key is either counted as a match or listed
    once.  Two values under a shared key that both parse as finite
    numbers are counted as a match exactly when [|v1 - v2| <= tolerance]
    in binary64, the boundary included, for every tolerance that is a
    number; otherwise the key is listed as a numeric mismatch whose
    [diff] is that distance.  The values that parse as infinities are
    outside this rule. *)
Theorem tolerance_boundary_inclusive
    (recs1 recs2 : list record) (tolerance : float)
    (k : key) (v1 c1 v2 c2 : str) :
  index recs1 !! k = Some (v1, c1) ->
  index recs2 !! k = Some (v2, c2) ->
  is_finite (to_float v1) = true ->
  is_finite (to_float v2) = true ->
  isnan tolerance = false ->
  exists mismatches matches,
    compare_records recs1 recs2 tolerance = Ok (mismatches, matches)
    /\ (length mismatches + matches
        = size (dom (index recs1) ∩ dom (index recs2)))%nat
    /\ NoDup (map mismatch_key mismatches)
    /\ if fle (fabs (fsub (to_float v1) (to_float v2))) tolerance
       then matched mismatches k
       else
         mk_mismatch k c1 c2 v1 v2
           (Fmt6g (fabs (fsub (to_float v1) (to_float v2)))) numeric
         ∈ mismatches.
Proof.
  intros H1 H2 F1 F2 Ht.
  destruct (compare_records_at_key recs1 recs2 tolerance k)
    as (ms & n & Hrun & Hcount & Hnd & Hk); [by eexists..|].
  exists ms, n. split; [exact Hrun|]. split; [exact Hcount|].
  split; [exact Hnd|].
  unfold verdict in Hk.
  rewrite (compare_key_numbers _ _ _ [] 0%nat k v1 c1 v2 c2 H1 H2 F1 F2 Ht)
    in Hk.
  destruct (fle _ tolerance); [exact Hk | by destruct Hk].
Qed.

End Tolerance.

Lemma tolerance_boundary_inclusive_witness :
  exists mismatches matches,
    compare_records (B := Ascii7.ascii)
      (recs_of_value (lit "3")) (recs_of_value (lit "1")) (float_of_Z 2)
    = Ok (mismatches, matches)
    /\ matched mismatches key_retail.
Proof.
  destruct (tolerance_boundary_inclusive (B := Ascii7.ascii)
              (recs_of_value (lit "3")) (recs_of_value (lit "1"))
              (float_of_Z 2) key_retail (lit "3") (lit "B") (lit "1") (lit "B"))
    as (ms & n & Hrun & _ & _ & Hk); try (vm_compute; reflexivity).
  exists ms, n. split; [exact Hrun|].
  replace (fle (fabs (fsub (to_float (B := Ascii7.ascii) (lit "3"))
                           (to_float (B := Ascii7.ascii) (lit "1"))))
               (float_of_Z 2)) with true in Hk by (vm_compute; reflexivity).
  exact Hk.
Defined.

(** The other side of the boundary: the largest number below the
    difference is a tolerance under which the pair is a mismatch. *)
Example boundary_just_above :
  compare_records (B := Ascii7.ascii)
    (recs_of_value (lit "3")) (recs_of_value (lit "1"))
    (default S754_nan (Ascii7.float_of_ascii (lit "1.9999999999999998")))
  = Ok ([mk_mismatch key_retail (lit "B") (lit "B") (lit "3") (lit "1")
           (Fmt6g (float_of_Z 2)) numeric], 0%nat).
Proof. vm_compute. reflexivity. Qed.

(** Two equal infinities are values that parse as numbers; their distance
    is NaN, which is not within any tolerance, and still they count as a
    match: outside the finite numbers the comparison is not an order. *)
Lemma equal_infinities_match_beyond_tolerance :
  index (recs_of_value (lit "inf")) !! key_retail
  = Some (lit "inf", lit "B")
  /\ is_floaty (B := Ascii7.ascii) (lit "inf") = true
  /\ fle (fabs (fsub (to_float (B := Ascii7.ascii) (lit "inf"))
                     (to_float (B := Ascii7.ascii) (lit "inf"))))
         (float_of_Z 0) = false
  /\ compare_records (B := Ascii7.ascii)
       (recs_of_value (lit "inf")) (recs_of_value (lit "inf")) (float_of_Z 0)
     = Ok ([], 1%nat).
Proof. repeat split; vm_compute; reflexivity. Qed.

End BoundaryFacts.

(** ** A number against a text *)

Module ReportFacts.
Import Py FloatFacts CompareRateBuildUp CompareTerms.
Import ClassifyTerms ClassifyFacts CompareFacts ToleranceTerms.

Section Compare.
Context `{B : Builtins}.

(** X19. [compare_records] of
    DataValidation_RBU/compareRateBuildUp.py returns, and a shared key
    whose value is a number in one file and no number in the other is
    always listed as a mismatch of kind numeric with the difference
    ["NaN"], whatever the tolerance is; it is the only mismatch listed
    under that key.  The texts are not compared. *)
Theorem number_against_text_is_a_mismatch
    (recs1 recs2 : list record) (tolerance : float)
    (k : key) (v1 c1 v2 c2 : str) :
  index recs1 !! k = Some (v1, c1) ->
  index recs2 !! k = Some (v2, c2) ->
  is_floaty v1 <> is_floaty v2 ->
  exists mismatches matches,
    compare_records recs1 recs2 tolerance = Ok (mismatches, matches)
    /\ mk_mismatch k c1 c2 v1 v2 DiffNaN numeric ∈ mismatches
    /\ forall m, m ∈ mismatches -> mismatch_key m = k ->
                 m = mk_mismatch k c1 c2 v1 v2 DiffNaN numeric.
Proof.
  intros H1 H2 Hne.
  destruct (compare_records_at_key recs1 recs2 tolerance k)
    as (ms & n & Hrun & _ & _ & Hk); [by eexists..|].
  exists ms, n. split; [exact Hrun|].
  unfold verdict in Hk.
  by rewrite (compare_key_number_against_text _ _ _ [] 0%nat k v1 c1 v2 c2
                H1 H2 Hne) in Hk.
Qed.

End Compare.

Lemma number_against_text_is_a_mismatch_witness :
  exists mismatches matches,
    compare_records (B := Ascii7.ascii)
      (recs_of_value (lit "3")) (recs_of_value (lit "n/a")) (float_of_Z 100)
    = Ok (mismatches, matches)
    /\ mk_mismatch key_retail (lit "B") (lit "B") (lit "3") (lit "n/a")
         DiffNaN numeric ∈ mismatches.
Proof.
  destruct (number_against_text_is_a_mismatch (B := Ascii7.ascii)
              (recs_of_value (lit "3")) (recs_of_value (lit "n/a"))
              (float_of_Z 100) key_retail (lit "3") (lit "B") (lit "n/a")
              (lit "B"))
    as (ms & n & Hrun & Hin & _).
  - vm_compute. reflexivity.
  - vm_compute. reflexivity.
  - vm_compute. discriminate.
  - exists ms, n. split; [exact Hrun | exact Hin].
Defined.

End ReportFacts.

(** ** Column letters and forward fill *)

Module BandFacts.
Import Py CompareRateBuildUp CompareTerms BandTerms.
Import LoopFacts.

(** *** Column letters *)

Lemma letters_value_snoc out c :
  letters_value (out ++ [c])
  = (letters_value out + (N.to_nat c - 64) * 26 ^ length out)%nat.
Proof.
  unfold letters_value.
  induction out as [|d out IH]; cbn [app foldr length Nat.pow]; [lia|].
  rewrite IH. lia.
Qed.

Lemma letters_loop_value fuel n out :
  (n <= fuel)%nat ->
  letters_value (letters_loop fuel n out)
  = (letters_value out + n * 26 ^ length out)%nat
  /\ (Forall (fun c => 65 <= c <= 90) out ->
      Forall (fun c => 65 <= c <= 90) (letters_loop fuel n out))
  /\ ((0 < n)%nat -> letters_loop fuel n out <> []).
Proof.
  revert n out. induction fuel as [|fuel IH]; intros n out Hn;
    cbn [letters_loop]; cbv zeta.
  - replace n with 0%nat by lia. split; [lia|]. split; [done | lia].
  - destruct (0 <? n)%nat eqn:E.
    2:{ apply Nat.ltb_ge in E. replace n with 0%nat by lia.
        split; [lia|]. split; [done | lia]. }
    apply Nat.ltb_lt in E.
    assert (Hdm : n = (S ((n - 1) mod 26) + 26 * ((n - 1) / 26))%nat).
    { pose proof (Nat.div_mod_eq (n - 1) 26). lia. }
    pose proof (Nat.mod_upper_bound (n - 1) 26 ltac:(lia)) as Hm.
    assert (Hq : ((n - 1) / 26 <= fuel)%nat).
    { assert ((n - 1) / 26 <= n - 1)%nat
        by (apply Nat.Div0.div_le_upper_bound; lia).
      lia. }
    set (q := ((n - 1) / 26)%nat) in *. set (r := ((n - 1) mod 26)%nat) in *.
    clearbody q r.
    destruct (IH q (out ++ [LETTER_A + N.of_nat r]) Hq) as (Hv & Hf & Hne).
    split; [|split].
    + rewrite Hv, letters_value_snoc, length_app.
      unfold LETTER_A.
      replace (N.to_nat (65 + N.of_nat r) - 64)%nat with (S r) by lia.
      cbn [length]. rewrite Nat.add_1_r. cbn [Nat.pow].
      set (p := (26 ^ length out)%nat). clearbody p. rewrite Hdm. nia.
    + intros Hout. apply Hf. apply Forall_app. split; [done|].
      constructor; [|done]. unfold LETTER_A. lia.
    + intros _. destruct (decide (0 < q)%nat) as [Hq0|Hq0].
      * by apply Hne.
      * replace q with 0%nat by lia.
        destruct fuel; cbn [letters_loop]; by destruct out.
Qed.

Lemma letters_value_rev out :
  fold_left (fun acc c => acc * 26 + (N.to_nat c - 64))%nat (rev out) 0%nat
  = letters_value out.
Proof.
  unfold letters_value. rewrite <- fold_left_rev_right, rev_involutive.
  induction out as [|c out IH]; cbn [fold_right]; [reflexivity|].
  rewrite IH. lia.
Qed.

(** X21. [_index_to_letters] of
    DataValidation_RBU/compareRateBuildUp.py gives every column number
    letters of its own: the letters are capital letters [A] to [Z], at
    least one, and read as a bijective base-26 numeral, [A] for column 0,
    they give the column number back. *)
Theorem column_letters_round_trip (idx : nat) :
  letters_to_index (index_to_letters idx) = idx
  /\ index_to_letters idx <> []
  /\ Forall (fun c => 65 <= c <= 90) (index_to_letters idx).
Proof.
  unfold index_to_letters, letters_to_index.
  destruct (letters_loop_value (idx + 1) (idx + 1) []) as (Hv & Hf & Hne);
    [lia|].
  split; [|split].
  - rewrite letters_value_rev, Hv. simpl. lia.
  - intros H. apply (f_equal (@rev N)) in H. rewrite rev_involutive in H.
    apply Hne; [lia | exact H].
  - apply Forall_rev. by apply Hf.
Qed.

(** *** Forward fill *)

Section Fill.
Context `{B : Builtins}.

Lemma tokens_of_app a b : tokens_of (a ++ b) = tokens_of a ++ tokens_of b.
Proof. unfold tokens_of. by rewrite map_app, filter_app. Qed.

Lemma last_token_step line a :
  last_token (take (S a) line)
  = match normalize_text (default [] (line !! a)) with
    | [] => last_token (take a line)
    | _ => normalize_text (default [] (line !! a))
    end.
Proof.
  unfold last_token. destruct (line !! a) as [x|] eqn:E.
  - rewrite (take_S_r _ _ _ E), tokens_of_app. simpl.
    unfold tokens_of at 2. simpl. rewrite filter_cons.
    destruct (normalize_text x) as [|c t] eqn:En.
    + rewrite decide_False by (intros H; by apply H).
      by rewrite filter_nil, app_nil_r.
    + rewrite decide_True by done. by rewrite filter_nil, last_snoc, <- En.
  - apply lookup_ge_None in E. by rewrite !take_ge by lia.
Qed.

Lemma forward_fill_from_spec line a n :
  forward_fill_from line (last_token (take a line)) (seq a n)
  = map (fun i => last_token (take (S i) line)) (seq a n).
Proof.
  revert a. induction n as [|n IH]; intros a; [reflexivity|].
  cbn [seq map forward_fill_from]. cbv zeta.
  rewrite <- last_token_step. f_equal. apply IH.
Qed.

(** X22. [forward_fill] of DataValidation_RBU/compareRateBuildUp.py
    returns [width] texts, whatever the length of the line is: the text
    of column [i] is the last token of the line that is not empty, in
    normal form, among the columns up to [i], and the empty text when
    there is none. *)
Theorem forward_fill_carries_the_last_token (line : list str) (width : nat) :
  forward_fill line width
  = map (fun i => last_token (take (S i) line)) (range 0 width).
Proof.
  unfold forward_fill, range.
  change (forward_fill_from line [] (seq 0 (width - 0)))
    with (forward_fill_from line (last_token (take 0 line))
            (seq 0 (width - 0))).
  by rewrite forward_fill_from_spec.
Qed.

End Fill.
End BandFacts.

(** ** Band maps, header rows and the records of a sheet *)

Module SheetFacts.
Import Py CompareRateBuildUp CompareTerms BandTerms.
Import SheetTerms LoopFacts BandFacts.

Section Maps.
Context `{B : Builtins}.

Lemma max_width_ge rows r row :
  rows !! r = Some row -> (length row <= max_width rows)%nat.
Proof.
  unfold max_width. revert r. induction rows as [|x rows IH]; intros r; [done|].
  destruct r as [|r]; simpl.
  - intros [= ->]. lia.
  - intros H%IH. lia.
Qed.

Lemma fill_map_lookup (ff : list str) i :
  fold_left (fun (m : gmap nat str) (it : nat * str) =>
               match it.2 with [] => m | _ => <[it.1 := it.2]> m end)
            (imap (fun i tok => (i, tok)) ff) ∅ !! i
  = match ff !! i with
    | Some [] => None
    | o => o
    end.
Proof.
  induction ff as [|tok ff IH] using rev_ind.
  - simpl. by rewrite lookup_empty.
  - rewrite imap_app, fold_left_app. simpl. rewrite Nat.add_0_r.
    destruct (decide (i = length ff)) as [->|Hne].
    + rewrite lookup_app_r, Nat.sub_diag by lia. simpl.
      destruct tok as [|c t].
      * rewrite IH. by rewrite lookup_ge_None_2.
      * by rewrite lookup_insert_eq.
    + assert (Hl : (ff ++ [tok]) !! i = ff !! i).
      { destruct (decide (i < length ff)%nat).
        - by rewrite lookup_app_l.
        - rewrite !lookup_ge_None_2; [done|lia|].
          rewrite length_app. simpl. lia. }
      rewrite Hl. destruct tok as [|c t]; [apply IH|].
      rewrite lookup_insert_ne by done. apply IH.
Qed.

(** X23. The map that [build_map_from_row] of
    DataValidation_RBU/compareRateBuildUp.py builds from a band row has
    an entry for a column of the sheet exactly when the row has a token
    at or to the left of that column, and the entry is the last such
    token; it is empty when there is no band row, and a band row outside
    the sheet reads as an empty line. *)
Theorem band_map_holds_the_filled_tokens
    (rows : list (list str)) (row_idx : option nat) (i : nat) :
  build_map_from_row rows row_idx !! i
  = match row_idx with
    | None => None
    | Some r =>
        if decide (i < max_width rows)%nat then
          match last_token (take (S i) (default [] (rows !! r))) with
          | [] => None
          | tok => Some tok
          end
        else None
    end.
Proof.
  destruct row_idx as [r|]; [|apply lookup_empty].
  unfold build_map_from_row.
  set (line := default [] (rows !! r)).
  assert (Hw : match rows with [] => length line | _ => max_width rows end
               = max_width rows).
  { destruct rows; [|reflexivity]. subst line. by destruct r. }
  rewrite Hw, fill_map_lookup. unfold forward_fill, range.
  change (forward_fill_from line [] (seq 0 (max_width rows - 0)))
    with (forward_fill_from line (last_token (take 0 line))
            (seq 0 (max_width rows - 0))).
  rewrite forward_fill_from_spec, list_lookup_fmap, Nat.sub_0_r.
  destruct (decide (i < max_width rows)%nat) as [Hi|Hi].
  - rewrite lookup_seq_lt by done. simpl.
    by destruct (last_token _).
  - by rewrite lookup_seq_ge by lia.
Qed.

End Maps.

Section Bands.
Context `{B : Builtins}.

Lemma first_band_Some rows rows_to_try r :
  first_band rows rows_to_try = Ok (Some r) -> r ∈ rows_to_try.
Proof.
  induction rows_to_try as [|x l IH]; simpl; [discriminate|].
  destruct (getitem rows x) as [row| |]; simpl; try discriminate.
  destruct (looks_like_text_band row).
  - intros [= <-]. apply list_elem_of_here.
  - intros H. by apply list_elem_of_further, IH.
Qed.

Lemma rows_above_lt start scan_up r : r ∈ rows_above start scan_up -> (r < start)%nat.
Proof.
  unfold rows_above. intros H%list_elem_of_In%in_rev%list_elem_of_In.
  apply SectionFacts.range_lt in H. lia.
Qed.

Lemma sorted_three a b c :
  (a < b)%nat -> (b < c)%nat ->
  sorted_rows ({[c]} ∪ {[b]} ∪ {[a]}) = [a; b; c].
Proof.
  intros Hab Hbc. unfold sorted_rows.
  apply (StronglySorted_unique Nat.le).
  - apply StronglySorted_merge_sort; apply _.
  - repeat constructor; unfold Nat.le; lia.
  - rewrite merge_sort_Permutation. apply NoDup_Permutation.
    + apply NoDup_elements.
    + repeat constructor; set_solver by lia.
    + intros x. rewrite elem_of_elements. set_solver.
Qed.

(** X24. When [find_sub_and_group_rows] of
    DataValidation_RBU/compareRateBuildUp.py finds both bands, the group
    row is above the sub-group row and that one above the detail row; so
    the loop of [collect_header_rows] over the rows from the sub-group
    row to the group row has no turn, and the header rows collected are
    these three rows and no other. *)
Theorem header_rows_are_the_three_bands
    (rows : list (list str)) (detail_row scan_up s g : nat) :
  find_sub_and_group_rows rows detail_row scan_up = Ok (Some s, Some g) ->
  (g < s < detail_row)%nat
  /\ collect_header_rows rows detail_row (Some s) (Some g)
     = Ok [g; s; detail_row].
Proof.
  unfold find_sub_and_group_rows.
  destruct (first_band rows (rows_above detail_row scan_up))
    as [[s'|]| |] eqn:Es; simpl; try discriminate.
  destruct (first_band rows (rows_above s' scan_up)) as [o| |] eqn:Eg;
    simpl; try discriminate.
  intros [= -> ->].
  apply first_band_Some, rows_above_lt in Es, Eg.
  split; [lia|]. unfold collect_header_rows.
  unfold range. replace (g - (s + 1))%nat with 0%nat by lia. simpl.
  f_equal. by apply sorted_three.
Qed.

End Bands.

Section Records.
Context `{B : Builtins}.
Import NormalizeTerms NormalizeFacts RecordFacts.

Lemma normalize_text_twice x : normalize_text (normalize_text x) = normalize_text x.
Proof. apply normalize_text_fixes_normal, normalize_text_normal. Qed.

Lemma period_above_normal hrs c p out :
  normalize_text p = p ->
  period_above hrs c p = Ok out -> normalize_text out = out.
Proof.
  intros Hp. induction hrs as [|hr hrs IH]; simpl.
  - by intros [= <-].
  - destruct (getitem hr c) as [v| |]; simpl; try discriminate.
    destruct (is_period _); [|exact IH].
    intros [= <-]. apply normalize_text_twice.
Qed.

Lemma channel_of_normal row :
  normalize_text (channel_of row) = channel_of row.
Proof.
  unfold channel_of. destruct (head (tokens_of row)) as [t|] eqn:E; [|reflexivity].
  apply head_Some_elem_of in E. unfold tokens_of in E.
  apply list_elem_of_filter in E as [_ E].
  apply list_elem_of_fmap in E as (x & -> & _). simpl. apply normalize_text_twice.
Qed.

Lemma bind_Ok {A C} (m : res A) (k : A -> res C) out :
  m ≫= k = Ok out -> exists a, m = Ok a /\ k a = Ok out.
Proof. destruct m as [a| |]; simpl; try discriminate. by exists a. Qed.

Lemma records_of_col_built rows stage_map group_map subgroup_map ff_headers
    detail_ff drow recs c out :
  drow ∈ find_detail_rows rows ->
  (c < max_width rows)%nat ->
  records_of_col rows stage_map group_map subgroup_map ff_headers detail_ff
    (drow + 1)
    ((((drow + 1)
       `max` (next_detail (find_detail_rows rows) drow (length rows) - 2)) + 1)
     `min` length rows)
    recs c = Ok out ->
  exists new, out = recs ++ new /\ Forall (well_built rows) new.
Proof.
  intros Hd Hc. unfold records_of_col.
  intros (d & _ & H)%bind_Ok. apply bind_Ok in H as (period & Ep & H).
  assert (Hper : normalize_text period = period).
  { destruct (is_period (normalize_text d)).
    - injection Ep as <-. apply normalize_text_twice.
    - eapply period_above_normal; [|exact Ep]. apply normalize_text_twice. }
  revert H.
  set (section := normalize_text (default [] (stage_map !! c))).
  set (group := normalize_text (default [] (group_map !! c))).
  set (subgroup := normalize_text (default [] (subgroup_map !! c))).
  assert (Hs : normalize_text section = section) by apply normalize_text_twice.
  assert (Hg : normalize_text group = group) by apply normalize_text_twice.
  assert (Hsg : normalize_text subgroup = subgroup)
    by apply normalize_text_twice.
  clearbody section group subgroup.
  destruct (negb _) eqn:Eany.
  { intros [= <-]. exists []. by rewrite app_nil_r. }
  apply negb_false_iff in Eany.
  apply for_res_Forall. intros acc r acc' Hr%SectionFacts.range_lt.
  intros (row & Hrow & H)%bind_Ok. revert H.
  assert (Hrow' : rows !! r = Some row).
  { unfold getitem in Hrow. destruct (rows !! r); [|discriminate].
    by injection Hrow as ->. }
  pose proof (channel_of_normal row) as Hch.
  destruct (channel_of row) as [|x ch] eqn:Ech.
  { intros [= <-]. exists []. by rewrite app_nil_r. }
  intros [= <-]. eexists [_]. split; [reflexivity|].
  constructor; [|constructor]. unfold well_built, key_of.
  cbn [CompareRateBuildUp.section CompareRateBuildUp.group
       CompareRateBuildUp.subgroup CompareRateBuildUp.period
       CompareRateBuildUp.channel CompareRateBuildUp.col_letter].
  split; [by rewrite Hs, Hg, Hsg, Hper, Hch|].
  split; [done|]. split.
  2:{ exists drow, r, c. unfold read_at.
      cbn [CompareRateBuildUp.channel CompareRateBuildUp.col_letter
           CompareRateBuildUp.value].
      split; [exact Hd|]. split; [lia|]. split; [lia|]. split; [exact Hc|].
      split; [reflexivity|]. exists row. by rewrite Ech. }
  cbn [existsb] in Eany. rewrite Hs, Hg, Hsg, Hper, orb_false_r in Eany.
  destruct section; [|by left].
  destruct group; [|by right; left].
  destruct subgroup; [|by right; right; left].
  destruct period; [discriminate | by right; right; right].
Qed.

(** X25. Every record that [build_records] of
    DataValidation_RBU/compareRateBuildUp.py returns has its five key
    texts in normal form, a channel that is not empty and a section,
    group, sub-group or period that is not empty.  It is read from a
    column of the sheet, whose letters it carries, and from a row [r]
    under a detail row [d]: its channel is the first token of that row
    and its value the cell of the column.  Here [r] is at most
    [max(d + 1, n - 2)], where [n] is the next detail row or, after the
    last one, the number of rows: of several data rows under a detail
    row the last one gives no record. *)
Theorem built_records_are_normal (rows : list (list str)) (recs : list record) :
  build_records rows = Ok recs -> Forall (well_built rows) recs.
Proof.
  unfold build_records. intros (stage_row & _ & H)%bind_Ok.
  apply (for_res_Forall _ (well_built rows)) in H as (new & -> & Hnew);
    [exact Hnew|].
  intros acc drow acc' Hd. unfold records_of_detail.
  intros ([sub_row grp_row] & _ & H1)%bind_Ok.
  apply bind_Ok in H1 as (hrs & _ & H1).
  apply bind_Ok in H1 as (ff_headers & _ & H1).
  apply bind_Ok in H1 as (drow_line & _ & H1).
  revert H1. apply for_res_Forall. intros acc0 c acc0' Hc%SectionFacts.range_lt.
  apply records_of_col_built; [exact Hd | lia].
Qed.

End Records.

Lemma header_rows_are_the_three_bands_witness :
  (0 < 1 < 2)%nat
  /\ collect_header_rows (B := Ascii7.ascii) sheet 2 (Some 1%nat) (Some 0%nat)
     = Ok [0; 1; 2]%nat.
Proof.
  apply (header_rows_are_the_three_bands (B := Ascii7.ascii) sheet 2 120 1 0).
  vm_compute. reflexivity.
Defined.

Lemma built_records_are_normal_witness :
  exists recs,
    build_records (B := Ascii7.ascii) sheet = Ok recs
    /\ length recs = 9%nat
    /\ Forall (fun r => channel r = lit "Retail") recs
    /\ Forall (well_built (B := Ascii7.ascii) sheet) recs.
Proof.
  assert (E : exists recs, build_records (B := Ascii7.ascii) sheet = Ok recs
                           /\ length recs = 9%nat
                           /\ Forall (fun r => channel r = lit "Retail") recs).
  { vm_compute. eexists. split; [reflexivity|]. split; [reflexivity|].
    repeat constructor. }
  destruct E as (recs & E & Hlen & Hch). exists recs.
  split; [exact E|]. split; [exact Hlen|]. split; [exact Hch|].
  by apply (built_records_are_normal (B := Ascii7.ascii) sheet).
Defined.

End SheetFacts.

(** ** Tables of a sheet *)

Module TableFacts.
Import Py RbuCsv TableTerms LoopFacts.
Import SheetFacts.

Lemma tables_from_blank_row g r tables :
  (forall row, g !! r = Some row -> row_blank row = true) ->
  tables_from g (S r) tables -> tables_from g r tables.
Proof.
  intros Hr. destruct tables as [|[top bottom] rest]; simpl.
  - intros H x row Hx Hrow. destruct (decide (x = r)) as [->|Hne].
    + by apply Hr.
    + apply (H x); [lia | done].
  - intros (Hb & Hlen & Hbefore & Hin & Hunder & Hrest).
    split; [lia|]. split; [done|]. split; [|done].
    intros x row Hx Hrow. destruct (decide (x = r)) as [->|Hne].
    + by apply Hr.
    + apply (Hbefore x); [lia | done].
Qed.

Lemma skip_rows_spec n g r :
  (r + n = length g)%nat ->
  exists r',
    skip_rows n g r = Ok r'
    /\ (r <= r' <= length g)%nat
    /\ (forall x row, (r <= x < r')%nat -> g !! x = Some row ->
                      row_blank row = false)
    /\ (forall row, g !! r' = Some row -> row_blank row = true).
Proof.
  revert r. induction n as [|n IH]; intros r Hn; simpl.
  - exists r. split; [done|]. split; [lia|]. split; [intros; lia|].
    intros row Hrow%lookup_lt_Some. lia.
  - destruct (lookup_lt_is_Some_2 g r) as [row Hrow]; [lia|].
    rewrite (ChannelFacts.getitem_Some _ _ _ Hrow). simpl.
    destruct (row_blank row) eqn:E.
    + exists r. split; [done|]. split; [lia|]. split; [intros; lia|].
      intros row' Hrow'. congruence.
    + destruct (IH (S r)) as (r' & -> & Hb & Hnb & Hbl); [lia|].
      exists r'. split; [done|]. split; [lia|]. split; [|done].
      intros x row' Hx Hrow'. destruct (decide (x = r)) as [->|Hne].
      * congruence.
      * apply (Hnb x); [lia | done].
Qed.

Lemma find_tables_loop_spec fuel g r tables :
  (length g - r <= fuel)%nat ->
  exists new,
    find_tables_loop fuel g r tables = Ok (tables ++ new)
    /\ tables_from g r new.
Proof.
  revert r tables. induction fuel as [|fuel IH]; intros r tables Hfuel.
  - exists []. simpl. rewrite (proj2 (Nat.ltb_ge _ _)) by lia.
    rewrite app_nil_r. split; [done|].
    intros x row Hx Hrow%lookup_lt_Some. lia.
  - cbn [find_tables_loop]. destruct (r <? length g)%nat eqn:E.
    2:{ apply Nat.ltb_ge in E. exists []. rewrite app_nil_r. split; [done|].
        intros x row Hx Hrow%lookup_lt_Some. lia. }
    apply Nat.ltb_lt in E.
    destruct (lookup_lt_is_Some_2 g r E) as [row Hrow].
    rewrite (ChannelFacts.getitem_Some _ _ _ Hrow). cbn [mbind res_bind].
    destruct (row_blank row) eqn:Eb.
    + destruct (IH (r + 1)%nat tables) as (new & -> & Hnew); [lia|].
      exists new. split; [done|]. apply tables_from_blank_row.
      * intros row' Hrow'. congruence.
      * by rewrite Nat.add_1_r in Hnew.
    + destruct (skip_rows_spec (length g - r) g r)
        as (r' & -> & Hb & Hnb & Hbl); [lia|]. cbn [mbind res_bind].
      assert (Hgt : (r < r')%nat).
      { destruct (decide (r < r')%nat); [done|].
        assert (r' = r) by lia. subst r'. rewrite (Hbl row Hrow) in Eb.
        discriminate. }
      destruct (IH (r' + 1)%nat (tables ++ [(r, (r' - 1)%nat)]))
        as (new & -> & Hnew); [lia|].
      exists ((r, (r' - 1)%nat) :: new). rewrite <- app_assoc.
      split; [done|]. simpl.
      split; [lia|]. split; [lia|]. split; [intros; lia|].
      split; [intros x row' Hx; apply Hnb; lia|].
      replace (r' - 1 + 1)%nat with r' by lia. split; [done|].
      apply tables_from_blank_row; [done|]. by rewrite Nat.add_1_r in Hnew.
Qed.

(** X26. [find_tables] of DataValidation_RBU/rbuSpace.py returns for
    every grid and every start row, and its tables follow one another
    downwards from the start row: no row of a table is blank, the row
    under a table is blank or the grid ends there, and the rows before
    the first table, between two tables and after the last one are
    blank. *)
Theorem tables_are_the_runs_of_rows (g : grid) (start_row : nat) :
  exists tables,
    find_tables g start_row = Ok tables
    /\ tables_from g start_row tables.
Proof.
  unfold find_tables.
  destruct (find_tables_loop_spec (length g) g start_row []) as (new & H & Hn);
    [lia|].
  by exists new.
Qed.

Section Csv.
Context `{B : Builtins}.
Import LabelTerms LabelFacts.

Lemma rows_before_none (p : nat -> bool) rows :
  Forall (fun r => p r = false) rows ->
  rows_before p rows = rows /\ first_row p rows = None.
Proof.
  induction 1 as [|r rows Hr _ [IH1 IH2]]; simpl; [done|].
  by rewrite Hr, IH1, IH2.
Qed.

(** The loop body of [extract_records] at a table of three rows or
    more, none of which holds a number: all its rows are taken for header
    rows, [data_start] stays [None], and the loop over the data rows
    starts from it. *)
Lemma extract_table_without_numbers
    (g : grid) (src : str) (section_map : gmap nat str)
    (records : list record) (top bottom : nat) :
  (top + 2 <= bottom)%nat -> (bottom < length g)%nat ->
  (forall r row, (top <= r <= bottom)%nat -> g !! r = Some row ->
                 existsb is_number row = false) ->
  extract_table g src section_map records (top, bottom) = Raise TypeError.
Proof.
  intros Hlen Hb Hnone. unfold extract_table. cbn [fst snd].
  rewrite csv_scan_headers_spec.
  2:{ apply Forall_forall. intros r Hr%SectionFacts.range_lt. lia. }
  destruct (rows_before_none (holds_number g) (range top (bottom + 1)))
    as [-> ->].
  { apply Forall_forall. intros r Hr%SectionFacts.range_lt.
    unfold holds_number.
    destruct (lookup_lt_is_Some_2 g r) as [row Hrow]; [lia|].
    rewrite Hrow. simpl. apply (Hnone r); [lia | done]. }
  cbn [mbind res_bind app].
  assert (Hl : length (range top (bottom + 1)) = (bottom + 1 - top)%nat)
    by (unfold range; apply length_seq).
  rewrite (proj2 (Nat.ltb_ge _ _)) by lia.
  unfold range.
  replace (bottom + 1 - top)%nat with (S (S (S (bottom - top - 2)))) by lia.
  cbn [seq getitem lookup list_lookup mbind res_bind].
  destruct (lookup_lt_is_Some_2 g top) as [r0 H0]; [lia|].
  destruct (lookup_lt_is_Some_2 g (S top)) as [r1 H1]; [lia|].
  destruct (lookup_lt_is_Some_2 g (S (S top))) as [r2 H2]; [lia|].
  unfold getitem. cbn [lookup list_lookup].
  change (list_lookup top g) with (g !! top).
  change (list_lookup (S top) g) with (g !! S top).
  change (list_lookup (S (S top)) g) with (g !! S (S top)).
  by rewrite H0, H1, H2.
Qed.

End Csv.

End TableFacts.

(** ** Sections and records of a sheet *)

Module CsvRecordFacts.
Import Py RbuCsv CsvRecordTerms TableTerms TableFacts RecordFacts SheetFacts.

Section Csv.
Context `{B : Builtins}.

Lemma csv_cell_Some g r c row x :
  g !! r = Some row -> row !! c = Some x -> cell g r c = Ok x.
Proof. unfold cell, getitem. intros -> Hx. simpl. by rewrite Hx. Qed.

Lemma detect_loop_spec g section_row row pre k suf (m : gmap nat str) last :
  g !! section_row = Some row -> row = pre ++ suf -> (k <= length suf)%nat ->
  exists m' last',
    for_res (fun (st : gmap nat str * str) c =>
               v ← cell g section_row c;
               let last := if negb (is_blank v) then strip v else st.2 in
               Ok (<[c := last]> st.1, last))
            (seq (length pre) k) (m, last) = Ok (m', last')
    /\ forall c, m' !! c
                 = if decide (length pre <= c < length pre + k)%nat
                   then forward_fill_from last suf !! (c - length pre)%nat
                   else m !! c.
Proof.
  intros Hrow. revert pre suf m last.
  induction k as [|k IH]; intros pre suf m last -> Hk.
  - exists m, last. split; [done|]. intros c.
    destruct (decide _); [lia | done].
  - destruct suf as [|x suf]; [simpl in Hk; lia|].
    cbn [seq for_res].
    rewrite (csv_cell_Some g section_row (length pre) _ x Hrow)
      by (by rewrite list_lookup_middle).
    cbn [mbind res_bind fst snd].
    set (last1 := if negb (is_blank x) then strip x else last).
    destruct (IH (pre ++ [x]) suf (<[length pre := last1]> m) last1)
      as (m' & last' & Hrun & Hm').
    { by rewrite <- app_assoc. }
    { simpl in Hk. lia. }
    rewrite length_app in Hrun, Hm'. simpl in Hrun, Hm'.
    rewrite Nat.add_1_r in Hrun. rewrite Hrun.
    exists m', last'. split; [done|]. intros c. rewrite Hm'.
    destruct (decide (length pre = c)) as [<-|Hne].
    + rewrite decide_False by lia. rewrite decide_True by lia.
      rewrite lookup_insert_eq. rewrite Nat.sub_diag. reflexivity.
    + rewrite lookup_insert_ne by done.
      destruct (decide (length pre + 1 <= c < length pre + 1 + k)%nat).
      * rewrite decide_True by lia.
        replace (c - length pre)%nat with (S (c - (length pre + 1))) by lia.
        reflexivity.
      * rewrite decide_False by lia. reflexivity.
Qed.

(** X29. When the section row is at least as long as the first row,
    [detect_sections] of DataValidation_RBU/rbuSpace.py returns a map
    with an entry for every column of the first row and for no other
    column, and the entry of a column is what [forward_fill] gives for
    the section row at that column. *)
Theorem sections_are_the_filled_section_row
    (g : grid) (section_row : nat) (row0 row : list str) :
  g !! 0%nat = Some row0 -> g !! section_row = Some row ->
  (length row0 <= length row)%nat ->
  exists m,
    detect_sections g section_row = Ok m
    /\ forall c, m !! c = if decide (c < length row0)%nat
                          then forward_fill row !! c else None.
Proof.
  intros H0 Hrow Hlen. unfold detect_sections.
  rewrite (ChannelFacts.getitem_Some _ _ _ H0). cbn [mbind res_bind].
  destruct (detect_loop_spec g section_row row [] (length row0) row ∅ []
              Hrow eq_refl Hlen) as (m & last & Hrun & Hm).
  unfold range. rewrite Nat.sub_0_r. simpl in Hrun. rewrite Hrun.
  exists m. split; [done|]. intros c. rewrite Hm. simpl.
  rewrite Nat.sub_0_r.
  destruct (decide (c < length row0)%nat).
  - rewrite decide_True by lia. reflexivity.
  - rewrite decide_False by lia. apply lookup_empty.
Qed.

Lemma strip_stripped s : stripped (strip s).
Proof. apply PyFacts.strip_idempotent. Qed.

Lemma forward_fill_from_stripped last row :
  stripped last -> Forall stripped (forward_fill_from last row).
Proof.
  revert last. induction row as [|x row IH]; intros last Hl; simpl;
    [constructor|].
  destruct (is_blank x); simpl.
  - constructor; [done | by apply IH].
  - constructor; [apply strip_stripped | apply IH, strip_stripped].
Qed.

Lemma forward_fill_stripped row : Forall stripped (forward_fill row).
Proof. by apply forward_fill_from_stripped. Qed.

Lemma detect_loop_stripped g section_row cols (m m' : gmap nat str) last last' :
  for_res (fun (st : gmap nat str * str) c =>
             v ← cell g section_row c;
             let last := if negb (is_blank v) then strip v else st.2 in
             Ok (<[c := last]> st.1, last))
          cols (m, last) = Ok (m', last') ->
  stripped last -> (forall c v, m !! c = Some v -> stripped v) ->
  forall c v, m' !! c = Some v -> stripped v.
Proof.
  revert m last. induction cols as [|c cols IH]; intros m last; cbn [for_res].
  - by intros [= <- <-].
  - intros (st & Hst & Hrest)%bind_Ok Hl Hm.
    apply bind_Ok in Hst as (v & _ & [= <-]). cbn [fst snd] in Hrest.
    eapply IH; [exact Hrest| |].
    + destruct (is_blank v); simpl; [done | apply strip_stripped].
    + intros c' v'. destruct (decide (c = c')) as [<-|Hne].
      * rewrite lookup_insert_eq. intros [= <-].
        destruct (is_blank v); simpl; [done | apply strip_stripped].
      * rewrite lookup_insert_ne by done. apply Hm.
Qed.

Lemma detect_sections_stripped g section_row m :
  detect_sections g section_row = Ok m ->
  forall c v, m !! c = Some v -> stripped v.
Proof.
  unfold detect_sections. intros (row0 & _ & H)%bind_Ok.
  apply bind_Ok in H as ([m' last'] & Hrun & [= <-]). simpl.
  eapply detect_loop_stripped; [exact Hrun | reflexivity |].
  intros c v. by rewrite lookup_empty.
Qed.

Lemma num_cols_number row c :
  c ∈ num_cols row -> exists v, row !! c = Some v /\ is_number v = true.
Proof.
  unfold num_cols. intros H.
  apply list_elem_of_omap in H as ([c' v] & Hin & Hc).
  apply elem_of_lookup_imap_1 in Hin as (i & w & [= -> ->] & Hi).
  simpl in Hc. destruct (is_number w) eqn:E; [|discriminate].
  injection Hc as <-. by exists w.
Qed.

Lemma extract_row_numbers g src sm grp sub per records r out :
  (forall c v, sm !! c = Some v -> stripped v) ->
  Forall stripped grp -> Forall stripped sub -> Forall stripped per ->
  extract_row g src sm grp sub per records r = Ok out ->
  exists new, out = records ++ new /\ Forall (from_number src) new.
Proof.
  intros Hsm Hgrp Hsub Hper. unfold extract_row.
  intros (row & _ & H)%bind_Ok.
  destruct (num_cols row) as [|n0 rest] eqn:En.
  { injection H as <-. exists []. by rewrite app_nil_r. }
  apply bind_Ok in H as (ch & _ & H). rewrite <- En in H.
  eapply (for_res_Forall _ (from_number src)) in H; [exact H|].
  intros acc c acc' Hc.
  apply num_cols_number in Hc as (v & Hv & Hnum).
  intros (s & Hs & H1)%bind_Ok. apply bind_Ok in H1 as (gv & Hgv & H1).
  apply bind_Ok in H1 as (sv & Hsv & H1). apply bind_Ok in H1 as (pv & Hpv & H1).
  rewrite (ChannelFacts.getitem_Some _ _ _ Hv) in H1. cbn [mbind res_bind] in H1.
  injection H1 as <-. eexists. split; [reflexivity|].
  constructor; [|constructor].
  unfold lookup_key in Hs. destruct (sm !! c) as [s'|] eqn:Es; [|discriminate].
  injection Hs as ->.
  unfold getitem in Hgv, Hsv, Hpv.
  destruct (grp !! c) as [gv'|] eqn:Eg; [|discriminate]. injection Hgv as ->.
  destruct (sub !! c) as [sv'|] eqn:Esub; [|discriminate]. injection Hsv as ->.
  destruct (per !! c) as [pv'|] eqn:Ep; [|discriminate]. injection Hpv as ->.
  unfold from_number. cbn [source raw value section group sub_group period channel].
  split; [done|]. split; [done|]. split; [done|].
  split. { unfold is_number in Hnum. by apply bool_decide_eq_true in Hnum. }
  split; [by eapply Hsm|].
  split. { eapply Forall_lookup_1 in Hgrp; eauto. }
  split. { eapply Forall_lookup_1 in Hsub; eauto. }
  split. { eapply Forall_lookup_1 in Hper; eauto. }
  apply strip_stripped.
Qed.

Lemma extract_table_numbers g src sm records tb out :
  (forall c v, sm !! c = Some v -> stripped v) ->
  extract_table g src sm records tb = Ok out ->
  exists new, out = records ++ new /\ Forall (from_number src) new.
Proof.
  intros Hsm. unfold extract_table.
  intros ([headers ds] & _ & H)%bind_Ok.
  destruct (length headers <? 3)%nat.
  { injection H as <-. exists []. by rewrite app_nil_r. }
  apply bind_Ok in H as (h0 & _ & H). apply bind_Ok in H as (r0 & _ & H).
  apply bind_Ok in H as (h1 & _ & H). apply bind_Ok in H as (r1 & _ & H).
  apply bind_Ok in H as (h2 & _ & H). apply bind_Ok in H as (r2 & _ & H).
  destruct ds as [ds|]; [|discriminate].
  eapply (for_res_Forall _ (from_number src)) in H; [exact H|].
  intros acc r acc' _. apply extract_row_numbers; try done;
    apply forward_fill_stripped.
Qed.

(** X28. Every record that [extract_records] of
    DataValidation_RBU/rbuSpace.py returns carries the source name, a raw
    cell that is a number and the float of that cell as its value, never
    [None]; its section, group, sub-group, period and channel are
    stripped texts. *)
Theorem csv_records_are_numbers (g : grid) (src : str) (recs : list record) :
  extract_records g src = Ok recs ->
  Forall (from_number src) recs.
Proof.
  unfold extract_records. intros (sm & Hsm & H)%bind_Ok.
  apply bind_Ok in H as (tables & _ & H).
  eapply (for_res_Forall _ (from_number src)) in H.
  - by destruct H as (new & -> & Hnew).
  - intros acc tb acc' _. apply extract_table_numbers.
    exact (detect_sections_stripped _ _ _ Hsm).
Qed.

End Csv.

Lemma sections_are_the_filled_section_row_witness :
  exists m,
    detect_sections grid_rates 0 = Ok m
    /\ forall c, m !! c = if decide (c < 3)%nat
                          then forward_fill [lit "Financial"; []; []] !! c
                          else None.
Proof.
  apply (sections_are_the_filled_section_row grid_rates 0
           [lit "Financial"; []; []] [lit "Financial"; []; []]);
    [reflexivity | reflexivity | simpl; lia].
Defined.

Lemma csv_extract_records_returns :
  exists recs, extract_records (B := Ascii7.ascii) grid_rates (lit "a.csv")
               = Ok recs /\ length recs = 2%nat.
Proof. eexists. split; [vm_compute; reflexivity | reflexivity]. Qed.

Lemma csv_records_are_numbers_witness :
  exists recs,
    extract_records (B := Ascii7.ascii) grid_rates (lit "a.csv") = Ok recs
    /\ length recs = 2%nat
    /\ Forall (from_number (B := Ascii7.ascii) (lit "a.csv")) recs.
Proof.
  destruct csv_extract_records_returns as (recs & H & Hlen).
  exists recs. split; [done|]. split; [done|].
  by apply (csv_records_are_numbers (B := Ascii7.ascii) grid_rates (lit "a.csv")).
Defined.

End CsvRecordFacts.

(** ** The channels of the records of a sheet *)

Module ExtractorFacts.
Import Py SectionTerms SectionFacts LabelTerms LabelFacts ExtractorTerms.
Import ChannelFacts ExtractFacts LoopFacts TableTerms TableFacts.

(** A loop over tables: every table adds its records, or the first table
    that is not in order raises. *)
Lemma for_res_tables {A R T} (body : list R -> A -> res (list R))
    (view : R -> T) (ok : A -> bool) (mk : A -> list T) (e : exn)
    (l : list A) (acc : list R) :
  (forall acc x, x ∈ l ->
     if ok x
     then exists new, body acc x = Ok (acc ++ new) /\ map view new = mk x
     else body acc x = Raise e) ->
  if forallb ok l
  then exists new, for_res body l acc = Ok (acc ++ new)
                   /\ map view new = flat_map mk l
  else for_res body l acc = Raise e.
Proof.
  revert acc. induction l as [|x l IH]; intros acc Hbody;
    cbn [forallb for_res flat_map].
  - exists []. by rewrite app_nil_r.
  - pose proof (Hbody acc x (list_elem_of_here _ _)) as Hx.
    destruct (ok x); cbn [andb].
    + destruct Hx as (new1 & -> & Hv1). cbn [mbind res_bind].
      specialize (IH (acc ++ new1)
                     (fun a y Hy => Hbody a y (list_elem_of_further _ _ _ Hy))).
      destruct (forallb ok l).
      * destruct IH as (new2 & -> & Hv2). exists (new1 ++ new2).
        rewrite <- app_assoc. split; [reflexivity|].
        by rewrite map_app, Hv1, Hv2.
      * exact IH.
    + by rewrite Hx.
Qed.

Lemma flat_map_singleton {A C} (f : A -> C) (l : list A) :
  flat_map (fun x => [f x]) l = map f l.
Proof. induction l as [|x l IH]; [reflexivity|]. simpl. by rewrite IH. Qed.

Lemma rows_before_elem (p : nat -> bool) rows r :
  r ∈ rows_before p rows -> r ∈ rows.
Proof.
  induction rows as [|x rows IH]; simpl; [done|].
  destruct (p x).
  - intros H. by apply not_elem_of_nil in H.
  - intros [->|H]%elem_of_cons; [apply list_elem_of_here|].
    by apply list_elem_of_further, IH.
Qed.

Lemma first_row_elem (p : nat -> bool) rows r :
  first_row p rows = Some r -> r ∈ rows.
Proof.
  induction rows as [|x rows IH]; simpl; [discriminate|].
  destruct (p x).
  - intros [= <-]. apply list_elem_of_here.
  - intros H. by apply list_elem_of_further, IH.
Qed.

Lemma tables_from_within g lo tables :
  tables_from g lo tables ->
  Forall (fun tb : nat * nat => (lo <= tb.1 <= tb.2)%nat
                                /\ (tb.2 < length g)%nat) tables.
Proof.
  revert lo. induction tables as [|[top bottom] rest IH]; intros lo;
    [constructor|].
  simpl. intros (Hb & Hlen & _ & _ & _ & Hrest). constructor.
  - simpl. split; [lia | exact Hlen].
  - eapply Forall_impl; [by apply IH|]. simpl. intros tb [H1 H2]. split; lia.
Qed.

Lemma find_tables_within (g : list (list str)) start tables :
  RbuCsv.find_tables g start = Ok tables ->
  Forall (fun tb : nat * nat => (start <= tb.1 <= tb.2)%nat
                                /\ (tb.2 < length g)%nat) tables.
Proof.
  unfold RbuCsv.find_tables. intros H.
  destruct (find_tables_loop_spec (length g) g start []) as (new & Hrun & Hn);
    [lia|].
  rewrite H in Hrun. injection Hrun as ->. by apply tables_from_within.
Qed.

Lemma rect_row (g : list (list str)) r row :
  rectangular g -> g !! r = Some row -> length row = RbuSpace.width g.
Proof.
  intros Hrect Hrow. eapply (proj1 (Forall_forall _ _) Hrect).
  by eapply list_elem_of_lookup_2.
Qed.

Lemma forallb_fmap {A C} (p : C -> bool) (f : A -> C) (l : list A) :
  forallb (fun x => p (f x)) l = forallb p (map f l).
Proof. induction l as [|x l IH]; [reflexivity|]. simpl. by rewrite IH. Qed.

Lemma existsb_fmap {A C} (p : C -> bool) (f : A -> C) (l : list A) :
  existsb (fun x => p (f x)) l = existsb p (map f l).
Proof. induction l as [|x l IH]; [reflexivity|]. simpl. by rewrite IH. Qed.

(** Reading a row column by column gives the row. *)
Lemma cells_of_row (row : list str) :
  map (fun c => default [] (row !! c)) (range 0 (length row)) = row.
Proof.
  unfold range. rewrite Nat.sub_0_r. apply list_eq. intros i.
  rewrite list_lookup_fmap.
  destruct (decide (i < length row)%nat) as [Hi|Hi].
  - rewrite lookup_seq_lt by done. simpl.
    destruct (lookup_lt_is_Some_2 row i Hi) as [x Hx]. by rewrite Hx.
  - rewrite lookup_seq_ge by lia. simpl. symmetry.
    apply lookup_ge_None. lia.
Qed.

Section Csv.
Context `{B : Builtins}.
Import RbuCsv.

Lemma num_cols_lt row c : c ∈ num_cols row -> (c < length row)%nat.
Proof. apply (omap_imap_index is_number). Qed.

Lemma channel_cell_read row n0 rest :
  num_cols row = n0 :: rest ->
  exists ch, getitem_Z row (Z.of_nat n0 - 1) = Ok ch
             /\ channel_cell row = Some ch.
Proof.
  intros Hn. unfold channel_cell. rewrite Hn.
  pose proof (csv_first_num_col _ _ _ Hn) as Hlt.
  destruct n0 as [|n].
  - destruct (getitem_before row 0 Hlt) as (x & Hx & Hlast).
    exists x. split; [exact Hx | by apply Hlast].
  - destruct (lookup_lt_is_Some_2 row n) as [x Hx]; [lia|].
    exists x. split; [|exact Hx]. unfold getitem_Z.
    replace (0 <=? Z.of_nat (S n) - 1)%Z with true
      by (symmetry; apply Z.leb_le; lia).
    replace (Z.to_nat (Z.of_nat (S n) - 1)) with n by lia.
    by apply getitem_Some.
Qed.

Lemma forward_fill_from_length last row :
  length (forward_fill_from last row) = length row.
Proof.
  revert last. induction row as [|x row IH]; intros last; [reflexivity|].
  simpl. by rewrite IH.
Qed.

Lemma csv_row_returns g src (sm : gmap nat str) grp sub per records r row :
  g !! r = Some row ->
  (forall c, c ∈ RbuCsv.num_cols row ->
             is_Some (sm !! c) /\ (c < length grp)%nat
             /\ (c < length sub)%nat /\ (c < length per)%nat) ->
  exists new,
    extract_row g src sm grp sub per records r = Ok (records ++ new)
    /\ map channel new = row_channels row.
Proof.
  intros Hrow Hcols. unfold extract_row, row_channels.
  rewrite (getitem_Some _ _ _ Hrow). cbn [mbind res_bind].
  destruct (num_cols row) as [|n0 rest] eqn:Hn.
  { unfold channel_cell. rewrite Hn. exists []. by rewrite app_nil_r. }
  destruct (channel_cell_read row n0 rest Hn) as (ch & -> & ->).
  cbn [mbind res_bind]. rewrite <- flat_map_singleton.
  apply for_res_concat. intros acc c Hc.
  assert (Hlt : (c < length row)%nat).
  { apply (omap_imap_index is_number). fold (num_cols row). by rewrite Hn. }
  destruct (Hcols c Hc) as ([s Es] & Hg & Hs & Hp).
  destruct (lookup_lt_is_Some_2 grp c Hg) as [gv Eg].
  destruct (lookup_lt_is_Some_2 sub c Hs) as [sv Esub].
  destruct (lookup_lt_is_Some_2 per c Hp) as [pv Ep].
  destruct (lookup_lt_is_Some_2 row c Hlt) as [v Ev].
  unfold lookup_key. rewrite Es. cbn [mbind res_bind].
  rewrite (getitem_Some _ _ _ Eg). cbn [mbind res_bind].
  rewrite (getitem_Some _ _ _ Esub). cbn [mbind res_bind].
  rewrite (getitem_Some _ _ _ Ep). cbn [mbind res_bind].
  rewrite (getitem_Some _ _ _ Ev). cbn [mbind res_bind].
  eexists [_]. split; reflexivity.
Qed.

Lemma csv_table_spec g src (sm : gmap nat str) records tb :
  rectangular g -> (tb.2 < length g)%nat ->
  (forall c, (c < RbuSpace.width g)%nat -> is_Some (sm !! c)) ->
  if table_ok g tb
  then exists new,
         extract_table g src sm records tb = Ok (records ++ new)
         /\ map channel new = table_channels g tb
  else extract_table g src sm records tb = Raise TypeError.
Proof.
  intros Hrect Hb Hsm. unfold extract_table, table_ok, table_channels.
  assert (Hrows : Forall (fun r => (r < length g)%nat)
                         (range tb.1 (tb.2 + 1))).
  { apply Forall_forall. intros r Hr%range_lt. lia. }
  rewrite (csv_scan_headers_spec g _ [] Hrows). cbn [mbind res_bind app].
  fold (table_headers g tb). fold (table_data_start g tb).
  destruct (length (table_headers g tb) <? 3)%nat eqn:El; cbn [orb].
  { exists []. by rewrite app_nil_r. }
  apply Nat.ltb_ge in El.
  assert (Hrow : forall i, (i < 3)%nat ->
            exists h row, table_headers g tb !! i = Some h
                          /\ g !! h = Some row
                          /\ length row = RbuSpace.width g).
  { intros i Hi.
    destruct (lookup_lt_is_Some_2 (table_headers g tb) i) as [h Hh]; [lia|].
    assert (Hlt : (h < length g)%nat).
    { apply (proj1 (Forall_forall _ _) Hrows).
      eapply rows_before_elem. by eapply list_elem_of_lookup_2. }
    destruct (lookup_lt_is_Some_2 g h Hlt) as [row Hr].
    exists h, row. split; [exact Hh|]. split; [exact Hr|].
    by eapply rect_row. }
  destruct (Hrow 0%nat) as (h0 & r0 & Hh0 & Hr0 & Hl0); [lia|].
  destruct (Hrow 1%nat) as (h1 & r1 & Hh1 & Hr1 & Hl1); [lia|].
  destruct (Hrow 2%nat) as (h2 & r2 & Hh2 & Hr2 & Hl2); [lia|].
  rewrite (getitem_Some _ _ _ Hh0). cbn [mbind res_bind].
  rewrite (getitem_Some _ _ _ Hr0). cbn [mbind res_bind].
  rewrite (getitem_Some _ _ _ Hh1). cbn [mbind res_bind].
  rewrite (getitem_Some _ _ _ Hr1). cbn [mbind res_bind].
  rewrite (getitem_Some _ _ _ Hh2). cbn [mbind res_bind].
  rewrite (getitem_Some _ _ _ Hr2). cbn [mbind res_bind].
  destruct (table_data_start g tb) as [ds|] eqn:Eds; [|reflexivity].
  apply for_res_concat. intros acc r Hr%range_lt.
  destruct (lookup_lt_is_Some_2 g r) as [row Hrow']; [lia|].
  rewrite Hrow'. cbn [default from_option].
  pose proof (rect_row g r row Hrect Hrow') as Hlen.
  apply (csv_row_returns g src sm _ _ _ acc r row Hrow').
  intros c Hc%num_cols_lt. unfold forward_fill.
  rewrite !forward_fill_from_length.
  split; [apply Hsm; lia | lia].
Qed.

Lemma csv_sections_known g section_row :
  rectangular g -> (section_row < length g)%nat ->
  exists sm,
    detect_sections g section_row = Ok sm
    /\ forall c, (c < RbuSpace.width g)%nat -> is_Some (sm !! c).
Proof.
  intros Hrect Hs.
  destruct g as [|row0 g'] eqn:Eg; [simpl in Hs; lia|]. rewrite <- Eg in *.
  assert (H0 : g !! 0%nat = Some row0) by by rewrite Eg.
  destruct (lookup_lt_is_Some_2 g section_row Hs) as [row Hrow].
  assert (Hw : RbuSpace.width g = length row0) by by rewrite Eg.
  pose proof (rect_row g _ _ Hrect Hrow) as Hlen.
  unfold detect_sections. rewrite (getitem_Some _ _ _ H0).
  cbn [mbind res_bind].
  destruct (CsvRecordFacts.detect_loop_spec g section_row row []
              (length row0) row ∅ [] Hrow eq_refl)
    as (m & last & Hrun & Hm); [lia|].
  unfold range. rewrite Nat.sub_0_r. simpl in Hrun. rewrite Hrun.
  cbn [mbind res_bind fst]. exists m. split; [reflexivity|].
  intros c Hc. rewrite Hm. simpl. rewrite decide_True by lia.
  apply lookup_lt_is_Some_2. rewrite forward_fill_from_length. lia.
Qed.

(** [extract_records] on a rectangular grid: the records of every table
    in turn, or [TypeError] at the first table that has three header
    rows and no row with a number. *)
Lemma csv_extract_records_spec g src tables :
  rectangular g -> g <> [] ->
  find_tables g 1 = Ok tables ->
  if forallb (table_ok g) tables
  then exists recs,
         extract_records g src = Ok recs
         /\ map channel recs = flat_map (table_channels g) tables
  else extract_records g src = Raise TypeError.
Proof.
  intros Hrect Hne Ht. unfold extract_records.
  destruct (csv_sections_known g 0 Hrect) as (sm & -> & Hsm).
  { destruct g; [done | simpl; lia]. }
  cbn [mbind res_bind]. rewrite Ht. cbn [mbind res_bind].
  pose proof (find_tables_within g 1 tables Ht) as Hin.
  pose proof (for_res_tables (extract_table g src sm) channel (table_ok g)
                (table_channels g) TypeError tables []) as H.
  cbn [app] in H. apply H. intros acc tb Htb.
  apply csv_table_spec; [exact Hrect | | exact Hsm].
  by destruct (proj1 (Forall_forall _ _) Hin tb Htb).
Qed.

(** X27. In [extract_records] of DataValidation_RBU/rbuSpace.py a
    table of three rows or more, none of which holds a number, raises
    [TypeError]: all its rows are taken for header rows, [data_start]
    stays [None], and the loop over the data rows starts from it.  The
    loop body raises at such a table on every grid; on a rectangular
    grid no table raises another exception before it, and
    [extract_records] raises [TypeError] when [find_tables] finds such a
    table. *)
Theorem table_without_numbers_raises
    (g : grid) (src : str) (tb : nat * nat) :
  (tb.1 + 2 <= tb.2)%nat -> (tb.2 < length g)%nat ->
  (forall r row, (tb.1 <= r <= tb.2)%nat -> g !! r = Some row ->
                 existsb is_number row = false) ->
  (forall (section_map : gmap nat str) records,
     extract_table g src section_map records tb = Raise TypeError)
  /\ (rectangular g ->
      forall tables,
        find_tables g 1 = Ok tables -> tb ∈ tables ->
        extract_records g src = Raise TypeError).
Proof.
  intros Hlen Hb Hnone. split.
  { intros section_map records. destruct tb as [top bottom].
    by apply extract_table_without_numbers. }
  intros Hrect tables Ht Htb.
  assert (Hne : g <> []) by (intros ->; simpl in Hb; lia).
  pose proof (csv_extract_records_spec g src tables Hrect Hne Ht) as H.
  assert (Hok : table_ok g tb = false).
  { unfold table_ok, table_headers, table_data_start.
    destruct (rows_before_none (holds_number g) (range tb.1 (tb.2 + 1)))
      as [-> ->].
    { apply Forall_forall. intros r Hr%range_lt. unfold holds_number.
      destruct (lookup_lt_is_Some_2 g r) as [row Hrow]; [lia|].
      rewrite Hrow. simpl. apply (Hnone r); [lia | done]. }
    rewrite orb_false_r. apply Nat.ltb_ge.
    unfold range. rewrite length_seq. lia. }
  assert (Hall : forallb (table_ok g) tables = false).
  { apply not_true_is_false. intros Hall.
    rewrite forallb_forall in Hall.
    rewrite Hall in Hok; [discriminate|]. by apply list_elem_of_In. }
  by rewrite Hall in H.
Qed.

End Csv.

Section Xlsx.
Context `{B : Builtins}.

Lemma xlsx_cell_read g r c row x :
  g !! r = Some row -> row !! c = Some x -> Rbu.cell g r c = Ok x.
Proof.
  intros Hrow Hx. unfold Rbu.cell. rewrite (getitem_Some _ _ _ Hrow).
  cbn [mbind res_bind]. by apply getitem_Some.
Qed.

Lemma xlsx_cell_default g r c row :
  g !! r = Some row -> (c < length row)%nat ->
  Rbu.cell g r c = Ok (default [] (row !! c)).
Proof.
  intros Hrow Hc. destruct (lookup_lt_is_Some_2 row c Hc) as [x Hx].
  rewrite Hx. by apply (xlsx_cell_read g r c row).
Qed.

Lemma xlsx_row_blank_read g r row :
  rectangular g -> g !! r = Some row ->
  Rbu.row_blank g r (range 0 (RbuSpace.width g))
  = Ok (RbuCsv.row_blank row).
Proof.
  intros Hrect Hrow. pose proof (rect_row g r row Hrect Hrow) as Hlen.
  unfold Rbu.row_blank, RbuCsv.row_blank.
  rewrite (all_res_spec _ (fun c => RbuCsv.is_blank (default [] (row !! c)))).
  - rewrite (forallb_fmap RbuCsv.is_blank), <- Hlen. by rewrite cells_of_row.
  - intros c Hc%range_lt.
    rewrite (xlsx_cell_default g r c row Hrow) by lia. reflexivity.
Qed.

Lemma xlsx_holds_number_read g r row :
  rectangular g -> g !! r = Some row ->
  any_res (fun c => v ← Rbu.cell g r c; Ok (Rbu.is_number v))
          (range 0 (RbuSpace.width g))
  = Ok (holds_number g r).
Proof.
  intros Hrect Hrow. pose proof (rect_row g r row Hrect Hrow) as Hlen.
  unfold holds_number. rewrite Hrow. cbn [default from_option].
  rewrite (any_res_spec _ (fun c => RbuCsv.is_number (default [] (row !! c)))).
  - rewrite (existsb_fmap RbuCsv.is_number), <- Hlen. by rewrite cells_of_row.
  - intros c Hc%range_lt.
    rewrite (xlsx_cell_default g r c row Hrow) by lia. reflexivity.
Qed.

Lemma xlsx_skip_rows_csv g n r :
  rectangular g -> (r + n <= length g)%nat ->
  Rbu.skip_rows n g (range 0 (RbuSpace.width g)) r = RbuCsv.skip_rows n g r.
Proof.
  intros Hrect. revert r. induction n as [|n IH]; intros r Hr;
    [reflexivity|].
  cbn [Rbu.skip_rows RbuCsv.skip_rows].
  destruct (lookup_lt_is_Some_2 g r) as [row Hrow]; [lia|].
  rewrite (xlsx_row_blank_read g r row Hrect Hrow).
  rewrite (getitem_Some _ _ _ Hrow). cbn [mbind res_bind].
  destruct (RbuCsv.row_blank row); [reflexivity|]. apply IH. lia.
Qed.

Lemma xlsx_find_tables_loop_csv g fuel r tables :
  rectangular g ->
  Rbu.find_tables_loop fuel g (range 0 (RbuSpace.width g)) r tables
  = RbuCsv.find_tables_loop fuel g r tables.
Proof.
  intros Hrect. revert r tables.
  induction fuel as [|fuel IH]; intros r tables;
    cbn [Rbu.find_tables_loop RbuCsv.find_tables_loop];
    destruct (r <? length g)%nat eqn:E; try reflexivity.
  apply Nat.ltb_lt in E.
  destruct (lookup_lt_is_Some_2 g r E) as [row Hrow].
  rewrite (xlsx_row_blank_read g r row Hrect Hrow).
  rewrite (getitem_Some _ _ _ Hrow). cbn [mbind res_bind].
  destruct (RbuCsv.row_blank row); [apply IH|].
  rewrite xlsx_skip_rows_csv by (done || lia).
  destruct (RbuCsv.skip_rows _ g r); cbn [mbind res_bind];
    [apply IH | reflexivity | reflexivity].
Qed.

(** On a rectangular grid the two [find_tables] find the same tables. *)
Lemma xlsx_find_tables_csv g start :
  rectangular g -> g <> [] ->
  Rbu.find_tables g start = RbuCsv.find_tables g start.
Proof.
  intros Hrect Hne. destruct g as [|row0 g'] eqn:Eg; [done|].
  rewrite <- Eg in *. unfold Rbu.find_tables, RbuCsv.find_tables.
  assert (H0 : g !! 0%nat = Some row0) by by rewrite Eg.
  rewrite (getitem_Some _ _ _ H0). cbn [mbind res_bind].
  replace (length row0) with (RbuSpace.width g) by by rewrite Eg.
  by apply xlsx_find_tables_loop_csv.
Qed.

Lemma xlsx_scan_headers_spec g rows headers :
  rectangular g ->
  Forall (fun r => (r < length g)%nat) rows ->
  Rbu.scan_headers g (range 0 (RbuSpace.width g)) rows headers
  = Ok (headers ++ rows_before (holds_number g) rows,
        first_row (holds_number g) rows).
Proof.
  intros Hrect Hrows. revert headers.
  induction Hrows as [|r rows Hr _ IH]; intros headers;
    cbn [Rbu.scan_headers rows_before first_row].
  - by rewrite app_nil_r.
  - destruct (lookup_lt_is_Some_2 g r Hr) as [row Hrow].
    rewrite (xlsx_holds_number_read g r row Hrect Hrow).
    cbn [mbind res_bind].
    destruct (holds_number g r).
    + by rewrite app_nil_r.
    + rewrite IH. by rewrite <- app_assoc.
Qed.

Lemma xlsx_channel_cell_read row n0 rest :
  Rbu.num_cols row = n0 :: rest ->
  exists ch, getitem_Z row (Z.of_nat n0 - 1) = Ok ch
             /\ channel_cell row = Some ch.
Proof. exact (channel_cell_read row n0 rest). Qed.

Lemma xlsx_fill_length last row :
  length (Rbu.forward_fill_from last row) = length row.
Proof.
  revert last. induction row as [|x row IH]; intros last; [reflexivity|].
  simpl. by rewrite IH.
Qed.

Lemma xlsx_row_returns g src (sm : gmap nat str) grp sub per records r row :
  g !! r = Some row ->
  (forall c, c ∈ RbuCsv.num_cols row ->
             is_Some (sm !! c) /\ (c < length grp)%nat
             /\ (c < length sub)%nat /\ (c < length per)%nat) ->
  exists new,
    Rbu.extract_row g src sm grp sub per records r = Ok (records ++ new)
    /\ map Rbu.channel new = row_channels row.
Proof.
  intros Hrow Hcols. unfold Rbu.extract_row, row_channels.
  rewrite (getitem_Some _ _ _ Hrow). cbn [mbind res_bind].
  change (RbuCsv.num_cols row) with (Rbu.num_cols row).
  destruct (Rbu.num_cols row) as [|n0 rest] eqn:Hn.
  { unfold channel_cell.
    change (RbuCsv.num_cols row) with (Rbu.num_cols row). rewrite Hn.
    exists []. by rewrite app_nil_r. }
  destruct (xlsx_channel_cell_read row n0 rest Hn) as (ch & -> & ->).
  cbn [mbind res_bind]. rewrite <- flat_map_singleton.
  apply for_res_concat. intros acc c Hc.
  assert (Hlt : (c < length row)%nat).
  { apply (omap_imap_index Rbu.is_number). fold (Rbu.num_cols row).
    by rewrite Hn. }
  destruct (Hcols c) as ([s Es] & Hg & Hs & Hp).
  { change (RbuCsv.num_cols row) with (Rbu.num_cols row). by rewrite Hn. }
  destruct (lookup_lt_is_Some_2 grp c Hg) as [gv Eg].
  destruct (lookup_lt_is_Some_2 sub c Hs) as [sv Esub].
  destruct (lookup_lt_is_Some_2 per c Hp) as [pv Ep].
  destruct (lookup_lt_is_Some_2 row c Hlt) as [v Ev].
  unfold lookup_key. rewrite Es. cbn [mbind res_bind].
  rewrite (getitem_Some _ _ _ Eg). cbn [mbind res_bind].
  rewrite (getitem_Some _ _ _ Esub). cbn [mbind res_bind].
  rewrite (getitem_Some _ _ _ Ep). cbn [mbind res_bind].
  rewrite (getitem_Some _ _ _ Ev). cbn [mbind res_bind].
  eexists [_]. split; reflexivity.
Qed.

Lemma xlsx_table_spec g src (sm : gmap nat str) records tb :
  rectangular g -> (tb.2 < length g)%nat ->
  (forall c, (c < RbuSpace.width g)%nat -> is_Some (sm !! c)) ->
  if table_ok g tb
  then exists new,
         Rbu.extract_table g src sm records tb = Ok (records ++ new)
         /\ map Rbu.channel new = table_channels g tb
  else Rbu.extract_table g src sm records tb = Raise TypeError.
Proof.
  intros Hrect Hb Hsm. unfold Rbu.extract_table, table_ok, table_channels.
  destruct g as [|row0 g'] eqn:Eg; [simpl in Hb; lia|]. rewrite <- Eg in *.
  assert (H0 : g !! 0%nat = Some row0) by by rewrite Eg.
  rewrite (getitem_Some _ _ _ H0). cbn [mbind res_bind].
  replace (length row0) with (RbuSpace.width g) by by rewrite Eg.
  assert (Hrows : Forall (fun r => (r < length g)%nat)
                         (range tb.1 (tb.2 + 1))).
  { apply Forall_forall. intros r Hr%range_lt. lia. }
  rewrite (xlsx_scan_headers_spec g _ [] Hrect Hrows).
  cbn [mbind res_bind app].
  fold (table_headers g tb). fold (table_data_start g tb).
  destruct (length (table_headers g tb) <? 3)%nat eqn:El; cbn [orb].
  { exists []. by rewrite app_nil_r. }
  apply Nat.ltb_ge in El.
  assert (Hrow : forall i, (i < 3)%nat ->
            exists h row, table_headers g tb !! i = Some h
                          /\ g !! h = Some row
                          /\ length row = RbuSpace.width g).
  { intros i Hi.
    destruct (lookup_lt_is_Some_2 (table_headers g tb) i) as [h Hh]; [lia|].
    assert (Hlt : (h < length g)%nat).
    { apply (proj1 (Forall_forall _ _) Hrows).
      eapply rows_before_elem. by eapply list_elem_of_lookup_2. }
    destruct (lookup_lt_is_Some_2 g h Hlt) as [row Hr].
    exists h, row. split; [exact Hh|]. split; [exact Hr|].
    by eapply rect_row. }
  destruct (Hrow 0%nat) as (h0 & r0 & Hh0 & Hr0 & Hl0); [lia|].
  destruct (Hrow 1%nat) as (h1 & r1 & Hh1 & Hr1 & Hl1); [lia|].
  destruct (Hrow 2%nat) as (h2 & r2 & Hh2 & Hr2 & Hl2); [lia|].
  rewrite (getitem_Some _ _ _ Hh0). cbn [mbind res_bind].
  rewrite (getitem_Some _ _ _ Hr0). cbn [mbind res_bind].
  rewrite (getitem_Some _ _ _ Hh1). cbn [mbind res_bind].
  rewrite (getitem_Some _ _ _ Hr1). cbn [mbind res_bind].
  rewrite (getitem_Some _ _ _ Hh2). cbn [mbind res_bind].
  rewrite (getitem_Some _ _ _ Hr2). cbn [mbind res_bind].
  destruct (table_data_start g tb) as [ds|] eqn:Eds; [|reflexivity].
  apply for_res_concat. intros acc r Hr%range_lt.
  destruct (lookup_lt_is_Some_2 g r) as [row Hrow']; [lia|].
  rewrite Hrow'. cbn [default from_option].
  pose proof (rect_row g r row Hrect Hrow') as Hlen.
  apply (xlsx_row_returns g src sm _ _ _ acc r row Hrow').
  intros c Hc%num_cols_lt. unfold Rbu.forward_fill_row.
  rewrite !xlsx_fill_length.
  split; [apply Hsm; lia | lia].
Qed.

Lemma xlsx_extract_records_spec g src section_row tables :
  rectangular g -> (section_row < length g)%nat ->
  Rbu.find_tables g (section_row + 1) = Ok tables ->
  if forallb (table_ok g) tables
  then exists recs,
         Rbu.extract_records g src section_row = Ok recs
         /\ map Rbu.channel recs = flat_map (table_channels g) tables
  else Rbu.extract_records g src section_row = Raise TypeError.
Proof.
  intros Hrect Hs Ht. unfold Rbu.extract_records.
  assert (Hne : g <> []) by (intros ->; simpl in Hs; lia).
  destruct (csv_sections_known g section_row Hrect Hs) as (sm & Hsm & Hdom).
  change (Rbu.detect_sections g section_row)
    with (RbuCsv.detect_sections g section_row).
  rewrite Hsm. cbn [mbind res_bind]. rewrite Ht. cbn [mbind res_bind].
  rewrite (xlsx_find_tables_csv g _ Hrect Hne) in Ht.
  pose proof (find_tables_within g _ tables Ht) as Hin.
  pose proof (for_res_tables (Rbu.extract_table g src sm) Rbu.channel
                (table_ok g) (table_channels g) TypeError tables []) as H.
  cbn [app] in H. apply H. intros acc tb Htb.
  apply xlsx_table_spec; [exact Hrect | | exact Hdom].
  by destruct (proj1 (Forall_forall _ _) Hin tb Htb).
Qed.

Lemma find_tables_returns g start :
  exists tables, RbuCsv.find_tables g start = Ok tables.
Proof.
  unfold RbuCsv.find_tables.
  destruct (find_tables_loop_spec (length g) g start []) as (new & Hrun & _);
    [lia|].
  by exists new.
Qed.

(** C10. [extract_records] of DataValidation_RBU/rbuSpace.py and of
    rateBuildUp/rbu.py take the channel of a data row from the cell
    [row[nums[0] - 1]].  On a rectangular grid the extractors never raise
    [IndexError]: they return the records of every table, whose channels
    are, row by row and number by number, the stripped text of that cell,
    or they raise [TypeError] at a table with three header rows and no
    row with a number.  On every grid the row's records are returned
    with that channel as long as the section map and the header fills
    cover the columns of the row's numbers.  The lookup is in range for
    every row that holds a number, and for a row whose first number is
    in column 0 it reads the last cell of the row. *)
Theorem extract_records_channels (g : list (list str)) (src : str) :
  (rectangular g -> g <> [] ->
   exists tables,
     RbuCsv.find_tables g 1 = Ok tables
     /\ RbuCsv.extract_records g src <> Raise IndexError
     /\ if forallb (table_ok g) tables
        then exists recs,
               RbuCsv.extract_records g src = Ok recs
               /\ map RbuCsv.channel recs
                  = flat_map (table_channels g) tables
        else RbuCsv.extract_records g src = Raise TypeError)
  /\ (forall section_row,
        rectangular g -> (section_row < length g)%nat ->
        exists tables,
          Rbu.find_tables g (section_row + 1) = Ok tables
          /\ Rbu.extract_records g src section_row <> Raise IndexError
          /\ if forallb (table_ok g) tables
             then exists recs,
                    Rbu.extract_records g src section_row = Ok recs
                    /\ map Rbu.channel recs
                       = flat_map (table_channels g) tables
             else Rbu.extract_records g src section_row = Raise TypeError)
  /\ (forall (sm : gmap nat str) grp sub per r row,
        g !! r = Some row ->
        (forall c, c ∈ RbuCsv.num_cols row ->
                   is_Some (sm !! c) /\ (c < length grp)%nat
                   /\ (c < length sub)%nat /\ (c < length per)%nat) ->
        (forall records, exists new,
           RbuCsv.extract_row g src sm grp sub per records r
           = Ok (records ++ new)
           /\ map RbuCsv.channel new = row_channels row)
        /\ (forall records, exists new,
              Rbu.extract_row g src sm grp sub per records r
              = Ok (records ++ new)
              /\ map Rbu.channel new = row_channels row))
  /\ (forall row n0 rest,
        RbuCsv.num_cols row = n0 :: rest ->
        exists ch,
          getitem_Z row (Z.of_nat n0 - 1) = Ok ch
          /\ row_channels row = map (fun _ => strip ch) (n0 :: rest)
          /\ (n0 = 0%nat -> last row = Some ch)).
Proof.
  split; [|split; [|split]].
  - intros Hrect Hne.
    destruct (find_tables_returns g 1) as [tables Ht].
    exists tables. split; [exact Ht|].
    pose proof (csv_extract_records_spec g src tables Hrect Hne Ht) as H.
    destruct (forallb (table_ok g) tables).
    + split; [|exact H]. destruct H as (recs & -> & _). discriminate.
    + split; [|exact H]. rewrite H. discriminate.
  - intros section_row Hrect Hs.
    assert (Hne : g <> []) by (intros ->; simpl in Hs; lia).
    destruct (find_tables_returns g (section_row + 1)) as [tables Ht].
    rewrite <- (xlsx_find_tables_csv g _ Hrect Hne) in Ht.
    exists tables. split; [exact Ht|].
    pose proof (xlsx_extract_records_spec g src section_row tables
                  Hrect Hs Ht) as H.
    destruct (forallb (table_ok g) tables).
    + split; [|exact H]. destruct H as (recs & -> & _). discriminate.
    + split; [|exact H]. rewrite H. discriminate.
  - intros sm grp sub per r row Hrow Hcols. split; intros records.
    + by apply csv_row_returns.
    + by apply xlsx_row_returns.
  - intros row n0 rest Hn.
    destruct (channel_cell_read row n0 rest Hn) as (ch & Hget & Hch).
    exists ch. split; [exact Hget|]. unfold row_channels.
    rewrite Hch, Hn. split; [reflexivity|].
    intros ->. unfold channel_cell in Hch. by rewrite Hn in Hch.
Qed.

End Xlsx.

Lemma extract_records_channels_witness :
  (exists recs,
     RbuCsv.extract_records (B := Ascii7.ascii) ChannelTerms.grid_leading_number
       (lit "a.csv") = Ok recs
     /\ map RbuCsv.channel recs = [lit "Retail"; lit "Retail"])
  /\ (exists recs,
        Rbu.extract_records (B := Ascii7.ascii) ChannelTerms.grid_leading_number
          (lit "a.xlsx") 0 = Ok recs
        /\ map Rbu.channel recs = [lit "Retail"; lit "Retail"]).
Proof.
  split.
  - destruct (extract_records_channels (B := Ascii7.ascii)
                ChannelTerms.grid_leading_number (lit "a.csv"))
      as (Hcsv & _).
    destruct Hcsv as (tables & Ht & _ & H).
    + repeat constructor.
    + discriminate.
    + vm_compute in Ht. injection Ht as <-.
      change (forallb (table_ok (B := Ascii7.ascii)
                         ChannelTerms.grid_leading_number) [(1, 4)%nat])
        with true in H.
      destruct H as (recs & Hrun & Hch). exists recs.
      split; [exact Hrun|]. rewrite Hch. vm_compute. reflexivity.
  - destruct (extract_records_channels (B := Ascii7.ascii)
                ChannelTerms.grid_leading_number (lit "a.xlsx"))
      as (_ & Hxlsx & _).
    destruct (Hxlsx 0%nat) as (tables & Ht & _ & H).
    + repeat constructor.
    + simpl. lia.
    + vm_compute in Ht. injection Ht as <-.
      change (forallb (table_ok (B := Ascii7.ascii)
                         ChannelTerms.grid_leading_number) [(1, 4)%nat])
        with true in H.
      destruct H as (recs & Hrun & Hch). exists recs.
      split; [exact Hrun|]. rewrite Hch. vm_compute. reflexivity.
Defined.

Lemma table_without_numbers_raises_witness :
  RbuCsv.extract_records (B := Ascii7.ascii) TableTerms.grid_no_number
    (lit "a.csv") = Raise TypeError.
Proof.
  destruct (table_without_numbers_raises (B := Ascii7.ascii)
              TableTerms.grid_no_number (lit "a.csv") (1, 4)%nat)
    as [_ Hrun].
  - simpl. lia.
  - simpl. lia.
  - intros r row Hr Hrow. simpl in Hr.
    do 5 (destruct r as [|r];
          [try lia; injection Hrow as <-; vm_compute; reflexivity|]).
    lia.
  - apply (Hrun ltac:(repeat constructor) [(1, 4)%nat]).
    + vm_compute. reflexivity.
    + apply list_elem_of_here.
Defined.

End ExtractorFacts.

(** ** Comparison by row key *)

Module RatesFacts.
Import Py Rates RatesTerms SheetFacts.

Lemma str_leb_total a b : str_leb a b = true \/ str_leb b a = true.
Proof.
  unfold str_leb. revert b. induction a as [|x a IH]; intros b.
  - by left.
  - destruct b as [|y b]; [by right|]. simpl.
    destruct (N.leb_spec x y), (N.leb_spec y x); try lia; auto.
Qed.

#[local] Instance str_le_total : Total str_le.
Proof. intros a b. apply str_leb_total. Qed.

Lemma str_le_empty a : str_le a [] -> a = [].
Proof. unfold str_le, str_leb. by destruct a. Qed.

Lemma sorted_empty_first (l : list str) :
  Sorted str_le l -> [] ∈ l -> head l = Some [].
Proof.
  induction 1 as [|a l Hs IH Hhd]; intros Hin.
  - by apply elem_of_nil in Hin.
  - simpl. apply elem_of_cons in Hin as [<-|Hin]; [done|].
    specialize (IH Hin). destruct l as [|b l]; [discriminate|].
    injection IH as ->. inversion Hhd as [|? ? Hle]; subst.
    by rewrite (str_le_empty _ Hle).
Qed.

Lemma common_headers_elem h headers1 headers2 :
  h ∈ common_headers headers1 headers2 <-> h ∈ headers1 /\ h ∈ headers2.
Proof.
  unfold common_headers, sorted.
  rewrite (merge_sort_Permutation _ _), elem_of_elements,
    elem_of_intersection, !elem_of_list_to_set. reflexivity.
Qed.

Lemma common_headers_empty_first headers1 headers2 :
  [] ∈ headers1 -> [] ∈ headers2 ->
  exists rest, common_headers headers1 headers2 = [] :: rest.
Proof.
  intros H1 H2.
  assert (Hin : [] ∈ common_headers headers1 headers2)
    by (by apply common_headers_elem).
  assert (Hs : Sorted str_le (common_headers headers1 headers2))
    by apply Sorted_merge_sort, _.
  pose proof (sorted_empty_first _ Hs Hin) as Hh.
  destruct (common_headers headers1 headers2) as [|a rest]; [discriminate|].
  injection Hh as ->. by exists rest.
Qed.

Lemma build_index_fold_empty (l : list (nat * str)) (m : gmap str nat) :
  m !! [] = None ->
  fold_left (fun m ih => if decide (ih.2 = []) then m else <[ih.2 := ih.1]> m)
            l m !! [] = None.
Proof.
  revert m. induction l as [|[i x] l IH]; intros m Hm; [done|].
  cbn [fold_left fst snd]. apply IH.
  destruct (decide (x = [])); [done|]. by rewrite lookup_insert_ne.
Qed.

Lemma build_index_fold_Some (l : list (nat * str)) (m : gmap str nat) h :
  h <> [] -> is_Some (m !! h) \/ h ∈ l.*2 ->
  is_Some
    (fold_left (fun m ih => if decide (ih.2 = []) then m
                            else <[ih.2 := ih.1]> m) l m !! h).
Proof.
  intros Hne. revert m. induction l as [|[i x] l IH]; intros m Hm.
  - destruct Hm as [Hm|Hm]; [done | by apply elem_of_nil in Hm].
  - cbn [fold_left fst snd]. apply IH.
    destruct (decide (x = h)) as [->|Hx].
    + left. rewrite decide_False by done. rewrite lookup_insert_eq. by eexists.
    + destruct Hm as [Hm|Hm].
      * left. destruct (decide (x = [])); [done|].
        by rewrite lookup_insert_ne.
      * right. rewrite fmap_cons in Hm.
        apply elem_of_cons in Hm as [Hm|Hm]; [by subst | done].
Qed.

Lemma build_index_empty headers : build_index headers !! [] = None.
Proof. apply build_index_fold_empty, lookup_empty. Qed.

Lemma build_index_is_Some headers h :
  h ∈ headers -> h <> [] -> is_Some (build_index headers !! h).
Proof.
  intros Hin Hne. apply build_index_fold_Some; [done|]. right.
  apply list_elem_of_lookup in Hin as [i Hi].
  apply list_elem_of_fmap. exists (i, h). split; [done|].
  apply elem_of_lookup_imap. by exists i, h.
Qed.

Lemma rates_compare_header_step (idx1 idx2 : gmap str nat) key r1 r2 st h
    i1 i2 :
  idx1 !! h = Some i1 -> idx2 !! h = Some i2 ->
  exists st',
    compare_header idx1 idx2 key r1 r2 st h = Ok st'
    /\ (length st'.1 + st'.2 = S (length st.1 + st.2))%nat.
Proof.
  intros H1 H2. unfold compare_header, lookup_key. rewrite H1, H2.
  cbn [mbind res_bind]. destruct (decide _); eexists; (split; [reflexivity|]).
  - simpl. rewrite length_app. simpl. lia.
  - simpl. lia.
Qed.

Lemma compare_header_empty headers1 idx2 key r1 r2 st :
  compare_header (build_index headers1) idx2 key r1 r2 st [] = Raise KeyError.
Proof. unfold compare_header, lookup_key. by rewrite build_index_empty. Qed.

Lemma compare_headers_counts (idx1 idx2 : gmap str nat) key r1 r2 l st :
  Forall (fun h => is_Some (idx1 !! h) /\ is_Some (idx2 !! h)) l ->
  exists st',
    for_res (compare_header idx1 idx2 key r1 r2) l st = Ok st'
    /\ (length st'.1 + st'.2 = length st.1 + st.2 + length l)%nat.
Proof.
  intros Hl. revert st. induction Hl as [|h l [[i1 H1] [i2 H2]] _ IH];
    intros st; cbn [for_res].
  - exists st. split; [done | simpl; lia].
  - destruct (rates_compare_header_step idx1 idx2 key r1 r2 st h i1 i2 H1 H2)
      as (st1 & -> & Hst1). cbn [mbind res_bind].
    destruct (IH st1) as (st' & -> & Hc). exists st'. split; [done|].
    simpl. lia.
Qed.

Lemma rates_key_step (idx1 idx2 : gmap str nat)
    (map1 map2 : gmap str (list str)) (common : list str)
    (st : list mismatch * nat) (k : str) (r1 r2 : list str) :
  map1 !! k = Some r1 -> map2 !! k = Some r2 ->
  (a ← lookup_key map1 k;
   b ← lookup_key map2 k;
   for_res (compare_header idx1 idx2 k a b) common st)
  = for_res (compare_header idx1 idx2 k r1 r2) common st.
Proof. intros H1 H2. unfold lookup_key. by rewrite H1, H2. Qed.

Lemma compare_keys_counts (idx1 idx2 : gmap str nat)
    (map1 map2 : gmap str (list str)) (common order : list str)
    (st : list mismatch * nat) :
  Forall (fun h => is_Some (idx1 !! h) /\ is_Some (idx2 !! h)) common ->
  Forall (fun k => is_Some (map1 !! k) /\ is_Some (map2 !! k)) order ->
  exists st',
    for_res (fun st key =>
               r1 ← lookup_key map1 key;
               r2 ← lookup_key map2 key;
               for_res (compare_header idx1 idx2 key r1 r2) common st)
            order st = Ok st'
    /\ (length st'.1 + st'.2
        = length st.1 + st.2 + length order * length common)%nat.
Proof.
  intros Hc Ho. revert st. induction Ho as [|k order [[r1 H1] [r2 H2]] _ IH];
    intros st; cbn [for_res].
  - exists st. split; [done | simpl; lia].
  - rewrite (rates_key_step idx1 idx2 map1 map2 common st k r1 r2 H1 H2).
    destruct (compare_headers_counts idx1 idx2 k r1 r2 common st Hc)
      as (st1 & -> & Hst1). cbn [mbind res_bind].
    destruct (IH st1) as (st' & -> & Hst'). exists st'. split; [done|].
    simpl. lia.
Qed.

Lemma order_keys_known (map1 map2 : gmap str (list str)) order :
  order ≡ₚ elements (common_keys map1 map2) ->
  Forall (fun k => is_Some (map1 !! k) /\ is_Some (map2 !! k)) order.
Proof.
  intros Hp. apply Forall_forall. intros k Hk. rewrite Hp in Hk.
  apply elem_of_elements in Hk. unfold common_keys in Hk.
  apply elem_of_intersection in Hk as [Hk1 Hk2].
  by apply elem_of_dom in Hk1, Hk2.
Qed.

(** X30. [compare_by_row_key] of rates.py, in whatever order the set of
    common keys is walked.  When an empty header is among the headers of
    both files and the files share a row key, it raises [KeyError]: the
    empty header is the first of the common headers and [build_index]
    has no entry for it.  Otherwise it returns, and every cell of a
    common key under a common header is counted once, as a mismatch or
    as a match. *)
Theorem empty_shared_header_raises
    (order headers1 headers2 : list str) (map1 map2 : gmap str (list str)) :
  order ≡ₚ elements (common_keys map1 map2) ->
  ([] ∈ headers1 -> [] ∈ headers2 -> order <> [] ->
   compare_by_row_key order headers1 headers2 map1 map2 = Raise KeyError)
  /\ (order = [] \/ ¬ ([] ∈ headers1 /\ [] ∈ headers2) ->
      exists mismatches match_count,
        compare_by_row_key order headers1 headers2 map1 map2
        = Ok (common_headers headers1 headers2, mismatches,
              extra_file1 map1 map2, extra_file2 map1 map2, match_count)
        /\ (length mismatches + match_count
            = length order * length (common_headers headers1 headers2))%nat).
Proof.
  intros Hp. pose proof (order_keys_known _ _ _ Hp) as Hkeys. split.
  - intros H1 H2 Hne. unfold compare_by_row_key. cbv zeta.
    destruct order as [|k order]; [done|].
    apply Forall_cons in Hkeys as [[[r1 Hr1] [r2 Hr2]] _].
    cbn [for_res]. rewrite (rates_key_step _ _ _ _ _ _ _ _ _ Hr1 Hr2).
    destruct (common_headers_empty_first _ _ H1 H2) as (rest & ->).
    cbn [for_res].
    by rewrite compare_header_empty.
  - intros Hor. unfold compare_by_row_key. cbv zeta.
    destruct Hor as [-> | Hno].
    + cbn [for_res mbind res_bind fst snd]. by exists [], 0%nat.
    + destruct (compare_keys_counts (build_index headers1)
                  (build_index headers2) map1 map2
                  (common_headers headers1 headers2) order ([], 0%nat))
        as ([mm n] & -> & Hc); [|done|].
      * apply Forall_forall. intros h [Hh1 Hh2]%common_headers_elem.
        assert (h <> []) by (intros ->; by apply Hno).
        split; by apply build_index_is_Some.
      * cbn [mbind res_bind fst snd]. exists mm, n. split; [done|].
        simpl in Hc. lia.
Qed.

Lemma map_one_order r1 r2 :
  [lit "Aspirin||1"] ≡ₚ elements (common_keys (map_one r1) (map_one r2)).
Proof.
  unfold common_keys, map_one. rewrite !dom_singleton_L.
  rewrite (intersection_idemp_L _). by rewrite elements_singleton.
Qed.

Lemma empty_shared_header_raises_witness :
  compare_by_row_key [lit "Aspirin||1"] headers_gap headers_gap
    (map_one [lit "Aspirin"; []; lit "1"]) (map_one [lit "Aspirin"; []; lit "1"])
  = Raise KeyError.
Proof.
  refine (proj1 (empty_shared_header_raises [lit "Aspirin||1"] headers_gap
                   headers_gap (map_one _) (map_one _) (map_one_order _ _))
                _ _ _).
  - unfold headers_gap. apply list_elem_of_further, list_elem_of_here.
  - unfold headers_gap. apply list_elem_of_further, list_elem_of_here.
  - discriminate.
Defined.

End RatesFacts.
